(** * A shallow embedding of the command-line shell (shell.c)

    The development follows the source file: C strings and the session
    record first, then the output renderer, the schema-dump engine, the
    execution pipeline, the text scanners and the input loop, and the
    meta-command dispatcher with its tokenizer.  The properties come
    after all the definitions.

    Conventions.
    - A [char] is a [Z] in 0..255 and a buffer is a [list Z]; a C string
      is read from a buffer up to (not including) its first 0 byte.
      Where the code writes into a buffer in place (the tokenizer,
      [resolve_backslashes], the scan of [.import]) the buffer carries
      its terminator and positions in it are [nat].
    - [int] counters and lengths are [Z].
    - A [FILE*] opened for writing is the text written to it so far.
    - The database engine is outside the repository: it appears as
      scripted answers that the embedded functions consume, and as the
      list of the calls they make.
    - Where an embedded function tests the result of an allocation, the
      result is a boolean of its environment.
    - A loop that is not structural on its input carries fuel; the
      fuel lemmas among the properties show that the fuel given never
      ends a loop. *)

From Stdlib Require Import ZArith List String Ascii Bool Lia DecimalString.
From stdpp Require Import base list.

Local Open Scope Z_scope.

(* ================================================================== *)
(** ** Bytes and C strings *)

Abbreviation bytes := (list Z).

Definition byte_of_ascii (a : ascii) : Z := Z.of_N (N_of_ascii a).

Fixpoint s2b (s : string) : bytes :=
  match s with
  | EmptyString => []
  | String a s' => byte_of_ascii a :: s2b s'
  end.

(** The C string stored at the start of a buffer. *)
Fixpoint cstr (z : bytes) : bytes :=
  match z with
  | [] => []
  | c :: z' => if c =? 0 then [] else c :: cstr z'
  end.

(** [strlen30]: the length kept to the low 30 bits. *)
Definition strlen30 (z : bytes) : Z :=
  Z.land 1073741823 (Z.of_nat (length (cstr z))).

(** [isspace] in the C locale, on an unsigned char. *)
Definition IsSpace (c : Z) : bool :=
  (c =? 32) || ((9 <=? c) && (c <=? 13)).

Definition IsDigit (c : Z) : bool := (48 <=? c) && (c <=? 57).

(** [z[0]] of a C string: the terminator when the string is empty. *)
Definition char0 (z : bytes) : Z := hd 0 z.

(** [memcmp(a, b, n)==0], where [a] is a C string followed by its
    terminator and [b] holds at least [n] bytes. *)
Definition memcmp_eq (a b : bytes) (n : nat) : bool :=
  bool_decide (take n (cstr a ++ [0]) = take n b).

(** [strncmp(a, b, n)==0] on C strings. *)
Definition strncmp_eq (a b : bytes) (n : nat) : bool :=
  bool_decide (take n (cstr a) = take n (cstr b)).

Definition strcmp_eq (a b : bytes) : bool :=
  bool_decide (cstr a = cstr b).

(* ================================================================== *)
(** ** The session record *)

Definition MODE_Line    : Z := 0.
Definition MODE_Column  : Z := 1.
Definition MODE_List    : Z := 2.
Definition MODE_Semi    : Z := 3.
Definition MODE_Html    : Z := 4.
Definition MODE_Insert  : Z := 5.
Definition MODE_Tcl     : Z := 6.
Definition MODE_Csv     : Z := 7.
Definition MODE_Explain : Z := 8.

Record previous_mode_data := {
  valid : Z;
  pm_mode : Z;
  pm_showHeader : Z;
  pm_colWidth : list Z
}.

(** A stream: its identity and what has been written to it. *)
Record FILE := { f_id : Z; f_text : bytes }.

Record callback_data := {
  db : option Z;             (* the database handle *)
  echoOn : Z;
  statsOn : Z;
  cnt : Z;                   (* records displayed so far *)
  out : FILE;                (* results are written here *)
  traceOut : option FILE;
  nErr : Z;
  mode : Z;
  writableSchema : Z;
  showHeader : Z;
  zDestTable : option bytes;
  separator : bytes;         (* char[20] *)
  colWidth : list Z;         (* int[100] *)
  actualWidth : list Z;      (* int[100] *)
  nullvalue : bytes;         (* char[20] *)
  explainPrev : previous_mode_data;
  outfile : bytes;
  zDbFilename : bytes;
  zVfs : option bytes;
  pStmt : option Z;          (* the statement being run, if any *)
  pLog : option FILE
}.

(** [ArraySize(p->colWidth)] and [ArraySize(p->actualWidth)]. *)
Definition ArraySize_colWidth : Z := 100.

Definition set_cnt (p : callback_data) (v : Z) : callback_data :=
  {| db := db p; echoOn := echoOn p; statsOn := statsOn p; cnt := v;
     out := out p; traceOut := traceOut p; nErr := nErr p; mode := mode p;
     writableSchema := writableSchema p; showHeader := showHeader p;
     zDestTable := zDestTable p; separator := separator p;
     colWidth := colWidth p; actualWidth := actualWidth p;
     nullvalue := nullvalue p; explainPrev := explainPrev p;
     outfile := outfile p; zDbFilename := zDbFilename p; zVfs := zVfs p;
     pStmt := pStmt p; pLog := pLog p |}.

Definition set_out (p : callback_data) (v : FILE) : callback_data :=
  {| db := db p; echoOn := echoOn p; statsOn := statsOn p; cnt := cnt p;
     out := v; traceOut := traceOut p; nErr := nErr p; mode := mode p;
     writableSchema := writableSchema p; showHeader := showHeader p;
     zDestTable := zDestTable p; separator := separator p;
     colWidth := colWidth p; actualWidth := actualWidth p;
     nullvalue := nullvalue p; explainPrev := explainPrev p;
     outfile := outfile p; zDbFilename := zDbFilename p; zVfs := zVfs p;
     pStmt := pStmt p; pLog := pLog p |}.

Definition set_nErr (p : callback_data) (v : Z) : callback_data :=
  {| db := db p; echoOn := echoOn p; statsOn := statsOn p; cnt := cnt p;
     out := out p; traceOut := traceOut p; nErr := v; mode := mode p;
     writableSchema := writableSchema p; showHeader := showHeader p;
     zDestTable := zDestTable p; separator := separator p;
     colWidth := colWidth p; actualWidth := actualWidth p;
     nullvalue := nullvalue p; explainPrev := explainPrev p;
     outfile := outfile p; zDbFilename := zDbFilename p; zVfs := zVfs p;
     pStmt := pStmt p; pLog := pLog p |}.

Definition set_mode (p : callback_data) (v : Z) : callback_data :=
  {| db := db p; echoOn := echoOn p; statsOn := statsOn p; cnt := cnt p;
     out := out p; traceOut := traceOut p; nErr := nErr p; mode := v;
     writableSchema := writableSchema p; showHeader := showHeader p;
     zDestTable := zDestTable p; separator := separator p;
     colWidth := colWidth p; actualWidth := actualWidth p;
     nullvalue := nullvalue p; explainPrev := explainPrev p;
     outfile := outfile p; zDbFilename := zDbFilename p; zVfs := zVfs p;
     pStmt := pStmt p; pLog := pLog p |}.

Definition set_writableSchema (p : callback_data) (v : Z) : callback_data :=
  {| db := db p; echoOn := echoOn p; statsOn := statsOn p; cnt := cnt p;
     out := out p; traceOut := traceOut p; nErr := nErr p; mode := mode p;
     writableSchema := v; showHeader := showHeader p;
     zDestTable := zDestTable p; separator := separator p;
     colWidth := colWidth p; actualWidth := actualWidth p;
     nullvalue := nullvalue p; explainPrev := explainPrev p;
     outfile := outfile p; zDbFilename := zDbFilename p; zVfs := zVfs p;
     pStmt := pStmt p; pLog := pLog p |}.

Definition set_zDestTable (p : callback_data) (v : option bytes)
  : callback_data :=
  {| db := db p; echoOn := echoOn p; statsOn := statsOn p; cnt := cnt p;
     out := out p; traceOut := traceOut p; nErr := nErr p; mode := mode p;
     writableSchema := writableSchema p; showHeader := showHeader p;
     zDestTable := v; separator := separator p;
     colWidth := colWidth p; actualWidth := actualWidth p;
     nullvalue := nullvalue p; explainPrev := explainPrev p;
     outfile := outfile p; zDbFilename := zDbFilename p; zVfs := zVfs p;
     pStmt := pStmt p; pLog := pLog p |}.

Definition set_separator (p : callback_data) (v : bytes) : callback_data :=
  {| db := db p; echoOn := echoOn p; statsOn := statsOn p; cnt := cnt p;
     out := out p; traceOut := traceOut p; nErr := nErr p; mode := mode p;
     writableSchema := writableSchema p; showHeader := showHeader p;
     zDestTable := zDestTable p; separator := v;
     colWidth := colWidth p; actualWidth := actualWidth p;
     nullvalue := nullvalue p; explainPrev := explainPrev p;
     outfile := outfile p; zDbFilename := zDbFilename p; zVfs := zVfs p;
     pStmt := pStmt p; pLog := pLog p |}.

Definition set_actualWidth (p : callback_data) (v : list Z) : callback_data :=
  {| db := db p; echoOn := echoOn p; statsOn := statsOn p; cnt := cnt p;
     out := out p; traceOut := traceOut p; nErr := nErr p; mode := mode p;
     writableSchema := writableSchema p; showHeader := showHeader p;
     zDestTable := zDestTable p; separator := separator p;
     colWidth := colWidth p; actualWidth := v;
     nullvalue := nullvalue p; explainPrev := explainPrev p;
     outfile := outfile p; zDbFilename := zDbFilename p; zVfs := zVfs p;
     pStmt := pStmt p; pLog := pLog p |}.

Definition set_pStmt (p : callback_data) (v : option Z) : callback_data :=
  {| db := db p; echoOn := echoOn p; statsOn := statsOn p; cnt := cnt p;
     out := out p; traceOut := traceOut p; nErr := nErr p; mode := mode p;
     writableSchema := writableSchema p; showHeader := showHeader p;
     zDestTable := zDestTable p; separator := separator p;
     colWidth := colWidth p; actualWidth := actualWidth p;
     nullvalue := nullvalue p; explainPrev := explainPrev p;
     outfile := outfile p; zDbFilename := zDbFilename p; zVfs := zVfs p;
     pStmt := v; pLog := pLog p |}.

(** [fprintf(p->out, ...)]: append to the text of the output stream. *)
Definition fputs (f : FILE) (s : bytes) : FILE :=
  {| f_id := f_id f; f_text := f_text f ++ s |}.

Definition emit (p : callback_data) (s : bytes) : callback_data :=
  set_out p (fputs (out p) s).

(* ================================================================== *)
(** ** Output renderer: CSV *)

(** The table [needCsvQuote]: a 1 marks a byte that forces quoting. *)
Definition needCsvQuote : list Z :=
  [ 1; 1; 1; 1; 1; 1; 1; 1;   1; 1; 1; 1; 1; 1; 1; 1;
    1; 1; 1; 1; 1; 1; 1; 1;   1; 1; 1; 1; 1; 1; 1; 1;
    1; 0; 1; 0; 0; 0; 0; 1;   0; 0; 0; 0; 0; 0; 0; 0;
    0; 0; 0; 0; 0; 0; 0; 0;   0; 0; 0; 0; 0; 0; 0; 0;
    0; 0; 0; 0; 0; 0; 0; 0;   0; 0; 0; 0; 0; 0; 0; 0;
    0; 0; 0; 0; 0; 0; 0; 0;   0; 0; 0; 0; 0; 0; 0; 0;
    0; 0; 0; 0; 0; 0; 0; 0;   0; 0; 0; 0; 0; 0; 0; 0;
    0; 0; 0; 0; 0; 0; 0; 0;   0; 0; 0; 0; 0; 0; 0; 1;
    1; 1; 1; 1; 1; 1; 1; 1;   1; 1; 1; 1; 1; 1; 1; 1;
    1; 1; 1; 1; 1; 1; 1; 1;   1; 1; 1; 1; 1; 1; 1; 1;
    1; 1; 1; 1; 1; 1; 1; 1;   1; 1; 1; 1; 1; 1; 1; 1;
    1; 1; 1; 1; 1; 1; 1; 1;   1; 1; 1; 1; 1; 1; 1; 1;
    1; 1; 1; 1; 1; 1; 1; 1;   1; 1; 1; 1; 1; 1; 1; 1;
    1; 1; 1; 1; 1; 1; 1; 1;   1; 1; 1; 1; 1; 1; 1; 1;
    1; 1; 1; 1; 1; 1; 1; 1;   1; 1; 1; 1; 1; 1; 1; 1;
    1; 1; 1; 1; 1; 1; 1; 1;   1; 1; 1; 1; 1; 1; 1; 1 ].

(** [needCsvQuote[(unsigned char)c]]. *)
Definition needCsvQuote_at (c : Z) : bool :=
  negb (nth (Z.to_nat c) needCsvQuote 0 =? 0).

(** The test in the scanning loop of [output_csv] at the byte [c] of
    the field [z]. *)
Definition csv_trigger (sep z : bytes) (c : Z) : bool :=
  let nSep := strlen30 sep in
  needCsvQuote_at c
  || ((c =? char0 sep)
      && ((nSep =? 1) || memcmp_eq z sep (Z.to_nat nSep))).

(** The scanning loop [for(i=0; z[i]; i++)]: the value of [i] when the
    loop is left, which is 0 after the [break]. *)
Fixpoint csv_scan (sep z rest : bytes) (i : Z) : Z :=
  match rest with
  | [] => i
  | c :: rest' =>
      if c =? 0 then i
      else if csv_trigger sep z c then 0
      else csv_scan sep z rest' (i + 1)
  end.

(** The quoting loop: every byte is copied, a double quote twice. *)
Fixpoint csv_quoted_body (z : bytes) : bytes :=
  match z with
  | [] => []
  | c :: z' =>
      if c =? 0 then []
      else if c =? 34 then 34 :: 34 :: csv_quoted_body z'
      else c :: csv_quoted_body z'
  end.

(** The text [output_csv] writes for the term [z] ([None] is a NULL
    pointer), without the trailing separator. *)
Definition output_csv_term (p : callback_data) (z : option bytes) : bytes :=
  match z with
  | None => cstr (nullvalue p)
  | Some z =>
      if csv_scan (separator p) z z 0 =? 0
      then [34] ++ csv_quoted_body z ++ [34]
      else cstr z
  end.

Definition output_csv (p : callback_data) (z : option bytes) (bSep : bool)
  : callback_data :=
  let p1 := emit p (output_csv_term p z) in
  if bSep then emit p1 (cstr (separator p1)) else p1.

(** [main_init]: the session a process starts with. *)
Definition main_init : callback_data :=
  {| db := None; echoOn := 0; statsOn := 0; cnt := 0;
     out := {| f_id := 0; f_text := [] |}; traceOut := None; nErr := 0;
     mode := MODE_List; writableSchema := 0; showHeader := 0;
     zDestTable := None; separator := s2b "|";
     colWidth := replicate 100 0; actualWidth := replicate 100 0;
     nullvalue := []; 
     explainPrev := {| valid := 0; pm_mode := 0; pm_showHeader := 0;
                       pm_colWidth := replicate 100 0 |};
     outfile := []; zDbFilename := []; zVfs := None;
     pStmt := None; pLog := None |}.

(** The csv session the examples use: [.mode csv] on a fresh session. *)
Definition csv_session : callback_data :=
  set_separator (set_mode main_init MODE_Csv) (s2b ",").

(** *** The csv rule in the words of the specification

    "values quoted only if they contain the separator, a quote char, or
    a control/high-bit byte": the predicate the specification states,
    kept apart from [csv_scan], which is the code. *)
Definition is_control_or_highbit (c : Z) : bool :=
  (c <? 32) || (c =? 127) || (128 <=? c).

Fixpoint is_prefix_of (a z : bytes) : bool :=
  match a, z with
  | [], _ => true
  | _ :: _, [] => false
  | x :: a', y :: z' => (x =? y) && is_prefix_of a' z'
  end.

Fixpoint contains_bytes (a z : bytes) : bool :=
  is_prefix_of a z
  || match z with
     | [] => false
     | _ :: z' => contains_bytes a z'
     end.

Definition spec_csv_must_quote (sep z : bytes) : bool :=
  contains_bytes sep z
  || existsb (fun c => c =? 34) z
  || existsb is_control_or_highbit z.

(** The bytes the table [needCsvQuote] marks, written as ranges. *)
Definition csv_marked (c : Z) : bool :=
  (c <=? 32) || (c =? 34) || (c =? 39) || (127 <=? c).

(** Claim C2 in the words of the specification, for the session [p]
    and the value [z]: quoted exactly when [spec_csv_must_quote]. *)
Definition spec_csv_rule (p : callback_data) (z : bytes) : Prop :=
  output_csv_term p (Some z) =
    if spec_csv_must_quote (cstr (separator p)) z
    then [34] ++ csv_quoted_body z ++ [34]
    else z.

(* ================================================================== *)
(** ** Output renderer: the row callback *)

(** [for(i=0; i<n; i++) body], threading the state. *)
Definition for_loop {S : Type} (n : nat) (body : nat -> S -> S) (s : S) : S :=
  fold_left (fun s i => body i s) (seq 0 n) s.

(** [printf("%-*.*s", w, w, s)] for [w >= 0]: at most [w] bytes of [s],
    padded on the right to [w]. *)
Definition fmt_left (w : Z) (s : bytes) : bytes :=
  let t := take (Z.to_nat w) (cstr s) in
  t ++ replicate (Z.to_nat w - length t) 32.

(** [printf("%*.*s", w, w, s)] for [w >= 0]: padded on the left. *)
Definition fmt_right (w : Z) (s : bytes) : bytes :=
  let t := take (Z.to_nat w) (cstr s) in
  replicate (Z.to_nat w - length t) 32 ++ t.

(** The field of width [w], where a negative [w] flips the side. *)
Definition fmt_field (w : Z) (s : bytes) : bytes :=
  if w <? 0 then fmt_right (- w) s else fmt_left w s.

(** [i==nArg-1 ? "\n" : "  "]. *)
Definition col_end (nArg : Z) (i : nat) : bytes :=
  if Z.of_nat i =? nArg - 1 then [10] else [32; 32].

(** The rule of dashes under the header: 35 + 58 of them. *)
Definition dashes : bytes := replicate 93 45.

(** A result row: [azArg] is NULL (no row, header only) or holds one
    value per column, each NULL or a C string. *)
Abbreviation row := (list (option (list Z))).

(** [azArg[i] ? azArg[i] : p->nullvalue]. *)
Definition value_or_null (p : callback_data) (azArg : row) (i : nat) : bytes :=
  match azArg !! i with
  | Some (Some v) => v
  | _ => nullvalue p
  end.

(** The width computed for column [i] when the first row arrives
    (case [MODE_Column], the loop under [p->cnt++==0]). *)
Definition first_row_width (p : callback_data) (azArg : option row)
    (azCol : list bytes) (i : nat) : Z :=
  let w := if Z.of_nat i <? ArraySize_colWidth
           then nth i (colWidth p) 0 else 0 in
  if w =? 0 then
    let w := strlen30 (nth i azCol []) in
    let w := if w <? 10 then 10 else w in
    let n := strlen30 (match azArg with
                       | Some a => value_or_null p a i
                       | None => nullvalue p
                       end) in
    if w <? n then n else w
  else w.

Definition column_first_row_step (nArg : Z) (azArg : option row)
    (azCol : list bytes) (i : nat) (p : callback_data) : callback_data :=
  let w := first_row_width p azArg azCol i in
  let p := if Z.of_nat i <? ArraySize_colWidth
           then set_actualWidth p (<[i := w]> (actualWidth p)) else p in
  if showHeader p =? 0 then p
  else emit p (fmt_field w (nth i azCol []) ++ col_end nArg i).

Definition column_rule_step (nArg : Z) (i : nat) (p : callback_data)
  : callback_data :=
  let w := if Z.of_nat i <? ArraySize_colWidth
           then Z.abs (nth i (actualWidth p) 0) else 10 in
  emit p (fmt_left w dashes ++ col_end nArg i).

(** The width a data row is printed with at column [i]. *)
Definition row_width (p : callback_data) (azArg : row) (i : nat) : Z :=
  let w := if Z.of_nat i <? ArraySize_colWidth
           then nth i (actualWidth p) 0 else 10 in
  match azArg !! i with
  | Some (Some v) =>
      if (mode p =? MODE_Explain) && (w <? strlen30 v) then strlen30 v else w
  | _ => w
  end.

Definition column_row_step (nArg : Z) (azArg : row) (i : nat)
    (p : callback_data) : callback_data :=
  emit p (fmt_field (row_width p azArg i) (value_or_null p azArg i)
          ++ col_end nArg i).

(** Cases [MODE_Explain] and [MODE_Column] of [shell_callback]. *)
Definition shell_callback_column (p : callback_data) (nArg : Z)
    (azArg : option row) (azCol : list bytes) : callback_data :=
  let n := Z.to_nat nArg in
  let first := cnt p =? 0 in
  let p := set_cnt p (cnt p + 1) in
  let p :=
    if first then
      let p := for_loop n (column_first_row_step nArg azArg azCol) p in
      if showHeader p =? 0 then p else for_loop n (column_rule_step nArg) p
    else p in
  match azArg with
  | None => p
  | Some a => for_loop n (column_row_step nArg a) p
  end.

(** Cases [MODE_Semi] and [MODE_List]. *)
Definition shell_callback_list (p : callback_data) (nArg : Z)
    (azArg : option row) (azCol : list bytes) : callback_data :=
  let n := Z.to_nat nArg in
  let first := cnt p =? 0 in
  let p := set_cnt p (cnt p + 1) in
  let p :=
    if first && negb (showHeader p =? 0) then
      for_loop n (fun i p =>
        emit p (cstr (nth i azCol [])
                ++ (if Z.of_nat i =? nArg - 1 then [10]
                    else cstr (separator p)))) p
    else p in
  match azArg with
  | None => p
  | Some a =>
      for_loop n (fun i p =>
        let p := emit p (cstr (value_or_null p a i)) in
        if Z.of_nat i <? nArg - 1 then emit p (cstr (separator p))
        else if mode p =? MODE_Semi then emit p (s2b ";" ++ [10])
        else emit p [10]) p
  end.

(** Case [MODE_Csv]. *)
Definition shell_callback_csv (p : callback_data) (nArg : Z)
    (azArg : option row) (azCol : list bytes) : callback_data :=
  let n := Z.to_nat nArg in
  let first := cnt p =? 0 in
  let p := set_cnt p (cnt p + 1) in
  let p :=
    if first && negb (showHeader p =? 0) then
      emit (for_loop n (fun i p =>
              output_csv p (Some (nth i azCol [])) (Z.of_nat i <? nArg - 1)) p)
           [10]
    else p in
  match azArg with
  | None => p
  | Some a =>
      emit (for_loop n (fun i p =>
              output_csv p (default None (a !! i)) (Z.of_nat i <? nArg - 1)) p)
           [10]
  end.

(** [shell_callback], for the modes embedded here; the cases line,
    html, tcl and insert of the switch are not part of this
    development and give [None].  The callback always returns 0. *)
Definition shell_callback (p : callback_data) (nArg : Z)
    (azArg : option row) (azCol : list bytes) : option (Z * callback_data) :=
  if (mode p =? MODE_Explain) || (mode p =? MODE_Column) then
    Some (0, shell_callback_column p nArg azArg azCol)
  else if (mode p =? MODE_Semi) || (mode p =? MODE_List) then
    Some (0, shell_callback_list p nArg azArg azCol)
  else if mode p =? MODE_Csv then
    Some (0, shell_callback_csv p nArg azArg azCol)
  else None.

(** The column session of the examples, and a result set of 101
    columns whose last header is 20 bytes long. *)
Definition column_session : callback_data := set_mode main_init MODE_Column.

Definition wide_cols : list bytes :=
  replicate 100 (s2b "c") ++ [s2b "a_rather_long_header"].

Definition wide_row : row := replicate 101 (Some (s2b "4")).

(** Claim C5 in the words of the specification, at column [i] of a
    result set whose first row is [a]: the width of the column for the
    rows is max(10, header length, first value length). *)
Definition spec_auto_width (p : callback_data) (azCol : list bytes)
    (a : row) (i : nat) : Z :=
  Z.max 10 (Z.max (strlen30 (nth i azCol []))
                  (strlen30 (value_or_null p a i))).

(* ================================================================== *)
(** ** The engine's result codes *)

Definition SQLITE_OK      : Z := 0.
Definition SQLITE_ERROR   : Z := 1.
Definition SQLITE_ABORT   : Z := 4.
Definition SQLITE_NOMEM   : Z := 7.
Definition SQLITE_CORRUPT : Z := 11.
Definition SQLITE_ROW     : Z := 100.
Definition SQLITE_DONE    : Z := 101.
Definition SQLITE_NULL    : Z := 5.

(** [printf("%d", n)]. *)
Definition fmt_d (n : Z) : bytes := s2b (NilZero.string_of_int (Z.to_int n)).

(** [printf("%s", z)]; the C library prints a NULL string as "(null)". *)
Definition fmt_s (z : option bytes) : bytes :=
  match z with
  | Some z => cstr z
  | None => s2b "(null)"
  end.

(* ================================================================== *)
(** ** Schema dump engine *)

(** The calls the dump engine makes to the database engine, in the
    order they are made. *)
Inductive engine_call :=
| CallExec (sql : bytes)        (* sqlite3_exec(db, sql, dump_callback, ..) *)
| CallSelect (sql : bytes)      (* the prepare in run_table_dump_query *)
| CallTableInfo (sql : bytes).  (* the prepare of PRAGMA table_info *)

(** What the engine answers to a query prepared and stepped by
    [run_table_dump_query]. *)
Record select_script := {
  sel_prepare_rc : Z;
  sel_stmt : bool;              (* a statement was produced *)
  sel_nResult : Z;              (* sqlite3_column_count *)
  sel_rows : list row;          (* one per step that returns SQLITE_ROW *)
  sel_finalize_rc : Z;
  sel_errmsg : bytes            (* sqlite3_errmsg *)
}.

(** What the engine answers to [PRAGMA table_info]: the text of
    column 1 of each row. *)
Record table_info_script := {
  ti_prepare_rc : Z;
  ti_stmt : bool;
  ti_columns : list bytes;
  ti_finalize_rc : Z
}.

(** What the engine answers to [sqlite3_exec]: the rows handed to the
    callback, and the result when no callback stops the query. *)
Record exec_script := {
  ex_rows : list (list bytes);
  ex_rc : Z;
  ex_err : option bytes
}.

(** The engine: its answer to a call may depend on the calls before. *)
Record dump_engine := {
  on_select : list engine_call -> bytes -> select_script;
  on_table_info : list engine_call -> bytes -> table_info_script;
  on_exec : list engine_call -> bytes -> exec_script
}.

(** The state the dump functions thread: the session and the calls
    made so far. *)
Record dump_state := { ds_p : callback_data; ds_log : list engine_call }.

Definition ds_emit (st : dump_state) (s : bytes) : dump_state :=
  {| ds_p := emit (ds_p st) s; ds_log := ds_log st |}.

Definition ds_call (st : dump_state) (c : engine_call) : dump_state :=
  {| ds_p := ds_p st; ds_log := ds_log st ++ [c] |}.

Definition ds_err (st : dump_state) : dump_state :=
  {| ds_p := set_nErr (ds_p st) (nErr (ds_p st) + 1); ds_log := ds_log st |}.

(** The search [while( z[0] && (z[0]!='-' || z[1]!='-') ) z++], and
    whether it stops before the terminator. *)
Fixpoint finds_dashdash (z : bytes) : bool :=
  match z with
  | [] => false
  | c :: z' =>
      if c =? 0 then false
      else if (c =? 45) && (char0 z' =? 45) then true
      else finds_dashdash z'
  end.

(** The text [run_table_dump_query] writes for one row. *)
Definition dump_row_text (nResult : Z) (r : row) : bytes :=
  let z := default None (r !! 0%nat) in
  fmt_s z
  ++ for_loop (Z.to_nat nResult - 1)
       (fun k acc => acc ++ s2b "," ++ fmt_s (default None (r !! Datatypes.S k)))
       []
  ++ (if finds_dashdash (default [] z)
      then [10] ++ s2b ";" ++ [10]
      else s2b ";" ++ [10]).

Definition dump_error_text (rc : Z) (msg : bytes) : bytes :=
  s2b "/**** ERROR: (" ++ fmt_d rc ++ s2b ") " ++ cstr msg
  ++ s2b " *****/" ++ [10].

(** The loop over the rows: [zFirstRow] is printed before the first. *)
Fixpoint dump_rows (nResult : Z) (rows : list row) (zFirstRow : option bytes)
    (st : dump_state) : dump_state :=
  match rows with
  | [] => st
  | r :: rows' =>
      let st := match zFirstRow with
                | Some f => ds_emit st (cstr f)
                | None => st
                end in
      dump_rows nResult rows' None (ds_emit st (dump_row_text nResult r))
  end.

Definition run_table_dump_query (e : dump_engine) (st : dump_state)
    (zSelect : bytes) (zFirstRow : option bytes) : Z * dump_state :=
  let s := on_select e (ds_log st) zSelect in
  let st := ds_call st (CallSelect zSelect) in
  let rc := sel_prepare_rc s in
  if negb (rc =? SQLITE_OK) || negb (sel_stmt s) then
    (rc, ds_err (ds_emit st (dump_error_text rc (sel_errmsg s))))
  else
    let st := dump_rows (sel_nResult s) (sel_rows s) zFirstRow st in
    let rc := sel_finalize_rc s in
    if negb (rc =? SQLITE_OK) then
      (rc, ds_err (ds_emit st (dump_error_text rc (sel_errmsg s))))
    else (rc, st).

(** [appendText(zIn, zAppend, quote)], where the reallocation
    succeeds; [quote = 0] appends the text as it is. *)
Fixpoint double_quote_char (q : Z) (z : bytes) : bytes :=
  match z with
  | [] => []
  | c :: z' =>
      if c =? 0 then []
      else if c =? q then c :: q :: double_quote_char q z'
      else c :: double_quote_char q z'
  end.

Definition appendText (zIn zAppend : bytes) (quote : Z) : bytes :=
  if quote =? 0 then cstr zIn ++ cstr zAppend
  else cstr zIn ++ [quote] ++ double_quote_char quote zAppend ++ [quote].

(** The text appended to a query that is tried a second time. *)
Definition order_by_rowid_desc : bytes := s2b " ORDER BY rowid DESC".

(** The last step of [dump_callback] for a table: the row-dump query,
    and the second try when the first ends in [SQLITE_CORRUPT]. *)
Definition dump_table_rows (e : dump_engine) (st : dump_state)
    (zSelect : bytes) (zPrepStmt : option bytes) : dump_state :=
  let '(rc, st) := run_table_dump_query e st zSelect zPrepStmt in
  if rc =? SQLITE_CORRUPT then
    let zSelect := appendText zSelect order_by_rowid_desc 0 in
    snd (run_table_dump_query e st zSelect None)
  else st.

(** The [%q] of [sqlite3_mprintf]: every single quote is doubled. *)
Definition fmt_q (z : bytes) : bytes := double_quote_char 39 z.

(** The loop of [dump_callback] over the columns of the table. *)
Fixpoint quote_columns (cols : list bytes) (zSelect : bytes) : bytes :=
  match cols with
  | [] => zSelect
  | zText :: cols' =>
      let zSelect := appendText zSelect (s2b "quote(") 0 in
      let zSelect := appendText zSelect zText 34 in
      let zSelect := match cols' with
                     | _ :: _ => appendText zSelect (s2b "), ") 0
                     | [] => appendText zSelect (s2b ") ") 0
                     end in
      quote_columns cols' zSelect
  end.

(** The second half of [dump_callback], after the switch on the name:
    for an object of type "table", the row-dump query is built from
    the columns of the table and run. *)
Definition dump_callback_table (e : dump_engine) (zTable zType : bytes)
    (st : dump_state) (zPrepStmt : option bytes) : Z * dump_state :=
  if strcmp_eq zType (s2b "table") then
    let zTableInfo := appendText [] (s2b "PRAGMA table_info(") 0 in
    let zTableInfo := appendText zTableInfo zTable 34 in
    let zTableInfo := appendText zTableInfo (s2b ");") 0 in
    let t := on_table_info e (ds_log st) zTableInfo in
    let st := ds_call st (CallTableInfo zTableInfo) in
    if negb (ti_prepare_rc t =? SQLITE_OK) || negb (ti_stmt t) then (1, st)
    else
      let zSelect := appendText [] (s2b "SELECT 'INSERT INTO ' || ") 0 in
      let zTmp := appendText [] zTable 34 in
      let zSelect := match zTmp with
                     | [] => zSelect
                     | _ => appendText zSelect zTmp 39
                     end in
      let zSelect := appendText zSelect (s2b " || ' VALUES(' || ") 0 in
      let zSelect := quote_columns (ti_columns t) zSelect in
      if negb (ti_finalize_rc t =? SQLITE_OK)
         || (length (ti_columns t) =? 0)%nat then (1, st)
      else
        let zSelect := appendText zSelect (s2b "|| ')' FROM  ") 0 in
        let zSelect := appendText zSelect zTable 34 in
        (0, dump_table_rows e st zSelect zPrepStmt)
  else (0, st).

(** [dump_callback]: the result (0, or 1 to stop the query) and the
    state after it. *)
Definition dump_callback (e : dump_engine) (st : dump_state)
    (azArg : list bytes) : Z * dump_state :=
  if negb (length azArg =? 3)%nat then (1, st)
  else
    let zTable := nth 0 azArg [] in
    let zType := nth 1 azArg [] in
    let zSql := nth 2 azArg [] in
    if strcmp_eq zTable (s2b "sqlite_sequence") then
      dump_callback_table e zTable zType st
        (Some (s2b "DELETE FROM sqlite_sequence;" ++ [10]))
    else if strcmp_eq zTable (s2b "sqlite_stat1") then
      dump_callback_table e zTable zType
        (ds_emit st (s2b "ANALYZE sqlite_master;" ++ [10])) None
    else if strncmp_eq zTable (s2b "sqlite_") 7 then (0, st)
    else if strncmp_eq zSql (s2b "CREATE VIRTUAL TABLE") 20 then
      let st := if writableSchema (ds_p st) =? 0
                then {| ds_p := set_writableSchema
                                  (emit (ds_p st)
                                     (s2b "PRAGMA writable_schema=ON;" ++ [10]))
                                  1;
                        ds_log := ds_log st |}
                else st in
      (0, ds_emit st
            (s2b "INSERT INTO sqlite_master(type, name, tbl_name, rootpage, sql) VALUES('table', '"
             ++ fmt_q zTable ++ s2b "', '" ++ fmt_q zTable ++ s2b "', 0, '"
             ++ fmt_q zSql ++ s2b "');" ++ [10]))
    else dump_callback_table e zTable zType
           (ds_emit st (cstr zSql ++ s2b ";" ++ [10])) None.

(** [sqlite3_exec] with [dump_callback]: the callback is called on
    every row in turn; a call that does not return 0 stops the query,
    whose result is then [SQLITE_ABORT]. *)
Fixpoint exec_rows (e : dump_engine) (rows : list (list bytes))
    (final : Z * option bytes) (st : dump_state)
  : (Z * option bytes) * dump_state :=
  match rows with
  | [] => (final, st)
  | r :: rows' =>
      let '(stop, st) := dump_callback e st r in
      if stop =? 0 then exec_rows e rows' final st
      else ((SQLITE_ABORT, Some (s2b "callback requested query abort")), st)
  end.

Definition sqlite3_exec_dump (e : dump_engine) (st : dump_state)
    (zQuery : bytes) : (Z * option bytes) * dump_state :=
  let s := on_exec e (ds_log st) zQuery in
  exec_rows e (ex_rows s) (ex_rc s, ex_err s) (ds_call st (CallExec zQuery)).

(** [run_schema_dump_query].  [malloc_ok] tells whether the buffer of
    the second query can be allocated. *)
Definition run_schema_dump_query (e : dump_engine) (malloc_ok : bool)
    (st : dump_state) (zQuery : bytes) : Z * dump_state :=
  let '((rc, zErr), st) := sqlite3_exec_dump e st zQuery in
  if rc =? SQLITE_CORRUPT then
    let st := ds_emit st (s2b "/****** CORRUPTION ERROR *******/" ++ [10]) in
    let st := match zErr with
              | Some m => ds_emit st (s2b "/****** " ++ cstr m
                                      ++ s2b " ******/" ++ [10])
              | None => st
              end in
    if negb malloc_ok then (rc, st)
    else
      let zQ2 := cstr zQuery ++ order_by_rowid_desc in
      let '((rc, zErr), st) := sqlite3_exec_dump e st zQ2 in
      if negb (rc =? 0) then
        (rc, ds_emit st (s2b "/****** ERROR: " ++ fmt_s zErr
                         ++ s2b " ******/" ++ [10]))
      else (SQLITE_CORRUPT, st)
  else (rc, st).

(** The catalog queries and the row-dump queries among some calls. *)
Fixpoint exec_queries (calls : list engine_call) : list bytes :=
  match calls with
  | [] => []
  | CallExec q :: calls' => q :: exec_queries calls'
  | _ :: calls' => exec_queries calls'
  end.

Fixpoint select_queries (calls : list engine_call) : list bytes :=
  match calls with
  | [] => []
  | CallSelect q :: calls' => q :: select_queries calls'
  | _ :: calls' => select_queries calls'
  end.

(** Claim C6 in the words of the specification: the semicolon goes on
    a line of its own exactly when the row's text ends in [--]. *)
Definition ends_in_dashdash (z : bytes) : bool :=
  is_prefix_of [45; 45] (rev z).

Definition spec_dump_row_rule (z : bytes) : Prop :=
  dump_row_text 1 [Some z] =
    z ++ (if ends_in_dashdash z then [10] ++ s2b ";" ++ [10]
          else s2b ";" ++ [10]).

(** An engine whose every query ends in [SQLITE_CORRUPT], with one
    catalog row for the table [t] of one column [a]. *)
Definition corrupt_engine : dump_engine :=
  {| on_select := fun _ _ =>
       {| sel_prepare_rc := SQLITE_OK; sel_stmt := true; sel_nResult := 1;
          sel_rows := [[Some (s2b "INSERT INTO t VALUES(1)")]];
          sel_finalize_rc := SQLITE_CORRUPT;
          sel_errmsg := s2b "database disk image is malformed" |};
     on_table_info := fun _ _ =>
       {| ti_prepare_rc := SQLITE_OK; ti_stmt := true;
          ti_columns := [s2b "a"]; ti_finalize_rc := SQLITE_OK |};
     on_exec := fun _ _ =>
       {| ex_rows := [[s2b "t"; s2b "table"; s2b "CREATE TABLE t(a)"]];
          ex_rc := SQLITE_CORRUPT;
          ex_err := Some (s2b "database disk image is malformed") |} |}.

Definition dump_start : dump_state := {| ds_p := main_init; ds_log := [] |}.

(* ================================================================== *)
(** ** Execution pipeline *)

(** What the engine answers for a prepared statement: what its steps
    yield, and what finalizing it returns. *)
Record stmt_script := {
  st_sql : option bytes;          (* sqlite3_sql(pStmt) *)
  st_explain : option bytes;      (* SQLITE_TESTCTRL_EXPLAIN_STMT *)
  st_nCol : Z;                    (* sqlite3_column_count *)
  st_colnames : list bytes;
  st_rows : list (list (option bytes * Z));
                                  (* text and type of each column, for
                                     every step that returns SQLITE_ROW *)
  st_done_rc : Z;                 (* the first step result that is not
                                     SQLITE_ROW *)
  st_malloc_ok : bool;            (* sqlite3_malloc of the row arrays *)
  st_stats : bytes;               (* what display_stats prints *)
  st_finalize_rc : Z;
  st_errmsg : bytes               (* sqlite3_errmsg after the finalize *)
}.

(** The answer to [Prepare_v2(zSql)]: the result code, the statement
    (none for a comment or white space), the number of bytes consumed
    beyond the first (a prepare of a non-empty text consumes at least
    one byte: [zLeftover] is [zSql] advanced by one more than this
    number), and the engine's error message. *)
Record prepare_answer := {
  pa_rc : Z;
  pa_stmt : option stmt_script;
  pa_more : nat;
  pa_errmsg : bytes
}.

(** The row callback: session (or NULL), number of columns, values,
    names, types; the result is not 0 to stop. *)
Definition xCallback_t : Type :=
  option callback_data -> Z -> row -> list bytes -> list Z
  -> Z * option callback_data.

(** What happened at each turn of the loop of [shell_exec]. *)
Inductive exec_event :=
| EvPrepareFailed (rc : Z) (msg : bytes)
| EvNothing                      (* comment or white space *)
| EvStatement (step_rc finalize_rc rc : Z) (msg : bytes).

(** [while( IsSpace(zSql[0]) ) zSql++]. *)
Fixpoint skip_spaces (z : bytes) : bytes :=
  match z with
  | [] => []
  | c :: z' => if IsSpace c then skip_spaces z' else z
  end.

(** The extraction loop over the columns of a row: [true] when a
    column has no text although its type is not NULL. *)
Definition row_nomem (nCol : Z) (r : list (option bytes * Z)) : bool :=
  existsb (fun i =>
             match default (None, SQLITE_NULL) (r !! i) with
             | (None, t) => negb (t =? SQLITE_NULL)
             | (Some _, _) => false
             end)
          (seq 0 (Z.to_nat nCol)).

Definition row_values (nCol : Z) (r : list (option bytes * Z)) : row :=
  map (fun i => fst (default (None, SQLITE_NULL) (r !! i)))
      (seq 0 (Z.to_nat nCol)).

Definition row_types (nCol : Z) (r : list (option bytes * Z)) : list Z :=
  map (fun i => snd (default (None, SQLITE_NULL) (r !! i)))
      (seq 0 (Z.to_nat nCol)).

(** The [do ... while( SQLITE_ROW == rc )] loop with a callback. *)
Fixpoint step_rows (xCallback : xCallback_t) (s : stmt_script)
    (rows : list (list (option bytes * Z))) (pArg : option callback_data)
  : Z * option callback_data :=
  match rows with
  | [] => (st_done_rc s, pArg)
  | r :: rows' =>
      if row_nomem (st_nCol s) r then (SQLITE_NOMEM, pArg)
      else
        let '(stop, pArg) :=
          xCallback pArg (st_nCol s) (row_values (st_nCol s) r)
                    (st_colnames s) (row_types (st_nCol s) r) in
        if negb (stop =? 0) then (SQLITE_ABORT, pArg)
        else step_rows xCallback s rows' pArg
  end.

(** The steps of one statement: the value of [rc] before the finalize. *)
Definition run_steps (xCallback : option xCallback_t) (s : stmt_script)
    (pArg : option callback_data) : Z * option callback_data :=
  match st_rows s with
  | [] => (st_done_rc s, pArg)
  | _ :: _ =>
      match xCallback with
      | Some cb =>
          if st_malloc_ok s then step_rows cb s (st_rows s) pArg
          else (SQLITE_NOMEM, pArg)
      | None => (st_done_rc s, pArg)
      end
  end.

Definition pArg_map (f : callback_data -> callback_data)
    (pArg : option callback_data) : option callback_data :=
  match pArg with
  | Some p => Some (f p)
  | None => None
  end.

(** The result of [shell_exec]: the result code, the message stored
    through [pzErrMsg], the session, and the turns of the loop. *)
Record exec_result := {
  er_rc : Z;
  er_errmsg : option bytes;
  er_pArg : option callback_data;
  er_trace : list exec_event
}.

(** The loop [while( zSql[0] && (SQLITE_OK == rc) )].  The text gets
    shorter at every turn, so [fuel] above its length is never used up. *)
Fixpoint shell_exec_loop (fuel : nat) (prepare : bytes -> prepare_answer)
    (xCallback : option xCallback_t) (pzErrMsg : bool)
    (zSql : bytes) (rc : Z) (msg : option bytes)
    (pArg : option callback_data) (trace : list exec_event) : exec_result :=
  let stop := {| er_rc := rc; er_errmsg := msg; er_pArg := pArg;
                 er_trace := trace |} in
  match fuel with
  | O => stop
  | S fuel' =>
      if (char0 zSql =? 0) || negb (rc =? SQLITE_OK) then stop
      else
        let a := prepare zSql in
        let zLeftover := drop (S (pa_more a)) zSql in
        let rc := pa_rc a in
        if negb (rc =? SQLITE_OK) then
          shell_exec_loop fuel' prepare xCallback pzErrMsg zSql rc
            (if pzErrMsg then Some (pa_errmsg a) else msg)
            pArg (trace ++ [EvPrepareFailed rc (pa_errmsg a)])
        else
          match pa_stmt a with
          | None =>
              shell_exec_loop fuel' prepare xCallback pzErrMsg
                (skip_spaces zLeftover) rc msg pArg (trace ++ [EvNothing])
          | Some s =>
              (* the statement handle is saved, the row count reset *)
              let pArg := pArg_map (fun p => set_cnt (set_pStmt p (Some 1)) 0)
                                   pArg in
              (* echo *)
              let pArg := pArg_map (fun p =>
                            if echoOn p =? 0 then p
                            else emit p (cstr (default zSql (st_sql s))
                                         ++ [10])) pArg in
              (* the explain text, in explain mode *)
              let pArg := pArg_map (fun p =>
                            if mode p =? MODE_Explain then
                              match st_explain s with
                              | Some x => emit p (cstr x)
                              | None => p
                              end
                            else p) pArg in
              let '(rc, pArg) := run_steps xCallback s pArg in
              (* statistics *)
              let pArg := pArg_map (fun p =>
                            if statsOn p =? 0 then p
                            else emit p (st_stats s)) pArg in
              (* finalize *)
              let rc2 := st_finalize_rc s in
              let step_rc := rc in
              let rc := if negb (rc =? SQLITE_NOMEM) then rc2 else rc in
              let zSql' := if rc =? SQLITE_OK then skip_spaces zLeftover
                           else zSql in
              let msg := if rc =? SQLITE_OK then msg
                         else if pzErrMsg then Some (st_errmsg s) else msg in
              let pArg := pArg_map (fun p => set_pStmt p None) pArg in
              shell_exec_loop fuel' prepare xCallback pzErrMsg zSql' rc msg
                pArg (trace ++ [EvStatement step_rc rc2 rc (st_errmsg s)])
          end
  end.

(** [shell_exec(db, zSql, xCallback, pArg, pzErrMsg)]; [pzErrMsg] tells
    whether the caller passes a place for the message. *)
Definition shell_exec (prepare : bytes -> prepare_answer) (zSql : bytes)
    (xCallback : option xCallback_t) (pArg : option callback_data)
    (pzErrMsg : bool) : exec_result :=
  shell_exec_loop (S (length zSql)) prepare xCallback pzErrMsg zSql
    SQLITE_OK None pArg [].

(** The result code a turn of the loop leaves in [rc]. *)
Definition event_rc (ev : exec_event) : Z :=
  match ev with
  | EvPrepareFailed rc _ => rc
  | EvNothing => SQLITE_OK
  | EvStatement _ _ rc _ => rc
  end.

Definition event_msg (ev : exec_event) : option bytes :=
  match ev with
  | EvPrepareFailed _ m => Some m
  | EvNothing => None
  | EvStatement _ _ _ m => Some m
  end.

(** The rule of the finalize step for one turn. *)
Definition finalize_rule (ev : exec_event) : Prop :=
  match ev with
  | EvStatement step_rc finalize_rc rc _ =>
      rc = if step_rc =? SQLITE_NOMEM then SQLITE_NOMEM else finalize_rc
  | _ => True
  end.

(** A scripted engine for the examples: the text is a sequence of
    one-byte statements; [m] runs out of memory at its first row and
    finalizes with [SQLITE_OK], [f] fails at finalize with
    [SQLITE_ERROR], any other byte is a statement that succeeds. *)
Definition toy_stmt (done_rc fin_rc : Z) (rows : list (list (option bytes * Z)))
  : stmt_script :=
  {| st_sql := None; st_explain := None; st_nCol := 1;
     st_colnames := [s2b "x"]; st_rows := rows; st_done_rc := done_rc;
     st_malloc_ok := true; st_stats := []; st_finalize_rc := fin_rc;
     st_errmsg := s2b "engine message" |}.

Definition toy_prepare (z : bytes) : prepare_answer :=
  let s := if char0 z =? 109 then
             toy_stmt SQLITE_DONE SQLITE_OK [[(None, 3)]]
           else if char0 z =? 102 then
             toy_stmt SQLITE_DONE SQLITE_ERROR []
           else toy_stmt SQLITE_DONE SQLITE_OK [[(Some (s2b "1"), 1)]] in
  {| pa_rc := SQLITE_OK; pa_stmt := Some s; pa_more := 0;
     pa_errmsg := [] |}.

Definition toy_callback : xCallback_t :=
  fun pArg _ _ _ _ => (0, pArg).

(* ================================================================== *)
(** ** Text scanners *)

(** [_contains_semicolon(z, N)]. *)
Definition _contains_semicolon (z : bytes) (N : Z) : bool :=
  existsb (fun c => c =? 59) (take (Z.to_nat N) z).

(** [_all_whitespace]: the scan outside comments, inside a block
    comment, and inside a line comment. *)
Fixpoint _all_whitespace (z : bytes) : bool :=
  match z with
  | [] => true
  | c :: z1 =>
      if c =? 0 then true
      else if IsSpace c then _all_whitespace z1
      else if (c =? 47) && (char0 z1 =? 42) then
        match z1 with
        | [] => false
        | _ :: z2 => in_block_comment z2
        end
      else if (c =? 45) && (char0 z1 =? 45) then
        match z1 with
        | [] => false
        | _ :: z2 => in_line_comment z2
        end
      else false
  end
with in_block_comment (z : bytes) : bool :=
  match z with
  | [] => false
  | c :: z1 =>
      if c =? 0 then false
      else if (c =? 42) && (char0 z1 =? 47) then
        match z1 with
        | [] => false
        | _ :: z2 => _all_whitespace z2
        end
      else in_block_comment z1
  end
with in_line_comment (z : bytes) : bool :=
  match z with
  | [] => true
  | c :: z1 =>
      if c =? 0 then true
      else if c =? 10 then _all_whitespace z1
      else in_line_comment z1
  end.

Definition ToLower (c : Z) : Z :=
  if (65 <=? c) && (c <=? 90) then c + 32 else c.

(** [_is_command_terminator]: "/" or "go" alone on the line. *)
Definition _is_command_terminator (zLine : bytes) : bool :=
  let zLine := skip_spaces zLine in
  match zLine with
  | [] => false
  | c0 :: z1 =>
      ((c0 =? 47) && _all_whitespace z1)
      || ((ToLower c0 =? 103) && (ToLower (char0 z1) =? 111)
          && _all_whitespace (drop 1 z1))
  end.

(** [_is_complete(zSql, nSql)]: the completeness check of the engine on
    the buffer with a semicolon appended. *)
Definition _is_complete (complete : bytes -> bool) (zSql : option bytes)
  : bool :=
  match zSql with
  | None => true
  | Some z => complete (cstr z ++ s2b ";")
  end.

(* ================================================================== *)
(** ** Session input assembler *)

(** What [process_input] calls and reads outside itself.  [W] is the
    state of the rest of the program (the session, the engine, the
    flag [bail_on_error], which [.bail] sets). *)
Record shell_env (W : Type) := {
  env_bail : W -> bool;                 (* bail_on_error *)
  env_meta : bytes -> W -> Z * W;       (* do_meta_command(zLine, p) *)
  env_exec : bytes -> W -> (Z * option bytes) * W;
                                        (* shell_exec(.., zSql, .., &zErrMsg) *)
  env_errmsg : W -> bytes;              (* sqlite3_errmsg(p->db) *)
  env_complete : bytes -> bool          (* sqlite3_complete *)
}.
Arguments env_bail {W}.
Arguments env_meta {W}.
Arguments env_exec {W}.
Arguments env_errmsg {W}.
Arguments env_complete {W}.

(** A line as [one_input_line] returns it, whether an interrupt has
    been seen when the loop looks at [seenInterrupt], and whether the
    buffer of the statement can be allocated or grown for this line. *)
Record input_line := {
  il_text : bytes;
  il_interrupt : bool;
  il_malloc_ok : bool
}.

(** The variables of [process_input]. *)
Record pi_state (W : Type) := {
  zSql : option bytes;
  nSql : Z;
  errCnt : Z;
  lineno : Z;
  startline : Z;
  world : W;
  stderr : bytes
}.
Arguments zSql {W}.
Arguments nSql {W}.
Arguments errCnt {W}.
Arguments lineno {W}.
Arguments startline {W}.
Arguments world {W}.
Arguments stderr {W}.

(** What was done with a line that was read. *)
Inductive line_action :=
| Interrupted                 (* the loop is left *)
| Skipped                     (* white space outside a statement *)
| MetaCommand (rc : Z)
| Buffered                    (* added to an incomplete statement *)
| Executed (failed : bool)
| Discarded                   (* the buffer held white space only *)
| OutOfMemory.                (* exit(1): the process ends *)

(** One line read: what was done, and the error count and the flag
    [bail_on_error] afterwards. *)
Record line_event := {
  le_action : line_action;
  le_errCnt : Z;
  le_bail : bool
}.

(** Whether the line reported an error. *)
Definition reports_error (a : line_action) : bool :=
  match a with
  | MetaCommand rc => negb (rc =? 0) && negb (rc =? 2)
  | Executed failed => failed
  | _ => false
  end.

(** The test of the [while]. *)
Definition loop_test {W : Type} (env : shell_env W) (in_file : bool)
    (stdin_is_interactive : bool) (s : pi_state W) : bool :=
  (errCnt s =? 0) || negb (env_bail env (world s))
  || (negb in_file && stdin_is_interactive).

Definition error_prefix (in_file stdin_is_interactive : bool) (startline : Z)
  : bytes :=
  if in_file || negb stdin_is_interactive
  then s2b "Error: near line " ++ fmt_d startline ++ s2b ":"
  else s2b "Error:".

(** The body of the loop for the line [l]: whether the loop goes on,
    the variables afterwards, and what was done. *)
Definition process_line {W : Type} (env : shell_env W) (in_file : bool)
    (stdin_is_interactive : bool) (l : input_line) (s : pi_state W)
  : bool * pi_state W * line_action :=
  if il_interrupt l && in_file then (false, s, Interrupted)
  else
    let zLine := il_text l in
    let s := {| zSql := zSql s; nSql := nSql s; errCnt := errCnt s;
                lineno := lineno s + 1; startline := startline s;
                world := world s; stderr := stderr s |} in
    if (match zSql s with None => true | Some z => char0 z =? 0 end)
       && _all_whitespace zLine
    then (true, s, Skipped)
    else if (char0 zLine =? 46) && (nSql s =? 0) then
      let '(rc, w) := env_meta env zLine (world s) in
      let s' (n : Z) := {| zSql := zSql s; nSql := nSql s; errCnt := n;
                           lineno := lineno s; startline := startline s;
                           world := w; stderr := stderr s |} in
      if rc =? 2 then (false, s' (errCnt s), MetaCommand rc)
      else if negb (rc =? 0) then (true, s' (errCnt s + 1), MetaCommand rc)
      else (true, s' (errCnt s), MetaCommand rc)
    else
      let zLine := if _is_command_terminator zLine
                      && _is_complete (env_complete env) (zSql s)
                   then s2b ";" else zLine in
      let nSqlPrior := nSql s in
      let grows := match zSql s with
                   | None => negb (char0 (skip_spaces zLine) =? 0)
                   | Some _ => true
                   end in
      if grows && negb (il_malloc_ok l) then
        (false,
         {| zSql := None; nSql := nSql s; errCnt := errCnt s;
            lineno := lineno s; startline := startline s; world := world s;
            stderr := stderr s ++ s2b "Error: out of memory" ++ [10] |},
         OutOfMemory)
      else
      let '(buf, n, start) :=
        match zSql s with
        | None =>
            if char0 (skip_spaces zLine) =? 0
            then (None, nSql s, startline s)
            else (Some (cstr zLine), strlen30 zLine, lineno s)
        | Some z =>
            (Some (take (Z.to_nat (nSql s)) z ++ [10] ++ cstr zLine),
             nSql s + 1 + strlen30 zLine, startline s)
        end in
      match buf with
      | Some z =>
          if _contains_semicolon (drop (Z.to_nat nSqlPrior) z) (n - nSqlPrior)
             && env_complete env z
          then
            let '((rc, zErrMsg), w) := env_exec env z (world s) in
            let failed := negb (rc =? 0) || bool_decide (zErrMsg <> None) in
            let msg := match zErrMsg with
                       | Some m => m
                       | None => env_errmsg env w
                       end in
            let err := if failed
                       then stderr s
                            ++ error_prefix in_file stdin_is_interactive start
                            ++ s2b " " ++ cstr msg ++ [10]
                       else stderr s in
            (true,
             {| zSql := None; nSql := 0;
                errCnt := if failed then errCnt s + 1 else errCnt s;
                lineno := lineno s; startline := start; world := w;
                stderr := err |},
             Executed failed)
          else if _all_whitespace z then
            (true,
             {| zSql := None; nSql := 0; errCnt := errCnt s;
                lineno := lineno s; startline := start; world := world s;
                stderr := stderr s |},
             Discarded)
          else
            (true,
             {| zSql := buf; nSql := n; errCnt := errCnt s;
                lineno := lineno s; startline := start; world := world s;
                stderr := stderr s |},
             Buffered)
      | None =>
          (true,
           {| zSql := None; nSql := n; errCnt := errCnt s;
              lineno := lineno s; startline := start; world := world s;
              stderr := stderr s |},
           Skipped)
      end.

(** The loop over the lines of the input; the list ends where
    [one_input_line] returns NULL. *)
Fixpoint process_loop {W : Type} (env : shell_env W) (in_file : bool)
    (stdin_is_interactive : bool) (lines : list input_line) (s : pi_state W)
    (trace : list line_event) : pi_state W * list line_event :=
  if loop_test env in_file stdin_is_interactive s then
    match lines with
    | [] => (s, trace)
    | l :: lines' =>
        let '(go_on, s', a) :=
          process_line env in_file stdin_is_interactive l s in
        let ev := {| le_action := a; le_errCnt := errCnt s';
                     le_bail := env_bail env (world s') |} in
        if go_on
        then process_loop env in_file stdin_is_interactive lines' s'
               (trace ++ [ev])
        else (s', trace ++ [ev])
    end
  else (s, trace).

(** [process_input(p, in)]: [in_file] is [in != 0].  The result is
    [errCnt>0], with the state of the rest of the program, the text
    written to the error stream, and one event per line read.  (When
    the last event is [OutOfMemory] the process has ended and nothing
    is returned.)  The prompt and the echo of a line go to the standard
    output, which is not part of the model. *)
Definition process_input {W : Type} (env : shell_env W) (in_file : bool)
    (stdin_is_interactive : bool) (lines : list input_line) (w : W)
  : Z * W * bytes * list line_event :=
  let '(s, trace) :=
    process_loop env in_file stdin_is_interactive lines
      {| zSql := None; nSql := 0; errCnt := 0; lineno := 0; startline := 0;
         world := w; stderr := [] |} [] in
  let err := match zSql s with
             | Some z =>
                 if _all_whitespace z then stderr s
                 else stderr s ++ s2b "Error: incomplete SQL: " ++ cstr z
                      ++ [10]
             | None => stderr s
             end in
  (if 0 <? errCnt s then 1 else 0, world s, err, trace).

(** An environment for the examples.  The state is the flag
    [bail_on_error]; [.exit] asks to leave, [.bail] sets the flag, any
    other meta-command is unknown; a statement is complete when it
    ends in a semicolon and fails when it starts with [b]. *)
Definition toy_env : shell_env bool :=
  {| env_bail := fun w => w;
     env_meta := fun z w =>
       if strcmp_eq z (s2b ".exit") then (2, w)
       else if strcmp_eq z (s2b ".bail") then (0, true)
       else (1, w);
     env_exec := fun z w =>
       if char0 z =? 98 then ((SQLITE_ERROR, Some (s2b "no such thing")), w)
       else ((SQLITE_OK, None), w);
     env_errmsg := fun _ => [];
     env_complete := fun z => bool_decide (last (cstr z) = Some 59) |}.

Definition toy_lines : list input_line :=
  map (fun t => {| il_text := s2b t; il_interrupt := false;
                   il_malloc_ok := true |})
      ["select 1;"; "bad;"; "select 2;"; ".exit"; "select 3;"]%string.

(* ================================================================== *)
(** ** Meta-command dispatcher: the line buffer *)

(** The tokenizer works inside the buffer of the line: it writes
    terminators into it and [resolve_backslashes] rewrites tokens in
    place.  The buffer is the list of its bytes, the terminating 0
    included; a token is the position of its first byte.  Reading a
    position that is not in the buffer, or storing a token beyond the
    array [azArg], is a fault. *)
Inductive outcome (A : Type) :=
| Done (a : A)
| ReadPastLine        (* a read beyond the end of the line buffer *)
| StorePastArgs.      (* a store beyond the end of azArg *)
Arguments Done {A}.
Arguments ReadPastLine {A}.
Arguments StorePastArgs {A}.

#[global] Instance outcome_bind : MBind outcome :=
  fun A B (k : A -> outcome B) (m : outcome A) =>
    match m with
    | Done a => k a
    | ReadPastLine => ReadPastLine
    | StorePastArgs => StorePastArgs
    end.

(** [mem[i]]. *)
Definition read (mem : bytes) (i : nat) : outcome Z :=
  match mem !! i with
  | Some c => Done c
  | None => ReadPastLine
  end.

(** [while( !stop(mem[i]) ) i++], over the bytes from [i] on. *)
Fixpoint scan_until (stop : Z -> bool) (rest : bytes) (i : nat)
  : outcome nat :=
  match rest with
  | [] => ReadPastLine
  | c :: rest' => if stop c then Done i else scan_until stop rest' (S i)
  end.

Definition is_octal (c : Z) : bool := (48 <=? c) && (c <=? 55).

(** The body of [if( c=='\\' )] in [resolve_backslashes]: [i] is the
    position after the backslash ([++i]); the result is the byte to
    store and the position of the last byte read for it. *)
Definition resolve_escape (mem : bytes) (z i : nat) : outcome (Z * nat) :=
  c ← read mem (z + i)%nat;
  if c =? 110 then Done (10, i)
  else if c =? 116 then Done (9, i)
  else if c =? 114 then Done (13, i)
  else if is_octal c then
    let c := c - 48 in
    d ← read mem (z + (i + 1))%nat;
    if is_octal d then
      let i := S i in
      let c := (c * 8 + d - 48) mod 256 in
      d ← read mem (z + (i + 1))%nat;
      if is_octal d then Done ((c * 8 + d - 48) mod 256, S i)
      else Done (c, i)
    else Done (c, i)
  else Done (c, i).

(** The loop [for(i=j=0; (c = z[i])!=0; i++, j++)] on the string at
    position [z] of the buffer, and the final [z[j] = 0]. *)
Fixpoint resolve_loop (fuel : nat) (mem : bytes) (z i j : nat)
  : outcome bytes :=
  match fuel with
  | O => ReadPastLine
  | S fuel' =>
      c ← read mem (z + i)%nat;
      if c =? 0 then Done (<[(z + j)%nat := 0]> mem)
      else
        '(c, i) ← (if c =? 92 then resolve_escape mem z (S i)
                    else Done (c, i));
        resolve_loop fuel' (<[(z + j)%nat := c]> mem) z (S i) (S j)
  end.

(** [resolve_backslashes(&mem[z])].  Every turn of the loop reads a
    position further on, so the fuel is used up only after a read has
    left the buffer. *)
Definition resolve_backslashes (mem : bytes) (z : nat) : outcome bytes :=
  resolve_loop (length mem) mem z 0 0.

(** The variables of the tokenizer of [do_meta_command]. *)
Record tok_state := {
  t_mem : bytes;       (* zLine *)
  t_i : nat;
  t_nArg : Z;
  t_azArg : list nat   (* char *azArg[50], as positions in zLine *)
}.

Definition ArraySize_azArg : Z := 50.

(** [azArg[nArg] = &zLine[v]]. *)
Definition store_arg (azArg : list nat) (nArg : Z) (v : nat)
  : outcome (list nat) :=
  if (0 <=? nArg) && (nArg <? ArraySize_azArg)
  then Done (<[Z.to_nat nArg := v]> azArg)
  else StorePastArgs.

(** One token: the body of the tokenizer's loop, with [i] at the first
    byte of the token (not a space, not the terminator). *)
Definition take_token (s : tok_state) : outcome tok_state :=
  let mem := t_mem s in
  let i := t_i s in
  c ← read mem i;
  if (c =? 39) || (c =? 34) then
    let delim := c in
    let i := S i in
    azArg ← store_arg (t_azArg s) (t_nArg s) i;
    let nArg := t_nArg s + 1 in
    e ← scan_until (fun c => (c =? 0) || (c =? delim)) (drop i mem) i;
    c ← read mem e;
    let '(mem, i') := if c =? delim then (<[e := 0]> mem, S e)
                      else (mem, e) in
    mem ← (if delim =? 34 then resolve_backslashes mem i else Done mem);
    Done {| t_mem := mem; t_i := i'; t_nArg := nArg; t_azArg := azArg |}
  else
    azArg ← store_arg (t_azArg s) (t_nArg s) i;
    let nArg := t_nArg s + 1 in
    e ← scan_until (fun c => (c =? 0) || IsSpace c) (drop i mem) i;
    c ← read mem e;
    let '(mem, i') := if negb (c =? 0) then (<[e := 0]> mem, S e)
                      else (mem, e) in
    mem ← resolve_backslashes mem i;
    Done {| t_mem := mem; t_i := i'; t_nArg := nArg; t_azArg := azArg |}.

(** The loop [while( zLine[i] && nArg<ArraySize(azArg) )]. *)
Fixpoint tokenize_loop (fuel : nat) (s : tok_state) : outcome tok_state :=
  match fuel with
  | O => ReadPastLine
  | S fuel' =>
      c ← read (t_mem s) (t_i s);
      if (c =? 0) || negb (t_nArg s <? ArraySize_azArg) then Done s
      else
        i ← scan_until (fun c => negb (IsSpace c))
               (drop (t_i s) (t_mem s)) (t_i s);
        c ← read (t_mem s) i;
        let s := {| t_mem := t_mem s; t_i := i; t_nArg := t_nArg s;
                    t_azArg := t_azArg s |} in
        if c =? 0 then Done s
        else s ← take_token s; tokenize_loop fuel' s
  end.

(** The tokenizer on the line [zLine] (without its terminator): the
    scan starts after the dot.  Every token takes at least one byte
    of the line, so the fuel is not used up before the loop ends. *)
Definition tokenize (zLine : bytes) : outcome tok_state :=
  tokenize_loop (S (length zLine))
    {| t_mem := zLine ++ [0]; t_i := 1; t_nArg := 0;
       t_azArg := replicate 50 0%nat |}.

(** The string [azArg[k]]. *)
Definition arg_at (s : tok_state) (k : nat) : bytes :=
  cstr (drop (nth k (t_azArg s) 0%nat) (t_mem s)).

(** [azArg[0..nArg-1]] as strings. *)
Definition args_of (s : tok_state) : list bytes :=
  map (arg_at s) (seq 0 (Z.to_nat (t_nArg s))).

(* ================================================================== *)
(** ** Meta-command dispatcher: [.mode] *)

Definition isalpha (c : Z) : bool :=
  ((65 <=? c) && (c <=? 90)) || ((97 <=? c) && (c <=? 122)).

Definition isalnum (c : Z) : bool := isalpha c || IsDigit c.

(** [set_table_name]: the name is quoted unless it is an identifier,
    and every single quote in it is doubled. *)
Definition set_table_name (p : callback_data) (zName : option bytes)
  : callback_data :=
  match zName with
  | None => set_zDestTable p None
  | Some zName =>
      let zName := cstr zName in
      let needQuote :=
        (negb (isalpha (char0 zName)) && negb (char0 zName =? 95))
        || existsb (fun c => negb (isalnum c) && negb (c =? 95)) zName in
      let body := double_quote_char 39 zName in
      set_zDestTable p
        (Some (if needQuote then [39] ++ body ++ [39] else body))
  end.

(** [azArg[k][:n] == "lit"], as the source writes the comparison: the
    first [n] bytes of the token are the text [lit]; [n] is the length
    of the token wherever the dispatcher uses it. *)
Definition slice_is (tok : bytes) (n : Z) (lit : string) : bool :=
  bool_decide (take (Z.to_nat n) tok = s2b lit).

(** The calls of a meta-command that can change the database. *)
Inductive engine_op :=
| OpExec (sql : bytes)                  (* sqlite3_exec(p->db, sql, 0, 0, 0) *)
| OpInsert (values : list bytes) (rc : Z).
                                        (* bind, Step, and the Reset result *)

(** What a meta-command leaves: its status, the session, the text
    written to the error stream, and its calls that can change the
    database. *)
Record meta_result := {
  mr_rc : Z;
  mr_p : callback_data;
  mr_stderr : bytes;
  mr_ops : list engine_op
}.

Definition meta_ok (p : callback_data) : meta_result :=
  {| mr_rc := 0; mr_p := p; mr_stderr := []; mr_ops := [] |}.

Definition meta_error (p : callback_data) (msg : bytes) : meta_result :=
  {| mr_rc := 1; mr_p := p; mr_stderr := msg; mr_ops := [] |}.

(** The branch [.mode MODE] (two tokens). *)
Definition mode_command (p : callback_data) (arg1 : bytes) : meta_result :=
  let n2 := strlen30 arg1 in
  if ((n2 =? 4) && slice_is arg1 n2 "line")
     || ((n2 =? 5) && slice_is arg1 n2 "lines") then
    meta_ok (set_mode p MODE_Line)
  else if ((n2 =? 6) && slice_is arg1 n2 "column")
          || ((n2 =? 7) && slice_is arg1 n2 "columns") then
    meta_ok (set_mode p MODE_Column)
  else if (n2 =? 4) && slice_is arg1 n2 "list" then
    meta_ok (set_mode p MODE_List)
  else if (n2 =? 4) && slice_is arg1 n2 "html" then
    meta_ok (set_mode p MODE_Html)
  else if (n2 =? 3) && slice_is arg1 n2 "tcl" then
    meta_ok (set_separator (set_mode p MODE_Tcl) (s2b " "))
  else if (n2 =? 3) && slice_is arg1 n2 "csv" then
    meta_ok (set_separator (set_mode p MODE_Csv) (s2b ","))
  else if (n2 =? 4) && slice_is arg1 n2 "tabs" then
    meta_ok (set_separator (set_mode p MODE_List) [9])
  else if (n2 =? 6) && slice_is arg1 n2 "insert" then
    meta_ok (set_table_name (set_mode p MODE_Insert) (Some (s2b "table")))
  else
    meta_error p
      (s2b "Error: mode should be one of: column csv html insert line list tabs tcl"
       ++ [10]).

(** The branch [.mode insert TABLE] (three tokens). *)
Definition mode_table_command (p : callback_data) (arg1 arg2 : bytes)
  : meta_result :=
  let n2 := strlen30 arg1 in
  if (n2 =? 6) && slice_is arg1 n2 "insert" then
    meta_ok (set_table_name (set_mode p MODE_Insert) (Some arg2))
  else
    meta_error p
      (s2b "Error: invalid arguments:  " ++ [34] ++ cstr arg2 ++ [34]
       ++ s2b ". Enter " ++ [34] ++ s2b ".help" ++ [34] ++ s2b " for help"
       ++ [10]).

(* ================================================================== *)
(** ** Meta-command dispatcher: [.import] *)

(** What [.import] finds outside the shell: the engine's answers and
    the file.  [ie_lines] gives the lines of the file as
    [local_getline(0, in, 1)] returns them one after the other, or
    [None] when the file cannot be opened; [ie_insert] gives the result
    of the Reset after the values of a line have been bound and
    stepped, which may depend on the rows inserted before. *)
Record import_env := {
  ie_mprintf_ok : bool;                 (* sqlite3_mprintf *)
  ie_prepare_select : bytes -> Z;       (* sqlite3_prepare of the SELECT *)
  ie_nCol : bytes -> Z;                 (* sqlite3_column_count *)
  ie_malloc_sql_ok : bool;              (* malloc of the INSERT text *)
  ie_prepare_insert : bytes -> Z;       (* sqlite3_prepare of the INSERT *)
  ie_lines : bytes -> option (list bytes);
  ie_malloc_cols_ok : bool;             (* malloc of azCol *)
  ie_insert : list (list bytes) -> list bytes -> Z;
  ie_errmsg : bytes                     (* sqlite3_errmsg(db) *)
}.

(** The result of the scan of one line: the number of separators
    found, the columns (positions in the line), the line with the
    terminators written, and the number of newlines seen. *)
Record split_result := {
  sp_i : Z;
  sp_azCol : list nat;
  sp_mem : bytes;
  sp_newlines : Z
}.

(** The loop [for(i=0, z=zLine; (c = *z)!=0; z++)] of [.import]. *)
Fixpoint split_loop (fuel : nat) (sep : bytes) (nSep : nat) (nCol : Z)
    (mem : bytes) (z : nat) (i : Z) (inQuote : bool) (azCol : list nat)
    (newlines : Z) : split_result :=
  let stop := {| sp_i := i; sp_azCol := azCol; sp_mem := mem;
                 sp_newlines := newlines |} in
  match fuel with
  | O => stop
  | S fuel' =>
      let c := nth z mem 0 in
      if c =? 0 then stop
      else
        let inQuote := if c =? 34 then negb inQuote else inQuote in
        let newlines := if c =? 10 then newlines + 1 else newlines in
        if negb inQuote && (c =? char0 sep)
           && strncmp_eq (drop z mem) sep nSep
        then
          let mem := <[z := 0]> mem in
          let i := i + 1 in
          if i <? nCol then
            split_loop fuel' sep nSep nCol mem (z + nSep - 1 + 1)%nat i
              inQuote (<[Z.to_nat i := (z + nSep)%nat]> azCol) newlines
          else
            split_loop fuel' sep nSep nCol mem (z + 1)%nat i inQuote azCol
              newlines
        else
          split_loop fuel' sep nSep nCol mem (z + 1)%nat i inQuote azCol
            newlines
  end.

(** The scan of the line [zLine]; [azCol] has [nCol+1] places and
    [azCol[0]] is the start of the line. *)
Definition split_line (sep : bytes) (nCol : Z) (zLine : bytes)
  : split_result :=
  split_loop (S (length (zLine ++ [0]))) sep (Z.to_nat (strlen30 sep)) nCol
    (zLine ++ [0]) 0 0 false (replicate (Z.to_nat (nCol + 1)) 0%nat) 0.


(** The loop that removes the quotes of a quoted field in place. *)
Fixpoint dequote_loop (fuel : nat) (mem : bytes) (z j k : nat) : bytes :=
  match fuel with
  | O => mem
  | S fuel' =>
      let c := nth (z + j)%nat mem 0 in
      if c =? 0 then <[(z + k)%nat := 0]> mem
      else if c =? 34 then
        let j := S j in
        let c := nth (z + j)%nat mem 0 in
        if c =? 0 then <[(z + k)%nat := 0]> mem
        else dequote_loop fuel' (<[(z + k)%nat := c]> mem) z (S j) (S k)
      else dequote_loop fuel' (<[(z + k)%nat := c]> mem) z (S j) (S k)
  end.

(** The loop over the columns: quoted fields lose their quotes, and
    the text of each column is bound. *)
Definition bind_columns (nCol : Z) (azCol : list nat) (mem : bytes)
  : list bytes :=
  snd (for_loop (Z.to_nat nCol)
         (fun i '(mem, vals) =>
            let z := nth i azCol 0%nat in
            let mem := if nth z mem 0 =? 34
                       then dequote_loop (length mem) mem z 1 0
                       else mem in
            (mem, vals ++ [cstr (drop z mem)]))
         (mem, [])).

(** What [.import] leaves. *)
Record import_result := {
  ir_rc : Z;
  ir_stderr : bytes;
  ir_ops : list engine_op;
  ir_lines_read : nat
}.

Definition import_error_count (zFile : bytes) (lineno nCol found : Z)
  : bytes :=
  s2b "Error: " ++ cstr zFile ++ s2b " line " ++ fmt_d lineno
  ++ s2b ": expected " ++ fmt_d nCol ++ s2b " columns of data but found "
  ++ fmt_d found ++ [10].

(** The loop [while( (zLine = local_getline(0, in, 1))!=0 )] and the
    final [sqlite3_exec(p->db, zCommit, 0, 0, 0)]. *)
Fixpoint import_rows (env : import_env) (sep zFile : bytes) (nCol : Z)
    (lines : list bytes) (lineno : Z) (inserted : list (list bytes))
    (r : import_result) : import_result :=
  match lines with
  | [] =>
      {| ir_rc := ir_rc r; ir_stderr := ir_stderr r;
         ir_ops := ir_ops r ++ [OpExec (s2b "COMMIT")];
         ir_lines_read := ir_lines_read r |}
  | zLine :: lines' =>
      let sp := split_line sep nCol zLine in
      let lineno := lineno + 1 + sp_newlines sp in
      if negb (sp_i sp + 1 =? nCol) then
        {| ir_rc := 1;
           ir_stderr := ir_stderr r
                        ++ import_error_count zFile lineno nCol (sp_i sp + 1);
           ir_ops := ir_ops r ++ [OpExec (s2b "ROLLBACK")];
           ir_lines_read := S (ir_lines_read r) |}
      else
        let vals := bind_columns nCol (sp_azCol sp) (sp_mem sp) in
        let rc := ie_insert env inserted vals in
        if negb (rc =? SQLITE_OK) then
          {| ir_rc := 1;
             ir_stderr := ir_stderr r ++ s2b "Error: "
                          ++ cstr (ie_errmsg env) ++ [10];
             ir_ops := ir_ops r
                       ++ [OpInsert vals rc; OpExec (s2b "ROLLBACK")];
             ir_lines_read := S (ir_lines_read r) |}
        else
          import_rows env sep zFile nCol lines' lineno (inserted ++ [vals])
            {| ir_rc := rc; ir_stderr := ir_stderr r;
               ir_ops := ir_ops r ++ [OpInsert vals rc];
               ir_lines_read := S (ir_lines_read r) |}
  end.

Definition import_stop (rc : Z) (msg : bytes) : import_result :=
  {| ir_rc := rc; ir_stderr := msg; ir_ops := []; ir_lines_read := 0 |}.

(** The part of [.import] before the transaction: either the command
    returns early, or the column count and the lines of the file are
    known. *)
Definition import_setup (env : import_env) (p : callback_data)
    (zFile zTable : bytes) : import_result + (Z * list bytes) :=
  let oom := s2b "Error: out of memory" ++ [10] in
  let sql_error := s2b "Error: " ++ cstr (ie_errmsg env) ++ [10] in
  if strlen30 (separator p) =? 0 then
    inl (import_stop 1
           (s2b "Error: non-null separator required for import" ++ [10]))
  else if negb (ie_mprintf_ok env) then inl (import_stop 1 oom)
  else
    let zSql := s2b "SELECT * FROM " ++ cstr zTable in
    if negb (ie_prepare_select env zSql =? 0) then
      inl (import_stop 1 sql_error)
    else
      let nCol := ie_nCol env zSql in
      if nCol =? 0 then inl (import_stop 0 [])
      else if negb (ie_malloc_sql_ok env) then inl (import_stop 1 oom)
      else
        let zSql :=
          for_loop (Z.to_nat nCol - 1) (fun _ z => z ++ s2b ",?")
            (s2b "INSERT INTO " ++ cstr zTable ++ s2b " VALUES(?")
          ++ s2b ")" in
        if negb (ie_prepare_insert env zSql =? 0) then
          inl (import_stop 1 sql_error)
        else
          match ie_lines env zFile with
          | None =>
              inl (import_stop 1
                     (s2b "Error: cannot open " ++ [34] ++ cstr zFile
                      ++ [34] ++ [10]))
          | Some lines =>
              if negb (ie_malloc_cols_ok env) then inl (import_stop 1 oom)
              else inr (nCol, lines)
          end.

(** The branch [.import FILE TABLE] of [do_meta_command]. *)
Definition do_import (env : import_env) (p : callback_data)
    (zFile zTable : bytes) : import_result :=
  match import_setup env p zFile zTable with
  | inl r => r
  | inr (nCol, lines) =>
      import_rows env (separator p) zFile nCol lines 0 []
        {| ir_rc := 0; ir_stderr := []; ir_ops := [OpExec (s2b "BEGIN")];
           ir_lines_read := 0 |}
  end.

(** *** The engine's transactions

    The engine is outside the repository; this is the contract of its
    transaction control that the claim about committed rows refers to:
    rows inserted after BEGIN are pending until COMMIT makes them
    permanent or ROLLBACK drops them; a BEGIN inside a transaction
    fails and changes nothing; an insert outside a transaction is
    permanent at once; an insert whose result is not [SQLITE_OK]
    inserts nothing. *)
Record txn_db := {
  committed : list (list bytes);
  pending : option (list (list bytes))
}.

Definition apply_op (d : txn_db) (op : engine_op) : txn_db :=
  match op with
  | OpExec sql =>
      if strcmp_eq sql (s2b "BEGIN") then
        match pending d with
        | None => {| committed := committed d; pending := Some [] |}
        | Some _ => d
        end
      else if strcmp_eq sql (s2b "COMMIT") then
        match pending d with
        | Some rows => {| committed := committed d ++ rows; pending := None |}
        | None => d
        end
      else if strcmp_eq sql (s2b "ROLLBACK") then
        {| committed := committed d; pending := None |}
      else d
  | OpInsert values rc =>
      if rc =? SQLITE_OK then
        match pending d with
        | Some rows => {| committed := committed d;
                          pending := Some (rows ++ [values]) |}
        | None => {| committed := committed d ++ [values]; pending := None |}
        end
      else d
  end.

Definition run_ops (ops : list engine_op) (d : txn_db) : txn_db :=
  fold_left apply_op ops d.


(** An environment for the examples: a table of two columns, a file of
    three lines whose second line has one field only. *)
Definition toy_import_env (lines : list bytes) : import_env :=
  {| ie_mprintf_ok := true;
     ie_prepare_select := fun _ => 0;
     ie_nCol := fun _ => 2;
     ie_malloc_sql_ok := true;
     ie_prepare_insert := fun _ => 0;
     ie_lines := fun _ => Some lines;
     ie_malloc_cols_ok := true;
     ie_insert := fun _ _ => SQLITE_OK;
     ie_errmsg := [] |}.

Definition short_file : list bytes :=
  [s2b "1|one"; s2b "2"; s2b "3|three"].

Definition good_file : list bytes :=
  [s2b "1|one"; s2b "2|two"].

(* ================================================================== *)
(** ** Meta-command dispatcher *)

(** [do_meta_command(zLine, p)] for the commands embedded here: the
    tokenizer, then [.import FILE TABLE], the two [mode] branches, and
    the final [else] for a command whose first byte is [m].  Every
    branch of the dispatcher tests the first byte of the command; the
    branches for other commands are not part of this development and
    give [None]. *)
Definition do_meta_command (env : import_env) (zLine : bytes)
    (p : callback_data) : outcome (option meta_result) :=
  s ← tokenize zLine;
  let azArg := args_of s in
  let nArg := t_nArg s in
  if nArg =? 0 then Done (Some (meta_ok p))
  else
    let arg0 := nth 0 azArg [] in
    let n := strlen30 arg0 in
    let c := char0 arg0 in
    if (c =? 105) && slice_is arg0 n "import" && (nArg =? 3) then
      let r := do_import env p (nth 1 azArg []) (nth 2 azArg []) in
      Done (Some {| mr_rc := ir_rc r; mr_p := p; mr_stderr := ir_stderr r;
                    mr_ops := ir_ops r |})
    else if negb (c =? 109) then Done None
    else if slice_is arg0 n "mode" && (nArg =? 2) then
      Done (Some (mode_command p (nth 1 azArg [])))
    else if slice_is arg0 n "mode" && (nArg =? 3) then
      Done (Some (mode_table_command p (nth 1 azArg []) (nth 2 azArg [])))
    else
      Done (Some (meta_error p
        (s2b "Error: unknown command or invalid arguments:  " ++ [34]
         ++ arg0 ++ [34] ++ s2b ". Enter " ++ [34] ++ s2b ".help" ++ [34]
         ++ s2b " for help" ++ [10]))).

(** Every field of the session but the mode and the separator. *)
Definition same_but_mode_separator (p q : callback_data) : Prop :=
  db q = db p /\ echoOn q = echoOn p /\ statsOn q = statsOn p
  /\ cnt q = cnt p /\ out q = out p /\ traceOut q = traceOut p
  /\ nErr q = nErr p /\ writableSchema q = writableSchema p
  /\ showHeader q = showHeader p /\ zDestTable q = zDestTable p
  /\ colWidth q = colWidth p /\ actualWidth q = actualWidth p
  /\ nullvalue q = nullvalue p /\ explainPrev q = explainPrev p
  /\ outfile q = outfile p /\ zDbFilename q = zDbFilename p
  /\ zVfs q = zVfs p /\ pStmt q = pStmt p /\ pLog q = pLog p.

(* ================================================================== *)
(** ** What [resolve_backslashes] computes *)

(** One turn of the loop of [resolve_backslashes] on the unread text
    [t] (which its terminator follows): the byte stored and the number
    of bytes of [t] used for it.  [None] when [t] is a lone backslash:
    the loop then takes the terminator for the escaped byte and reads
    on behind it. *)
Definition resolve_step (t : bytes) : option (Z * nat) :=
  match t with
  | [] => None
  | c :: t1 =>
      if c =? 92 then
        match t1 with
        | [] => None
        | c1 :: t2 =>
            if c1 =? 110 then Some (10, 2%nat)
            else if c1 =? 116 then Some (9, 2%nat)
            else if c1 =? 114 then Some (13, 2%nat)
            else if is_octal c1 then
              match t2 with
              | [] => Some (c1 - 48, 2%nat)
              | d1 :: t3 =>
                  if is_octal d1 then
                    let c2 := ((c1 - 48) * 8 + d1 - 48) mod 256 in
                    match t3 with
                    | [] => Some (c2, 3%nat)
                    | d2 :: _ =>
                        if is_octal d2
                        then Some ((c2 * 8 + d2 - 48) mod 256, 4%nat)
                        else Some (c2, 3%nat)
                    end
                  else Some (c1 - 48, 2%nat)
              end
            else Some (c1, 2%nat)
        end
      else Some (c, 1%nat)
  end.

(** The text [resolve_backslashes] leaves in place of the string [t],
    where [t] holds no 0 byte: [\n], [\t], [\r], up to three octal
    digits after a backslash, and any other byte after a backslash
    taken as it is. *)
Fixpoint resolved (t : bytes) : option bytes :=
  match t with
  | [] => Some []
  | c :: t1 =>
      if c =? 92 then
        match t1 with
        | [] => None
        | c1 :: t2 =>
            if c1 =? 110 then cons 10 <$> resolved t2
            else if c1 =? 116 then cons 9 <$> resolved t2
            else if c1 =? 114 then cons 13 <$> resolved t2
            else if is_octal c1 then
              match t2 with
              | [] => Some [c1 - 48]
              | d1 :: t3 =>
                  if is_octal d1 then
                    let c2 := ((c1 - 48) * 8 + d1 - 48) mod 256 in
                    match t3 with
                    | [] => Some [c2]
                    | d2 :: t4 =>
                        if is_octal d2
                        then cons ((c2 * 8 + d2 - 48) mod 256) <$> resolved t4
                        else cons c2 <$> resolved t3
                    end
                  else cons (c1 - 48) <$> resolved t2
              end
            else cons c1 <$> resolved t2
        end
      else cons c <$> resolved t1
  end.

(** What the emitting steps of the renderer leave alone. *)
Definition same_layout (p q : callback_data) : Prop :=
  colWidth q = colWidth p /\ actualWidth q = actualWidth p
  /\ nullvalue q = nullvalue p /\ mode q = mode p
  /\ showHeader q = showHeader p /\ cnt q = cnt p.

(* ================================================================== *)
(** ** Output renderer: quoting of values *)

(** [isprint] in the C locale, on a byte. *)
Definition isprint (c : Z) : bool := (32 <=? c) && (c <=? 126).

(** The digit of value [d] as [printf] writes it for [%x] and [%o]. *)
Definition hex_digit (d : Z) : Z := if d <? 10 then 48 + d else 87 + d.

(** [output_hex_blob]: the text written for the [nBlob] bytes at
    [pBlob]. *)
Definition output_hex_blob (pBlob : bytes) (nBlob : Z) : bytes :=
  s2b "X'"
  ++ for_loop (Z.to_nat nBlob)
       (fun i acc =>
          let b := Z.land (nth i pBlob 0) 255 in
          acc ++ [hex_digit (b / 16); hex_digit (b mod 16)])
       []
  ++ s2b "'".

(** The counting loop of [output_quoted_string]: [nSingle]. *)
Fixpoint count_single (z : bytes) : Z :=
  match z with
  | [] => 0
  | c :: z' =>
      if c =? 0 then 0
      else if c =? 39 then 1 + count_single z'
      else count_single z'
  end.

(** [for(i=0; z[i] && z[i]!='\''; i++){}]: the value of [i]. *)
Fixpoint quote_span (z : bytes) : nat :=
  match z with
  | [] => 0%nat
  | c :: z' => if (c =? 0) || (c =? 39) then 0%nat else S (quote_span z')
  end.

(** The loop [while( *z )] of [output_quoted_string]. *)
Fixpoint output_quoted_loop (fuel : nat) (z : bytes) : bytes :=
  match fuel with
  | O => []
  | S fuel' =>
      if char0 z =? 0 then []
      else
        let i := quote_span z in
        if (i =? 0)%nat then
          s2b "''" ++ output_quoted_loop fuel' (drop 1 z)
        else if nth i z 0 =? 39 then
          take i z ++ s2b "''" ++ output_quoted_loop fuel' (drop (S i) z)
        else cstr z
  end.

(** [output_quoted_string]: the text written for the string [z].  Every
    turn of the loop takes at least one byte of [z]. *)
Definition output_quoted_string (z : bytes) : bytes :=
  if count_single z =? 0 then [39] ++ cstr z ++ [39]
  else [39] ++ output_quoted_loop (length z) z ++ [39].

(** [printf("\\%03o", c&0xff)]. *)
Definition fmt_03o (c : Z) : bytes :=
  let v := Z.land c 255 in
  [hex_digit (v / 64); hex_digit (v / 8 mod 8); hex_digit (v mod 8)].

(** What [output_c_string] writes for one byte. *)
Definition c_escape (c : Z) : bytes :=
  if c =? 92 then [92; 92]
  else if c =? 34 then [92; 34]
  else if c =? 9 then [92; 116]
  else if c =? 10 then [92; 110]
  else if c =? 13 then [92; 114]
  else if negb (isprint c) then 92 :: fmt_03o c
  else [c].

(** The loop [while( (c = *(z++))!=0 )] of [output_c_string]. *)
Fixpoint output_c_body (z : bytes) : bytes :=
  match z with
  | [] => []
  | c :: z' => if c =? 0 then [] else c_escape c ++ output_c_body z'
  end.

Definition output_c_string (z : bytes) : bytes :=
  [34] ++ output_c_body z ++ [34].

(** The test of the inner loop of [output_html_string], negated. *)
Definition html_stop (c : Z) : bool :=
  (c =? 0) || (c =? 60) || (c =? 38) || (c =? 62) || (c =? 34) || (c =? 39).

Fixpoint html_span (z : bytes) : nat :=
  match z with
  | [] => 0%nat
  | c :: z' => if html_stop c then 0%nat else S (html_span z')
  end.

(** The loop [while( *z )] of [output_html_string]. *)
Fixpoint output_html_loop (fuel : nat) (z : bytes) : bytes :=
  match fuel with
  | O => []
  | S fuel' =>
      if char0 z =? 0 then []
      else
        let i := html_span z in
        let text := if (0 <? i)%nat then take i z else [] in
        let c := nth i z 0 in
        let next := output_html_loop fuel' (drop (S i) z) in
        if c =? 60 then text ++ s2b "&lt;" ++ next
        else if c =? 38 then text ++ s2b "&amp;" ++ next
        else if c =? 62 then text ++ s2b "&gt;" ++ next
        else if c =? 34 then text ++ s2b "&quot;" ++ next
        else if c =? 39 then text ++ s2b "&#39;" ++ next
        else text
  end.

Definition output_html_string (z : bytes) : bytes :=
  output_html_loop (length z) z.

(** What a byte becomes in HTML text. *)
Definition html_escape (c : Z) : bytes :=
  if c =? 60 then s2b "&lt;"
  else if c =? 38 then s2b "&amp;"
  else if c =? 62 then s2b "&gt;"
  else if c =? 34 then s2b "&quot;"
  else if c =? 39 then s2b "&#39;"
  else [c].

(* ================================================================== *)
(** ** [isNumber] *)

(** [while( IsDigit( *z ) ){ z++; }]. *)
Fixpoint skip_digits (z : bytes) : bytes :=
  match z with
  | [] => []
  | c :: z' => if IsDigit c then skip_digits z' else z
  end.

(** [if( realnum ) *realnum = v]. *)
Definition set_realnum (realnum : option Z) (v : Z) : option Z :=
  match realnum with
  | Some _ => Some v
  | None => None
  end.

(** The part [if( *z=='.' ){ ... }] of [isNumber]: [None] where it
    returns 0, else the position reached and [realnum]. *)
Definition number_fraction (z : bytes) (realnum : option Z)
  : option (bytes * option Z) :=
  if char0 z =? 46 then
    let z := drop 1 z in
    if negb (IsDigit (char0 z)) then None
    else Some (skip_digits z, set_realnum realnum 1)
  else Some (z, realnum).

(** The part [if( *z=='e' || *z=='E' ){ ... }]. *)
Definition number_exponent (z : bytes) (realnum : option Z)
  : option (bytes * option Z) :=
  if (char0 z =? 101) || (char0 z =? 69) then
    let z := drop 1 z in
    let z := if (char0 z =? 43) || (char0 z =? 45) then drop 1 z else z in
    if negb (IsDigit (char0 z)) then None
    else Some (skip_digits z, set_realnum realnum 1)
  else Some (z, realnum).

(** [isNumber(z, realnum)]: the result, and what [realnum] points to
    afterwards ([None] for a NULL pointer). *)
Definition isNumber (z : bytes) (realnum : option Z) : Z * option Z :=
  let z := if (char0 z =? 45) || (char0 z =? 43) then drop 1 z else z in
  if negb (IsDigit (char0 z)) then (0, realnum)
  else
    let realnum := set_realnum realnum 0 in
    match number_fraction (skip_digits (drop 1 z)) realnum with
    | None => (0, realnum)
    | Some (z, realnum) =>
        match number_exponent z realnum with
        | None => (0, realnum)
        | Some (z, realnum) => (if char0 z =? 0 then 1 else 0, realnum)
        end
    end.

(** The texts [isNumber] accepts, as a grammar: an optional sign,
    digits, an optional fraction and an optional exponent. *)
Definition digits1 (s : bytes) : Prop :=
  s <> [] /\ Forall (fun c => IsDigit c = true) s.

Definition is_sign (s : bytes) : Prop := s = [] \/ s = [43] \/ s = [45].

Definition number_text (s : bytes) (real : bool) : Prop :=
  exists sign int frac exp,
    s = sign ++ int ++ frac ++ exp
    /\ is_sign sign /\ digits1 int
    /\ (frac = [] \/ exists f, frac = 46 :: f /\ digits1 f)
    /\ (exp = [] \/ exists e es ds,
          exp = e :: es ++ ds /\ (e = 101 \/ e = 69) /\ is_sign es
          /\ digits1 ds)
    /\ real = negb (bool_decide (frac = []) && bool_decide (exp = [])).

(* ================================================================== *)
(** ** The sizes of the buffers of [appendText] and [set_table_name] *)

(** [for(i=0; i<nAppend; i++){ if( zAppend[i]==quote ) len++; }]: what
    the loop adds to [len]. *)
Fixpoint count_quote (quote : Z) (nAppend : nat) (zAppend : bytes) : Z :=
  match nAppend, zAppend with
  | S n, c :: z' => (if c =? quote then 1 else 0) + count_quote quote n z'
  | _, _ => 0
  end.

(** The number of bytes [appendText] asks [realloc] for: [len]. *)
Definition appendText_len (zIn zAppend : bytes) (quote : Z) : Z :=
  let nAppend := strlen30 zAppend in
  let nIn := strlen30 zIn in
  let len := nAppend + nIn + 1 in
  if quote =? 0 then len
  else len + 2 + count_quote quote (Z.to_nat nAppend) zAppend.

(** The first loop of [set_table_name]: [n] and [needQuote]. *)
Fixpoint table_name_scan (zName : bytes) (n : Z) (needQuote : bool)
  : Z * bool :=
  match zName with
  | [] => (n, needQuote)
  | c :: z' =>
      if c =? 0 then (n, needQuote)
      else if negb (isalnum c) && negb (c =? 95) then
        table_name_scan z' ((if c =? 39 then n + 1 else n) + 1) true
      else table_name_scan z' (n + 1) needQuote
  end.

(** The number of bytes [set_table_name] asks [malloc] for: [n+1]. *)
Definition set_table_name_alloc (zName : bytes) : Z :=
  let needQuote := negb (isalpha (char0 zName)) && negb (char0 zName =? 95) in
  let '(n, needQuote) := table_name_scan zName 0 needQuote in
  let n := if needQuote then n + 2 else n in
  n + 1.

(* ================================================================== *)
(** ** Output renderer: the other cases of the row callback *)

Definition SQLITE_INTEGER : Z := 1.
Definition SQLITE_FLOAT   : Z := 2.
Definition SQLITE_TEXT    : Z := 3.
Definition SQLITE_BLOB    : Z := 4.

(** [printf("%*s", w, s)] for [w >= 0]: padded on the left to [w] at
    least, never cut. *)
Definition fmt_pad (w : Z) (s : bytes) : bytes :=
  replicate (Z.to_nat w - length (cstr s)) 32 ++ cstr s.

(** The width of the names in case [MODE_Line]: the first loop. *)
Definition line_width (nArg : Z) (azCol : list bytes) : Z :=
  for_loop (Z.to_nat nArg)
    (fun i w => let len := strlen30 (nth i azCol []) in
                if w <? len then len else w)
    5.

(** The line written for column [i] in case [MODE_Line]. *)
Definition line_text (p : callback_data) (w : Z) (azArg : row)
    (azCol : list bytes) (i : nat) : bytes :=
  fmt_pad w (nth i azCol []) ++ s2b " = " ++ cstr (value_or_null p azArg i)
  ++ [10].

(** Case [MODE_Line]. *)
Definition shell_callback_line (p : callback_data) (nArg : Z)
    (azArg : option row) (azCol : list bytes) : callback_data :=
  match azArg with
  | None => p
  | Some a =>
      let w := line_width nArg azCol in
      let later := 0 <? cnt p in
      let p := set_cnt p (cnt p + 1) in
      let p := if later then emit p [10] else p in
      for_loop (Z.to_nat nArg)
        (fun i p => emit p (line_text p w a azCol i)) p
  end.

(** Case [MODE_Html]. *)
Definition shell_callback_html (p : callback_data) (nArg : Z)
    (azArg : option row) (azCol : list bytes) : callback_data :=
  let n := Z.to_nat nArg in
  let first := cnt p =? 0 in
  let p := set_cnt p (cnt p + 1) in
  let p :=
    if first && negb (showHeader p =? 0) then
      emit (for_loop n (fun i p =>
              emit p (s2b "<TH>" ++ output_html_string (nth i azCol [])
                      ++ s2b "</TH>" ++ [10]))
              (emit p (s2b "<TR>")))
           (s2b "</TR>" ++ [10])
    else p in
  match azArg with
  | None => p
  | Some a =>
      emit (for_loop n (fun i p =>
              emit p (s2b "<TD>" ++ output_html_string (value_or_null p a i)
                      ++ s2b "</TD>" ++ [10]))
              (emit p (s2b "<TR>")))
           (s2b "</TR>" ++ [10])
  end.

(** Case [MODE_Tcl]. *)
Definition shell_callback_tcl (p : callback_data) (nArg : Z)
    (azArg : option row) (azCol : list bytes) : callback_data :=
  let n := Z.to_nat nArg in
  let first := cnt p =? 0 in
  let p := set_cnt p (cnt p + 1) in
  let p :=
    if first && negb (showHeader p =? 0) then
      emit (for_loop n (fun i p =>
              let p := emit p (output_c_string (nth i azCol [])) in
              if Z.of_nat i <? nArg - 1 then emit p (cstr (separator p))
              else p) p)
           [10]
    else p in
  match azArg with
  | None => p
  | Some a =>
      emit (for_loop n (fun i p =>
              let p := emit p (output_c_string (value_or_null p a i)) in
              if Z.of_nat i <? nArg - 1 then emit p (cstr (separator p))
              else p) p)
           [10]
  end.

(** What case [MODE_Insert] writes for column [i] of a row: [aiType]
    is NULL when the callback is called through [callback]; [blob]
    gives the bytes of a column of the statement being run. *)
Definition insert_value (p : callback_data) (azArg : row)
    (aiType : option (list Z)) (blob : nat -> bytes) (i : nat) : bytes :=
  let zSep := if (0 <? i)%nat then s2b "," else [] in
  let is_type (t : Z) :=
    match aiType with
    | Some ty => nth i ty 0 =? t
    | None => false
    end in
  match azArg !! i with
  | Some (Some v) =>
      if is_type SQLITE_NULL then zSep ++ s2b "NULL"
      else if is_type SQLITE_TEXT then zSep ++ output_quoted_string v
      else if is_type SQLITE_INTEGER || is_type SQLITE_FLOAT then
        zSep ++ cstr v
      else if is_type SQLITE_BLOB && bool_decide (pStmt p <> None) then
        zSep ++ output_hex_blob (blob i) (Z.of_nat (length (blob i)))
      else if fst (isNumber v None) =? 0 then
        zSep ++ output_quoted_string v
      else zSep ++ cstr v
  | _ => zSep ++ s2b "NULL"
  end.

(** Case [MODE_Insert]. *)
Definition shell_callback_insert (p : callback_data) (nArg : Z)
    (azArg : option row) (aiType : option (list Z)) (blob : nat -> bytes)
  : callback_data :=
  let p := set_cnt p (cnt p + 1) in
  match azArg with
  | None => p
  | Some a =>
      let p := emit p (s2b "INSERT INTO " ++ fmt_s (zDestTable p)
                       ++ s2b " VALUES(") in
      let p := for_loop (Z.to_nat nArg)
                 (fun i p => emit p (insert_value p a aiType blob i)) p in
      emit p (s2b ");" ++ [10])
  end.

(** [shell_callback] with all the cases of its switch; a mode that is
    none of the nine leaves the session as it is.  The result of the
    callback is always 0. *)
Definition shell_callback_modes (p : callback_data) (nArg : Z)
    (azArg : option row) (azCol : list bytes) (aiType : option (list Z))
    (blob : nat -> bytes) : callback_data :=
  if mode p =? MODE_Line then shell_callback_line p nArg azArg azCol
  else if (mode p =? MODE_Explain) || (mode p =? MODE_Column) then
    shell_callback_column p nArg azArg azCol
  else if (mode p =? MODE_Semi) || (mode p =? MODE_List) then
    shell_callback_list p nArg azArg azCol
  else if mode p =? MODE_Html then shell_callback_html p nArg azArg azCol
  else if mode p =? MODE_Tcl then shell_callback_tcl p nArg azArg azCol
  else if mode p =? MODE_Csv then shell_callback_csv p nArg azArg azCol
  else if mode p =? MODE_Insert then
    shell_callback_insert p nArg azArg aiType blob
  else p.

(** [callback]: the row callback without type information. *)
Definition callback (p : callback_data) (nArg : Z) (azArg : option row)
    (azCol : list bytes) (blob : nat -> bytes) : callback_data :=
  shell_callback_modes p nArg azArg azCol None blob.

(* ================================================================== *)
(** ** Reading a line: [local_getline] *)

(** What [fgets(buf, k+1, in)] reads from the unread bytes [stream] of
    a file: at most [k] bytes, up to and with the first newline. *)
Fixpoint fgets_read (k : nat) (stream : bytes) : bytes * bytes :=
  match k, stream with
  | S k', c :: s' =>
      if c =? 10 then ([c], s')
      else let '(a, b) := fgets_read k' s' in (c :: a, b)
  | _, _ => ([], stream)
  end.

(** [fgets(buf, size, in)]: [None] at the end of the file, else the
    bytes stored (a terminator follows them in the buffer) and the
    bytes still unread. *)
Definition fgets (size : Z) (stream : bytes) : option (bytes * bytes) :=
  match stream with
  | [] => None
  | _ => Some (fgets_read (Z.to_nat (size - 1)) stream)
  end.

(** The loop [while( zLine[n] )] that follows the [fgets], over the
    bytes [got] that it passes: [inQuote] is flipped at every double
    quote. *)
Definition scan_quotes (got : bytes) (inQuote : bool) : bool :=
  fold_left (fun q c => if c =? 34 then negb q else q) got inQuote.

(** The end of [local_getline]: [zLine = realloc( zLine, n+1 )]. *)
Definition getline_return (alloc_ok : Z -> bool) (line : bytes)
  : option bytes :=
  if alloc_ok (Z.of_nat (length line) + 1) then Some line else None.

(** The loop [while( 1 )] of [local_getline]: [line] is [zLine[0..n-1]].
    The result is the line returned (NULL is [None]) and the bytes of
    the file still unread.  [alloc_ok] tells whether a request for a
    number of bytes is granted. *)
Fixpoint local_getline_loop (fuel : nat) (csvFlag : bool)
    (alloc_ok : Z -> bool) (nLine : Z) (line : bytes) (inQuote : bool)
    (stream : bytes) : option bytes * bytes :=
  match fuel with
  | O => (None, stream)
  | S fuel' =>
      let n := Z.of_nat (length line) in
      let grow := nLine <? n + 100 in
      let nLine := if grow then nLine * 2 + 100 else nLine in
      if grow && negb (alloc_ok nLine) then (None, stream)
      else
        match fgets (nLine - n) stream with
        | None =>
            if n =? 0 then (None, stream)
            else (getline_return alloc_ok line, stream)
        | Some (chunk, stream') =>
            let got := cstr chunk in
            let inQuote := scan_quotes got inQuote in
            let line := line ++ got in
            if (0 <? length line)%nat && (List.last line 0 =? 10)
               && (negb inQuote || negb csvFlag)
            then
              let line := removelast line in
              let line := if (0 <? length line)%nat
                             && (List.last line 0 =? 13)
                          then removelast line else line in
              (getline_return alloc_ok line, stream')
            else
              local_getline_loop fuel' csvFlag alloc_ok nLine line inQuote
                stream'
        end
  end.

(** [local_getline(zPrompt, in, csvFlag)]: the prompt written to the
    standard output, the line returned, and the bytes of the file still
    unread.  Every turn of the loop but the last reads at least one
    byte. *)
Definition local_getline (zPrompt : option bytes) (stream : bytes)
    (csvFlag : bool) (alloc_ok : Z -> bool) : bytes * (option bytes * bytes) :=
  let prompt := match zPrompt with
                | Some z => cstr z
                | None => []
                end in
  if negb (alloc_ok 100) then (prompt, (None, stream))
  else
    (prompt,
     local_getline_loop (S (length stream)) csvFlag alloc_ok 100 [] false
       stream).

(** The first line of a file for [local_getline]: the bytes before the
    first newline, or with [csvFlag] before the first newline that is
    not between double quotes, and the bytes after that newline. *)
Fixpoint first_line (csvFlag inQuote : bool) (stream : bytes)
  : option (bytes * bytes) :=
  match stream with
  | [] => None
  | c :: s =>
      let inQuote := if c =? 34 then negb inQuote else inQuote in
      if (c =? 10) && (negb inQuote || negb csvFlag) then Some ([], s)
      else
        match first_line csvFlag inQuote s with
        | Some (l, r) => Some (c :: l, r)
        | None => None
        end
  end.

(** A line without the carriage return at its end, if there is one. *)
Definition strip_cr (l : bytes) : bytes :=
  if (0 <? length l)%nat && (List.last l 0 =? 13) then removelast l else l.

(* ================================================================== *)
(** ** Meta-command dispatcher: lines of plain words *)

(** A word that the tokenizer takes as it is: not empty, without 0
    byte, white space or backslash, and not starting with a quote. *)
Definition plain_word (w : bytes) : Prop :=
  w <> []
  /\ Forall (fun c => c <> 0 /\ IsSpace c = false /\ c <> 92) w
  /\ hd 0 w <> 39 /\ hd 0 w <> 34.

(** The text of a line after its first byte: every word after the
    white space that stands before it. *)
Fixpoint words_line (items : list (bytes * bytes)) : bytes :=
  match items with
  | [] => []
  | (sp, w) :: rest => sp ++ w ++ words_line rest
  end.

(** White space stands before every word but, maybe, the first, and
    every item is white space and a plain word. *)
Definition spaced_words (items : list (bytes * bytes)) : Prop :=
  Forall (fun it => Forall (fun c => IsSpace c = true) (fst it)
                    /\ plain_word (snd it)) items
  /\ Forall (fun it => fst it <> []) (tl items).

(* ================================================================== *)
(** ** Meta-command dispatcher: the settings *)

(** The C library's [atoi]: white space, a sign, digits.  (The value
    is the one of the digits; the library leaves a value outside the
    range of [int] undefined.) *)
Fixpoint atoi_digits (z : bytes) (acc : Z) : Z :=
  match z with
  | [] => acc
  | c :: z' => if IsDigit c then atoi_digits z' (acc * 10 + (c - 48)) else acc
  end.

Definition atoi (z : bytes) : Z :=
  let z := skip_spaces z in
  if char0 z =? 45 then - atoi_digits (drop 1 z) 0
  else if char0 z =? 43 then atoi_digits (drop 1 z) 0
  else atoi_digits z 0.

(** The variables of the program outside the session record. *)
Record shell_globals := {
  bail_on_error : Z;
  enableTimer : Z;
  mainPrompt : bytes;        (* char[20] *)
  continuePrompt : bytes     (* char[20] *)
}.

(** What the source file takes from outside: the comparison
    [CaseInsensitiveComparison], which it calls and does not define,
    and the switches of the build. *)
Record build_env := {
  CaseInsensitiveComparison : bytes -> bytes -> Z;
  HAS_TIMER : bool;
  SQLITE_OMIT_LOAD_EXTENSION : bool;
  SQLITE_ENABLE_WHERETRACE : bool   (* with SQLITE_DEBUG *)
}.

(** [for(i=0; zArg[i]>='0' && zArg[i]<='9'; i++){}]: the value of [i]. *)
Fixpoint digit_span (z : bytes) : nat :=
  match z with
  | [] => 0%nat
  | c :: z' => if (48 <=? c) && (c <=? 57) then S (digit_span z') else 0%nat
  end.

(** [booleanValue(zArg)]: the value, and what is written to the error
    stream. *)
Definition booleanValue (env : build_env) (zArg : bytes) : Z * bytes :=
  let i := digit_span zArg in
  if (0 <? i)%nat && (nth i zArg 0 =? 0) then (atoi zArg, [])
  else if (CaseInsensitiveComparison env zArg (s2b "on") =? 0)
          || (CaseInsensitiveComparison env zArg (s2b "yes") =? 0)
  then (1, [])
  else if (CaseInsensitiveComparison env zArg (s2b "off") =? 0)
          || (CaseInsensitiveComparison env zArg (s2b "no") =? 0)
  then (0, [])
  else (0, s2b "ERROR: Not a boolean value: " ++ [34] ++ cstr zArg ++ [34]
           ++ s2b ". Assuming " ++ [34] ++ s2b "no" ++ [34] ++ s2b "."
           ++ [10]).

(** The table [aMult] of [integerValue]. *)
Definition aMult : list (string * Z) :=
  [ ("KiB", 1024); ("MiB", 1024 * 1024); ("GiB", 1024 * 1024 * 1024);
    ("KB", 1000); ("MB", 1000000); ("GB", 1000000000);
    ("K", 1000); ("M", 1000000); ("G", 1000000000) ]%string.

(** The loop over [aMult]: the first suffix that compares equal. *)
Fixpoint integer_suffix (env : build_env) (table : list (string * Z))
    (zArg : bytes) (v : Z) : Z :=
  match table with
  | [] => v
  | (zSuffix, iMult) :: table' =>
      if CaseInsensitiveComparison env (s2b zSuffix) zArg =? 0 then v * iMult
      else integer_suffix env table' zArg v
  end.

(** [integerValue(zArg)], where the value stays in the range of a
    64-bit integer. *)
Definition integerValue (env : build_env) (zArg : bytes) : Z :=
  let isNeg := char0 zArg =? 45 in
  let z := if isNeg then drop 1 zArg
           else if char0 zArg =? 43 then drop 1 zArg else zArg in
  let v := atoi_digits z 0 in
  let v := integer_suffix env aMult (skip_digits z) v in
  if isNeg then - v else v.

Definition set_echoOn (p : callback_data) (v : Z) : callback_data :=
  {| db := db p; echoOn := v; statsOn := statsOn p; cnt := cnt p;
     out := out p; traceOut := traceOut p; nErr := nErr p; mode := mode p;
     writableSchema := writableSchema p; showHeader := showHeader p;
     zDestTable := zDestTable p; separator := separator p;
     colWidth := colWidth p; actualWidth := actualWidth p;
     nullvalue := nullvalue p; explainPrev := explainPrev p;
     outfile := outfile p; zDbFilename := zDbFilename p; zVfs := zVfs p;
     pStmt := pStmt p; pLog := pLog p |}.

Definition set_statsOn (p : callback_data) (v : Z) : callback_data :=
  {| db := db p; echoOn := echoOn p; statsOn := v; cnt := cnt p;
     out := out p; traceOut := traceOut p; nErr := nErr p; mode := mode p;
     writableSchema := writableSchema p; showHeader := showHeader p;
     zDestTable := zDestTable p; separator := separator p;
     colWidth := colWidth p; actualWidth := actualWidth p;
     nullvalue := nullvalue p; explainPrev := explainPrev p;
     outfile := outfile p; zDbFilename := zDbFilename p; zVfs := zVfs p;
     pStmt := pStmt p; pLog := pLog p |}.

Definition set_showHeader (p : callback_data) (v : Z) : callback_data :=
  {| db := db p; echoOn := echoOn p; statsOn := statsOn p; cnt := cnt p;
     out := out p; traceOut := traceOut p; nErr := nErr p; mode := mode p;
     writableSchema := writableSchema p; showHeader := v;
     zDestTable := zDestTable p; separator := separator p;
     colWidth := colWidth p; actualWidth := actualWidth p;
     nullvalue := nullvalue p; explainPrev := explainPrev p;
     outfile := outfile p; zDbFilename := zDbFilename p; zVfs := zVfs p;
     pStmt := pStmt p; pLog := pLog p |}.

Definition set_colWidth (p : callback_data) (v : list Z) : callback_data :=
  {| db := db p; echoOn := echoOn p; statsOn := statsOn p; cnt := cnt p;
     out := out p; traceOut := traceOut p; nErr := nErr p; mode := mode p;
     writableSchema := writableSchema p; showHeader := showHeader p;
     zDestTable := zDestTable p; separator := separator p;
     colWidth := v; actualWidth := actualWidth p;
     nullvalue := nullvalue p; explainPrev := explainPrev p;
     outfile := outfile p; zDbFilename := zDbFilename p; zVfs := zVfs p;
     pStmt := pStmt p; pLog := pLog p |}.

Definition set_nullvalue (p : callback_data) (v : bytes) : callback_data :=
  {| db := db p; echoOn := echoOn p; statsOn := statsOn p; cnt := cnt p;
     out := out p; traceOut := traceOut p; nErr := nErr p; mode := mode p;
     writableSchema := writableSchema p; showHeader := showHeader p;
     zDestTable := zDestTable p; separator := separator p;
     colWidth := colWidth p; actualWidth := actualWidth p;
     nullvalue := v; explainPrev := explainPrev p;
     outfile := outfile p; zDbFilename := zDbFilename p; zVfs := zVfs p;
     pStmt := pStmt p; pLog := pLog p |}.

Definition set_explainPrev (p : callback_data) (v : previous_mode_data)
  : callback_data :=
  {| db := db p; echoOn := echoOn p; statsOn := statsOn p; cnt := cnt p;
     out := out p; traceOut := traceOut p; nErr := nErr p; mode := mode p;
     writableSchema := writableSchema p; showHeader := showHeader p;
     zDestTable := zDestTable p; separator := separator p;
     colWidth := colWidth p; actualWidth := actualWidth p;
     nullvalue := nullvalue p; explainPrev := v;
     outfile := outfile p; zDbFilename := zDbFilename p; zVfs := zVfs p;
     pStmt := pStmt p; pLog := pLog p |}.

(** [sizeof(int)], on which the [memset] of [.explain] depends. *)
Definition sizeof_int : Z := 4.

(** The branch [.explain]: [val] is the value of the argument, 1
    without one. *)
Definition explain_command (p : callback_data) (val : Z) : callback_data :=
  if val =? 1 then
    let p :=
      if valid (explainPrev p) =? 0 then
        set_explainPrev p
          {| valid := 1; pm_mode := mode p; pm_showHeader := showHeader p;
             pm_colWidth := colWidth p |}
      else p in
    let p := set_showHeader (set_mode p MODE_Explain) 1 in
    (* memset(p->colWidth,0,ArraySize(p->colWidth)): 100 bytes *)
    let zeroed := Z.to_nat (ArraySize_colWidth / sizeof_int) in
    let w := replicate zeroed 0 ++ drop zeroed (colWidth p) in
    let w := <[0%nat := 4]> w in
    let w := <[1%nat := 13]> w in
    let w := <[2%nat := 4]> w in
    let w := <[3%nat := 4]> w in
    let w := <[4%nat := 4]> w in
    let w := <[5%nat := 13]> w in
    let w := <[6%nat := 2]> w in
    let w := <[7%nat := 13]> w in
    set_colWidth p w
  else if negb (valid (explainPrev p) =? 0) then
    let prev := explainPrev p in
    let p := set_explainPrev p
               {| valid := 0; pm_mode := pm_mode prev;
                  pm_showHeader := pm_showHeader prev;
                  pm_colWidth := pm_colWidth prev |} in
    set_colWidth (set_showHeader (set_mode p (pm_mode prev))
                    (pm_showHeader prev))
      (pm_colWidth prev)
  else p.

(** The branch [.width]: the loop over the arguments. *)
Definition width_command (p : callback_data) (azArg : list bytes) (nArg : Z)
  : callback_data :=
  let last := Z.min nArg ArraySize_colWidth in
  for_loop (Z.to_nat (last - 1))
    (fun k p =>
       let j := S k in
       set_colWidth p (<[(j - 1)%nat := atoi (nth j azArg [])]> (colWidth p)))
    p.

(** The branch [.print]. *)
Definition print_command (p : callback_data) (azArg : list bytes) (nArg : Z)
  : callback_data :=
  let p := for_loop (Z.to_nat (nArg - 1))
             (fun k p =>
                let i := S k in
                let p := if (1 <? i)%nat then emit p (s2b " ") else p in
                emit p (cstr (nth i azArg [])))
             p in
  emit p [10].

(** [sqlite3_snprintf(20, buf, "%.*s", 19, z)] and
    [strncpy(buf, z, 19)] into an array of 20 bytes whose last byte is
    0: the string the array then holds. *)
Definition store20 (z : bytes) : bytes := take 19 (cstr z).

(** What a meta-command ends with. *)
Inductive meta_outcome :=
| MetaReturn (rc : Z) (p : callback_data) (g : shell_globals) (err : bytes)
| MetaExit (code : Z)            (* exit(code): the process ends *)
| MetaNotEmbedded.               (* a branch that is not part of this
                                    development: it works on the engine
                                    or on files *)

Definition unknown_command (arg0 : bytes) : bytes :=
  s2b "Error: unknown command or invalid arguments:  " ++ [34] ++ arg0
  ++ [34] ++ s2b ". Enter " ++ [34] ++ s2b ".help" ++ [34] ++ s2b " for help"
  ++ [10].

Definition set_bail (g : shell_globals) (v : Z) : shell_globals :=
  {| bail_on_error := v; enableTimer := enableTimer g;
     mainPrompt := mainPrompt g; continuePrompt := continuePrompt g |}.

Definition set_timer (g : shell_globals) (v : Z) : shell_globals :=
  {| bail_on_error := bail_on_error g; enableTimer := v;
     mainPrompt := mainPrompt g; continuePrompt := continuePrompt g |}.

Definition set_prompts (g : shell_globals) (m c : bytes) : shell_globals :=
  {| bail_on_error := bail_on_error g; enableTimer := enableTimer g;
     mainPrompt := m; continuePrompt := c |}.

(** The chain of tests of [do_meta_command] on the tokens [azArg]:
    every test of the source in its order, with the branches that set
    the session or write text.  *)
Definition meta_dispatch (env : build_env) (azArg : list bytes) (nArg : Z)
    (p : callback_data) (g : shell_globals) : meta_outcome :=
  if nArg =? 0 then MetaReturn 0 p g []
  else
    let arg0 := nth 0 azArg [] in
    let arg1 := nth 1 azArg [] in
    let arg2 := nth 2 azArg [] in
    let n := strlen30 arg0 in
    let c := char0 arg0 in
    let boolean (k : Z -> callback_data * shell_globals) :=
      let '(v, err) := booleanValue env arg1 in
      let '(p, g) := k v in
      MetaReturn 0 p g err in
    if (c =? 98) && (3 <=? n) && slice_is arg0 n "backup" then MetaNotEmbedded
    else if (c =? 98) && (3 <=? n) && slice_is arg0 n "bail" && (1 <? nArg) && (nArg <? 3)
    then boolean (fun v => (p, set_bail g v))
    else if (c =? 98) && (3 <=? n) && slice_is arg0 n "breakpoint" then MetaReturn 0 p g []
    else if (c =? 100) && (1 <? n) && slice_is arg0 n "databases" && (nArg =? 1) then
      MetaNotEmbedded
    else if (c =? 100) && slice_is arg0 n "dump" && (nArg <? 3) then MetaNotEmbedded
    else if (c =? 101) && slice_is arg0 n "echo" && (1 <? nArg) && (nArg <? 3) then
      boolean (fun v => (set_echoOn p v, g))
    else if (c =? 101) && slice_is arg0 n "exit" then
      if (1 <? nArg) && negb (atoi arg1 =? 0) then MetaExit (atoi arg1)
      else MetaReturn 2 p g []
    else if (c =? 101) && slice_is arg0 n "explain" && (nArg <? 3) then
      if 2 <=? nArg then boolean (fun v => (explain_command p v, g))
      else MetaReturn 0 (explain_command p 1) g []
    else if (c =? 104) && (slice_is arg0 n "header" || slice_is arg0 n "headers") && (1 <? nArg)
            && (nArg <? 3)
    then boolean (fun v => (set_showHeader p v, g))
    else if (c =? 104) && slice_is arg0 n "help" then MetaNotEmbedded
    else if (c =? 105) && slice_is arg0 n "import" && (nArg =? 3) then MetaNotEmbedded
    else if (c =? 105) && slice_is arg0 n "indices" && (nArg <? 3) then MetaNotEmbedded
    else if negb (SQLITE_OMIT_LOAD_EXTENSION env) && (c =? 108) && slice_is arg0 n "load"
            && (2 <=? nArg)
    then MetaNotEmbedded
    else if (c =? 108) && slice_is arg0 n "log" && (2 <=? nArg) then MetaNotEmbedded
    else if (c =? 109) && slice_is arg0 n "mode" && (nArg =? 2) then
      let r := mode_command p arg1 in
      MetaReturn (mr_rc r) (mr_p r) g (mr_stderr r)
    else if (c =? 109) && slice_is arg0 n "mode" && (nArg =? 3) then
      let r := mode_table_command p arg1 arg2 in
      MetaReturn (mr_rc r) (mr_p r) g (mr_stderr r)
    else if (c =? 110) && slice_is arg0 n "nullvalue" && (nArg =? 2) then
      MetaReturn 0 (set_nullvalue p (store20 arg1)) g []
    else if (c =? 111) && slice_is arg0 n "output" && (nArg =? 2) then MetaNotEmbedded
    else if (c =? 112) && (3 <=? n) && slice_is arg0 n "print" then
      MetaReturn 0 (print_command p azArg nArg) g []
    else if (c =? 112) && slice_is arg0 n "prompt" && ((nArg =? 2) || (nArg =? 3)) then
      MetaReturn 0 p
        (set_prompts g (store20 arg1)
           (if 3 <=? nArg then store20 arg2 else continuePrompt g))
        []
    else if (c =? 113) && slice_is arg0 n "quit" && (nArg =? 1) then MetaReturn 2 p g []
    else if (c =? 114) && (3 <=? n) && slice_is arg0 n "read" && (nArg =? 2) then
      MetaNotEmbedded
    else if (c =? 114) && (3 <=? n) && slice_is arg0 n "restore" && (1 <? nArg)
            && (nArg <? 4)
    then MetaNotEmbedded
    else if (c =? 115) && slice_is arg0 n "schema" && (nArg <? 3) then MetaNotEmbedded
    else if (c =? 115) && slice_is arg0 n "separator" && (nArg =? 2) then
      MetaReturn 0 (set_separator p (store20 arg1)) g []
    else if (c =? 115) && slice_is arg0 n "show" && (nArg =? 1) then MetaNotEmbedded
    else if (c =? 115) && slice_is arg0 n "stats" && (1 <? nArg) && (nArg <? 3) then
      boolean (fun v => (set_statsOn p v, g))
    else if (c =? 116) && (1 <? n) && slice_is arg0 n "tables" && (nArg <? 3) then
      MetaNotEmbedded
    else if (c =? 116) && (8 <=? n) && slice_is arg0 n "testctrl" && (2 <=? nArg) then
      MetaNotEmbedded
    else if (c =? 116) && (4 <? n) && slice_is arg0 n "timeout" && (nArg =? 2) then
      MetaNotEmbedded
    else if HAS_TIMER env && (c =? 116) && (5 <=? n) && slice_is arg0 n "timer"
            && (nArg =? 2)
    then boolean (fun v => (p, set_timer g v))
    else if (c =? 116) && slice_is arg0 n "trace" && (1 <? nArg) then MetaNotEmbedded
    else if (c =? 118) && slice_is arg0 n "version" then MetaNotEmbedded
    else if (c =? 118) && slice_is arg0 n "vfsname" then MetaNotEmbedded
    else if SQLITE_ENABLE_WHERETRACE env && (c =? 119) && slice_is arg0 n "wheretrace"
    then MetaNotEmbedded
    else if (c =? 119) && slice_is arg0 n "width" && (1 <? nArg) then
      MetaReturn 0 (width_command p azArg nArg) g []
    else MetaReturn 1 p g (unknown_command arg0).

(** [do_meta_command(zLine, p)] on a line: the tokenizer, then the
    chain of tests. *)
Definition do_meta_command_line (env : build_env) (zLine : bytes)
    (p : callback_data) (g : shell_globals) : outcome meta_outcome :=
  s ← tokenize zLine;
  Done (meta_dispatch env (args_of s) (t_nArg s) p g).

(** The names the chain of tests knows. *)
Definition command_names (env : build_env) : list string :=
  [ "backup"; "bail"; "breakpoint"; "databases"; "dump"; "echo"; "exit";
    "explain"; "header"; "headers"; "help"; "import"; "indices" ]%string
  ++ (if SQLITE_OMIT_LOAD_EXTENSION env then [] else ["load"%string])
  ++ [ "log"; "mode"; "nullvalue"; "output"; "print"; "prompt"; "quit";
       "read"; "restore"; "schema"; "separator"; "show"; "stats"; "tables";
       "testctrl"; "timeout" ]%string
  ++ (if HAS_TIMER env then ["timer"%string] else [])
  ++ [ "trace"; "version"; "vfsname" ]%string
  ++ (if SQLITE_ENABLE_WHERETRACE env then ["wheretrace"%string] else [])
  ++ [ "width"%string ].

(** The session fits its arrays: the separator and the text for NULL
    in 20 bytes with their terminators, the widths in 100 places. *)
Definition session_fits (p : callback_data) : Prop :=
  (length (cstr (separator p)) <= 19)%nat
  /\ (length (cstr (nullvalue p)) <= 19)%nat
  /\ length (colWidth p) = 100%nat
  /\ length (pm_colWidth (explainPrev p)) = 100%nat.

(** A words line with one space before every word but the first. *)
Definition command_items (words : list bytes) : list (bytes * bytes) :=
  match words with
  | [] => []
  | w :: ws => ([], w) :: map (fun w => ([32], w)) ws
  end.

(** Texts joined by single spaces. *)
Fixpoint join_spaces (words : list bytes) : bytes :=
  match words with
  | [] => []
  | [w] => w
  | w :: ws => w ++ [32] ++ join_spaces ws
  end.

(* ================================================================== *)
(** ** Session input assembler: the pending statement *)

(** What the loop of [process_input] keeps true of its variables: the
    length [nSql] is not negative, and while a statement is held in
    [zSql] it is positive and the statement does not start with the
    terminator. *)
Definition statement_pending {W : Type} (s : pi_state W) : Prop :=
  0 <= nSql s
  /\ forall z, zSql s = Some z -> 0 < nSql s /\ char0 z <> 0.

(** The line was neither skipped nor taken as a meta-command. *)
Definition appended (a : line_action) : Prop :=
  a <> Skipped /\ forall rc, a <> MetaCommand rc.


(** The lines of a statement as the buffer of [process_input] holds
    them: a newline between two lines. *)
Fixpoint join_lines (ts : list bytes) : bytes :=
  match ts with
  | [] => []
  | [t] => t
  | t :: ts' => t ++ [10] ++ join_lines ts'
  end.

(** A line that was read with no interrupt and with memory to hold it. *)
Definition read_line (t : bytes) : input_line :=
  {| il_text := t; il_interrupt := false; il_malloc_ok := true |}.


(** The buffer after the line [t] is added to what is held. *)
Definition buffer_with (held : option bytes) (t : bytes) : bytes :=
  match held with
  | None => t
  | Some acc => acc ++ [10] ++ t
  end.


(* ================================================================== *)
(** ** Meta-command dispatcher: the display of [.tables] *)

(** The names are in [azResult], none of them NULL.  The divisions are
    C's; [j] does not overflow for the numbers of names a process can
    hold. *)

(** [printf("%-*s", w, s)] for [w >= 0]: padded on the right to [w] at
    least, never cut. *)
Definition fmt_pad_right (w : Z) (s : bytes) : bytes :=
  cstr s ++ replicate (Z.to_nat w - length (cstr s)) 32.

(** [.tables]: the longest name, the first loop. *)
Definition tables_maxlen (nRow : Z) (azResult : list bytes) : Z :=
  for_loop (Z.to_nat nRow)
    (fun i maxlen => let len := strlen30 (nth i azResult []) in
                     if maxlen <? len then len else maxlen)
    0.

Definition tables_nPrintCol (maxlen : Z) : Z :=
  let nPrintCol := Z.quot 80 (maxlen + 2) in
  if nPrintCol <? 1 then 1 else nPrintCol.

Definition tables_nPrintRow (nRow nPrintCol : Z) : Z :=
  Z.quot (nRow + nPrintCol - 1) nPrintCol.

(** The loop [for(j=i; j<nRow; j+=nPrintRow)]: the values [j] takes. *)
Fixpoint tables_line (fuel : nat) (nRow nPrintRow j : Z) : list Z :=
  match fuel with
  | O => []
  | S fuel' =>
      if j <? nRow
      then j :: tables_line fuel' nRow nPrintRow (j + nPrintRow)
      else []
  end.

(** What is written for the name [j]. *)
Definition tables_cell (azResult : list bytes) (maxlen nPrintRow j : Z)
  : bytes :=
  (if j <? nPrintRow then [] else s2b "  ")
  ++ fmt_pad_right maxlen (nth (Z.to_nat j) azResult []).

(** The names of every line written, by their places in [azResult]. *)
Definition tables_grid (nRow nPrintRow : Z) : list (list Z) :=
  map (fun i => tables_line (Z.to_nat nRow) nRow nPrintRow (Z.of_nat i))
      (seq 0 (Z.to_nat nPrintRow)).

(** What [.tables] writes for the [nRow] names of [azResult]. *)
Definition tables_display (nRow : Z) (azResult : list bytes) : bytes :=
  if 0 <? nRow then
    let maxlen := tables_maxlen nRow azResult in
    let nPrintCol := tables_nPrintCol maxlen in
    let nPrintRow := tables_nPrintRow nRow nPrintCol in
    concat (map (fun line =>
                   concat (map (tables_cell azResult maxlen nPrintRow) line)
                   ++ [10])
                (tables_grid nRow nPrintRow))
  else [].


(* ================================================================== *)
(** ** CSV: a record written and read back *)

(** The record the loop of case [MODE_Csv] writes for the values [vs],
    without the newline: the terms with the separator between them. *)
Fixpoint csv_record (p : callback_data) (vs : list bytes) : bytes :=
  match vs with
  | [] => []
  | [v] => output_csv_term p (Some v)
  | v :: vs' =>
      output_csv_term p (Some v) ++ cstr (separator p) ++ csv_record p vs'
  end.

(** A term of CSV for the value [v] with the separator byte [s]: the
    value between double quotes with its double quotes doubled, or the
    value as it is when it is not empty and holds no separator and no
    byte that the table [needCsvQuote] marks. *)
Definition csv_term (s : Z) (v t : bytes) : Prop :=
  t = 34 :: csv_quoted_body v ++ [34]
  \/ (t = v /\ v <> []
      /\ Forall (fun c => csv_marked c = false /\ c <> s) v).

(** The state of [inQuote] after the bytes [t]. *)
Fixpoint quote_after (b : bool) (t : bytes) : bool :=
  match t with
  | [] => b
  | c :: t' => quote_after (if c =? 34 then negb b else b) t'
  end.

(** The newlines of [t]. *)
Fixpoint count_newlines (t : bytes) : Z :=
  match t with
  | [] => 0
  | c :: t' => (if c =? 10 then 1 else 0) + count_newlines t'
  end.

(** No byte of [t] ends the text or is a separator outside quotes. *)
Fixpoint no_split (s : Z) (b : bool) (t : bytes) : Prop :=
  match t with
  | [] => True
  | c :: t' =>
      let b' := if c =? 34 then negb b else b in
      c <> 0 /\ (b' = true \/ c <> s) /\ no_split s b' t'
  end.

(** Texts with the byte [s] between them. *)
Fixpoint join_sep (s : Z) (ts : list bytes) : bytes :=
  match ts with
  | [] => []
  | [t] => t
  | t :: ts' => t ++ s :: join_sep s ts'
  end.

(** Texts each followed by its terminator. *)
Definition cut_record (ts : list bytes) : bytes :=
  concat (map (fun t => t ++ [0]) ts).


(* ================================================================== *)
(** ** Meta-command dispatcher: [.restore] *)

Definition SQLITE_BUSY   : Z := 5.
Definition SQLITE_LOCKED : Z := 6.

(** What [.restore] asks of the engine: the result of [sqlite3_open] on
    the source file, whether [sqlite3_backup_init] gives a handle, the
    answers of [sqlite3_backup_step] in the order of the calls, and the
    text of [sqlite3_errmsg]. *)
Record restore_engine := {
  re_open : bytes -> Z;
  re_backup_init : bool;
  re_steps : list Z;
  re_errmsg : bytes
}.

(** The loop [while( (rc = sqlite3_backup_step(pBackup,100))==SQLITE_OK
    || rc==SQLITE_BUSY )]: the answer that ends it and the number of
    calls of [sqlite3_sleep]; [None] when the answers end before the
    loop does. *)
Fixpoint restore_steps (answers : list Z) (nTimeout : Z) (sleeps : nat)
  : option (Z * nat) :=
  match answers with
  | [] => None
  | rc :: answers' =>
      if (rc =? SQLITE_OK) || (rc =? SQLITE_BUSY) then
        if rc =? SQLITE_BUSY then
          if 3 <=? nTimeout then Some (rc, sleeps)
          else restore_steps answers' (nTimeout + 1) (S sleeps)
        else restore_steps answers' nTimeout sleeps
      else Some (rc, sleeps)
  end.

(** The branch [.restore ?DB? FILE]: the result of the command, what
    it writes to the error stream and how often it sleeps. *)
Definition restore_command (e : restore_engine) (azArg : list bytes)
    (nArg : Z) : option (Z * bytes * nat) :=
  let zSrcFile := if nArg =? 2 then nth 1 azArg [] else nth 2 azArg [] in
  if negb (re_open e zSrcFile =? SQLITE_OK) then
    Some (1, s2b "Error: cannot open " ++ [34] ++ cstr zSrcFile ++ [34]
             ++ [10], 0%nat)
  else if negb (re_backup_init e) then
    Some (1, s2b "Error: " ++ cstr (re_errmsg e) ++ [10], 0%nat)
  else
    match restore_steps (re_steps e) 0 0 with
    | None => None
    | Some (rc, sleeps) =>
        if rc =? SQLITE_DONE then Some (0, [], sleeps)
        else if (rc =? SQLITE_BUSY) || (rc =? SQLITE_LOCKED) then
          Some (1, s2b "Error: source database is busy" ++ [10], sleeps)
        else Some (1, s2b "Error: " ++ cstr (re_errmsg e) ++ [10], sleeps)
    end.

(** The busy answers among [answers]. *)
Definition count_busy (answers : list Z) : nat :=
  length (List.filter (fun rc => rc =? SQLITE_BUSY) answers).


(* ================================================================== *)
(** ** Text scanners: white space and comments *)

(** A piece of text that [_all_whitespace] passes over: white space, a
    comment from two dashes to the end of the line, a comment between
    slash-star and star-slash. *)
Inductive blank :=
| Spaces (ws : bytes)
| LineComment (c : bytes)
| BlockComment (c : bytes).

Definition blank_text (b : blank) : bytes :=
  match b with
  | Spaces ws => ws
  | LineComment c => s2b "--" ++ c ++ [10]
  | BlockComment c => s2b "/*" ++ c ++ s2b "*/"
  end.

(** No star-slash in [c]. *)
Fixpoint no_comment_end (c : bytes) : Prop :=
  match c with
  | [] => True
  | x :: c' => ~ (x = 42 /\ char0 c' = 47) /\ no_comment_end c'
  end.

(** The bytes of a piece are what its kind allows. *)
Definition blank_ok (b : blank) : Prop :=
  match b with
  | Spaces ws => Forall (fun x => IsSpace x = true) ws
  | LineComment c => Forall (fun x => x <> 0 /\ x <> 10) c
  | BlockComment c => Forall (fun x => x <> 0) c /\ no_comment_end c
  end.


(* ================================================================== *)
(** ** Meta-command dispatcher: [.dump] *)

(** The branch [.dump ?TABLE? ...] of [do_meta_command].  The calls of
    [sqlite3_exec] without a callback, whose results are dropped, are
    not in the log.  [malloc_ok k] tells whether the [k]-th call of
    [run_schema_dump_query] can allocate its second query. *)
Definition dump_command (e : dump_engine) (malloc_ok : nat -> bool)
    (p : callback_data) (azArg : list bytes) (nArg : Z) : dump_state :=
  let p := emit p (s2b "PRAGMA foreign_keys=OFF;" ++ [10]) in
  let p := emit p (s2b "BEGIN TRANSACTION;" ++ [10]) in
  let p := set_writableSchema p 0 in
  let p := set_nErr p 0 in
  let st := {| ds_p := p; ds_log := [] |} in
  let st :=
    if nArg =? 1 then
      let st :=
        snd (run_schema_dump_query e (malloc_ok 0%nat) st
               (s2b "SELECT name, type, sql FROM sqlite_master WHERE sql NOT NULL AND type=='table' AND name!='sqlite_sequence'")) in
      let st :=
        snd (run_schema_dump_query e (malloc_ok 1%nat) st
               (s2b "SELECT name, type, sql FROM sqlite_master WHERE name=='sqlite_sequence'")) in
      snd (run_table_dump_query e st
             (s2b "SELECT sql FROM sqlite_master WHERE sql NOT NULL AND type IN ('index','trigger','view')")
             None)
    else
      for_loop (Z.to_nat nArg - 1)
        (fun k st =>
           let st :=
             snd (run_schema_dump_query e (malloc_ok k) st
                    (s2b "SELECT name, type, sql FROM sqlite_master WHERE tbl_name LIKE shellstatic() AND type=='table'  AND sql NOT NULL")) in
           snd (run_table_dump_query e st
                  (s2b "SELECT sql FROM sqlite_master WHERE sql NOT NULL  AND type IN ('index','trigger','view')  AND tbl_name LIKE shellstatic()")
                  None))
        st in
  let st :=
    if writableSchema (ds_p st) =? 0 then st
    else {| ds_p := set_writableSchema
                      (emit (ds_p st)
                         (s2b "PRAGMA writable_schema=OFF;" ++ [10])) 0;
            ds_log := ds_log st |} in
  ds_emit st (if nErr (ds_p st) =? 0
              then s2b "COMMIT;" ++ [10]
              else s2b "ROLLBACK; -- due to errors" ++ [10]).

(** An engine whose row-dump queries never fail. *)
Definition selects_ok (e : dump_engine) : Prop :=
  forall log q,
    sel_prepare_rc (on_select e log q) = SQLITE_OK
    /\ sel_stmt (on_select e log q) = true
    /\ sel_finalize_rc (on_select e log q) = SQLITE_OK.

(** What the dump functions do to the session: they add to the output
    and count errors, and they count none when no row-dump query
    fails. *)
Definition dump_grows (e : dump_engine) (st st' : dump_state) : Prop :=
  (exists t, f_text (out (ds_p st')) = f_text (out (ds_p st)) ++ t)
  /\ nErr (ds_p st) <= nErr (ds_p st')
  /\ (selects_ok e -> nErr (ds_p st') = nErr (ds_p st)).


(* ================================================================== *)
(** ** Output renderer: list mode *)

(** Texts with the text [sep] between them. *)
Fixpoint join_with (sep : bytes) (ts : list bytes) : bytes :=
  match ts with
  | [] => []
  | [t] => t
  | t :: ts' => t ++ sep ++ join_with sep ts'
  end.


(* ================================================================== *)
(** * Properties *)

(* ------------------------------------------------------------------ *)
(** ** C strings *)

Lemma cstr_nonzero (z : bytes) :
  Forall (fun c => c <> 0) z -> cstr z = z.
Proof.
  induction 1 as [|c z Hc _ IH]; simpl; [reflexivity|].
  destruct (Z.eqb_spec c 0); [contradiction|]. now rewrite IH.
Qed.

Lemma cstr_idemp (z : bytes) : cstr (cstr z) = cstr z.
Proof.
  induction z as [|c z IH]; simpl; [reflexivity|].
  destruct (Z.eqb_spec c 0) as [->|Hc]; simpl; [reflexivity|].
  destruct (Z.eqb_spec c 0); [contradiction|]. now rewrite IH.
Qed.

Lemma strlen30_small (z : bytes) :
  Z.of_nat (length (cstr z)) < 1073741824 ->
  strlen30 z = Z.of_nat (length (cstr z)).
Proof.
  intros H. unfold strlen30.
  change 1073741823 with (Z.ones 30).
  rewrite Z.land_comm, Z.land_ones by lia.
  apply Z.mod_small. change (2 ^ 30) with 1073741824. lia.
Qed.

(* ------------------------------------------------------------------ *)
(** ** Output renderer: CSV *)

Lemma needCsvQuote_ranges (c : Z) :
  0 <= c < 256 -> needCsvQuote_at c = csv_marked c.
Proof.
  intros Hc.
  assert (Hall : forallb (fun n => Bool.eqb (needCsvQuote_at (Z.of_nat n))
                                          (csv_marked (Z.of_nat n)))
                         (seq 0 256) = true) by (vm_compute; reflexivity).
  rewrite forallb_forall in Hall.
  specialize (Hall (Z.to_nat c)).
  rewrite Z2Nat.id in Hall by lia.
  apply Bool.eqb_prop, Hall, in_seq. lia.
Qed.

Lemma csv_scan_spec (sep z rest : bytes) (i : Z) :
  csv_scan sep z rest i =
    if existsb (csv_trigger sep z) (cstr rest) then 0
    else i + Z.of_nat (length (cstr rest)).
Proof.
  revert i. induction rest as [|c rest IH]; intros i; simpl.
  - lia.
  - destruct (Z.eqb_spec c 0); simpl; [lia|].
    destruct (csv_trigger sep z c); simpl; [reflexivity|].
    rewrite IH. destruct (existsb _ _); lia.
Qed.

Lemma csv_trigger_single (sep z : bytes) (s c : Z) :
  cstr sep = [s] -> 0 <= c < 256 ->
  csv_trigger sep z c = csv_marked c || (c =? s).
Proof.
  intros Hsep Hc. unfold csv_trigger, strlen30. rewrite Hsep. simpl.
  rewrite needCsvQuote_ranges by assumption.
  destruct sep as [|s0 sep']; simpl in Hsep; [discriminate|].
  destruct (Z.eqb_spec s0 0); [discriminate|].
  injection Hsep as -> _. simpl. now rewrite andb_true_r.
Qed.

(** C2, as the code has it, for a separator of one byte: the value is
    wrapped in double quotes, every embedded double quote doubled, if
    and only if it is empty or holds a byte that the table
    [needCsvQuote] marks (0..32, the double quote, the single quote,
    127..255) or the separator byte; otherwise it is written as it is. *)
Theorem output_csv_quotes_iff_marked (p : callback_data) (z : bytes) (s : Z) :
  cstr (separator p) = [s] ->
  Forall (fun c => 0 < c < 256) z ->
  output_csv_term p (Some z) =
    if bool_decide (z = []) || existsb (fun c => csv_marked c || (c =? s)) z
    then [34] ++ csv_quoted_body z ++ [34]
    else z.
Proof.
  intros Hsep Hz. unfold output_csv_term.
  assert (Hnz : cstr z = z).
  { apply cstr_nonzero. eapply Forall_impl; [exact Hz|]. simpl. lia. }
  rewrite csv_scan_spec, Hnz.
  assert (Hex : existsb (csv_trigger (separator p) z) z
                = existsb (fun c => csv_marked c || (c =? s)) z).
  { clear Hnz. generalize z at 1. intros z0.
    induction Hz as [|c z' Hc _ IH]; simpl; [reflexivity|].
    rewrite IH, (csv_trigger_single _ _ s) by (assumption || lia).
    reflexivity. }
  rewrite Hex. clear Hex.
  destruct (existsb _ z) eqn:E.
  - now rewrite orb_true_r.
  - rewrite orb_false_r. destruct z as [|c z']; [reflexivity|].
    rewrite bool_decide_eq_false_2 by discriminate.
    destruct (Z.eqb_spec (0 + Z.of_nat (length (c :: z'))) 0) as [H0|_];
      [simpl in H0; lia | reflexivity].
Qed.

Lemma output_csv_quotes_iff_marked_witness :
  output_csv_term csv_session (Some (s2b "a,b")) = [34] ++ s2b "a,b" ++ [34]
  /\ output_csv_term csv_session (Some (s2b "ab")) = s2b "ab".
Proof.
  split.
  - rewrite (output_csv_quotes_iff_marked csv_session (s2b "a,b") 44).
    + reflexivity.
    + reflexivity.
    + repeat constructor.
  - rewrite (output_csv_quotes_iff_marked csv_session (s2b "ab") 44).
    + reflexivity.
    + reflexivity.
    + repeat constructor.
Defined.

(** C2 as stated fails: the value [a b] holds no separator, no double
    quote and no control or high-bit byte, and is written quoted. *)
Lemma output_csv_space_counterexample :
  ~ spec_csv_rule csv_session (s2b "a b").
Proof. unfold spec_csv_rule. vm_compute. discriminate. Qed.

(** The empty value is quoted as well, and so is one holding a single
    quote. *)
Example output_csv_empty :
  output_csv_term csv_session (Some []) = [34; 34].
Proof. reflexivity. Qed.

Example output_csv_single_quote :
  output_csv_term csv_session (Some (s2b "it's")) = [34] ++ s2b "it's" ++ [34].
Proof. reflexivity. Qed.

(** With a separator of several bytes the scan compares the separator
    with the start of the value, not with the position reached. *)
Example output_csv_long_separator :
  output_csv_term (set_separator csv_session (s2b "ab")) (Some (s2b "xab"))
  = s2b "xab"
  /\ output_csv_term (set_separator csv_session (s2b "ab")) (Some (s2b "abx"))
     = [34] ++ s2b "abx" ++ [34].
Proof. split; reflexivity. Qed.

(* ------------------------------------------------------------------ *)
(** ** Output renderer: column widths *)

(** Case analysis on every boolean comparison of naturals in the goal. *)
Ltac ltb_cases :=
  repeat match goal with
         | |- context [(?a <? ?b)%nat] => destruct (Nat.ltb_spec a b)
         end;
  simpl; try lia; try reflexivity.

Lemma for_loop_S {S : Type} (n : nat) (body : nat -> S -> S) (s : S) :
  for_loop (Datatypes.S n) body s = body n (for_loop n body s).
Proof. unfold for_loop. rewrite seq_S, fold_left_app. reflexivity. Qed.

Lemma same_layout_refl p : same_layout p p.
Proof. repeat split. Qed.

Lemma same_layout_trans p q r :
  same_layout p q -> same_layout q r -> same_layout p r.
Proof. unfold same_layout. intuition congruence. Qed.

Lemma same_layout_emit p s : same_layout p (emit p s).
Proof. repeat split. Qed.

Lemma for_loop_same_layout n (body : nat -> callback_data -> callback_data) p :
  (forall i q, same_layout q (body i q)) ->
  same_layout p (for_loop n body p).
Proof.
  intros Hb. induction n as [|n IH]; [apply same_layout_refl|].
  rewrite for_loop_S. eapply same_layout_trans; [exact IH|apply Hb].
Qed.

Lemma first_row_width_ext p q azArg azCol i :
  colWidth q = colWidth p -> nullvalue q = nullvalue p ->
  first_row_width q azArg azCol i = first_row_width p azArg azCol i.
Proof.
  intros Hc Hn. unfold first_row_width, value_or_null. now rewrite Hc, Hn.
Qed.

(** The loop over the columns on the first row stores the computed
    width of every column below [n] and below the capacity. *)
Lemma column_first_row_loop nArg azArg azCol p n :
  let q := for_loop n (column_first_row_step nArg azArg azCol) p in
  colWidth q = colWidth p /\ nullvalue q = nullvalue p
  /\ mode q = mode p /\ showHeader q = showHeader p /\ cnt q = cnt p
  /\ length (actualWidth q) = length (actualWidth p)
  /\ forall i, nth i (actualWidth q) 0 =
       if (i <? n)%nat && (i <? 100)%nat && (i <? length (actualWidth p))%nat
       then first_row_width p azArg azCol i
       else nth i (actualWidth p) 0.
Proof.
  induction n as [|n IH]; simpl.
  - repeat split. 
  - rewrite for_loop_S.
    set (q := for_loop n _ p) in *.
    destruct IH as (Hc & Hn & Hm & Hs & Hk & Hl & Hw).
    unfold column_first_row_step.
    rewrite (first_row_width_ext p q) by assumption.
    set (w := first_row_width p azArg azCol n).
    assert (Hgoal :
      forall q', colWidth q' = colWidth q -> nullvalue q' = nullvalue q ->
        mode q' = mode q -> showHeader q' = showHeader q -> cnt q' = cnt q ->
        actualWidth q' = (if Z.of_nat n <? ArraySize_colWidth
                          then <[n := w]> (actualWidth q) else actualWidth q) ->
        colWidth q' = colWidth p /\ nullvalue q' = nullvalue p
        /\ mode q' = mode p /\ showHeader q' = showHeader p /\ cnt q' = cnt p
        /\ length (actualWidth q') = length (actualWidth p)
        /\ forall i, nth i (actualWidth q') 0 =
             if (i <? Datatypes.S n)%nat && (i <? 100)%nat
                && (i <? length (actualWidth p))%nat
             then first_row_width p azArg azCol i
             else nth i (actualWidth p) 0).
    { intros q' H1 H2 H3 H4 H5 H6. repeat split; try congruence.
      - rewrite H6. destruct (_ <? _); [rewrite length_insert|]; exact Hl.
      - intros i. rewrite H6. unfold ArraySize_colWidth.
        destruct (Z.ltb_spec (Z.of_nat n) 100) as [Hlt|Hge].
        + destruct (Nat.eq_dec i n) as [->|Hne].
          * destruct (Nat.ltb_spec n (length (actualWidth p))) as [Hin|Hout].
            -- rewrite nth_lookup, list_lookup_insert_eq by lia. simpl.
               ltb_cases.
            -- rewrite list_insert_ge by lia. rewrite Hw. ltb_cases.
          * rewrite nth_lookup, list_lookup_insert_ne, <- nth_lookup by lia.
            rewrite Hw. ltb_cases.
        + rewrite Hw. ltb_cases. }
    destruct (Z.of_nat n <? ArraySize_colWidth) eqn:E;
      destruct (showHeader _ =? 0) eqn:E2; apply Hgoal; 
      simpl; try rewrite E; auto.
Qed.

Lemma first_row_width_auto p azCol a i :
  (i < 100)%nat -> nth i (colWidth p) 0 = 0 ->
  first_row_width p (Some a) azCol i = spec_auto_width p azCol a i.
Proof.
  intros Hi H0. unfold first_row_width, spec_auto_width, ArraySize_colWidth.
  destruct (Z.ltb_spec (Z.of_nat i) 100); [|lia].
  rewrite H0. simpl.
  destruct (Z.ltb_spec (strlen30 (nth i azCol [])) 10);
    match goal with |- context [?x <? ?y] => destruct (Z.ltb_spec x y) end;
    lia.
Qed.

(** After the first row the callback only counts and prints. *)
Lemma shell_callback_column_later q nArg r azCol :
  cnt q <> 0 ->
  actualWidth (shell_callback_column q nArg (Some r) azCol) = actualWidth q
  /\ mode (shell_callback_column q nArg (Some r) azCol) = mode q
  /\ cnt (shell_callback_column q nArg (Some r) azCol) = cnt q + 1.
Proof.
  intros Hc. unfold shell_callback_column.
  destruct (Z.eqb_spec (cnt q) 0); [contradiction|].
  destruct (for_loop_same_layout (Z.to_nat nArg) (column_row_step nArg r)
              (set_cnt q (cnt q + 1))) as (_ & Ha & _ & Hm & _ & Hk).
  { intros i q0. apply same_layout_emit. }
  simpl. rewrite Ha, Hm, Hk. repeat split.
Qed.

Lemma shell_callback_column_rows q nArg azCol rows :
  0 < cnt q ->
  actualWidth (fold_left
      (fun q r => shell_callback_column q nArg (Some r) azCol) rows q)
    = actualWidth q
  /\ mode (fold_left
      (fun q r => shell_callback_column q nArg (Some r) azCol) rows q)
    = mode q
  /\ cnt (fold_left
      (fun q r => shell_callback_column q nArg (Some r) azCol) rows q)
    = cnt q + Z.of_nat (length rows).
Proof.
  revert q. induction rows as [|r rows IH]; intros q Hq;
    cbn [fold_left length].
  - repeat split. lia.
  - destruct (shell_callback_column_later q nArg r azCol) as (Ha & Hm & Hk);
      [lia|].
    destruct (IH (shell_callback_column q nArg (Some r) azCol)) as (Ha' & Hm' & Hk');
      [lia|].
    rewrite Ha', Hm', Hk', Ha, Hm, Hk. repeat split. lia.
Qed.

Lemma row_width_column q r i :
  mode q = MODE_Column ->
  row_width q r i = if Z.of_nat i <? ArraySize_colWidth
                    then nth i (actualWidth q) 0 else 10.
Proof.
  intros Hm. unfold row_width. rewrite Hm. simpl.
  now destruct (r !! i) as [[v|]|].
Qed.

(** C5, as the code has it.  In column mode, for a column [i] below the
    capacity of the width table (100) whose configured width is 0, the
    first row stores max(10, header length, length of the first row's
    rendered value) in the table of actual widths; that row and every
    later row of the result set are printed with this width, and later
    rows leave the table unchanged.  For a column at index 100 or
    beyond, every row is printed with width 10. *)
Theorem column_auto_width_frozen
    (p : callback_data) (nArg : Z) (a : row) (azCol : list bytes) (i : nat) :
  mode p = MODE_Column -> cnt p = 0 ->
  length (actualWidth p) = 100%nat ->
  (i < Z.to_nat nArg)%nat -> (i < 100)%nat ->
  nth i (colWidth p) 0 = 0 ->
  let p1 := shell_callback_column p nArg (Some a) azCol in
  nth i (actualWidth p1) 0 = spec_auto_width p azCol a i
  /\ row_width p1 a i = spec_auto_width p azCol a i
  /\ (forall rows r,
        let pn := fold_left
                    (fun q r => shell_callback_column q nArg (Some r) azCol)
                    rows p1 in
        actualWidth pn = actualWidth p1
        /\ row_width pn r i = spec_auto_width p azCol a i)
  /\ (forall q r j,
        mode q = MODE_Column -> (100 <= j)%nat -> row_width q r j = 10).
Proof.
  intros Hm Hc Hl Hi Hi100 Hw0 p1.
  assert (Hp1 : nth i (actualWidth p1) 0 = spec_auto_width p azCol a i
                /\ mode p1 = MODE_Column /\ cnt p1 = 1).
  { unfold p1, shell_callback_column. rewrite Hc. simpl.
    set (p0 := set_cnt p (0 + 1)).
    pose proof (column_first_row_loop nArg (Some a) azCol p0 (Z.to_nat nArg))
      as (Hcw & Hnv & Hmo & Hsh & Hcn & Hlen & Hnth).
    set (pf := for_loop (Z.to_nat nArg) _ p0) in *.
    set (pr := if showHeader pf =? 0 then pf
               else for_loop (Z.to_nat nArg) (column_rule_step nArg) pf).
    assert (Hr : same_layout pf pr).
    { unfold pr. destruct (showHeader pf =? 0); [apply same_layout_refl|].
      apply for_loop_same_layout. intros; apply same_layout_emit. }
    assert (Hrow : same_layout pr
              (for_loop (Z.to_nat nArg) (column_row_step nArg a) pr)).
    { apply for_loop_same_layout. intros; apply same_layout_emit. }
    destruct (same_layout_trans _ _ _ Hr Hrow) as (_ & Ha & _ & Hm' & _ & Hk').
    rewrite Ha, Hm', Hk', Hmo, Hcn, Hnth. simpl. rewrite Hl.
    repeat split; try assumption.
    replace (i <? Z.to_nat nArg)%nat with true
      by (symmetry; apply Nat.ltb_lt; lia).
    replace (i <? 100)%nat with true by (symmetry; apply Nat.ltb_lt; lia).
    simpl. rewrite (first_row_width_ext p p0) by reflexivity.
    apply first_row_width_auto; assumption. }
  destruct Hp1 as (Hnth & Hmode & Hcnt).
  assert (Hlt : (Z.of_nat i <? ArraySize_colWidth) = true)
    by (apply Z.ltb_lt; unfold ArraySize_colWidth; lia).
  repeat split.
  - exact Hnth.
  - rewrite row_width_column, Hlt by assumption. exact Hnth.
  - apply (shell_callback_column_rows p1 nArg azCol rows). lia.
  - pose proof (shell_callback_column_rows p1 nArg azCol rows) as H.
    destruct H as (Ha & Hm' & _); [lia|].
    rewrite row_width_column, Hlt by congruence. rewrite Ha. exact Hnth.
  - intros q r j Hq Hj. rewrite row_width_column by assumption.
    destruct (Z.ltb_spec (Z.of_nat j) ArraySize_colWidth) as [H|H];
      [unfold ArraySize_colWidth in H; lia | reflexivity].
Qed.

Lemma column_auto_width_frozen_witness :
  let p1 := shell_callback_column column_session 1
              (Some [Some (s2b "4")]) [s2b "id"] in
  nth 0 (actualWidth p1) 0 = 10
  /\ f_text (out p1) = s2b "4         " ++ [10].
Proof.
  split.
  - apply (column_auto_width_frozen column_session 1 [Some (s2b "4")]
             [s2b "id"] 0); solve [reflexivity | vm_compute; lia].
  - reflexivity.
Defined.

(** C5 as stated fails for a column beyond the width table: the header
    of column 100 is 20 bytes long, the rows are printed with width 10. *)
Lemma column_width_beyond_table_counterexample :
  let p1 := shell_callback_column column_session 101 (Some wide_row)
              wide_cols in
  spec_auto_width column_session wide_cols wide_row 100 = 20
  /\ row_width p1 wide_row 100 = 10
  /\ row_width p1 wide_row 100
     <> spec_auto_width column_session wide_cols wide_row 100.
Proof. vm_compute. repeat split; discriminate. Qed.

(* ------------------------------------------------------------------ *)
(** ** Schema dump engine: the text of a row *)

Lemma finds_dashdash_contains (z : bytes) :
  finds_dashdash z = contains_bytes [45; 45] (cstr z).
Proof.
  induction z as [|c z IH]; [reflexivity|].
  cbn [finds_dashdash cstr].
  destruct (Z.eqb_spec c 0) as [->|Hc]; [reflexivity|].
  cbn [contains_bytes]. rewrite <- IH.
  assert (Hp : is_prefix_of [45; 45] (c :: cstr z)
               = (c =? 45) && (char0 z =? 45)).
  { cbn [is_prefix_of]. rewrite (Z.eqb_sym 45 c). f_equal.
    destruct z as [|d z']; [reflexivity|].
    cbn [cstr char0 hd].
    destruct (Z.eqb_spec d 0) as [->|Hd]; [reflexivity|].
    cbn [is_prefix_of]. now rewrite (Z.eqb_sym 45 d), andb_true_r. }
  rewrite Hp. destruct (_ && _); reflexivity.
Qed.

(** C6, as the code has it: the row is written with its columns
    joined by commas and followed by a semicolon, and the semicolon is
    on a line of its own exactly when the text of the first column
    contains [--] anywhere. *)
Theorem dump_row_semicolon_placement (nResult : Z) (r : row) :
  dump_row_text nResult r =
    fmt_s (default None (r !! 0%nat))
    ++ for_loop (Z.to_nat nResult - 1)
         (fun k acc =>
            acc ++ s2b "," ++ fmt_s (default None (r !! Datatypes.S k))) []
    ++ (if contains_bytes (s2b "--")
             (cstr (default [] (default None (r !! 0%nat))))
        then [10] ++ s2b ";" ++ [10]
        else s2b ";" ++ [10])
  /\ forall z, dump_row_text 1 [Some z] =
       cstr z ++ (if contains_bytes (s2b "--") (cstr z)
                  then [10] ++ s2b ";" ++ [10]
                  else s2b ";" ++ [10]).
Proof.
  split.
  - unfold dump_row_text. now rewrite finds_dashdash_contains.
  - intros z. unfold dump_row_text. now rewrite finds_dashdash_contains.
Qed.

Example dump_row_plain :
  dump_row_text 1 [Some (s2b "INSERT INTO t VALUES(1)")]
  = s2b "INSERT INTO t VALUES(1);" ++ [10].
Proof. reflexivity. Qed.

Example dump_row_trailing_comment :
  dump_row_text 1 [Some (s2b "CREATE VIEW v AS SELECT 1 --")]
  = s2b "CREATE VIEW v AS SELECT 1 --" ++ [10] ++ s2b ";" ++ [10].
Proof. reflexivity. Qed.

(** C6 as stated fails: the text [a--b] does not end in [--], and the
    semicolon is written on a line of its own. *)
Lemma dump_row_inner_dashes_counterexample :
  ~ spec_dump_row_rule (s2b "a--b").
Proof. unfold spec_dump_row_rule. vm_compute. discriminate. Qed.

(* ------------------------------------------------------------------ *)
(** ** Schema dump engine: the second try after a corruption error *)










(** On an engine whose every query ends in [SQLITE_CORRUPT] the catalog
    query is run twice, and so is the row-dump query of the table each
    time its catalog row is seen. *)
Example corrupt_engine_calls :
  let q := s2b "SELECT name, type, sql FROM sqlite_master" in
  let r := run_schema_dump_query corrupt_engine true dump_start q in
  fst r = SQLITE_CORRUPT
  /\ exec_queries (ds_log (snd r)) = [q; q ++ order_by_rowid_desc]
  /\ length (select_queries (ds_log (snd r))) = 4%nat.
Proof. vm_compute. repeat split. Qed.


(* ------------------------------------------------------------------ *)
(** ** Execution pipeline *)

Lemma skip_spaces_length (z : bytes) :
  (length (skip_spaces z) <= length z)%nat.
Proof.
  induction z as [|c z IH]; simpl; [lia|].
  destruct (IsSpace c); simpl; lia.
Qed.

(** Once [rc] is not [SQLITE_OK] the loop is left at once. *)
Lemma shell_exec_loop_stops fuel prepare cb pz zSql rc msg pArg trace :
  rc <> SQLITE_OK ->
  shell_exec_loop fuel prepare cb pz zSql rc msg pArg trace
  = {| er_rc := rc; er_errmsg := msg; er_pArg := pArg; er_trace := trace |}.
Proof.
  intros Hrc. destruct fuel; simpl; [reflexivity|].
  destruct (Z.eqb_spec rc SQLITE_OK); [contradiction|].
  now rewrite orb_true_r.
Qed.

(** The loop ends by its own test: fuel above the length of the text
    is never used up. *)
Lemma shell_exec_loop_fuel prepare cb pz fuel1 :
  forall fuel2 zSql rc msg pArg trace,
    (length zSql < fuel1)%nat -> (length zSql < fuel2)%nat ->
    shell_exec_loop fuel1 prepare cb pz zSql rc msg pArg trace
    = shell_exec_loop fuel2 prepare cb pz zSql rc msg pArg trace.
Proof.
  induction fuel1 as [|fuel1 IH]; intros fuel2 zSql rc msg pArg trace H1 H2;
    [lia|].
  destruct fuel2 as [|fuel2]; [lia|].
  cbn [shell_exec_loop].
  destruct (Z.eqb_spec (char0 zSql) 0) as [|Hne]; [reflexivity|].
  destruct (Z.eqb_spec rc SQLITE_OK) as [->|]; [|reflexivity].
  cbn [orb negb].
  assert (Hlt : forall n, (length (skip_spaces (drop (S n) zSql))
                            < length zSql)%nat).
  { intros n. pose proof (skip_spaces_length (drop (S n) zSql)) as Hs.
    rewrite length_drop in Hs.
    destruct zSql; [now elim Hne|]. simpl in *. lia. }
  destruct (Z.eqb_spec (pa_rc (prepare zSql)) SQLITE_OK) as [Hok|Hfail];
    cbn [negb].
  - destruct (pa_stmt (prepare zSql)) as [s|].
    + destruct (run_steps cb s _) as [rc1 pArg1].
      destruct (Z.eqb_spec
                  (if negb (rc1 =? SQLITE_NOMEM) then st_finalize_rc s else rc1)
                  SQLITE_OK) as [E|E].
      * apply IH; specialize (Hlt (pa_more (prepare zSql))); lia.
      * rewrite !shell_exec_loop_stops by assumption. reflexivity.
    + apply IH; specialize (Hlt (pa_more (prepare zSql))); lia.
  - rewrite !shell_exec_loop_stops by assumption. reflexivity.
Qed.

(** The shape of a run: turns that leave [SQLITE_OK], then at most one
    turn that does not, which is the last and whose result code and
    message are the ones returned. *)
Lemma shell_exec_loop_trace prepare cb fuel :
  forall zSql msg pArg trace,
    let r := shell_exec_loop fuel prepare cb true zSql SQLITE_OK msg pArg
               trace in
    exists oks last,
      er_trace r = trace ++ oks ++ last
      /\ Forall (fun ev => event_rc ev = SQLITE_OK /\ finalize_rule ev) oks
      /\ ((last = [] /\ er_rc r = SQLITE_OK)
          \/ exists ev, last = [ev] /\ finalize_rule ev
               /\ event_rc ev <> SQLITE_OK /\ er_rc r = event_rc ev
               /\ er_errmsg r = event_msg ev).
Proof.
  induction fuel as [|fuel IH]; intros zSql msg pArg trace; cbn zeta.
  - exists [], []. simpl. rewrite app_nil_r. auto.
  - cbn [shell_exec_loop].
    destruct (Z.eqb_spec (char0 zSql) 0) as [|Hne].
    { exists [], []. simpl. rewrite app_nil_r. auto. }
    change (SQLITE_OK =? SQLITE_OK) with true. cbn [orb negb].
    destruct (Z.eqb_spec (pa_rc (prepare zSql)) SQLITE_OK) as [Hok|Hfail];
      cbn [negb].
    + destruct (pa_stmt (prepare zSql)) as [s|].
      * destruct (run_steps cb s _) as [rc1 pArg1].
        set (rc := if negb (rc1 =? SQLITE_NOMEM) then st_finalize_rc s
                   else rc1).
        assert (Hrule : finalize_rule
                  (EvStatement rc1 (st_finalize_rc s) rc (st_errmsg s))).
        { unfold finalize_rule, rc.
          destruct (Z.eqb_spec rc1 SQLITE_NOMEM); cbn [negb]; congruence. }
        destruct (Z.eqb_spec rc SQLITE_OK) as [E|E].
        -- rewrite E.
           match goal with |- context [shell_exec_loop fuel _ _ _ ?z _ ?m ?p ?t]
             => destruct (IH z m p t) as (oks & last & Ht & Ho & Hl) end.
           exists (EvStatement rc1 (st_finalize_rc s) SQLITE_OK (st_errmsg s)
                   :: oks), last.
           rewrite Ht, <- app_assoc. split; [reflexivity|].
           split; [|exact Hl]. constructor; [|exact Ho].
           split; [reflexivity|]. now rewrite E in Hrule.
        -- rewrite shell_exec_loop_stops by assumption.
           exists [], [EvStatement rc1 (st_finalize_rc s) rc (st_errmsg s)].
           cbn [er_trace er_rc er_errmsg app].
           split; [reflexivity|]. split; [constructor|]. right.
           eexists; repeat split; try reflexivity; assumption.
      * rewrite Hok.
        match goal with |- context [shell_exec_loop fuel _ _ _ ?z _ ?m ?p ?t]
          => destruct (IH z m p t) as (oks & last & Ht & Ho & Hl) end.
        exists (EvNothing :: oks), last.
        rewrite Ht, <- app_assoc. split; [reflexivity|].
        split; [|exact Hl]. constructor; [|exact Ho]. now split.
    + rewrite shell_exec_loop_stops by assumption.
      exists [], [EvPrepareFailed (pa_rc (prepare zSql))
                                  (pa_errmsg (prepare zSql))].
      cbn [er_trace er_rc er_errmsg app].
      split; [reflexivity|]. split; [constructor|]. right.
      eexists; repeat split; try reflexivity; assumption.
Qed.

(** C4.  For every statement [shell_exec] runs, the result of the
    statement is [SQLITE_NOMEM] when the steps ended in
    [SQLITE_NOMEM] and the result of the finalize otherwise; and a
    statement whose result is not [SQLITE_OK] is the last turn of the
    loop: nothing of the remaining text is prepared or run, the result
    is returned and the engine's message is stored for the caller. *)
Theorem finalize_result_policy
    (prepare : bytes -> prepare_answer) (zSql : bytes)
    (xCallback : option xCallback_t) (pArg : option callback_data) :
  let r := shell_exec prepare zSql xCallback pArg true in
  (forall step_rc finalize_rc rc m,
     In (EvStatement step_rc finalize_rc rc m) (er_trace r) ->
     rc = if step_rc =? SQLITE_NOMEM then SQLITE_NOMEM else finalize_rc)
  /\ (forall tr1 tr2 step_rc finalize_rc rc m,
        er_trace r = tr1 ++ EvStatement step_rc finalize_rc rc m :: tr2 ->
        rc <> SQLITE_OK ->
        tr2 = [] /\ er_rc r = rc /\ er_errmsg r = Some m).
Proof.
  intros r.
  destruct (shell_exec_loop_trace prepare xCallback (S (length zSql))
              zSql None pArg []) as (oks & last & Ht & Ho & Hl).
  fold (shell_exec prepare zSql xCallback pArg true) in Ht, Hl. fold r in Ht, Hl.
  cbn [app] in Ht. rewrite List.Forall_forall in Ho.
  split.
  - intros step_rc fin rc m Hin. rewrite Ht in Hin.
    apply in_app_or in Hin. destruct Hin as [Hin|Hin].
    + apply (Ho _ Hin).
    + destruct Hl as [[-> _]|(ev & -> & Hr & _)]; [contradiction|].
      destruct Hin as [Heq|[]]. subst ev. exact Hr.
  - intros tr1 tr2 step_rc fin rc m Heq Hrc. rewrite Ht in Heq.
    symmetry in Heq.
    assert (Hnot : ~ In (EvStatement step_rc fin rc m) oks).
    { intros Hin. apply Ho in Hin. destruct Hin as [H0 _]. now apply Hrc. }
    destruct Hl as [[-> _]|(ev & -> & _ & _ & Hrc' & Hmsg)].
    + rewrite app_nil_r in Heq. elim Hnot. rewrite <- Heq.
      apply in_or_app. right. now left.
    + destruct tr2 as [|x tr2 _] using rev_ind.
      * apply app_inj_tail in Heq. destruct Heq as [_ <-]. now repeat split.
      * change (tr1 ++ EvStatement step_rc fin rc m :: tr2 ++ [x])
          with (tr1 ++ (EvStatement step_rc fin rc m :: tr2) ++ [x]) in Heq.
        rewrite app_assoc in Heq. apply app_inj_tail in Heq.
        destruct Heq as [<- _]. elim Hnot.
        apply in_or_app. right. now left.
Qed.

Lemma finalize_result_policy_witness :
  let r := shell_exec toy_prepare (s2b "amb") (Some toy_callback) None true in
  er_rc r = SQLITE_NOMEM /\ er_errmsg r = Some (s2b "engine message").
Proof.
  intros r.
  destruct (proj2 (finalize_result_policy toy_prepare (s2b "amb")
                     (Some toy_callback) None)
              [EvStatement SQLITE_DONE SQLITE_OK SQLITE_OK
                 (s2b "engine message")]
              [] SQLITE_NOMEM SQLITE_OK SQLITE_NOMEM (s2b "engine message")
              eq_refl ltac:(discriminate)) as (_ & Hrc & Hmsg).
  split; assumption.
Defined.

(** Three statements: the first succeeds, the second runs out of
    memory at its row although its finalize succeeds, the third is
    not run. *)
Example shell_exec_nomem_kept :
  let r := shell_exec toy_prepare (s2b "amb") (Some toy_callback) None true in
  er_rc r = SQLITE_NOMEM
  /\ er_errmsg r = Some (s2b "engine message")
  /\ er_trace r =
       [ EvStatement SQLITE_DONE SQLITE_OK SQLITE_OK (s2b "engine message");
         EvStatement SQLITE_NOMEM SQLITE_OK SQLITE_NOMEM
           (s2b "engine message") ].
Proof. vm_compute. repeat split. Qed.

(** A failing finalize is the result and stops the loop. *)
Example shell_exec_finalize_failure :
  let r := shell_exec toy_prepare (s2b "afb") (Some toy_callback) None true in
  er_rc r = SQLITE_ERROR
  /\ er_trace r =
       [ EvStatement SQLITE_DONE SQLITE_OK SQLITE_OK (s2b "engine message");
         EvStatement SQLITE_DONE SQLITE_ERROR SQLITE_ERROR
           (s2b "engine message") ].
Proof. vm_compute. repeat split. Qed.

(* ------------------------------------------------------------------ *)
(** ** Session input assembler *)

Section ProcessInput.
Context {W : Type} (env : shell_env W).
Variables in_file stdin_is_interactive : bool.

(** One line: the error count grows by one exactly when the line
    reports an error, and the loop is left only by an interrupt on a
    file or by an exit request. *)
Lemma process_line_effect (l : input_line) (s s' : pi_state W)
    (go_on : bool) (a : line_action) :
  process_line env in_file stdin_is_interactive l s = (go_on, s', a) ->
  errCnt s' = (if reports_error a then errCnt s + 1 else errCnt s)
  /\ (go_on = false ->
      (a = Interrupted /\ in_file = true) \/ a = MetaCommand 2
      \/ a = OutOfMemory).
Proof.
  unfold process_line.
  repeat match goal with
         | |- context [if ?b then _ else _] => destruct b eqn:?
         | |- context [match ?x with _ => _ end] => destruct x eqn:?
         | |- context [let '(_, _) := ?x in _] => destruct x eqn:?
         end;
    intros H; inversion H; subst; clear H; cbn;
    repeat match goal with
           | H : (_ =? _) = true |- _ => apply Z.eqb_eq in H; subst
           | H : (_ && _) = true |- _ => apply andb_prop in H; destruct H
           | H : ?x = _ |- context [?x] => rewrite H
           end;
    cbn; split; try reflexivity; try discriminate; auto;
    cbn [reports_error] in *;
    match goal with
    | H : negb (?z =? 0) = _ |- _ =>
        destruct (z =? 0), (z =? 2); discriminate
    end.
Qed.

(** The events of a run of the loop. *)
Lemma process_loop_trace (lines : list input_line) :
  forall (s : pi_state W) (trace : list line_event),
    0 <= errCnt s ->
    exists evs,
      snd (process_loop env in_file stdin_is_interactive lines s trace)
        = trace ++ evs
      /\ (loop_test env in_file stdin_is_interactive s = false -> evs = [])
      /\ Forall (fun ev => reports_error (le_action ev) = true ->
                           le_errCnt ev <> 0) evs
      /\ (in_file || negb stdin_is_interactive = true ->
          forall tr1 ev tr2,
            evs = tr1 ++ ev :: tr2 ->
            le_errCnt ev <> 0 -> le_bail ev = true -> tr2 = [])
      /\ (in_file || negb stdin_is_interactive = false ->
          length evs = length lines
          \/ exists tr ev,
               evs = tr ++ [ev]
               /\ (le_action ev = MetaCommand 2
                   \/ le_action ev = OutOfMemory)).
Proof.
  induction lines as [|l lines IH]; intros s trace Hs;
    cbn [process_loop].
  - exists []. rewrite app_nil_r.
    destruct (loop_test _ _ _ s); repeat split; auto;
      intros _ [|? ?] ? ? H; discriminate H.
  - destruct (loop_test env in_file stdin_is_interactive s) eqn:Htest.
    2:{ exists []. rewrite app_nil_r. repeat split; auto.
        - intros _ [|? ?] ? ? H; discriminate H.
        - intros Hi. apply orb_false_elim in Hi. destruct Hi as [Hf Hn].
          apply negb_false_iff in Hn. unfold loop_test in Htest.
          rewrite Hf, Hn, orb_true_r in Htest. discriminate. }
    destruct (process_line env in_file stdin_is_interactive l s)
      as [[go_on s'] a] eqn:Hline.
    destruct (process_line_effect l s s' go_on a Hline) as [Herr Hgo].
    assert (Hs' : 0 <= errCnt s')
      by (rewrite Herr; destruct (reports_error a); lia).
    assert (Hrep : reports_error a = true -> errCnt s' <> 0)
      by (intros Hr; rewrite Herr, Hr; lia).
    set (ev := {| le_action := a; le_errCnt := errCnt s';
                  le_bail := env_bail env (world s') |}).
    destruct go_on.
    + destruct (IH s' (trace ++ [ev]) Hs')
        as (evs & Ht & Hstop & Hall & Hnon & Hint).
      exists (ev :: evs). rewrite Ht, <- app_assoc.
      split; [reflexivity|]. split; [discriminate|].
      split; [constructor; assumption|]. split.
      * intros Hn [|e tr1] ev' tr2 Heq Hcnt Hbail.
        -- injection Heq as <- <-. apply Hstop.
           unfold loop_test. cbn in Hcnt, Hbail. rewrite Hbail.
           destruct (Z.eqb_spec (errCnt s') 0); [contradiction|].
           apply orb_true_elim in Hn. destruct Hn as [Hn|Hn].
           ++ now rewrite Hn.
           ++ apply negb_true_iff in Hn. rewrite Hn. apply andb_false_r.
        -- injection Heq as _ Heq. eapply Hnon; eauto.
      * intros Hi. destruct (Hint Hi) as [Hlen|(tr & ev' & -> & Ha)].
        -- left. cbn. now rewrite Hlen.
        -- right. exists (ev :: tr), ev'. now split.
    + exists [ev]. split; [reflexivity|]. split; [discriminate|].
      split; [constructor; [assumption|constructor]|]. split.
      * intros _ [|e [|e' tr1]] ev' tr2 Heq _ _; try discriminate Heq.
        now injection Heq as _ <-.
      * intros Hi. right. exists [], ev. split; [reflexivity|].
        destruct (Hgo eq_refl) as [[_ Hf]|Ha]; [|exact Ha].
        rewrite Hf in Hi. discriminate.
Qed.
End ProcessInput.

(** C7.  When the input is not an interactive terminal, a line that
    reports an error while [bail_on_error] is set is the last line
    processed.  When the input is an interactive terminal, every line
    is processed, whatever [bail_on_error] is and whatever errors are
    reported, until the input ends, a meta-command asks to exit, or
    the process ends for lack of memory. *)
Theorem bail_stops_input_unless_interactive
    {W : Type} (env : shell_env W) (in_file stdin_is_interactive : bool)
    (lines : list input_line) (w : W) :
  let trace := snd (process_input env in_file stdin_is_interactive lines w) in
  (in_file = true \/ stdin_is_interactive = false ->
   forall tr1 ev tr2,
     trace = tr1 ++ ev :: tr2 ->
     reports_error (le_action ev) = true -> le_bail ev = true ->
     tr2 = [])
  /\ (in_file = false /\ stdin_is_interactive = true ->
      length trace = length lines
      \/ exists tr ev,
           trace = tr ++ [ev]
           /\ (le_action ev = MetaCommand 2 \/ le_action ev = OutOfMemory)).
Proof.
  intros trace.
  destruct (process_loop_trace env in_file stdin_is_interactive lines
              {| zSql := None; nSql := 0; errCnt := 0; lineno := 0;
                 startline := 0; world := w; stderr := [] |} [])
    as (evs & Ht & _ & Hall & Hnon & Hint); [cbn; lia|].
  assert (Htr : trace = evs).
  { unfold trace, process_input.
    destruct (process_loop _ _ _ _ _ _) as [s tr]. exact Ht. }
  rewrite Htr. split.
  - intros Hcase tr1 ev tr2 Heq Hrep Hbail.
    apply (Hnon ltac:(destruct Hcase as [-> | ->];
                      [reflexivity | now rewrite orb_true_r])
             tr1 ev tr2 Heq); [|assumption].
    rewrite List.Forall_forall in Hall. apply Hall; [|assumption].
    rewrite Heq. apply in_or_app. right. now left.
  - intros [-> ->]. now apply Hint.
Qed.

Lemma bail_stops_input_unless_interactive_witness :
  (forall tr1 ev tr2,
     snd (process_input toy_env true false toy_lines true)
       = tr1 ++ ev :: tr2 ->
     reports_error (le_action ev) = true -> le_bail ev = true ->
     tr2 = [])
  /\ (length (snd (process_input toy_env false true toy_lines true))
        = length toy_lines
      \/ exists tr ev,
           snd (process_input toy_env false true toy_lines true) = tr ++ [ev]
           /\ (le_action ev = MetaCommand 2 \/ le_action ev = OutOfMemory)).
Proof.
  split.
  - apply (bail_stops_input_unless_interactive toy_env true false
             toy_lines true).
    left. reflexivity.
  - apply (bail_stops_input_unless_interactive toy_env false true
             toy_lines true).
    split; reflexivity.
Defined.

(** The same input read from a file with the flag set, and typed at a
    terminal. *)
Example process_input_toy :
  map le_action (snd (process_input toy_env true false toy_lines true))
    = [Executed false; Executed true]
  /\ map le_action (snd (process_input toy_env false true toy_lines true))
     = [Executed false; Executed true; Executed false; MetaCommand 2]
  /\ fst (process_input toy_env true false toy_lines true)
     = (1, true, s2b "Error: near line 2: no such thing" ++ [10]).
Proof. vm_compute. repeat split. Qed.

(* ------------------------------------------------------------------ *)
(** ** Meta-command dispatcher: [.mode] *)

(** C8.  [.mode csv] sets the mode to csv and the separator to a
    comma; [.mode tabs] after it sets the mode (to list) and the
    separator to a tab; both return 0, write nothing to the error
    stream and leave every other field of the session as it was. *)
Theorem mode_csv_then_tabs (env : import_env) (p : callback_data) :
  exists p1 p2,
    do_meta_command env (s2b ".mode csv") p = Done (Some (meta_ok p1))
    /\ mode p1 = MODE_Csv /\ separator p1 = s2b ","
    /\ same_but_mode_separator p p1
    /\ do_meta_command env (s2b ".mode tabs") p1 = Done (Some (meta_ok p2))
    /\ mode p2 = MODE_List /\ separator p2 = [9]
    /\ same_but_mode_separator p p2.
Proof.
  exists (set_separator (set_mode p MODE_Csv) (s2b ",")).
  exists (set_separator
            (set_mode (set_separator (set_mode p MODE_Csv) (s2b ","))
               MODE_List) [9]).
  unfold same_but_mode_separator. repeat split.
Qed.

(* ------------------------------------------------------------------ *)
(** ** Meta-command dispatcher: the capacity of the tokenizer *)

Lemma read_not_store mem i : read mem i <> StorePastArgs.
Proof. unfold read. now destruct (mem !! i). Qed.

Lemma scan_until_not_store stop rest i :
  scan_until stop rest i <> StorePastArgs.
Proof.
  revert i. induction rest as [|c rest IH]; intros i; simpl; [discriminate|].
  destruct (stop c); [discriminate|apply IH].
Qed.

Lemma resolve_escape_not_store mem z i :
  resolve_escape mem z i <> StorePastArgs.
Proof.
  unfold resolve_escape, mbind, outcome_bind.
  pose proof (read_not_store mem (z + i)).
  destruct (read mem (z + i)) as [c| |]; try congruence.
  repeat (match goal with
          | |- context [if ?b then _ else _] => destruct b
          end; try discriminate).
  pose proof (read_not_store mem (z + (i + 1))).
  destruct (read mem (z + (i + 1))) as [d| |]; try congruence.
  destruct (is_octal d); [|discriminate].
  pose proof (read_not_store mem (z + (S i + 1))).
  destruct (read mem (z + (S i + 1))) as [d2| |]; try congruence.
  destruct (is_octal d2); discriminate.
Qed.

Lemma resolve_loop_not_store fuel :
  forall mem z i j, resolve_loop fuel mem z i j <> StorePastArgs.
Proof.
  induction fuel as [|fuel IH]; intros mem z i j; cbn [resolve_loop];
    [discriminate|].
  unfold mbind, outcome_bind.
  pose proof (read_not_store mem (z + i)).
  destruct (read mem (z + i)) as [c| |]; try congruence.
  destruct (c =? 0); [discriminate|].
  destruct (c =? 92).
  - pose proof (resolve_escape_not_store mem z (S i)).
    destruct (resolve_escape mem z (S i)) as [[c' i']| |];
      [apply IH|discriminate|contradiction].
  - apply IH.
Qed.

Lemma resolve_backslashes_not_store mem z :
  resolve_backslashes mem z <> StorePastArgs.
Proof. apply resolve_loop_not_store. Qed.

(** A token is stored inside the array whenever the test of the loop
    has passed, and the count grows by one. *)
Lemma take_token_count (s : tok_state) :
  0 <= t_nArg s < ArraySize_azArg ->
  take_token s <> StorePastArgs
  /\ forall s', take_token s = Done s' -> t_nArg s' = t_nArg s + 1.
Proof.
  intros Hn. unfold take_token, mbind, outcome_bind, store_arg.
  replace ((0 <=? t_nArg s) && (t_nArg s <? ArraySize_azArg)) with true
    by (symmetry; apply andb_true_intro; split;
        [apply Z.leb_le|apply Z.ltb_lt]; lia).
  pose proof (read_not_store (t_mem s) (t_i s)).
  destruct (read (t_mem s) (t_i s)) as [c| |]; try (split; congruence).
  destruct ((c =? 39) || (c =? 34)).
  - pose proof (scan_until_not_store (fun c0 => (c0 =? 0) || (c0 =? c))
                  (drop (S (t_i s)) (t_mem s)) (S (t_i s))).
    destruct (scan_until _ _ _) as [e| |]; try (split; congruence).
    pose proof (read_not_store (t_mem s) e).
    destruct (read (t_mem s) e) as [c1| |]; try (split; congruence).
    destruct (c1 =? c); destruct (c =? 34);
      try (split; [discriminate|intros s' [= <-]; reflexivity]);
      match goal with |- context [resolve_backslashes ?m ?z] =>
        pose proof (resolve_backslashes_not_store m z);
        destruct (resolve_backslashes m z)
      end; split; try congruence; intros s' [= <-]; reflexivity.
  - pose proof (scan_until_not_store (fun c0 => (c0 =? 0) || IsSpace c0)
                  (drop (t_i s) (t_mem s)) (t_i s)).
    destruct (scan_until _ _ _) as [e| |]; try (split; congruence).
    pose proof (read_not_store (t_mem s) e).
    destruct (read (t_mem s) e) as [c1| |]; try (split; congruence).
    destruct (negb (c1 =? 0));
      match goal with |- context [resolve_backslashes ?m ?z] =>
        pose proof (resolve_backslashes_not_store m z);
        destruct (resolve_backslashes m z)
      end; split; try congruence; intros s' [= <-]; reflexivity.
Qed.

Lemma tokenize_loop_count fuel :
  forall s, 0 <= t_nArg s <= ArraySize_azArg ->
    tokenize_loop fuel s <> StorePastArgs
    /\ forall s', tokenize_loop fuel s = Done s' ->
         0 <= t_nArg s' <= ArraySize_azArg.
Proof.
  induction fuel as [|fuel IH]; intros s Hn; cbn [tokenize_loop];
    [split; discriminate|].
  unfold mbind, outcome_bind.
  pose proof (read_not_store (t_mem s) (t_i s)).
  destruct (read (t_mem s) (t_i s)) as [c| |]; try (split; congruence).
  destruct (Z.ltb_spec (t_nArg s) ArraySize_azArg) as [Hlt|Hge].
  2:{ rewrite orb_true_r. split; [discriminate|]. now intros s' [= <-]. }
  destruct (c =? 0); cbn [orb negb].
  { split; [discriminate|]. now intros s' [= <-]. }
  pose proof (scan_until_not_store (fun c0 => negb (IsSpace c0))
                (drop (t_i s) (t_mem s)) (t_i s)).
  destruct (scan_until _ _ _) as [i| |]; try (split; congruence).
  pose proof (read_not_store (t_mem s) i).
  destruct (read (t_mem s) i) as [c1| |]; try (split; congruence).
  destruct (c1 =? 0).
  { split; [discriminate|]. now intros s' [= <-]. }
  set (s1 := {| t_mem := t_mem s; t_i := i; t_nArg := t_nArg s;
                t_azArg := t_azArg s |}).
  destruct (take_token_count s1) as [Hns Hcnt]; [cbn; lia|].
  destruct (take_token s1) as [s2| |]; try (split; congruence).
  apply IH. rewrite (Hcnt s2 eq_refl). cbn. lia.
Qed.

(** C9.  The tokenizer never stores a token beyond the 50 slots of
    [azArg]; it collects at most 50 tokens; and once 50 tokens are
    stored the loop ends at once, with the rest of the line neither
    read as tokens nor changed. *)
Theorem tokenizer_capacity (zLine : bytes) :
  tokenize zLine <> StorePastArgs
  /\ (forall s, tokenize zLine = Done s ->
        0 <= t_nArg s <= 50 /\ (length (args_of s) <= 50)%nat)
  /\ (forall fuel s c,
        t_nArg s = 50 -> t_mem s !! t_i s = Some c ->
        tokenize_loop (S fuel) s = Done s).
Proof.
  destruct (tokenize_loop_count (S (length zLine))
              {| t_mem := zLine ++ [0]; t_i := 1; t_nArg := 0;
                 t_azArg := replicate 50 0%nat |}) as [Hns Hcnt].
  { cbn. unfold ArraySize_azArg. lia. }
  split; [exact Hns|]. split.
  - intros s Hs. specialize (Hcnt s Hs). unfold ArraySize_azArg in Hcnt.
    split; [exact Hcnt|].
    unfold args_of. rewrite length_map, length_seq. lia.
  - intros fuel s c Hn Hc. cbn [tokenize_loop]. unfold read.
    rewrite Hc. unfold mbind, outcome_bind. rewrite Hn.
    now rewrite orb_true_r.
Qed.

Lemma tokenizer_capacity_witness :
  exists s,
    tokenize (s2b ".w 1 2 3 4 5 6 7 8 9 10 11 12 13 14 15 16 17 18 19 20 21 22 23 24 25 26 27 28 29 30 31 32 33 34 35 36 37 38 39 40 41 42 43 44 45 46 47 48 49 50 last")
    = Done s
    /\ (0 <= t_nArg s <= 50 /\ (length (args_of s) <= 50)%nat).
Proof.
  eexists. split; [vm_compute; reflexivity|].
  apply (proj1 (proj2 (tokenizer_capacity (s2b ".w 1 2 3 4 5 6 7 8 9 10 11 12 13 14 15 16 17 18 19 20 21 22 23 24 25 26 27 28 29 30 31 32 33 34 35 36 37 38 39 40 41 42 43 44 45 46 47 48 49 50 last")))).
  vm_compute. reflexivity.
Defined.

(** A line of 52 words: the first 50 are the tokens. *)
Example tokenizer_fifty :
  let line := s2b ".w 1 2 3 4 5 6 7 8 9 10 11 12 13 14 15 16 17 18 19 20 21 22 23 24 25 26 27 28 29 30 31 32 33 34 35 36 37 38 39 40 41 42 43 44 45 46 47 48 49 50 last" in
  exists s, tokenize line = Done s
    /\ t_nArg s = 50
    /\ nth 49 (args_of s) [] = s2b "49"
    /\ drop (t_i s) (t_mem s) = s2b "50 last" ++ [0].
Proof. eexists. vm_compute. repeat split. Qed.

(* ------------------------------------------------------------------ *)
(** ** Meta-command dispatcher: [.import] *)






(** The two files of the examples: the short line rolls the import
    back after one insert; the good file is committed. *)
Example import_short_file :
  let r := do_import (toy_import_env short_file) main_init
             (s2b "f.txt") (s2b "t") in
  ir_rc r = 1
  /\ ir_ops r = [ OpExec (s2b "BEGIN"); OpInsert [s2b "1"; s2b "one"] 0;
                  OpExec (s2b "ROLLBACK") ]
  /\ ir_stderr r
     = s2b "Error: f.txt line 2: expected 2 columns of data but found 1"
       ++ [10].
Proof. vm_compute. repeat split. Qed.

(** The same through the dispatcher. *)
Example import_command_short_file :
  exists r,
    do_meta_command (toy_import_env short_file) (s2b ".import f.txt t")
      main_init = Done (Some r)
    /\ mr_rc r = 1 /\ mr_p r = main_init
    /\ last (mr_ops r) = Some (OpExec (s2b "ROLLBACK")).
Proof. eexists. vm_compute. repeat split. Qed.

Example import_good_file :
  let r := do_import (toy_import_env good_file) main_init
             (s2b "f.txt") (s2b "t") in
  ir_rc r = 0
  /\ committed (run_ops (ir_ops r) {| committed := []; pending := None |})
     = [[s2b "1"; s2b "one"]; [s2b "2"; s2b "two"]].
Proof. vm_compute. repeat split. Qed.

(* ------------------------------------------------------------------ *)
(** ** Meta-command dispatcher: backslashes *)

Lemma resolved_unfold (t : bytes) :
  t <> [] ->
  resolved t = match resolve_step t with
               | Some (b, k) => cons b <$> resolved (drop k t)
               | None => None
               end.
Proof.
  intros Ht. destruct t as [|c t1]; [contradiction|].
  cbn [resolved resolve_step].
  destruct (c =? 92); [|reflexivity].
  destruct t1 as [|c1 t2]; [reflexivity|].
  destruct (c1 =? 110); [reflexivity|].
  destruct (c1 =? 116); [reflexivity|].
  destruct (c1 =? 114); [reflexivity|].
  destruct (is_octal c1); [|reflexivity].
  destruct t2 as [|d1 t3]; [reflexivity|].
  destruct (is_octal d1); [|reflexivity].
  destruct t3 as [|d2 t4]; [reflexivity|].
  destruct (is_octal d2); reflexivity.
Qed.

Lemma resolve_step_used (t : bytes) (b : Z) (k : nat) :
  resolve_step t = Some (b, k) -> (1 <= k <= length t)%nat.
Proof.
  destruct t as [|c t1]; [discriminate|]. cbn [resolve_step].
  destruct (c =? 92); [|intros [= _ <-]; cbn; lia].
  destruct t1 as [|c1 t2]; [discriminate|].
  repeat match goal with
         | |- context [if ?b then _ else _] => destruct b
         | |- context [match ?l with [] => _ | _ :: _ => _ end] => destruct l
         end; intros [= _ <-]; cbn; lia.
Qed.

Lemma read_app (front rest : bytes) (n k : nat) :
  n = (length front + k)%nat -> read (front ++ rest) n = read rest k.
Proof.
  intros ->. unfold read. rewrite lookup_app_r by lia.
  now replace (length front + k - length front)%nat with k by lia.
Qed.

(** The reads of one turn of the loop are those of [resolve_step]. *)
Lemma resolve_turn_reads (front t post : bytes) (z i : nat) (c : Z)
    (t1 : bytes) (b : Z) (k : nat) :
  t = c :: t1 -> resolve_step t = Some (b, k) ->
  (z + i)%nat = length front ->
  (if c =? 92 then resolve_escape (front ++ t ++ 0 :: post) z (S i)
   else Done (c, i))
  = Done (b, (i + k - 1)%nat).
Proof.
  intros -> Hstep Hlen. cbn [resolve_step] in Hstep.
  destruct (c =? 92).
  2:{ injection Hstep as <- <-. f_equal. f_equal. lia. }
  destruct t1 as [|c1 t2]; [discriminate|].
  unfold resolve_escape.
  rewrite (read_app front _ (z + S i) 1) by lia.
  change (read ((c :: c1 :: t2) ++ 0 :: post) 1) with (@Done Z c1).
  cbn [mbind outcome_bind].
  destruct (c1 =? 110); [injection Hstep as <- <-; do 2 f_equal; lia|].
  destruct (c1 =? 116); [injection Hstep as <- <-; do 2 f_equal; lia|].
  destruct (c1 =? 114); [injection Hstep as <- <-; do 2 f_equal; lia|].
  destruct (is_octal c1); [|injection Hstep as <- <-; do 2 f_equal; lia].
  rewrite (read_app front _ (z + (S i + 1)) 2) by lia.
  destruct t2 as [|d1 t3].
  { change (read ((c :: [c1]) ++ 0 :: post) 2) with (@Done Z 0).
    cbn [mbind outcome_bind]. change (is_octal 0) with false. cbn iota.
    injection Hstep as <- <-. do 2 f_equal. lia. }
  change (read ((c :: c1 :: d1 :: t3) ++ 0 :: post) 2) with (@Done Z d1).
  cbn [mbind outcome_bind].
  destruct (is_octal d1); [|injection Hstep as <- <-; do 2 f_equal; lia].
  rewrite (read_app front _ (z + (S (S i) + 1)) 3) by lia.
  destruct t3 as [|d2 t4].
  { change (read ((c :: c1 :: [d1]) ++ 0 :: post) 3) with (@Done Z 0).
    cbn [mbind outcome_bind]. change (is_octal 0) with false. cbn iota.
    cbn zeta in Hstep. injection Hstep as <- <-. do 2 f_equal. lia. }
  change (read ((c :: c1 :: d1 :: d2 :: t4) ++ 0 :: post) 3)
    with (@Done Z d2).
  cbn [mbind outcome_bind]. cbn zeta in Hstep.
  destruct (is_octal d2); injection Hstep as <- <-; do 2 f_equal; lia.
Qed.

(** A store into the gap between the text written and the text not
    yet read. *)
Lemma insert_gap (pre out : bytes) (g : Z) (gs rest : bytes) (c : Z) :
  <[(length pre + length out)%nat := c]> (pre ++ out ++ (g :: gs) ++ rest)
  = pre ++ (out ++ [c]) ++ gs ++ rest.
Proof.
  rewrite insert_app_r.
  replace (length out) with (length out + 0)%nat by lia.
  rewrite insert_app_r. cbn. now rewrite <- app_assoc.
Qed.

(** [resolve_backslashes] on a string that ends properly: the text
    [out] is already written, [gap] lies between it and the unread
    text [t]; the loop writes [resolved t] after [out] and then the
    terminator, and touches nothing before the string or behind its
    old terminator. *)
Lemma resolve_loop_spec (fuel : nat) :
  forall (t u pre out gap post : bytes),
    Forall (fun c => c <> 0) t -> resolved t = Some u ->
    (length t < fuel)%nat ->
    exists gap',
      resolve_loop fuel (pre ++ out ++ gap ++ t ++ 0 :: post)
        (length pre) (length out + length gap) (length out)
      = Done (pre ++ (out ++ u) ++ 0 :: gap' ++ post)
      /\ (length gap' + length u = length gap + length t)%nat.
Proof.
  induction fuel as [|fuel IH]; intros t u pre out gap post Hnz Hres Hfuel;
    [lia|].
  cbn [resolve_loop].
  assert (Hfront : pre ++ out ++ gap ++ t ++ 0 :: post
                   = (pre ++ out ++ gap) ++ t ++ 0 :: post)
    by (now rewrite <- !app_assoc).
  assert (Hflen : (length pre + (length out + length gap))%nat
                  = length (pre ++ out ++ gap))
    by (rewrite !length_app; lia).
  assert (Hread : read (pre ++ out ++ gap ++ t ++ 0 :: post)
                    (length pre + (length out + length gap))
                  = read (t ++ 0 :: post) 0)
    by (rewrite Hfront; apply read_app; lia).
  rewrite Hread. clear Hread.
  destruct t as [|c t1].
  - (* the terminator is read *)
    injection Hres as <-.
    change (read ([] ++ 0 :: post) 0) with (@Done Z 0).
    cbn [mbind outcome_bind]. change (0 =? 0) with true. cbn iota.
    destruct gap as [|g gs].
    + exists []. split; [|reflexivity].
      change (pre ++ out ++ [] ++ [] ++ 0 :: post)
        with (pre ++ out ++ (0 :: []) ++ post).
      rewrite insert_gap. now rewrite <- !app_assoc.
    + exists (gs ++ [0]). split; [|rewrite length_app; cbn; lia].
      change (pre ++ out ++ (g :: gs) ++ [] ++ 0 :: post)
        with (pre ++ out ++ (g :: gs) ++ 0 :: post).
      rewrite insert_gap. rewrite <- !app_assoc. reflexivity.
  - (* a byte of the text is read *)
    assert (Hc : c <> 0) by (now inversion Hnz).
    rewrite resolved_unfold in Hres by discriminate.
    destruct (resolve_step (c :: t1)) as [[b k]|] eqn:Hstep; [|discriminate].
    destruct (resolved (drop k (c :: t1))) as [u'|] eqn:Hres';
      [|discriminate].
    injection Hres as <-.
    pose proof (resolve_step_used _ _ _ Hstep) as Hk.
    change (read ((c :: t1) ++ 0 :: post) 0) with (@Done Z c).
    cbn [mbind outcome_bind].
    destruct (Z.eqb_spec c 0) as [|_]; [contradiction|].
    pose proof (resolve_turn_reads (pre ++ out ++ gap) (c :: t1) post
                  (length pre) (length out + length gap) c t1 b k
                  eq_refl Hstep Hflen) as Hturn.
    rewrite <- Hfront in Hturn. rewrite Hturn. clear Hturn.
    cbn [mbind outcome_bind].
    (* the store goes into the gap or onto the bytes just read *)
    destruct (gap ++ take k (c :: t1)) as [|g gs] eqn:Hgap.
    { apply (f_equal length) in Hgap.
      rewrite length_app, length_take in Hgap. cbn in Hgap, Hk. lia. }
    assert (Hgl : (length gap + k = S (length gs))%nat).
    { apply (f_equal length) in Hgap.
      rewrite length_app, length_take in Hgap. cbn in Hgap, Hk |- *. lia. }
    assert (Hmem : pre ++ out ++ gap ++ (c :: t1) ++ 0 :: post
                   = pre ++ out ++ (g :: gs)
                     ++ drop k (c :: t1) ++ 0 :: post).
    { rewrite <- Hgap, <- !app_assoc.
      now rewrite (app_assoc (take k (c :: t1))), take_drop. }
    rewrite Hmem, insert_gap.
    destruct (IH (drop k (c :: t1)) u' pre (out ++ [b]) gs post)
      as (gap' & Hloop & Hlen).
    { apply Forall_drop. exact Hnz. }
    { exact Hres'. }
    { rewrite length_drop. cbn in Hfuel, Hk |- *. lia. }
    replace (S (length out + length gap + k - 1))
      with (length (out ++ [b]) + length gs)%nat
      by (rewrite length_app; cbn; lia).
    replace (S (length out)) with (length (out ++ [b]))
      by (rewrite length_app; cbn; lia).
    rewrite Hloop. exists gap'. split.
    + now rewrite <- !app_assoc.
    + rewrite length_drop in Hlen. cbn in Hlen, Hk |- *. lia.
Qed.

(** [resolve_backslashes] on the string [t] at the position behind
    [pre]. *)
Lemma resolve_backslashes_spec (pre t post u : bytes) :
  Forall (fun c => c <> 0) t -> resolved t = Some u ->
  exists gap',
    resolve_backslashes (pre ++ t ++ 0 :: post) (length pre)
    = Done (pre ++ u ++ 0 :: gap' ++ post)
    /\ (length gap' + length u = length t)%nat.
Proof.
  intros Hnz Hres.
  destruct (resolve_loop_spec (length (pre ++ t ++ 0 :: post))
              t u pre [] [] post Hnz Hres) as (gap' & Hloop & Hlen).
  { rewrite !length_app. cbn. lia. }
  exists gap'. split; [exact Hloop|exact Hlen].
Qed.

Lemma scan_until_app (stop : Z -> bool) (t : bytes) (term : Z) (post : bytes)
    (i : nat) :
  Forall (fun c => stop c = false) t -> stop term = true ->
  scan_until stop (t ++ term :: post) i = Done (i + length t)%nat.
Proof.
  intros Ht Hterm. revert i.
  induction Ht as [|c t Hc _ IH]; intros i; cbn.
  - rewrite Hterm. f_equal. lia.
  - rewrite Hc, IH. f_equal. lia.
Qed.

Lemma cstr_terminated (u rest : bytes) : cstr (u ++ 0 :: rest) = cstr u.
Proof.
  induction u as [|c u IH]; cbn; [reflexivity|].
  destruct (c =? 0); [reflexivity|]. now rewrite IH.
Qed.

Lemma store_arg_in_range (azArg : list nat) (nArg : Z) (v : nat) :
  0 <= nArg < 50 ->
  store_arg azArg nArg v = Done (<[Z.to_nat nArg := v]> azArg).
Proof.
  intros Hn. unfold store_arg, ArraySize_azArg.
  destruct (Z.leb_spec 0 nArg); [|lia].
  destruct (Z.ltb_spec nArg 50); [reflexivity|lia].
Qed.

Lemma insert_terminator (pre t : bytes) (term : Z) (post : bytes) :
  <[(length pre + length t)%nat := 0]> (pre ++ t ++ term :: post)
  = pre ++ t ++ 0 :: post.
Proof.
  rewrite insert_app_r.
  replace (length t) with (length t + 0)%nat by lia.
  now rewrite insert_app_r.
Qed.

Lemma read_terminator (pre t : bytes) (term : Z) (post : bytes) :
  read (pre ++ t ++ term :: post) (length pre + length t) = Done term.
Proof.
  rewrite app_assoc. rewrite (read_app _ _ _ 0); [reflexivity|].
  rewrite length_app. lia.
Qed.






(** A whole line: the same text unquoted, in double quotes and in
    single quotes. *)
Example tokenize_three_kinds :
  let t := [97; 92; 116; 98] in
  exists s,
    tokenize (s2b ".print " ++ t ++ [32; 34] ++ t ++ [34; 32; 39] ++ t ++ [39])
    = Done s
    /\ args_of s = [s2b "print"; [97; 9; 98]; [97; 9; 98]; t].
Proof. eexists. vm_compute. split; reflexivity. Qed.

(** A backslash at the very end of the line: [resolve_backslashes]
    takes the terminator of the line for the escaped byte and reads on
    behind the buffer. *)
Example tokenize_lone_backslash :
  tokenize [46; 112; 32; 97; 92] = ReadPastLine
  /\ resolved [97; 92] = None.
Proof. split; reflexivity. Qed.

(* ------------------------------------------------------------------ *)
(** ** The loops end by their own tests

    The loops over a buffer are written with fuel; these lemmas show
    that the fuel given is never what ends them: any larger amount
    gives the same result. *)

Lemma resolve_escape_position mem z i c i' :
  resolve_escape mem z i = Done (c, i') -> (i <= i')%nat.
Proof.
  unfold resolve_escape, mbind, outcome_bind.
  destruct (read mem (z + i)) as [c0| |]; try discriminate.
  repeat match goal with
         | |- context [if ?b then _ else _] => destruct b
         | |- context [match read ?m ?n with _ => _ end] =>
             destruct (read m n)
         end; try discriminate; intros [= _ <-]; lia.
Qed.

Lemma resolve_loop_fuel (fuel : nat) :
  forall fuel' mem z i j,
    (length mem <= fuel + (z + i))%nat -> (fuel <= fuel')%nat ->
    resolve_loop fuel mem z i j = resolve_loop fuel' mem z i j.
Proof.
  induction fuel as [|fuel IH]; intros fuel' mem z i j Hlen Hle.
  - assert (Hr : read mem (z + i) = ReadPastLine).
    { unfold read. rewrite lookup_ge_None_2 by lia. reflexivity. }
    destruct fuel'; cbn [resolve_loop]; [reflexivity|].
    rewrite Hr. reflexivity.
  - destruct fuel' as [|fuel']; [lia|]. cbn [resolve_loop].
    unfold mbind, outcome_bind.
    destruct (read mem (z + i)) as [c| |]; try reflexivity.
    destruct (c =? 0); [reflexivity|].
    destruct (c =? 92).
    + destruct (resolve_escape mem z (S i)) as [[c' i']| |] eqn:He;
        try reflexivity.
      apply resolve_escape_position in He.
      apply IH; [rewrite length_insert|]; lia.
    + apply IH; [rewrite length_insert|]; lia.
Qed.

Lemma resolve_loop_length (fuel : nat) :
  forall mem z i j mem',
    resolve_loop fuel mem z i j = Done mem' -> length mem' = length mem.
Proof.
  induction fuel as [|fuel IH]; intros mem z i j mem'; cbn [resolve_loop];
    [discriminate|].
  unfold mbind, outcome_bind.
  destruct (read mem (z + i)) as [c| |]; try discriminate.
  destruct (c =? 0); [intros [= <-]; apply length_insert|].
  destruct (if c =? 92 then resolve_escape mem z (S i) else Done (c, i))
    as [[c' i']| |]; try discriminate.
  intros H. apply IH in H. now rewrite length_insert in H.
Qed.

Lemma scan_until_position stop rest i e :
  scan_until stop rest i = Done e ->
  (i <= e < i + length rest)%nat
  /\ exists c, rest !! (e - i)%nat = Some c /\ stop c = true.
Proof.
  revert i. induction rest as [|c rest IH]; intros i; cbn; [discriminate|].
  destruct (stop c) eqn:Hc.
  - intros [= <-]. split; [lia|]. exists c.
    now replace (i - i)%nat with 0%nat by lia.
  - intros H. apply IH in H. destruct H as [Hr (c' & Hc' & Hs)].
    split; [lia|]. exists c'. split; [|exact Hs].
    now replace (e - i)%nat with (S (e - S i)) by lia.
Qed.

(** A token takes at least one byte of the line, and the line keeps
    its length. *)
Lemma take_token_progress (s s' : tok_state) (c : Z) :
  t_mem s !! t_i s = Some c -> c <> 0 -> IsSpace c = false ->
  take_token s = Done s' ->
  length (t_mem s') = length (t_mem s) /\ (t_i s < t_i s')%nat.
Proof.
  intros Hc Hnz Hsp. unfold take_token, read. rewrite Hc.
  unfold mbind at 1, outcome_bind at 1.
  destruct ((c =? 39) || (c =? 34)).
  - unfold mbind, outcome_bind.
    destruct (store_arg _ _ _) as [az| |]; try discriminate.
    destruct (scan_until _ _ _) as [e| |] eqn:Hscan; try discriminate.
    apply scan_until_position in Hscan. destruct Hscan as [He _].
    destruct (t_mem s !! e) as [c1|]; [|discriminate].
    destruct (c1 =? c); destruct (c =? 34);
      try (intros [= <-]; cbn; rewrite ?length_insert; split; lia);
      match goal with |- context [resolve_backslashes ?m ?z] =>
        destruct (resolve_backslashes m z) as [m'| |] eqn:Hr;
        try discriminate;
        apply resolve_loop_length in Hr
      end; intros [= <-]; cbn; rewrite Hr, ?length_insert; split; lia.
  - unfold mbind, outcome_bind.
    destruct (store_arg _ _ _) as [az| |]; try discriminate.
    destruct (scan_until _ _ _) as [e| |] eqn:Hscan; try discriminate.
    apply scan_until_position in Hscan.
    destruct Hscan as [He (c2 & Hc2 & Hstop)].
    rewrite lookup_drop in Hc2.
    replace (t_i s + (e - t_i s))%nat with e in Hc2 by lia.
    rewrite Hc2.
    assert (He' : (c2 =? 0) = false -> (t_i s <= e)%nat) by (intros; lia).
    assert (Hpos : (c2 =? 0) = true -> (t_i s < e)%nat).
    { intros H0. apply Z.eqb_eq in H0. subst c2.
      destruct (Nat.eq_dec e (t_i s)) as [->|]; [|lia].
      rewrite Hc in Hc2. injection Hc2 as ->. contradiction. }
    destruct (c2 =? 0); cbn [negb];
      match goal with |- context [resolve_backslashes ?m ?z] =>
        destruct (resolve_backslashes m z) as [m'| |] eqn:Hr;
        try discriminate;
        apply resolve_loop_length in Hr
      end; intros [= <-]; cbn; rewrite Hr, ?length_insert; split;
      try reflexivity; try (apply Hpos; reflexivity); lia.
Qed.

Lemma obind_ext {A B : Type} (m : outcome A) (f g : A -> outcome B) :
  (forall a, m = Done a -> f a = g a) -> (m ≫= f) = (m ≫= g).
Proof. intros H. destruct m; cbn; auto. Qed.

Lemma read_Done mem i c : read mem i = Done c -> mem !! i = Some c.
Proof. unfold read. destruct (mem !! i); [intros [= ->]|]; easy. Qed.

Lemma tokenize_loop_fuel (fuel : nat) :
  forall fuel' s,
    (length (t_mem s) <= fuel + t_i s)%nat -> (fuel <= fuel')%nat ->
    tokenize_loop fuel s = tokenize_loop fuel' s.
Proof.
  induction fuel as [|fuel IH]; intros fuel' s Hlen Hle.
  - assert (Hr : read (t_mem s) (t_i s) = ReadPastLine).
    { unfold read. rewrite lookup_ge_None_2 by lia. reflexivity. }
    destruct fuel'; cbn [tokenize_loop]; [reflexivity|].
    rewrite Hr. reflexivity.
  - destruct fuel' as [|fuel']; [lia|]. cbn [tokenize_loop].
    apply obind_ext. intros c _.
    destruct ((c =? 0) || negb (t_nArg s <? ArraySize_azArg));
      [reflexivity|].
    apply obind_ext. intros i Hscan.
    apply scan_until_position in Hscan.
    destruct Hscan as [Hi (c1 & Hc1 & Hstop)].
    rewrite lookup_drop in Hc1.
    replace (t_i s + (i - t_i s))%nat with i in Hc1 by lia.
    apply obind_ext. intros c1' Hread. apply read_Done in Hread.
    rewrite Hc1 in Hread. injection Hread as <-.
    destruct (Z.eqb_spec c1 0) as [|Hnz]; [reflexivity|].
    apply obind_ext. intros s2 Htok.
    apply (take_token_progress _ s2 c1) in Htok;
      [|exact Hc1|exact Hnz|now apply negb_true_iff].
    cbn [t_mem t_i] in Htok. destruct Htok as [Hl Hp].
    apply IH; lia.
Qed.

(** The tokenizer of a line with any larger amount of fuel. *)
Lemma tokenize_fuel (zLine : bytes) (fuel : nat) :
  (length zLine < fuel)%nat ->
  tokenize_loop fuel {| t_mem := zLine ++ [0]; t_i := 1; t_nArg := 0;
                        t_azArg := replicate 50 0%nat |}
  = tokenize zLine.
Proof.
  intros H. symmetry. apply tokenize_loop_fuel; [|lia].
  cbn [t_mem t_i]. rewrite length_app. cbn. lia.
Qed.

Lemma resolve_backslashes_fuel (mem : bytes) (z fuel : nat) :
  (length mem <= fuel)%nat ->
  resolve_loop fuel mem z 0 0 = resolve_backslashes mem z.
Proof.
  intros H. symmetry. apply resolve_loop_fuel; lia.
Qed.

Lemma split_loop_fuel (fuel : nat) :
  forall fuel' sep nSep nCol mem z i inQuote azCol newlines,
    (1 <= nSep)%nat ->
    (length mem <= fuel + z)%nat -> (length mem <= fuel' + z)%nat ->
    split_loop (S fuel) sep nSep nCol mem z i inQuote azCol newlines
    = split_loop (S fuel') sep nSep nCol mem z i inQuote azCol newlines.
Proof.
  induction fuel as [|fuel IH];
    intros fuel' sep nSep nCol mem z i inQuote azCol newlines Hsep H1 H2.
  - cbn [split_loop]. rewrite nth_overflow by lia.
    change (0 =? 0) with true. reflexivity.
  - destruct fuel' as [|fuel'].
    { cbn [split_loop]. rewrite nth_overflow by lia.
      change (0 =? 0) with true. reflexivity. }
    remember (S fuel) as f eqn:Hf. remember (S fuel') as f' eqn:Hf'.
    cbn [split_loop]. subst f f'.
    destruct (nth z mem 0 =? 0); [reflexivity|].
    destruct (_ && _ && _); [|apply IH; lia].
    destruct (i + 1 <? nCol); apply IH; rewrite ?length_insert; lia.
Qed.

Lemma dequote_loop_fuel (fuel : nat) :
  forall fuel' mem z j k,
    (length mem <= fuel + (z + j))%nat ->
    (length mem <= fuel' + (z + j))%nat ->
    dequote_loop (S fuel) mem z j k = dequote_loop (S fuel') mem z j k.
Proof.
  induction fuel as [|fuel IH]; intros fuel' mem z j k H1 H2.
  - cbn [dequote_loop]. rewrite nth_overflow by lia.
    change (0 =? 0) with true. reflexivity.
  - destruct fuel' as [|fuel'].
    { cbn [dequote_loop]. rewrite nth_overflow by lia.
      change (0 =? 0) with true. reflexivity. }
    remember (S fuel) as f eqn:Hf. remember (S fuel') as f' eqn:Hf'.
    cbn [dequote_loop]. subst f f'.
    destruct (nth (z + j) mem 0 =? 0); [reflexivity|].
    destruct (nth (z + j) mem 0 =? 34).
    + destruct (nth (z + S j) mem 0 =? 0); [reflexivity|].
      apply IH; rewrite length_insert; lia.
    + apply IH; rewrite length_insert; lia.
Qed.

(** The scan of a line of [.import] with any larger amount of fuel. *)
Lemma split_line_fuel (sep : bytes) (nCol : Z) (zLine : bytes) (fuel : nat) :
  (1 <= Z.to_nat (strlen30 sep))%nat ->
  (length zLine < fuel)%nat ->
  split_loop (S fuel) sep (Z.to_nat (strlen30 sep)) nCol (zLine ++ [0]) 0 0
    false (replicate (Z.to_nat (nCol + 1)) 0%nat) 0
  = split_line sep nCol zLine.
Proof.
  intros Hsep H. unfold split_line.
  apply split_loop_fuel; try assumption; rewrite length_app; cbn; lia.
Qed.

(* ================================================================== *)
(** ** Output renderer: quoting of values *)

Lemma cstr_app_nonzero (a t : bytes) :
  Forall (fun c => c <> 0) a -> cstr (a ++ t) = a ++ cstr t.
Proof.
  induction 1 as [|c a Hc _ IH]; cbn; [reflexivity|].
  destruct (Z.eqb_spec c 0); [contradiction|]. now rewrite IH.
Qed.

Lemma count_single_nonneg (z : bytes) : 0 <= count_single z.
Proof.
  induction z as [|c z IH]; cbn; [lia|].
  destruct (c =? 0); [lia|]. destruct (c =? 39); lia.
Qed.

Lemma double_quote_char_plain (z : bytes) :
  count_single z = 0 -> double_quote_char 39 z = cstr z.
Proof.
  induction z as [|c z IH]; cbn; [reflexivity|].
  destruct (c =? 0); [reflexivity|].
  destruct (c =? 39).
  - pose proof (count_single_nonneg z). lia.
  - intros H. now rewrite IH.
Qed.

(** The bytes before the position where the inner scan stops are
    copied as they are. *)
Lemma quote_span_spec (z : bytes) :
  let i := quote_span z in
  double_quote_char 39 z = take i z ++ double_quote_char 39 (drop i z)
  /\ cstr z = take i z ++ cstr (drop i z)
  /\ nth i z 0 = char0 (drop i z)
  /\ (char0 (drop i z) = 0 \/ char0 (drop i z) = 39).
Proof.
  induction z as [|c z IH]; cbn.
  - repeat split; auto.
  - destruct (Z.eqb_spec c 0) as [->|H0]; cbn.
    + repeat split; auto.
    + destruct (Z.eqb_spec c 39) as [->|H39]; cbn.
      * repeat split; auto.
      * destruct IH as (IH1 & IH2 & IH3 & IH4).
        destruct (Z.eqb_spec c 0); [contradiction|].
        destruct (Z.eqb_spec c 39); [contradiction|].
        rewrite <- IH1, <- IH2. repeat split; auto.
Qed.

Lemma output_quoted_loop_spec (fuel : nat) :
  forall z, (length z <= fuel)%nat ->
    output_quoted_loop fuel z = double_quote_char 39 z.
Proof.
  induction fuel as [|fuel IH]; intros z Hlen.
  - destruct z; [reflexivity|cbn in Hlen; lia].
  - cbn [output_quoted_loop].
    destruct z as [|c z]; [reflexivity|].
    cbn [char0 hd].
    destruct (Z.eqb_spec c 0) as [->|H0]; [reflexivity|].
    destruct (quote_span_spec (c :: z)) as (H1 & H2 & H3 & H4).
    set (i := quote_span (c :: z)) in *.
    destruct (Nat.eqb_spec i 0) as [Hi|Hi].
    + (* the string starts with a quote *)
      unfold i in Hi. cbn in Hi.
      destruct (Z.eqb_spec c 0); [contradiction|].
      destruct (Z.eqb_spec c 39) as [->|]; [|discriminate].
      cbn. rewrite drop_0, IH by (cbn in Hlen; lia). reflexivity.
    + rewrite H3. rewrite H1.
      assert (Hd : (length (drop i (c :: z)) <= fuel)%nat).
      { rewrite length_drop. cbn in *. lia. }
      destruct (drop i (c :: z)) as [|d rest] eqn:Hdrop.
      * rewrite H2. cbn. reflexivity.
      * cbn [char0 hd] in *.
        replace (drop (S i) (c :: z)) with rest.
        2:{ replace (S i) with (i + 1)%nat by lia.
            rewrite <- drop_drop, Hdrop. reflexivity. }
        destruct (Z.eqb_spec d 39) as [->|Hd39].
        -- cbn. rewrite IH by (cbn in Hd; lia). reflexivity.
        -- destruct H4 as [->|]; [|contradiction].
           rewrite H2. cbn. reflexivity.
Qed.

Lemma double_quote_char_inj (a b : bytes) :
  double_quote_char 39 a = double_quote_char 39 b -> cstr a = cstr b.
Proof.
  revert b. induction a as [|c a IH]; intros b; cbn.
  - destruct b as [|d b]; cbn; [reflexivity|].
    destruct (d =? 0); [reflexivity|]. destruct (d =? 39); discriminate.
  - destruct (Z.eqb_spec c 0) as [->|Hc].
    + destruct b as [|d b]; cbn; [reflexivity|].
      destruct (d =? 0); [reflexivity|]. destruct (d =? 39); discriminate.
    + destruct b as [|d b]; cbn.
      * destruct (c =? 39); discriminate.
      * destruct (Z.eqb_spec d 0) as [->|Hd].
        -- destruct (c =? 39); discriminate.
        -- destruct (Z.eqb_spec c 39) as [->|Hc39];
             destruct (Z.eqb_spec d 39) as [->|Hd39]; intros H.
           ++ injection H as H. f_equal. now apply IH.
           ++ injection H as H _. congruence.
           ++ injection H as H _. congruence.
           ++ injection H as -> H. f_equal. now apply IH.
Qed.

(** X1.  [output_quoted_string] writes the string between single
    quotes with every single quote of the string written twice,
    whichever of its two branches runs; so two strings that are written
    alike are the same string. *)
Theorem output_quoted_string_doubles (z1 z2 : bytes) :
  output_quoted_string z1 = [39] ++ double_quote_char 39 z1 ++ [39]
  /\ (output_quoted_string z1 = output_quoted_string z2 ->
      cstr z1 = cstr z2).
Proof.
  assert (Hform : forall z,
            output_quoted_string z = [39] ++ double_quote_char 39 z ++ [39]).
  { intros z. unfold output_quoted_string.
    destruct (Z.eqb_spec (count_single z) 0) as [H|H].
    - now rewrite double_quote_char_plain.
    - now rewrite output_quoted_loop_spec. }
  split; [apply Hform|].
  rewrite !Hform. intros H.
  apply double_quote_char_inj.
  cbn in H. injection H as H. now apply app_inj_tail in H as [H _].
Qed.

Example output_quoted_string_it_s :
  output_quoted_string (s2b "it's") = s2b "'it''s'".
Proof. reflexivity. Qed.

(** What one turn of [resolve_backslashes] makes of the text written
    for one byte. *)
Lemma c_escape_step (c : Z) (rest : bytes) :
  0 < c < 256 ->
  resolve_step (c_escape c ++ rest) = Some (c, length (c_escape c))
  /\ forallb (fun x => negb (x =? 0)) (c_escape c) = true.
Proof.
  intros Hc.
  assert (Hn : exists n : nat, c = Z.of_nat n /\ (n < 256)%nat).
  { exists (Z.to_nat c). lia. }
  destruct Hn as (n & -> & Hn).
  destruct n as [|n]; [lia|].
  do 255 (destruct n as [|n]; [split; reflexivity|]).
  lia.
Qed.

Lemma output_c_body_resolved (z : bytes) :
  Forall (fun c => 0 < c < 256) z ->
  resolved (output_c_body z) = Some z
  /\ Forall (fun c => c <> 0) (output_c_body z).
Proof.
  induction 1 as [|c z Hc _ [IH1 IH2]]; cbn [output_c_body].
  - split; [reflexivity|constructor].
  - destruct (Z.eqb_spec c 0); [lia|].
    destruct (c_escape_step c (output_c_body z) Hc) as [Hstep Hnz].
    split.
    + rewrite resolved_unfold.
      2:{ intros Hnil. rewrite Hnil in Hstep. discriminate. }
      rewrite Hstep, drop_app_length, IH1. reflexivity.
    + apply Forall_app. split; [|exact IH2].
      rewrite forallb_forall in Hnz. apply List.Forall_forall.
      intros x Hx. specialize (Hnz x Hx).
      destruct (Z.eqb_spec x 0); [discriminate|assumption].
Qed.

(** X2.  What [output_c_string] writes between its two double quotes
    is read back by [resolve_backslashes] as the string itself: run on
    a buffer that holds the written text and its terminator, it leaves
    the string [z] in place, and the bytes before it as they were. *)
Theorem c_string_round_trip (pre z post : bytes) :
  Forall (fun c => 0 < c < 256) z ->
  output_c_string z = [34] ++ output_c_body z ++ [34]
  /\ exists mem',
       resolve_backslashes (pre ++ output_c_body z ++ 0 :: post) (length pre)
       = Done mem'
       /\ take (length pre) mem' = pre
       /\ cstr (drop (length pre) mem') = z.
Proof.
  intros Hz. split; [reflexivity|].
  destruct (output_c_body_resolved z Hz) as [Hres Hnz].
  destruct (resolve_backslashes_spec pre (output_c_body z) post z Hnz Hres)
    as (gap & Hrun & _).
  exists (pre ++ z ++ 0 :: gap ++ post). split; [exact Hrun|]. split.
  - now rewrite take_app_length.
  - rewrite drop_app_length, cstr_terminated.
    rewrite <- (app_nil_r z) at 1. rewrite cstr_app_nonzero; [now rewrite app_nil_r|].
    eapply Forall_impl; [exact Hz|]. cbn. intros; lia.
Qed.

Lemma c_string_round_trip_witness :
  exists mem',
    resolve_backslashes
      (s2b ".show " ++ output_c_body [97; 9; 34; 92; 200] ++ 0 :: [])
      (length (s2b ".show "))
    = Done mem'
    /\ cstr (drop (length (s2b ".show ")) mem') = [97; 9; 34; 92; 200].
Proof.
  destruct (c_string_round_trip (s2b ".show ") [97; 9; 34; 92; 200] [])
    as (_ & mem' & H1 & _ & H3).
  { repeat constructor; lia. }
  exists mem'. split; assumption.
Defined.

Example output_c_string_tab :
  output_c_string [97; 9; 1; 98] = s2b "" ++ [34] ++ s2b "a\t\001b" ++ [34].
Proof. reflexivity. Qed.

(** The bytes before the position where the inner scan of
    [output_html_string] stops are copied as they are. *)
Lemma html_span_spec (z : bytes) :
  let i := html_span z in
  concat (map html_escape (cstr z))
  = take i z ++ concat (map html_escape (cstr (drop i z)))
  /\ nth i z 0 = char0 (drop i z)
  /\ html_stop (char0 (drop i z)) = true.
Proof.
  induction z as [|c z IH]; cbn.
  - repeat split; auto.
  - destruct (html_stop c) eqn:Hs; cbn.
    + rewrite Hs. repeat split; auto.
    + destruct IH as (IH1 & IH2 & IH3).
      unfold html_stop in Hs.
      destruct (Z.eqb_spec c 0); [discriminate|].
      cbn [map concat]. rewrite IH1.
      unfold html_escape at 1.
      destruct (c =? 60); [discriminate|].
      destruct (c =? 38); [discriminate|].
      destruct (c =? 62); [discriminate|].
      destruct (c =? 34); [discriminate|].
      destruct (c =? 39); [discriminate|].
      repeat split; auto.
Qed.

Lemma output_html_loop_spec (fuel : nat) :
  forall z, (length z <= fuel)%nat ->
    output_html_loop fuel z = concat (map html_escape (cstr z)).
Proof.
  induction fuel as [|fuel IH]; intros z Hlen.
  - destruct z; [reflexivity|cbn in Hlen; lia].
  - cbn [output_html_loop].
    destruct z as [|c z]; [reflexivity|].
    cbn [char0 hd].
    destruct (Z.eqb_spec c 0) as [->|H0]; [reflexivity|].
    destruct (html_span_spec (c :: z)) as (H1 & H2 & H3).
    set (i := html_span (c :: z)) in *.
    assert (Htext : (if (0 <? i)%nat then take i (c :: z) else [])
                    = take i (c :: z)).
    { destruct i; reflexivity. }
    rewrite Htext, H2, H1. clear Htext H1 H2.
    assert (Hd : (length (drop i (c :: z)) <= S fuel)%nat).
    { rewrite length_drop. cbn in *. lia. }
    assert (Hnext : forall d rest, drop i (c :: z) = d :: rest ->
              drop (S i) (c :: z) = rest).
    { intros d rest Hdrop. replace (S i) with (i + 1)%nat by lia.
      rewrite <- drop_drop, Hdrop. reflexivity. }
    destruct (drop i (c :: z)) as [|d rest] eqn:Hdrop.
    + cbn. now rewrite app_nil_r.
    + rewrite (Hnext d rest eq_refl).
      cbn [char0 hd] in *. cbn [cstr]. unfold html_stop in H3.
      cbn in Hd.
      destruct (Z.eqb_spec d 0) as [->|Hd0];
        [cbn; now rewrite app_nil_r|].
      cbn [map concat]. rewrite IH by lia.
      destruct (Z.eqb_spec d 60) as [->|]; [reflexivity|].
      destruct (Z.eqb_spec d 38) as [->|]; [reflexivity|].
      destruct (Z.eqb_spec d 62) as [->|]; [reflexivity|].
      destruct (Z.eqb_spec d 34) as [->|]; [reflexivity|].
      destruct (Z.eqb_spec d 39) as [->|]; [reflexivity|].
      discriminate.
Qed.

(** X3.  [output_html_string] writes every byte of the string as it is,
    except the five bytes [<], [&], [>], the double quote and the single
    quote, for which it writes the entity; so the text written holds
    none of [<], [>] and the two quotes. *)
Theorem output_html_string_escapes (z : bytes) :
  output_html_string z = concat (map html_escape (cstr z))
  /\ Forall (fun c => c <> 60 /\ c <> 62 /\ c <> 34 /\ c <> 39)
       (output_html_string z).
Proof.
  assert (H : output_html_string z = concat (map html_escape (cstr z))).
  { apply output_html_loop_spec. lia. }
  split; [exact H|]. rewrite H. clear H.
  induction (cstr z) as [|c s IH]; cbn [map concat]; [constructor|].
  apply Forall_app. split; [|exact IH].
  unfold html_escape.
  assert (Hent : forall e : string,
            forallb (fun x => negb ((x =? 60) || (x =? 62) || (x =? 34)
                                    || (x =? 39))) (s2b e) = true ->
            Forall (fun c => c <> 60 /\ c <> 62 /\ c <> 34 /\ c <> 39)
              (s2b e)).
  { intros e He. rewrite forallb_forall in He. apply List.Forall_forall.
    intros x Hx. specialize (He x Hx). lia. }
  destruct (Z.eqb_spec c 60); [now apply Hent|].
  destruct (Z.eqb_spec c 38); [now apply Hent|].
  destruct (Z.eqb_spec c 62); [now apply Hent|].
  destruct (Z.eqb_spec c 34); [now apply Hent|].
  destruct (Z.eqb_spec c 39); [now apply Hent|].
  repeat constructor; lia.
Qed.

Example output_html_string_tag :
  output_html_string (s2b "a<b & c") = s2b "a&lt;b &amp; c".
Proof. reflexivity. Qed.

(* ================================================================== *)
(** ** [isNumber] *)

Lemma cstr_split (z : bytes) :
  exists t, z = cstr z ++ t /\ char0 t = 0.
Proof.
  induction z as [|c z (t & Ht & H0)]; cbn.
  - exists []. split; reflexivity.
  - destruct (Z.eqb_spec c 0) as [->|Hc].
    + exists (0 :: z). split; reflexivity.
    + exists t. split; [cbn; congruence|exact H0].
Qed.

Lemma cstr_char0 (t : bytes) : char0 t = 0 -> cstr t = [].
Proof. destruct t as [|c t]; cbn; [reflexivity|]. now intros ->. Qed.

Lemma skip_digits_app (ds rest : bytes) :
  Forall (fun c => IsDigit c = true) ds -> IsDigit (char0 rest) = false ->
  skip_digits (ds ++ rest) = rest.
Proof.
  intros Hds Hrest. induction Hds as [|d ds Hd _ IH]; cbn.
  - destruct rest as [|c rest]; cbn in *; [reflexivity|]. now rewrite Hrest.
  - now rewrite Hd.
Qed.

Lemma skip_digits_split (z : bytes) :
  exists ds, z = ds ++ skip_digits z
             /\ Forall (fun c => IsDigit c = true) ds
             /\ IsDigit (char0 (skip_digits z)) = false.
Proof.
  induction z as [|c z (ds & Hz & Hds & Hstop)]; cbn.
  - exists []. repeat split; constructor.
  - destruct (IsDigit c) eqn:Hc.
    + exists (c :: ds). cbn. repeat split; [congruence|now constructor|exact Hstop].
    + exists []. cbn. repeat split; [constructor|exact Hc].
Qed.

Lemma IsDigit_range (c : Z) : IsDigit c = true -> 48 <= c <= 57.
Proof. unfold IsDigit. lia. Qed.

Lemma char0_app (a b : bytes) : a <> [] -> char0 (a ++ b) = char0 a.
Proof. destruct a; [contradiction|reflexivity]. Qed.

(** The fraction, read and recognised. *)
Lemma number_fraction_complete (frac rest : bytes) (r : option Z) :
  (frac = [] \/ exists f, frac = 46 :: f /\ digits1 f) ->
  IsDigit (char0 rest) = false -> (frac = [] -> char0 rest <> 46) ->
  number_fraction (frac ++ rest) r
  = Some (rest, if bool_decide (frac = []) then r else set_realnum r 1).
Proof.
  intros [->|(f & -> & Hne & Hf)] Hrest H46; unfold number_fraction.
  - cbn [app]. destruct (Z.eqb_spec (char0 rest) 46) as [H|_].
    + now elim H46.
    + reflexivity.
  - cbn [app char0 hd]. change (46 =? 46) with true. cbn [drop].
    rewrite drop_0.
    destruct f as [|d f]; [contradiction|]. cbn [app char0 hd].
    inversion Hf as [|? ? Hd Hf']; subst. rewrite Hd. cbn [negb].
    change (d :: f ++ rest) with ((d :: f) ++ rest).
    now rewrite skip_digits_app.
Qed.

Lemma number_fraction_sound (z z' : bytes) (r r' : option Z) :
  number_fraction z r = Some (z', r') ->
  exists frac,
    z = frac ++ z'
    /\ (frac = [] \/ exists f, frac = 46 :: f /\ digits1 f)
    /\ r' = (if bool_decide (frac = []) then r else set_realnum r 1)
    /\ (frac = [] -> char0 z' <> 46).
Proof.
  unfold number_fraction.
  destruct (Z.eqb_spec (char0 z) 46) as [H46|H46].
  - destruct z as [|c z]; [discriminate|]. cbn in H46. subst c.
    cbn [drop]. rewrite drop_0.
    destruct (IsDigit (char0 z)) eqn:Hd; [|discriminate]. cbn.
    intros [= <- <-].
    destruct (skip_digits_split z) as (ds & Hz & Hds & Hstop).
    exists (46 :: ds). repeat split.
    + cbn. congruence.
    + right. exists ds. split; [reflexivity|]. split; [|exact Hds].
      intros ->. cbn in Hz. rewrite <- Hz in Hstop. congruence.
    + discriminate.
  - intros [= <- <-]. exists []. repeat split; auto.
Qed.

Lemma is_sign_cases (s : bytes) (rest : bytes) :
  is_sign s -> (s = [] -> char0 rest <> 43 /\ char0 rest <> 45) ->
  (if (char0 (s ++ rest) =? 43) || (char0 (s ++ rest) =? 45)
   then drop 1 (s ++ rest) else s ++ rest) = rest.
Proof.
  intros [-> | [-> | ->]] H; cbn; try reflexivity.
  destruct (H eq_refl) as [H1 H2].
  destruct (Z.eqb_spec (char0 rest) 43); [contradiction|].
  destruct (Z.eqb_spec (char0 rest) 45); [contradiction|]. reflexivity.
Qed.

Lemma sign_split (z : bytes) :
  exists s, is_sign s
    /\ z = s ++ (if (char0 z =? 43) || (char0 z =? 45) then drop 1 z else z).
Proof.
  destruct z as [|c z]; cbn.
  - exists []. split; [now left|reflexivity].
  - destruct (Z.eqb_spec c 43) as [->|]; cbn.
    + exists [43]. split; [right; now left|reflexivity].
    + destruct (Z.eqb_spec c 45) as [->|]; cbn.
      * exists [45]. split; [right; now right|reflexivity].
      * exists []. split; [now left|reflexivity].
Qed.

Lemma number_exponent_complete (exp rest : bytes) (r : option Z) :
  (exp = [] \/ exists e es ds,
     exp = e :: es ++ ds /\ (e = 101 \/ e = 69) /\ is_sign es /\ digits1 ds) ->
  IsDigit (char0 rest) = false ->
  (exp = [] -> char0 rest <> 101 /\ char0 rest <> 69) ->
  number_exponent (exp ++ rest) r
  = Some (rest, if bool_decide (exp = []) then r else set_realnum r 1).
Proof.
  intros [->|(e & es & ds & -> & He & Hes & Hne & Hds)] Hrest Hhead;
    unfold number_exponent.
  - cbn [app]. destruct (Hhead eq_refl) as [H1 H2].
    destruct (Z.eqb_spec (char0 rest) 101); [contradiction|].
    destruct (Z.eqb_spec (char0 rest) 69); [contradiction|]. reflexivity.
  - assert (Hhd : (char0 ((e :: es ++ ds) ++ rest) =? 101)
                  || (char0 ((e :: es ++ ds) ++ rest) =? 69) = true).
    { cbn. destruct He as [-> | ->]; reflexivity. }
    rewrite Hhd. cbn [app drop].
    replace (drop 0 ((es ++ ds) ++ rest)) with (es ++ (ds ++ rest))
      by (now rewrite drop_0, app_assoc).
    destruct ds as [|d ds]; [contradiction|].
    inversion Hds as [|? ? Hd Hds']; subst.
    rewrite is_sign_cases.
    + cbn. rewrite Hd. cbn. now rewrite skip_digits_app.
    + exact Hes.
    + intros _. cbn. apply IsDigit_range in Hd. lia.
Qed.

Lemma number_exponent_sound (z z' : bytes) (r r' : option Z) :
  number_exponent z r = Some (z', r') ->
  exists exp,
    z = exp ++ z'
    /\ (exp = [] \/ exists e es ds,
          exp = e :: es ++ ds /\ (e = 101 \/ e = 69) /\ is_sign es
          /\ digits1 ds)
    /\ r' = (if bool_decide (exp = []) then r else set_realnum r 1).
Proof.
  unfold number_exponent.
  destruct ((char0 z =? 101) || (char0 z =? 69)) eqn:He.
  - destruct z as [|e z]; [discriminate|]. cbn in He. cbn [drop].
    rewrite drop_0.
    destruct (sign_split z) as (es & Hes & Hz).
    set (z1 := if (char0 z =? 43) || (char0 z =? 45) then drop 1 z else z)
      in *.
    destruct (IsDigit (char0 z1)) eqn:Hd; [|discriminate]. cbn.
    intros [= <- <-].
    destruct (skip_digits_split z1) as (ds & Hz1 & Hds & Hstop).
    exists (e :: es ++ ds). repeat split.
    + cbn. rewrite <- app_assoc, <- Hz1, <- Hz. reflexivity.
    + right. exists e, es, ds. repeat split; try assumption.
      * lia.
      * intros ->. cbn in Hz1. rewrite <- Hz1 in Hstop. congruence.
  - intros [= <- <-]. exists []. repeat split; auto.
Qed.

(** X4.  [isNumber] returns 1 exactly on the texts of the grammar
    sign? digits (. digits)? ((e|E) sign? digits)?, and what it stores
    through [realnum] tells whether a fraction or an exponent was
    there. *)
Theorem isNumber_grammar (z : bytes) (r : option Z) :
  (forall real, number_text (cstr z) real ->
     isNumber z r = (1, set_realnum r (if real then 1 else 0)))
  /\ (fst (isNumber z r) = 1 -> exists real, number_text (cstr z) real).
Proof.
  destruct (cstr_split z) as (t & Hz & Ht).
  split.
  - intros real (sign & int & frac & exp & Hs & Hsign & [Hne Hint] & Hfrac
                 & Hexp & ->).
    rewrite Hz, Hs. clear Hz Hs.
    destruct int as [|d ds]; [contradiction|].
    inversion Hint as [|? ? Hd Hds]; subst.
    assert (Hexp_t : IsDigit (char0 (exp ++ t)) = false
                     /\ char0 (exp ++ t) <> 46).
    { destruct Hexp as [->|(e & es & x & -> & He & _)]; cbn.
      - rewrite Ht. split; [reflexivity|lia].
      - unfold IsDigit. lia. }
    assert (Hfrac_t : IsDigit (char0 (frac ++ exp ++ t)) = false).
    { destruct Hfrac as [->|(f & -> & _)]; [apply Hexp_t|reflexivity]. }
    unfold isNumber.
    rewrite <- !app_assoc.
    rewrite (orb_comm (_ =? 45) (_ =? 43)).
    rewrite is_sign_cases; [|exact Hsign|].
    2:{ intros _. cbn. apply IsDigit_range in Hd. lia. }
    cbn [app char0 hd drop]. rewrite Hd. cbn [negb]. rewrite drop_0.
    rewrite skip_digits_app by assumption.
    rewrite number_fraction_complete; [|exact Hfrac|apply Hexp_t|].
    2:{ intros _. apply Hexp_t. }
    rewrite number_exponent_complete; [|exact Hexp| |].
    2:{ rewrite Ht. reflexivity. }
    2:{ intros _. rewrite Ht. lia. }
    rewrite Ht. cbn. f_equal.
    destruct r; repeat case_bool_decide; reflexivity.
  - unfold isNumber.
    destruct (sign_split z) as (sign & Hsign & Hzs).
    set (z1 := if (char0 z =? 43) || (char0 z =? 45) then drop 1 z else z)
      in *.
    replace (if (char0 z =? 45) || (char0 z =? 43) then drop 1 z else z)
      with z1 by (unfold z1; now rewrite orb_comm).
    destruct (IsDigit (char0 z1)) eqn:Hd; [|cbn; discriminate]. cbn [negb].
    destruct z1 as [|d z2]; [discriminate|]. cbn in Hd. cbn [drop].
    rewrite drop_0.
    destruct (skip_digits_split z2) as (ds & Hz2 & Hds & _).
    destruct (number_fraction (skip_digits z2) (set_realnum r 0))
      as [[z3 r3]|] eqn:Hf; [|cbn; discriminate].
    apply number_fraction_sound in Hf as (frac & Hz3 & Hfrac & _ & _).
    destruct (number_exponent z3 r3) as [[z4 r4]|] eqn:He;
      [|cbn; discriminate].
    apply number_exponent_sound in He as (exp & Hz4 & Hexp & _).
    cbn [fst]. destruct (Z.eqb_spec (char0 z4) 0) as [H0|]; [|discriminate].
    intros _.
    exists (negb (bool_decide (frac = []) && bool_decide (exp = []))).
    exists sign, (d :: ds), frac, exp.
    assert (Hall : z = (sign ++ (d :: ds) ++ frac ++ exp) ++ z4).
    { rewrite Hzs at 1. rewrite Hz2 at 1. rewrite Hz3, Hz4.
      rewrite <- !app_assoc. reflexivity. }
    repeat split; try assumption; try discriminate.
    + rewrite Hall, cstr_app_nonzero, (cstr_char0 z4 H0), app_nil_r;
        [reflexivity|].
      repeat rewrite Forall_app. repeat split.
      * destruct Hsign as [-> | [-> | ->]]; repeat constructor; lia.
      * constructor; [apply IsDigit_range in Hd; lia|].
        eapply Forall_impl; [exact Hds|].
        cbn. intros x Hx. apply IsDigit_range in Hx. lia.
      * destruct Hfrac as [->|(f & -> & _ & Hf)]; [constructor|].
        constructor; [lia|]. eapply Forall_impl; [exact Hf|].
        cbn. intros x Hx. apply IsDigit_range in Hx. lia.
      * destruct Hexp as [->|(e & es & x & -> & He & Hes & _ & Hx)];
          [constructor|].
        constructor; [lia|]. apply Forall_app. split.
        -- destruct Hes as [-> | [-> | ->]]; repeat constructor; lia.
        -- eapply Forall_impl; [exact Hx|].
           cbn. intros y Hy. apply IsDigit_range in Hy. lia.
    + now constructor.
Qed.

Example isNumber_examples :
  isNumber (s2b "-12.5e+3") (Some 7) = (1, Some 1)
  /\ isNumber (s2b "42") (Some 7) = (1, Some 0)
  /\ isNumber (s2b "1.") (Some 7) = (0, Some 0)
  /\ isNumber (s2b ".5") (Some 7) = (0, Some 7)
  /\ isNumber (s2b " 1") None = (0, None)
  /\ isNumber (s2b "0x10") None = (0, None).
Proof. repeat split. Qed.

(* ================================================================== *)
(** ** The sizes of the buffers of [appendText] and [set_table_name] *)

Lemma double_quote_char_length (q : Z) (z : bytes) :
  Z.of_nat (length (double_quote_char q z))
  = Z.of_nat (length (cstr z)) + count_quote q (length (cstr z)) z.
Proof.
  induction z as [|c z IH]; cbn; [reflexivity|].
  destruct (Z.eqb_spec c 0); cbn; [reflexivity|].
  destruct (c =? q); cbn [length]; lia.
Qed.

(** X5.  The number of bytes [appendText] asks for is the length of
    the text it writes and one more for the terminator, so the
    assertion [(zCsr-zIn)==len] in its quoting branch holds and the
    copy in its other branch ends with the buffer. *)
Theorem appendText_fills_buffer (zIn zAppend : bytes) (quote : Z) :
  Z.of_nat (length (cstr zIn)) < 1073741824 ->
  Z.of_nat (length (cstr zAppend)) < 1073741824 ->
  appendText_len zIn zAppend quote
  = Z.of_nat (length (appendText zIn zAppend quote)) + 1.
Proof.
  intros HIn HApp. unfold appendText_len, appendText.
  rewrite !strlen30_small by assumption.
  destruct (quote =? 0).
  - rewrite length_app. lia.
  - rewrite !length_app. cbn [length].
    pose proof (double_quote_char_length quote zAppend) as H.
    rewrite Nat2Z.id. lia.
Qed.

Lemma appendText_fills_buffer_witness :
  appendText_len (s2b "SELECT ") (s2b "a" ++ [34] ++ s2b "b") 34
  = Z.of_nat (length (appendText (s2b "SELECT ") (s2b "a" ++ [34] ++ s2b "b")
                        34)) + 1.
Proof.
  apply (appendText_fills_buffer (s2b "SELECT ") (s2b "a" ++ [34] ++ s2b "b")
           34); vm_compute; reflexivity.
Defined.

Lemma double_quote_char_cstr (q : Z) (z : bytes) :
  double_quote_char q (cstr z) = double_quote_char q z.
Proof.
  induction z as [|c z IH]; cbn; [reflexivity|].
  destruct (Z.eqb_spec c 0); cbn; [reflexivity|].
  destruct (Z.eqb_spec c 0); [contradiction|]. now rewrite IH.
Qed.

Lemma char0_cstr (z : bytes) : char0 (cstr z) = char0 z.
Proof.
  destruct z as [|c z]; cbn; [reflexivity|].
  destruct (Z.eqb_spec c 0); cbn; congruence.
Qed.

Lemma table_name_scan_spec (z : bytes) :
  forall n nq,
    table_name_scan z n nq
    = (n + Z.of_nat (length (double_quote_char 39 z)),
       nq || existsb (fun c => negb (isalnum c) && negb (c =? 95)) (cstr z)).
Proof.
  induction z as [|c z IH]; intros n nq; cbn.
  - now rewrite Z.add_0_r, orb_false_r.
  - destruct (Z.eqb_spec c 0); cbn.
    + now rewrite Z.add_0_r, orb_false_r.
    + destruct (negb (isalnum c) && negb (c =? 95)) eqn:Hsp.
      * rewrite IH. cbn. rewrite orb_true_r.
        destruct (c =? 39); cbn [length]; f_equal; lia.
      * rewrite IH. cbn. f_equal.
        destruct (Z.eqb_spec c 39) as [->|]; [discriminate|].
        cbn [length]. lia.
Qed.

(** X6.  [set_table_name] asks [malloc] for exactly the bytes it then
    writes: the name with its single quotes doubled, the two quotes
    around it when it is not an identifier, and the terminator. *)
Theorem set_table_name_fills_buffer (p : callback_data) (zName : bytes) :
  exists t,
    zDestTable (set_table_name p (Some zName)) = Some t
    /\ set_table_name_alloc zName = Z.of_nat (length t) + 1.
Proof.
  unfold set_table_name, set_table_name_alloc.
  rewrite table_name_scan_spec, char0_cstr, double_quote_char_cstr.
  cbn [zDestTable set_zDestTable].
  eexists. split; [reflexivity|].
  destruct (_ || _); rewrite ?length_app; cbn [length]; lia.
Qed.

Example set_table_name_quoted :
  zDestTable (set_table_name main_init (Some (s2b "o'clock")))
  = Some (s2b "'o''clock'")
  /\ set_table_name_alloc (s2b "o'clock") = 11
  /\ zDestTable (set_table_name main_init (Some (s2b "t_1"))) = Some (s2b "t_1")
  /\ zDestTable (set_table_name main_init (Some [])) = Some (s2b "''").
Proof. repeat split. Qed.

(* ================================================================== *)
(** ** Output renderer: the other cases of the row callback *)

Lemma emit_emit (p : callback_data) (a b : bytes) :
  emit (emit p a) b = emit p (a ++ b).
Proof.
  unfold emit, set_out, fputs. cbn. now rewrite app_assoc.
Qed.

Lemma emit_nil (p : callback_data) : emit p [] = p.
Proof.
  destruct p as [? ? ? ? [? ?] ? ? ? ? ? ? ? ? ? ? ? ? ? ? ? ?].
  unfold emit, set_out, fputs. cbn. now rewrite app_nil_r.
Qed.

(** A loop that writes one text per turn writes their concatenation. *)
Lemma for_loop_emit (n : nat) (f : callback_data -> nat -> bytes)
    (p : callback_data) :
  (forall q s i, f (emit q s) i = f q i) ->
  for_loop n (fun i q => emit q (f q i)) p
  = emit p (concat (map (f p) (seq 0 n))).
Proof.
  intros Hf. induction n as [|n IH].
  - cbn. now rewrite emit_nil.
  - rewrite for_loop_S, IH, emit_emit, Hf.
    rewrite seq_S, map_app, concat_app. cbn. now rewrite app_nil_r.
Qed.

Lemma line_width_bound (azCol : list bytes) (n : nat) :
  let w := for_loop n
             (fun i w => let len := strlen30 (nth i azCol []) in
                         if w <? len then len else w) 5 in
  5 <= w /\ forall i, (i < n)%nat -> strlen30 (nth i azCol []) <= w.
Proof.
  induction n as [|n [IH5 IH]]; cbn zeta.
  - split; [cbn; lia|intros; lia].
  - rewrite for_loop_S.
    set (w := for_loop n _ 5) in *. cbn zeta.
    destruct (Z.ltb_spec w (strlen30 (nth n azCol []))); split; try lia.
    + intros i Hi. destruct (Nat.eq_dec i n) as [->|]; [lia|].
      specialize (IH i). lia.
    + intros i Hi. destruct (Nat.eq_dec i n) as [->|]; [lia|].
      specialize (IH i). lia.
Qed.

(** X7.  In line mode a record is written as one line per column,
    [name = value], after an empty line when it is not the first
    record; the names are padded on the left to one width, the longest
    name's or 5, so that the [=] signs of a record stand in one
    column. *)
Theorem line_mode_aligned (p : callback_data) (nArg : Z) (a : row)
    (azCol : list bytes) :
  Forall (fun c => Z.of_nat (length (cstr c)) < 1073741824) azCol ->
  let w := line_width nArg azCol in
  shell_callback_line p nArg (Some a) azCol
  = emit (set_cnt p (cnt p + 1))
      ((if 0 <? cnt p then [10] else [])
       ++ concat (map (line_text p w a azCol) (seq 0 (Z.to_nat nArg))))
  /\ forall i, (i < Z.to_nat nArg)%nat ->
       length (fmt_pad w (nth i azCol [])) = Z.to_nat w.
Proof.
  intros Hsmall w. split.
  - unfold shell_callback_line. fold w.
    set (p1 := set_cnt p (cnt p + 1)).
    assert (Hloop : forall q,
              nullvalue q = nullvalue p ->
              for_loop (Z.to_nat nArg)
                (fun i q => emit q (line_text q w a azCol i)) q
              = emit q (concat (map (line_text p w a azCol)
                                  (seq 0 (Z.to_nat nArg))))).
    { intros q Hq. rewrite (for_loop_emit _ (fun q i => line_text q w a azCol i)).
      - f_equal. f_equal. apply map_ext. intros i.
        unfold line_text, value_or_null. now rewrite Hq.
      - reflexivity. }
    destruct (0 <? cnt p).
    + rewrite Hloop by reflexivity. now rewrite emit_emit.
    + rewrite Hloop by reflexivity. reflexivity.
  - intros i Hi. unfold fmt_pad.
    destruct (line_width_bound azCol (Z.to_nat nArg)) as [_ Hw].
    specialize (Hw i Hi).
    change (strlen30 (nth i azCol []) <= w) in Hw.
    assert (Hlen : strlen30 (nth i azCol [])
                   = Z.of_nat (length (cstr (nth i azCol [])))).
    { apply strlen30_small.
      destruct (nth_in_or_default i azCol []) as [Hin| ->]; [|cbn; lia].
      rewrite List.Forall_forall in Hsmall. now apply Hsmall. }
    rewrite length_app, length_replicate. lia.
Qed.

Lemma line_mode_aligned_witness :
  let azCol := [s2b "id"; s2b "description"] in
  let a := [Some (s2b "1"); None] in
  f_text (out (shell_callback_line main_init 2 (Some a) azCol))
  = s2b "         id = 1" ++ [10] ++ s2b "description = " ++ [10].
Proof.
  intros azCol a.
  destruct (line_mode_aligned main_init 2 a azCol) as [H _].
  { repeat constructor. }
  rewrite H. reflexivity.
Defined.

Lemma output_quoted_string_form (z : bytes) :
  output_quoted_string z = [39] ++ double_quote_char 39 z ++ [39].
Proof.
  unfold output_quoted_string.
  destruct (Z.eqb_spec (count_single z) 0) as [H|H].
  - now rewrite double_quote_char_plain.
  - now rewrite output_quoted_loop_spec.
Qed.

(** X8.  In insert mode, called without type information, the row
    callback writes one [INSERT INTO table VALUES(...);] line whose
    values are separated by single commas; a NULL value is written
    [NULL], a value that [isNumber] accepts is written as it is, and
    any other value between single quotes with its single quotes
    doubled. *)
Theorem insert_mode_row (p : callback_data) (nArg : Z) (a : row)
    (azCol : list bytes) (blob : nat -> bytes) :
  mode p = MODE_Insert ->
  callback p nArg (Some a) azCol blob
  = emit (set_cnt p (cnt p + 1))
      (s2b "INSERT INTO " ++ fmt_s (zDestTable p) ++ s2b " VALUES("
       ++ concat (map (insert_value p a None blob) (seq 0 (Z.to_nat nArg)))
       ++ s2b ");" ++ [10])
  /\ forall i,
       let zSep := if (0 <? i)%nat then s2b "," else [] in
       insert_value p a None blob i
       = zSep ++ match a !! i with
                 | Some (Some v) =>
                     if fst (isNumber v None) =? 1 then cstr v
                     else [39] ++ double_quote_char 39 v ++ [39]
                 | _ => s2b "NULL"
                 end.
Proof.
  intros Hmode. split.
  - unfold callback, shell_callback_modes. rewrite Hmode. cbn [Z.eqb MODE_Insert
      MODE_Line MODE_Explain MODE_Column MODE_Semi MODE_List MODE_Html MODE_Tcl
      MODE_Csv Pos.eqb orb].
    unfold shell_callback_insert.
    rewrite (for_loop_emit _ (fun q i => insert_value q a None blob i)).
    + rewrite !emit_emit. f_equal. rewrite <- !app_assoc. reflexivity.
    + reflexivity.
  - intros i zSep. unfold insert_value. fold zSep. cbn [andb orb].
    destruct (a !! i) as [[v|]|]; try reflexivity.
    rewrite output_quoted_string_form.
    assert (H01 : fst (isNumber v None) = 0 \/ fst (isNumber v None) = 1).
    { unfold isNumber.
      repeat match goal with
             | |- context [if ?b then _ else _] => destruct b
             | |- context [match ?o with Some _ => _ | None => _ end] =>
                 destruct o as [[? ?]|]
             end; cbn; auto. }
    destruct H01 as [-> | ->]; reflexivity.
Qed.

Lemma insert_mode_row_witness :
  let p := set_table_name (set_mode main_init MODE_Insert) (Some (s2b "t")) in
  f_text (out (callback p 3 (Some [Some (s2b "1.5"); None; Some (s2b "it's")])
                 [] (fun _ => [])))
  = s2b "INSERT INTO t VALUES(1.5,NULL,'it''s');" ++ [10].
Proof.
  intros p.
  destruct (insert_mode_row p 3 [Some (s2b "1.5"); None; Some (s2b "it's")]
              [] (fun _ => [])) as [H _]; [reflexivity|].
  rewrite H. reflexivity.
Defined.

(** The row callback with all its cases agrees with the one of the
    cases column, list and csv. *)
Lemma shell_callback_modes_agrees (p : callback_data) (nArg : Z)
    (azArg : option row) (azCol : list bytes) (aiType : option (list Z))
    (blob : nat -> bytes) (q : callback_data) :
  shell_callback p nArg azArg azCol = Some (0, q) ->
  shell_callback_modes p nArg azArg azCol aiType blob = q.
Proof.
  unfold shell_callback, shell_callback_modes.
  unfold MODE_Line, MODE_Explain, MODE_Column, MODE_Semi, MODE_List,
    MODE_Html, MODE_Tcl, MODE_Csv, MODE_Insert.
  destruct (Z.eqb_spec (mode p) 0) as [->|]; [discriminate|].
  destruct ((mode p =? 8) || (mode p =? 1)); [now intros [= <-]|].
  destruct ((mode p =? 3) || (mode p =? 2)); [now intros [= <-]|].
  destruct (Z.eqb_spec (mode p) 4) as [->|]; [discriminate|].
  destruct (Z.eqb_spec (mode p) 6) as [->|]; [discriminate|].
  destruct (mode p =? 7); [now intros [= <-]|discriminate].
Qed.

(* ================================================================== *)
(** ** Reading a line: [local_getline] *)

Lemma scan_quotes_app (a b : bytes) (q : bool) :
  scan_quotes (a ++ b) q = scan_quotes b (scan_quotes a q).
Proof. unfold scan_quotes. apply fold_left_app. Qed.

(** What [fgets] reads: a piece of the file that ends with the first
    newline, or a piece without a newline that fills the buffer or
    ends the file. *)
Lemma fgets_read_spec (k : nat) :
  forall stream,
    exists chunk rest,
      fgets_read k stream = (chunk, rest)
      /\ stream = chunk ++ rest
      /\ (length chunk <= k)%nat
      /\ ((exists a, chunk = a ++ [10] /\ Forall (fun c => c <> 10) a)
          \/ (Forall (fun c => c <> 10) chunk
              /\ (length chunk = k \/ rest = []))).
Proof.
  induction k as [|k IH]; intros stream.
  - exists [], stream. cbn. repeat split; [lia|]. right. split; [constructor|now left].
  - destruct stream as [|c s].
    + exists [], []. cbn. repeat split; [lia|]. right. split; [constructor|now right].
    + cbn [fgets_read]. destruct (Z.eqb_spec c 10) as [->|Hc].
      * exists [10], s. cbn. repeat split; [lia|]. left. exists []. split; [reflexivity|constructor].
      * destruct (IH s) as (chunk & rest & Hf & Hs & Hlen & Hshape).
        rewrite Hf. exists (c :: chunk), rest. cbn.
        repeat split; [congruence|lia|].
        destruct Hshape as [(a & -> & Ha)|[Hall Hend]].
        -- left. exists (c :: a). split; [reflexivity|now constructor].
        -- right. split; [now constructor|]. destruct Hend; [left; lia|now right].
Qed.

Lemma first_line_app (csvFlag : bool) (a : bytes) :
  forall q s,
    Forall (fun c => c <> 10) a ->
    first_line csvFlag q (a ++ s)
    = match first_line csvFlag (scan_quotes a q) s with
      | Some (l, r) => Some (a ++ l, r)
      | None => None
      end.
Proof.
  induction a as [|c a IH]; intros q s Ha; cbn [app].
  - cbn. destruct (first_line csvFlag q s) as [[l r]|]; reflexivity.
  - inversion Ha as [|? ? Hc Ha']; subst. cbn [first_line].
    destruct (Z.eqb_spec c 10); [contradiction|]. cbn [andb].
    rewrite IH by assumption.
    change (scan_quotes (c :: a) q)
      with (scan_quotes a (if c =? 34 then negb q else q)).
    destruct (first_line csvFlag _ s) as [[l r]|]; reflexivity.
Qed.

Lemma last_snoc (l : bytes) (c d : Z) : List.last (l ++ [c]) d = c.
Proof. apply last_last. Qed.

Lemma last_no_newline (line chunk : bytes) :
  chunk <> [] -> Forall (fun c => c <> 10) chunk ->
  List.last (line ++ chunk) 0 <> 10.
Proof.
  intros Hne Hall.
  destruct chunk as [|c chunk _] using rev_ind; [contradiction|].
  rewrite app_assoc, last_last.
  apply Forall_app in Hall as [_ Hc]. now inversion Hc.
Qed.

(** The loop of [local_getline] reads the first line, whatever the
    sizes of the pieces [fgets] returns. *)
Lemma local_getline_loop_spec (csvFlag : bool) (fuel : nat) :
  forall nLine line q stream,
    (length stream < fuel)%nat ->
    Z.of_nat (length line) < nLine ->
    Forall (fun c => c <> 0) stream ->
    local_getline_loop fuel csvFlag (fun _ => true) nLine line q stream
    = match first_line csvFlag q stream with
      | Some (l, r) => (Some (strip_cr (line ++ l)), r)
      | None =>
          (if (length (line ++ stream) =? 0)%nat then None
           else Some (line ++ stream), [])
      end.
Proof.
  induction fuel as [|fuel IH]; intros nLine line q stream Hfuel Hn Hnz;
    [lia|].
  cbn [local_getline_loop]. cbn [negb andb].
  rewrite andb_false_r.
  set (nLine' := if nLine <? Z.of_nat (length line) + 100
                 then nLine * 2 + 100 else nLine).
  assert (Hk : Z.of_nat (length line) + 100 <= nLine').
  { unfold nLine'. destruct (Z.ltb_spec nLine (Z.of_nat (length line) + 100)); lia. }
  destruct stream as [|c0 s0].
  - (* the end of the file *)
    cbn [fgets first_line]. rewrite app_nil_r.
    destruct line as [|c line]; [reflexivity|].
    cbn. reflexivity.
  - cbn [fgets].
    destruct (fgets_read_spec (Z.to_nat (nLine' - Z.of_nat (length line) - 1))
                (c0 :: s0)) as (chunk & rest & Hf & Hs & Hlen & Hshape).
    rewrite Hf. rewrite Hs in Hnz. apply Forall_app in Hnz as [Hnzc Hnzr].
    rewrite (cstr_nonzero chunk Hnzc).
    assert (Hchunk : chunk <> []).
    { destruct Hshape as [(a & -> & _)|[_ [Hl| ->]]].
      - now destruct a.
      - intros ->. cbn in Hl. lia.
      - rewrite app_nil_r in Hs. now rewrite <- Hs. }
    assert (Hpos : (0 <? length (line ++ chunk))%nat = true).
    { apply Nat.ltb_lt. rewrite length_app. destruct chunk; [contradiction|cbn; lia]. }
    rewrite Hpos. cbn [andb]. rewrite Hs.
    destruct Hshape as [(a & -> & Ha)|[Hall Hend]].
    + (* the piece ends with a newline *)
      rewrite app_assoc, last_snoc, Z.eqb_refl. cbn [andb].
      rewrite <- !app_assoc. cbn [app].
      rewrite first_line_app by assumption.
      rewrite scan_quotes_app.
      change (scan_quotes [10] (scan_quotes a q)) with (scan_quotes a q).
      cbn [first_line]. change (10 =? 34) with false. cbn iota.
      change (10 =? 10) with true. cbn [andb].
      destruct (negb (scan_quotes a q) || negb csvFlag) eqn:Hend.
      * (* and the newline ends the line *)
        rewrite app_assoc, removelast_last, app_nil_r.
        unfold getline_return, strip_cr. reflexivity.
      * rewrite IH.
        -- destruct (first_line csvFlag (scan_quotes a q) rest) as [[l r]|].
           ++ now rewrite <- !app_assoc.
           ++ rewrite <- !app_assoc. cbn [app]. reflexivity.
        -- rewrite Hs in Hfuel. rewrite length_app in Hfuel.
           rewrite length_app in Hfuel. cbn in Hfuel. lia.
        -- rewrite !length_app in *. cbn [length] in *. lia.
        -- assumption.
    + (* the piece holds no newline *)
      destruct (Z.eqb_spec (List.last (line ++ chunk) 0) 10) as [Hl|_].
      { now apply last_no_newline in Hl. }
      cbn [andb].
      rewrite first_line_app by assumption.
      rewrite IH.
      * destruct (first_line csvFlag (scan_quotes chunk q) rest) as [[l r]|].
        -- now rewrite <- !app_assoc.
        -- now rewrite <- !app_assoc.
      * rewrite Hs in Hfuel. rewrite length_app in Hfuel.
        destruct chunk; [contradiction|]. cbn in Hfuel. lia.
      * rewrite length_app. lia.
      * assumption.
Qed.

(** X9.  On a file without 0 bytes, and when its requests for memory
    are granted, [local_getline] returns the first line of what is
    unread: the bytes before the first newline (with [csvFlag], before
    the first newline that is not between double quotes), without the
    carriage return that may end them, and leaves the bytes after that
    newline unread; when no newline ends a line it returns all the
    bytes that are left, and NULL when none is left.  The sizes of the
    buffer and of the pieces read make no difference. *)
Theorem local_getline_first_line (zPrompt : option bytes) (stream : bytes)
    (csvFlag : bool) :
  Forall (fun c => c <> 0) stream ->
  snd (local_getline zPrompt stream csvFlag (fun _ => true))
  = match first_line csvFlag false stream with
    | Some (l, r) => (Some (strip_cr l), r)
    | None => (if (length stream =? 0)%nat then None else Some stream, [])
    end.
Proof.
  intros Hnz. unfold local_getline. cbn [negb snd].
  rewrite local_getline_loop_spec; [reflexivity|lia|cbn; lia|assumption].
Qed.

Lemma local_getline_first_line_witness :
  snd (local_getline None (s2b "a,b" ++ [13; 10] ++ s2b "c") false
         (fun _ => true))
  = (Some (s2b "a,b"), s2b "c").
Proof.
  rewrite (local_getline_first_line None (s2b "a,b" ++ [13; 10] ++ s2b "c")
             false).
  - reflexivity.
  - repeat constructor; discriminate.
Defined.

(** A newline between double quotes does not end a line for
    [.import]; it does for [process_input]. *)
Example local_getline_quoted_newline :
  let file := [34] ++ s2b "a" ++ [10] ++ s2b "b" ++ [34] ++ s2b ",2" ++ [10]
              ++ s2b "rest" in
  snd (local_getline None file true (fun _ => true))
  = (Some ([34] ++ s2b "a" ++ [10] ++ s2b "b" ++ [34] ++ s2b ",2"),
     s2b "rest")
  /\ snd (local_getline None file false (fun _ => true))
     = (Some ([34] ++ s2b "a"), s2b "b" ++ [34] ++ s2b ",2" ++ [10]
                                ++ s2b "rest").
Proof. split; reflexivity. Qed.

(* ================================================================== *)
(** ** Meta-command dispatcher: lines of plain words *)

Lemma resolved_plain (t : bytes) :
  Forall (fun c => c <> 92) t -> resolved t = Some t.
Proof.
  induction 1 as [|c t Hc _ IH]; cbn; [reflexivity|].
  destruct (Z.eqb_spec c 92); [contradiction|]. now rewrite IH.
Qed.

(** The tokenizer on a plain word: the word stays where it is and its
    terminator is written behind it. *)
Lemma take_token_plain (pre t post : bytes) (term nArg : Z)
    (azArg : list nat) :
  0 <= nArg < 50 -> plain_word t ->
  term = 0 \/ IsSpace term = true ->
  take_token {| t_mem := pre ++ t ++ term :: post; t_i := length pre;
                t_nArg := nArg; t_azArg := azArg |}
  = Done {| t_mem := pre ++ t ++ 0 :: post;
            t_i := (if term =? 0 then (length pre + length t)%nat
                    else S (length pre + length t));
            t_nArg := nArg + 1;
            t_azArg := <[Z.to_nat nArg := length pre]> azArg |}.
Proof.
  intros Hn (Hne & Hall & H39 & H34) Hterm.
  assert (Hnz : Forall (fun c => c <> 0) t)
    by (eapply Forall_impl; [exact Hall|cbn; tauto]).
  assert (Hsp : Forall (fun c => IsSpace c = false) t)
    by (eapply Forall_impl; [exact Hall|cbn; tauto]).
  assert (Hres : resolved t = Some t).
  { apply resolved_plain. eapply Forall_impl; [exact Hall|cbn; tauto]. }
  unfold take_token. cbn [t_mem t_i t_nArg t_azArg].
  rewrite (read_app pre _ _ 0) by lia.
  destruct t as [|c t1]; [contradiction|]. cbn [hd] in H39, H34.
  change (read ((c :: t1) ++ term :: post) 0) with (@Done Z c).
  cbn [mbind outcome_bind].
  destruct (Z.eqb_spec c 39) as [|_]; [contradiction|].
  destruct (Z.eqb_spec c 34) as [|_]; [contradiction|].
  cbn [orb]. rewrite store_arg_in_range by assumption.
  cbn [mbind outcome_bind].
  rewrite drop_app_length, scan_until_app.
  2:{ rewrite Forall_forall in Hnz, Hsp |- *. intros x Hx.
      rewrite (Hsp x Hx). destruct (Z.eqb_spec x 0) as [->|]; [|reflexivity].
      now elim (Hnz 0 Hx). }
  2:{ destruct Hterm as [-> | ->]; [reflexivity|apply orb_true_r]. }
  cbn [mbind outcome_bind]. rewrite read_terminator.
  cbn [mbind outcome_bind].
  destruct (resolve_backslashes_spec pre (c :: t1) post (c :: t1) Hnz Hres)
    as (gap' & Hrb & Hgap).
  assert (gap' = []) as -> by (destruct gap'; [reflexivity|cbn in Hgap; lia]).
  change ([] ++ post) with post in Hrb.
  destruct (Z.eqb_spec term 0) as [->|Ht]; cbn [negb].
  - rewrite Hrb. reflexivity.
  - rewrite insert_terminator, Hrb. reflexivity.
Qed.

Lemma IsSpace_nonzero (c : Z) : IsSpace c = true -> c <> 0.
Proof. unfold IsSpace. lia. Qed.

(** The strings of the tokens found so far stay as they are when the
    buffer changes behind them only. *)
Lemma arg_string_kept (front w rest : bytes) (mem : bytes) :
  Forall (fun c => c <> 0) w ->
  take (length (front ++ w ++ [0])) mem = front ++ w ++ [0] ->
  cstr (drop (length front) mem) = w.
Proof.
  intros Hw Htake.
  rewrite <- (take_drop (length (front ++ w ++ [0])) mem), Htake.
  rewrite <- app_assoc, drop_app_length, <- app_assoc.
  rewrite cstr_app_nonzero by assumption. cbn. now rewrite app_nil_r.
Qed.

Lemma tokenize_loop_words (n : nat) :
  forall items tail pre nArg azArg fuel,
    length items = n ->
    spaced_words items ->
    Forall (fun c => IsSpace c = true) tail ->
    0 <= nArg -> nArg + Z.of_nat n <= 50 -> length azArg = 50%nat ->
    (n < fuel)%nat ->
    exists s',
      tokenize_loop fuel
        {| t_mem := pre ++ words_line items ++ tail ++ [0];
           t_i := length pre; t_nArg := nArg; t_azArg := azArg |}
      = Done s'
      /\ t_nArg s' = nArg + Z.of_nat n
      /\ take (length pre) (t_mem s') = pre
      /\ length (t_azArg s') = 50%nat
      /\ (forall j, (j < Z.to_nat nArg)%nat ->
            nth j (t_azArg s') 0%nat = nth j azArg 0%nat)
      /\ (forall k w, (snd <$> items) !! k = Some w ->
            arg_at s' (Z.to_nat nArg + k) = w).
Proof.
  induction n as [|n IH];
    intros items tail pre nArg azArg fuel Hlen [Hitems Hgaps] Htail H0 H50
      Haz Hfuel.
  - (* no word is left *)
    destruct items; [|discriminate]. cbn [words_line app].
    destruct fuel as [|fuel]; [lia|]. cbn [tokenize_loop t_mem t_i t_nArg].
    rewrite (read_app pre _ _ 0) by lia.
    assert (Hend : forall s : tok_state,
              t_nArg s = nArg -> take (length pre) (t_mem s) = pre ->
              t_azArg s = azArg ->
              exists s', @Done tok_state s = Done s'
                /\ t_nArg s' = nArg + Z.of_nat 0
                /\ take (length pre) (t_mem s') = pre
                /\ length (t_azArg s') = 50%nat
                /\ (forall j, (j < Z.to_nat nArg)%nat ->
                      nth j (t_azArg s') 0%nat = nth j azArg 0%nat)
                /\ (forall k w, (snd <$> @nil (bytes * bytes)) !! k = Some w ->
                      arg_at s' (Z.to_nat nArg + k) = w)).
    { intros s H1 H2 H3. exists s. rewrite H1, H2, H3.
      repeat split; [lia|assumption|]. intros k w Hk. discriminate. }
    destruct tail as [|c tail].
    + cbn. apply Hend; cbn; [reflexivity|apply take_app_length|reflexivity].
    + cbn [app read lookup list_lookup mbind outcome_bind].
      change (read ((c :: tail) ++ [0]) 0) with (@Done Z c).
      cbn [mbind outcome_bind].
      inversion Htail as [|? ? Hc Htail']; subst.
      destruct (Z.eqb_spec c 0) as [->|_]; [discriminate|]. cbn [orb].
      destruct (nArg <? ArraySize_azArg); cbn [negb].
      2:{ apply Hend; cbn; [reflexivity|apply take_app_length|reflexivity]. }
      rewrite drop_app_length.
      rewrite (scan_until_app _ (c :: tail) 0 []).
      2:{ eapply Forall_impl; [exact Htail|]. cbn. intros x ->. reflexivity. }
      2:{ reflexivity. }
      cbn [mbind outcome_bind].
      rewrite (read_app pre _ _ (length (c :: tail))) by lia.
      change (c :: tail ++ [0]) with ((c :: tail) ++ [0]).
      rewrite (read_app (c :: tail) [0] _ 0) by lia.
      change (read [0] 0) with (@Done Z 0).
      cbn [mbind outcome_bind Z.eqb].
      apply Hend; cbn; [reflexivity|apply take_app_length|reflexivity].
  - destruct items as [|[sp w] items]; [discriminate|].
    injection Hlen as Hlen.
    inversion Hitems as [|? ? [Hsp Hw] Hitems']; subst.
    cbn [fst snd] in Hsp, Hw. cbn [tl] in Hgaps.
    cbn [words_line].
    (* the text behind the word starts with its terminator *)
    assert (Hrest : exists term post,
              words_line items ++ tail ++ [0] = term :: post
              /\ (term = 0 \/ IsSpace term = true)
              /\ (term <> 0 ->
                  exists items' tail',
                    post = words_line items' ++ tail' ++ [0]
                    /\ length items' = length items
                    /\ spaced_words items'
                    /\ Forall (fun c => IsSpace c = true) tail'
                    /\ snd <$> items' = snd <$> items)).
    { destruct items as [|[sp2 w2] items2].
      - destruct tail as [|c tail'].
        + exists 0, []. split; [reflexivity|]. split; [now left|]. tauto.
        + inversion Htail as [|? ? Hc Htail']; subst.
          exists c, (tail' ++ [0]). split; [reflexivity|].
          split; [now right|]. intros _. exists [], tail'.
          repeat split; try assumption; constructor.
      - inversion Hgaps as [|? ? Hne2 Hgaps2]; subst. cbn [fst] in Hne2.
        inversion Hitems' as [|? ? [Hsp2 Hw2] Hitems2]; subst.
        cbn [fst snd] in Hsp2, Hw2.
        destruct sp2 as [|c sp2']; [contradiction|].
        inversion Hsp2 as [|? ? Hc Hsp2']; subst.
        exists c, (sp2' ++ w2 ++ words_line items2 ++ tail ++ [0]).
        split; [cbn; now rewrite <- !app_assoc|].
        split; [now right|]. intros _.
        exists ((sp2', w2) :: items2), tail.
        repeat split; try assumption.
        + cbn. now rewrite <- !app_assoc.
        + constructor; [split; assumption|assumption]. }
    destruct Hrest as (term & post & Hrest & Hterm & Hnext).
    destruct Hw as (Hwne & Hwall & Hw39 & Hw34).
    assert (Hwnz : Forall (fun c => c <> 0) w)
      by (eapply Forall_impl; [exact Hwall|cbn; tauto]).
    assert (Hwsp : Forall (fun c => IsSpace c = false) w)
      by (eapply Forall_impl; [exact Hwall|cbn; tauto]).
    destruct w as [|c0 w1]; [contradiction|].
    destruct fuel as [|fuel]; [lia|].
    cbn [tokenize_loop t_mem t_i t_nArg t_azArg].
    (* the byte at [i] is not the terminator *)
    assert (Hhead : exists c text, sp ++ (c0 :: w1) = c :: text /\ c <> 0).
    { destruct sp as [|c sp'].
      - exists c0, w1. split; [reflexivity|]. now inversion Hwnz.
      - exists c, (sp' ++ c0 :: w1). split; [reflexivity|].
        inversion Hsp; subst. now apply IsSpace_nonzero. }
    destruct Hhead as (c & text & Hhead & Hc).
    assert (Hmem : pre ++ (sp ++ (c0 :: w1) ++ words_line items) ++ tail ++ [0]
                   = pre ++ sp ++ (c0 :: w1) ++ term :: post).
    { rewrite <- Hrest. now rewrite <- !app_assoc. }
    rewrite Hmem.
    rewrite (read_app pre _ _ 0) by lia.
    replace (read (sp ++ (c0 :: w1) ++ term :: post) 0) with (@Done Z c).
    2:{ rewrite app_assoc, Hhead. reflexivity. }
    cbn [mbind outcome_bind].
    destruct (Z.eqb_spec c 0); [contradiction|]. cbn [orb].
    destruct (Z.ltb_spec nArg ArraySize_azArg) as [_|Hge];
      [|unfold ArraySize_azArg in Hge; lia].
    cbn [negb]. rewrite drop_app_length.
    rewrite (scan_until_app _ sp c0 (w1 ++ term :: post)).
    2:{ eapply Forall_impl; [exact Hsp|]. cbn. intros x ->. reflexivity. }
    2:{ inversion Hwsp as [|? ? Hc0 _]; subst. cbn. now rewrite Hc0. }
    cbn [mbind outcome_bind].
    rewrite (app_assoc pre sp).
    rewrite (read_app (pre ++ sp) _ _ 0) by (rewrite length_app; lia).
    change (read ((c0 :: w1) ++ term :: post) 0) with (@Done Z c0).
    cbn [mbind outcome_bind].
    destruct (Z.eqb_spec c0 0) as [->|_]; [now inversion Hwnz|].
    replace (length pre + length sp)%nat with (length (pre ++ sp))
      by (now rewrite length_app).
    rewrite take_token_plain; [|lia|repeat split; assumption|assumption].
    cbn [mbind outcome_bind].
    set (azArg1 := <[Z.to_nat nArg := length (pre ++ sp)]> azArg).
    assert (Haz1 : length azArg1 = 50%nat)
      by (unfold azArg1; now rewrite length_insert).
    assert (Hstored : nth (Z.to_nat nArg) azArg1 0%nat = length (pre ++ sp)).
    { unfold azArg1.
      rewrite nth_lookup, list_lookup_insert_eq by lia. reflexivity. }
    destruct (Z.eqb_spec term 0) as [->|Hterm0].
    + (* the word ends the line *)
      assert (items = [] /\ tail = [] /\ post = []) as (-> & -> & ->).
      { destruct items as [|[sp2 w2] items2].
        - destruct tail as [|z tail'];
            [cbn in Hrest; injection Hrest as <-; tauto|].
          cbn in Hrest. injection Hrest as Hz _. subst z.
          inversion Htail as [|? ? Hz0 _]. discriminate Hz0.
        - inversion Hgaps as [|? ? Hne2 _]; subst. cbn [fst] in Hne2.
          inversion Hitems' as [|? ? [Hsp2 _] _]; subst. cbn [fst] in Hsp2.
          destruct sp2 as [|c2 sp2']; [contradiction|].
          cbn in Hrest. injection Hrest as Hz _. subst c2.
          inversion Hsp2 as [|? ? Hz0 _]. discriminate Hz0. }
      destruct fuel as [|fuel]; [cbn in Hfuel; lia|].
      cbn [tokenize_loop t_mem t_i t_nArg t_azArg].
      replace (length (pre ++ sp) + length (c0 :: w1))%nat
        with (length ((pre ++ sp) ++ c0 :: w1))
        by (now rewrite !length_app).
      rewrite app_assoc.
      rewrite (read_app ((pre ++ sp) ++ c0 :: w1) _ _ 0) by lia.
      cbn [read lookup list_lookup mbind outcome_bind Z.eqb orb].
      eexists. split; [reflexivity|]. cbn [t_mem t_nArg t_azArg].
      repeat split.
      * rewrite <- !app_assoc. apply take_app_length.
      * assumption.
      * intros j Hj. unfold azArg1.
        rewrite !nth_lookup, list_lookup_insert_ne by lia. reflexivity.
      * intros k w Hk. destruct k as [|k]; [|discriminate].
        injection Hk as <-. rewrite Nat.add_0_r.
        unfold arg_at. cbn [t_azArg t_mem]. rewrite Hstored.
        rewrite <- (app_assoc (pre ++ sp)), drop_app_length.
        rewrite cstr_app_nonzero by assumption. cbn. now rewrite app_nil_r.
    + destruct (Hnext Hterm0) as (items' & tail' & Hpost & Hlen' & Hsp' & Htail'
                                  & Hsnd).
      set (pre1 := (pre ++ sp) ++ (c0 :: w1) ++ [0]).
      assert (Hpre1 : S (length (pre ++ sp) + length (c0 :: w1)) = length pre1).
      { unfold pre1. rewrite !length_app. cbn. lia. }
      rewrite Hpre1.
      replace ((pre ++ sp) ++ (c0 :: w1) ++ 0 :: post)
        with (pre1 ++ words_line items' ++ tail' ++ [0]).
      2:{ unfold pre1. rewrite Hpost. now rewrite <- !app_assoc. }
      destruct (IH items' tail' pre1 (nArg + 1) azArg1 fuel)
        as (s' & Hrun & HnArg & Htake & Hazlen & Hkeep & Hargs);
        try assumption; try lia.
      exists s'. split; [exact Hrun|].
      assert (Htake0 : take (length (pre ++ sp)) (t_mem s') = pre ++ sp).
      { assert (Hle : (length (pre ++ sp) <= length pre1)%nat)
          by (unfold pre1; rewrite !length_app; lia).
        rewrite <- (Nat.min_l _ _ Hle), <- take_take, Htake.
        unfold pre1. apply take_app_length. }
      repeat split.
      * lia.
      * assert (Hle : (length pre <= length pre1)%nat)
          by (unfold pre1; rewrite !length_app; lia).
        rewrite <- (Nat.min_l _ _ Hle), <- take_take, Htake.
        unfold pre1. rewrite <- !app_assoc. apply take_app_length.
      * assumption.
      * intros j Hj. rewrite Hkeep by lia. unfold azArg1.
        rewrite !nth_lookup, list_lookup_insert_ne by lia. reflexivity.
      * intros k w Hk. destruct k as [|k].
        -- injection Hk as <-. rewrite Nat.add_0_r.
           unfold arg_at. rewrite Hkeep by lia. rewrite Hstored.
           apply (arg_string_kept (pre ++ sp) (c0 :: w1) [] (t_mem s'));
             [assumption|exact Htake].
        -- cbn in Hk. rewrite <- Hsnd in Hk.
           specialize (Hargs k w Hk).
           replace (Z.to_nat nArg + S k)%nat
             with (Z.to_nat (nArg + 1) + k)%nat by lia.
           exact Hargs.
Qed.

Lemma map_seq_lookup {A : Type} (f : nat -> A) (ws : list A) :
  forall start,
    (forall k w, ws !! k = Some w -> f (start + k)%nat = w) ->
    map f (seq start (length ws)) = ws.
Proof.
  induction ws as [|w ws IH]; intros start H; cbn; [reflexivity|].
  f_equal.
  - rewrite <- (Nat.add_0_r start). now apply H.
  - apply IH. intros k x Hk.
    replace (S start + k)%nat with (start + S k)%nat by lia. now apply H.
Qed.

Lemma words_line_length (items : list (bytes * bytes)) :
  Forall (fun it => plain_word (snd it)) items ->
  (length items <= length (words_line items))%nat.
Proof.
  induction 1 as [|[sp w] items (Hne & _) _ IH]; cbn; [lia|].
  rewrite !length_app. cbn in Hne. destruct w; [contradiction|cbn; lia].
Qed.

(** X10.  A line of at most 50 plain words (no quote at their start,
    no backslash), with white space between them, is cut by the
    tokenizer into exactly these words, whatever the white space. *)
Theorem tokenize_plain_words (c0 : Z) (items : list (bytes * bytes))
    (tail : bytes) :
  spaced_words items ->
  Forall (fun c => IsSpace c = true) tail ->
  (length items <= 50)%nat ->
  exists s,
    tokenize (c0 :: words_line items ++ tail) = Done s
    /\ t_nArg s = Z.of_nat (length items)
    /\ args_of s = snd <$> items.
Proof.
  intros Hitems Htail Hlen. unfold tokenize.
  destruct (tokenize_loop_words (length items) items tail [c0] 0
              (replicate 50 0%nat) (S (length (c0 :: words_line items ++ tail))))
    as (s & Hrun & HnArg & _ & _ & _ & Hargs);
    try assumption; try reflexivity; try lia.
  { cbn [length]. rewrite length_app.
    pose proof (words_line_length items) as Hw.
    destruct Hitems as [Hall _].
    assert (Forall (fun it => plain_word (snd it)) items)
      by (eapply Forall_impl; [exact Hall|cbn; tauto]).
    specialize (Hw H). lia. }
  exists s. split; [|split].
  - rewrite <- Hrun. f_equal. f_equal. cbn. now rewrite <- app_assoc.
  - lia.
  - unfold args_of.
    replace (Z.to_nat (t_nArg s)) with (length items) by lia.
    replace (length items) with (length (snd <$> items))
      by (now rewrite length_fmap).
    apply map_seq_lookup. intros k w Hk. now apply Hargs.
Qed.

Lemma tokenize_plain_words_witness :
  exists s,
    tokenize (s2b ".width   10" ++ [9] ++ s2b "20 ") = Done s
    /\ args_of s = [s2b "width"; s2b "10"; s2b "20"].
Proof.
  destruct (tokenize_plain_words 46
              [([], s2b "width"); (s2b "   ", s2b "10"); ([9], s2b "20")]
              (s2b " "))
    as (s & Hrun & _ & Hargs).
  - split.
    + repeat constructor; cbn; discriminate.
    + repeat constructor; discriminate.
  - repeat constructor.
  - cbn. lia.
  - exists s. split; [exact Hrun|exact Hargs].
Defined.

(* ================================================================== *)
(** ** Meta-command dispatcher: the settings *)

Lemma for_loop_ext {S : Type} (n : nat) (f g : nat -> S -> S) (s : S) :
  (forall i x, (i < n)%nat -> f i x = g i x) ->
  for_loop n f s = for_loop n g s.
Proof.
  induction n as [|n IH]; intros H; [reflexivity|].
  rewrite !for_loop_S, IH by (intros; apply H; lia). apply H. lia.
Qed.

Lemma join_spaces_snoc (ws : list bytes) (w : bytes) :
  join_spaces (ws ++ [w])
  = match ws with
    | [] => w
    | _ => join_spaces ws ++ [32] ++ w
    end.
Proof.
  induction ws as [|a ws IH]; [reflexivity|].
  change (join_spaces ((a :: ws) ++ [w]))
    with (join_spaces (a :: (ws ++ [w]))).
  destruct ws as [|b ws]; [reflexivity|].
  change (join_spaces (a :: (b :: ws) ++ [w]))
    with (a ++ [32] ++ join_spaces ((b :: ws) ++ [w])).
  rewrite IH. cbn [join_spaces]. now rewrite <- !app_assoc.
Qed.

(** The loop of [.print] writes its arguments with one space between
    them. *)
Lemma print_command_spec (p : callback_data) (a0 : bytes) (ws : list bytes) :
  print_command p (a0 :: ws) (1 + Z.of_nat (length ws))
  = emit p (join_spaces (map cstr ws) ++ [10]).
Proof.
  unfold print_command.
  replace (Z.to_nat (1 + Z.of_nat (length ws) - 1)) with (length ws) by lia.
  assert (H : for_loop (length ws)
                (fun k q =>
                   let i := S k in
                   let q := if (1 <? i)%nat then emit q (s2b " ") else q in
                   emit q (cstr (nth i (a0 :: ws) [])))
                p
              = emit p (join_spaces (map cstr ws))).
  { induction ws as [|w ws IH] using rev_ind.
    - cbn. now rewrite emit_nil.
    - rewrite length_app. cbn [length]. rewrite Nat.add_1_r, for_loop_S.
      rewrite (for_loop_ext _ _
                 (fun k q =>
                    let i := S k in
                    let q := if (1 <? i)%nat then emit q (s2b " ") else q in
                    emit q (cstr (nth i (a0 :: ws) [])))).
      2:{ intros i x Hi. cbn zeta. do 2 f_equal. cbn [nth].
          now rewrite app_nth1 by lia. }
      rewrite IH. cbn zeta. cbn [nth].
      rewrite app_nth2, Nat.sub_diag by lia. cbn [nth].
      rewrite map_app. cbn [map]. rewrite join_spaces_snoc.
      destruct ws as [|b ws].
      + cbn. now rewrite emit_nil.
      + cbn [length Nat.ltb Nat.leb]. rewrite !emit_emit. reflexivity. }
  cbn zeta in H. rewrite H, emit_emit. reflexivity.
Qed.

Lemma command_items_line (w0 : bytes) (ws : list bytes) :
  words_line (command_items (w0 :: ws))
  = w0 ++ concat (map (fun w => 32 :: w) ws).
Proof.
  cbn. f_equal. induction ws as [|w ws IH]; cbn; [reflexivity|].
  now rewrite IH.
Qed.

Lemma command_items_spaced (w0 : bytes) (ws : list bytes) :
  plain_word w0 -> Forall plain_word ws ->
  spaced_words (command_items (w0 :: ws))
  /\ snd <$> command_items (w0 :: ws) = w0 :: ws
  /\ length (command_items (w0 :: ws)) = S (length ws).
Proof.
  intros H0 Hws. cbn. repeat split.
  - constructor; [split; [constructor|exact H0]|].
    induction Hws as [|w ws Hw _ IH]; cbn; constructor; [|exact IH].
    split; [repeat constructor|exact Hw].
  - induction ws as [|w ws IH]; cbn; constructor; [discriminate|].
    inversion Hws; subst. now apply IH.
  - f_equal. induction ws as [|w ws IH]; cbn; [reflexivity|].
    inversion Hws; subst. f_equal. now apply IH.
  - f_equal. now rewrite length_map.
Qed.

(** A command and its arguments, one space before each argument. *)
Lemma tokenize_command (w0 : bytes) (ws : list bytes) :
  plain_word w0 -> Forall plain_word ws -> (length ws <= 49)%nat ->
  exists s,
    tokenize (46 :: w0 ++ concat (map (fun w => 32 :: w) ws)) = Done s
    /\ t_nArg s = Z.of_nat (S (length ws))
    /\ args_of s = w0 :: ws.
Proof.
  intros H0 Hws Hlen.
  destruct (command_items_spaced _ _ H0 Hws) as (Hsp & Hsnd & Hn).
  destruct (tokenize_loop_words (S (length ws)) (command_items (w0 :: ws)) []
              [46] 0 (replicate 50 0%nat)
              (S (length (46 :: w0 ++ concat (map (fun w => 32 :: w) ws)))))
    as (s & Hrun & HnArg & _ & _ & _ & Hargs);
    try assumption; try reflexivity; try constructor; try lia.
  { cbn [length]. rewrite <- command_items_line.
    pose proof (words_line_length (command_items (w0 :: ws))) as Hw.
    destruct Hsp as [Hall _].
    assert (Forall (fun it => plain_word (snd it)) (command_items (w0 :: ws)))
      by (eapply Forall_impl; [exact Hall|cbn; tauto]).
    specialize (Hw H). lia. }
  exists s. split; [|split].
  - rewrite <- Hrun, command_items_line, app_nil_l. reflexivity.
  - lia.
  - unfold args_of.
    replace (Z.to_nat (t_nArg s)) with (length (w0 :: ws)) by (cbn; lia).
    apply map_seq_lookup. intros k w Hk. apply Hargs. now rewrite Hsnd.
Qed.

Lemma plain_word_cstr (w : bytes) : plain_word w -> cstr w = w.
Proof.
  intros (_ & Hall & _). apply cstr_nonzero.
  eapply Forall_impl; [exact Hall|]. cbn. tauto.
Qed.

(** X11.  [.print] followed by plain words, one space before each,
    writes the words with one space between them and a newline to the
    output of the session, returns 0, and changes nothing else. *)
Theorem print_line (env : build_env) (ws : list bytes) (p : callback_data)
    (g : shell_globals) :
  Forall plain_word ws -> (length ws <= 49)%nat ->
  do_meta_command_line env
    (s2b ".print" ++ concat (map (fun w => 32 :: w) ws)) p g
  = Done (MetaReturn 0 (emit p (join_spaces ws ++ [10])) g []).
Proof.
  intros Hws Hlen.
  assert (Hp : plain_word (s2b "print")).
  { repeat split; try discriminate. repeat constructor; discriminate. }
  destruct (command_items_spaced _ _ Hp Hws) as (Hsp & Hsnd & Hn).
  destruct (tokenize_command (s2b "print") ws Hp Hws)
    as (s & Hrun & HnArg & Hargs); [lia|].
  unfold do_meta_command_line.
  change (s2b ".print" ++ concat (map (fun w => 32 :: w) ws))
    with (46 :: s2b "print" ++ concat (map (fun w => 32 :: w) ws)).
  rewrite Hrun. cbn [mbind outcome_bind].
  rewrite Hargs, HnArg. f_equal.
  replace (Z.of_nat (S (length ws))) with (1 + Z.of_nat (length ws)) by lia.
  unfold meta_dispatch.
  destruct (Z.eqb_spec (1 + Z.of_nat (length ws)) 0); [lia|].
  destruct env as [cic timer omit wt]. cbn [HAS_TIMER
    SQLITE_OMIT_LOAD_EXTENSION SQLITE_ENABLE_WHERETRACE].
  change (nth 0 (s2b "print" :: ws) []) with (s2b "print").
  change (strlen30 (s2b "print")) with 5.
  change (char0 (s2b "print")) with 112.
  cbn [Z.eqb Pos.eqb andb orb negb Z.leb Z.ltb Z.compare Pos.compare
       Pos.compare_cont].
  rewrite !andb_false_r. cbn [andb].
  change (slice_is (s2b "print") 5 "print") with true. cbn [andb].
  rewrite print_command_spec.
  assert (Hmap : map cstr ws = ws).
  { clear -Hws. induction Hws as [|w ws Hw _ IH]; [reflexivity|].
    cbn [map]. now rewrite (plain_word_cstr w Hw), IH. }
  now rewrite Hmap.
Qed.

Lemma print_line_witness :
  do_meta_command_line
    {| CaseInsensitiveComparison := fun _ _ => 1; HAS_TIMER := true;
       SQLITE_OMIT_LOAD_EXTENSION := false;
       SQLITE_ENABLE_WHERETRACE := false |}
    (s2b ".print hello world") main_init
    {| bail_on_error := 0; enableTimer := 0; mainPrompt := s2b "sqlite> ";
       continuePrompt := s2b "   ...> " |}
  = Done (MetaReturn 0 (emit main_init (s2b "hello world" ++ [10]))
            {| bail_on_error := 0; enableTimer := 0;
               mainPrompt := s2b "sqlite> ";
               continuePrompt := s2b "   ...> " |} []).
Proof.
  apply (print_line _ [s2b "hello"; s2b "world"]).
  - repeat constructor; discriminate.
  - cbn. lia.
Defined.

Lemma for_loop_inv {S : Type} (P : S -> Prop) (n : nat)
    (body : nat -> S -> S) (s : S) :
  (forall i x, P x -> P (body i x)) -> P s -> P (for_loop n body s).
Proof.
  intros Hb Hs. induction n as [|n IH]; [exact Hs|].
  rewrite for_loop_S. now apply Hb.
Qed.





Lemma store20_fits (z : bytes) : (length (cstr (store20 z)) <= 19)%nat.
Proof.
  unfold store20.
  assert (H : cstr (take 19 (cstr z)) = take 19 (cstr z)).
  { apply cstr_nonzero. apply Forall_take.
    clear. induction z as [|c z IH]; cbn; [constructor|].
    destruct (Z.eqb_spec c 0); [constructor|now constructor]. }
  rewrite H, length_take. lia.
Qed.

Lemma session_fits_emit (p : callback_data) (s : bytes) :
  session_fits p -> session_fits (emit p s).
Proof. intros H. exact H. Qed.

Lemma mode_command_fits (p : callback_data) (a : bytes) :
  session_fits p -> session_fits (mr_p (mode_command p a)).
Proof.
  intros (H1 & H2 & H3 & H4). unfold mode_command.
  repeat match goal with
         | |- context [if ?b then _ else _] => destruct b
         end; repeat split; try assumption; vm_compute; lia.
Qed.

Lemma mode_table_command_fits (p : callback_data) (a b : bytes) :
  session_fits p -> session_fits (mr_p (mode_table_command p a b)).
Proof.
  intros (H1 & H2 & H3 & H4). unfold mode_table_command.
  destruct (_ && _); repeat split; cbn; assumption.
Qed.

Lemma explain_command_fits (p : callback_data) (v : Z) :
  session_fits p -> session_fits (explain_command p v).
Proof.
  intros (H1 & H2 & H3 & H4). unfold explain_command.
  destruct (v =? 1).
  - destruct (valid (explainPrev p) =? 0); repeat split; cbn; try assumption;
      rewrite !length_insert, length_app, length_replicate, length_drop;
      unfold ArraySize_colWidth, sizeof_int;
      change (Z.to_nat (100 / 4)) with 25%nat; lia.
  - destruct (valid (explainPrev p) =? 0); repeat split; cbn; assumption.
Qed.

Lemma width_command_fits (p : callback_data) (azArg : list bytes) (nArg : Z) :
  session_fits p -> session_fits (width_command p azArg nArg).
Proof.
  intros H. unfold width_command. apply for_loop_inv; [|exact H].
  intros i x (H1 & H2 & H3 & H4). repeat split; cbn; try assumption.
  now rewrite length_insert.
Qed.

Lemma print_command_fits (p : callback_data) (azArg : list bytes) (nArg : Z) :
  session_fits p -> session_fits (print_command p azArg nArg).
Proof.
  intros H. unfold print_command. apply session_fits_emit.
  apply for_loop_inv; [|exact H].
  intros i x Hx. cbn zeta. destruct (1 <? S i)%nat; exact Hx.
Qed.

(** X13.  The session a process starts with fits its arrays, and no
    meta-command that returns makes it leave them: the separator and
    the text for NULL keep to 19 bytes and a terminator, the widths
    and the saved widths to 100 places. *)
Theorem meta_commands_keep_session_in_bounds (env : build_env)
    (azArg : list bytes) (nArg : Z) (p : callback_data) (g : shell_globals) :
  session_fits main_init
  /\ (session_fits p ->
      forall rc p' g' err,
        meta_dispatch env azArg nArg p g = MetaReturn rc p' g' err ->
        session_fits p').
Proof.
  split; [repeat split; vm_compute; lia|].
  intros Hp rc p' g' err. unfold meta_dispatch. cbv beta zeta.
  repeat match goal with
         | |- (if ?b then _ else _) = _ -> _ => destruct b
         | |- (let '(_, _) := ?x in _) = _ -> _ => destruct x
         end;
    intros H; try discriminate H; injection H as <- <- <- <-;
    try exact Hp.
  - now apply explain_command_fits.
  - now apply explain_command_fits.
  - now apply mode_command_fits.
  - now apply mode_table_command_fits.
  - destruct Hp as (H1 & H2 & H3 & H4). repeat split; try assumption.
    apply store20_fits.
  - now apply print_command_fits.
  - destruct Hp as (H1 & H2 & H3 & H4). repeat split; try assumption.
    apply store20_fits.
  - now apply width_command_fits.
Qed.

Lemma iter_explain_on (n : nat) (p : callback_data) :
  valid (explainPrev p) = 0 ->
  let q := Nat.iter (S n) (fun p => explain_command p 1) p in
  explainPrev q = {| valid := 1; pm_mode := mode p;
                     pm_showHeader := showHeader p;
                     pm_colWidth := colWidth p |}
  /\ mode q = MODE_Explain /\ showHeader q = 1
  /\ same_but_mode_separator p (set_colWidth (set_showHeader
                                  (set_explainPrev q (explainPrev p))
                                  (showHeader p)) (colWidth p))
  /\ separator q = separator p.
Proof.
  intros Hv. induction n as [|n IH].
  - change (Nat.iter 1 (fun p => explain_command p 1) p)
      with (explain_command p 1).
    unfold explain_command. cbn [Z.eqb Pos.eqb].
    rewrite Hv. cbn. repeat split.
  - change (Nat.iter (S (S n)) (fun p => explain_command p 1) p)
      with (explain_command (Nat.iter (S n) (fun p => explain_command p 1) p)
              1).
    cbn zeta in IH. destruct IH as (I1 & I2 & I3 & I4 & I5).
    set (q := Nat.iter (S n) _ p) in *.
    unfold explain_command at 1. cbn [Z.eqb Pos.eqb].
    rewrite I1. cbn [valid Z.eqb]. cbn.
    unfold same_but_mode_separator in *. cbn in I4 |- *.
    repeat split; try tauto; try assumption.
Qed.

(** X14.  Turning [.explain] on, any number of times, and then off
    gives back the mode, the header setting and all the widths the
    session had before, and changes nothing else in the session. *)
Theorem explain_on_off_restores (n : nat) (v : Z) (p : callback_data) :
  valid (explainPrev p) = 0 -> v <> 1 ->
  let q := explain_command
             (Nat.iter (S n) (fun p => explain_command p 1) p) v in
  mode q = mode p /\ showHeader q = showHeader p
  /\ colWidth q = colWidth p /\ separator q = separator p
  /\ valid (explainPrev q) = 0
  /\ same_but_mode_separator p
       (set_explainPrev q (explainPrev p)).
Proof.
  intros Hv Hv1.
  destruct (iter_explain_on n p Hv) as (I1 & I2 & I3 & I4 & I5).
  cbn zeta in *. set (q := Nat.iter (S n) _ p) in *.
  unfold explain_command. destruct (Z.eqb_spec v 1); [contradiction|].
  rewrite I1. cbn.
  unfold same_but_mode_separator in *. cbn in I4 |- *.
  repeat split; try tauto; try assumption.
Qed.

Lemma explain_on_off_restores_witness :
  let p := set_colWidth (set_mode main_init MODE_Csv)
             (<[30%nat := 7]> (replicate 100 5)) in
  let q := explain_command (explain_command (explain_command p 1) 1) 0 in
  mode q = MODE_Csv /\ colWidth q = <[30%nat := 7]> (replicate 100 5).
Proof.
  intros p.
  destruct (explain_on_off_restores 1 0 p) as (H1 & _ & H3 & _);
    [reflexivity|discriminate|].
  split; [exact H1|exact H3].
Defined.

(** X15.  While [.explain] is on the mode is [MODE_Explain] and the
    headers are shown; the first eight widths are 4, 13, 4, 4, 4, 13,
    2 and 13, the widths of the columns 8 to 24 are 0, and the widths
    from column 25 on are the ones configured before: the [memset]
    clears 100 bytes of the array, which are 25 of its 100 integers
    of 4 bytes. *)
Theorem explain_on_widths (p : callback_data) :
  length (colWidth p) = 100%nat ->
  let q := explain_command p 1 in
  mode q = MODE_Explain /\ showHeader q = 1
  /\ colWidth q = [4; 13; 4; 4; 4; 13; 2; 13] ++ replicate 17 0
                  ++ drop 25 (colWidth p).
Proof.
  intros H100. unfold explain_command. cbn [Z.eqb Pos.eqb].
  destruct (valid (explainPrev p) =? 0); cbn; repeat split.
Qed.

Lemma explain_on_widths_witness :
  nth 30 (colWidth (explain_command
                      (set_colWidth main_init (replicate 100 9)) 1)) 0 = 9
  /\ nth 20 (colWidth (explain_command
                         (set_colWidth main_init (replicate 100 9)) 1)) 0 = 0.
Proof.
  destruct (explain_on_widths (set_colWidth main_init (replicate 100 9)))
    as (_ & _ & H); [reflexivity|].
  rewrite H. split; reflexivity.
Defined.

(** X16.  A command is known by its whole name only: when the first
    token of a line is none of the names of the chain of tests, an
    abbreviation of one included, the command writes the message for
    an unknown command, returns 1 and leaves the session and the
    variables of the program as they are. *)
Theorem unknown_command_rejected (env : build_env) (arg0 : bytes)
    (rest : list bytes) (nArg : Z) (p : callback_data) (g : shell_globals) :
  nArg <> 0 -> cstr arg0 = arg0 ->
  Z.of_nat (length arg0) < 1073741824 ->
  Forall (fun name => arg0 <> s2b name) (command_names env) ->
  meta_dispatch env (arg0 :: rest) nArg p g
  = MetaReturn 1 p g (unknown_command arg0).
Proof.
  intros HnArg Hc Hlen Hnames.
  assert (Hn : strlen30 arg0 = Z.of_nat (length arg0)).
  { rewrite strlen30_small; now rewrite Hc. }
  assert (Hs : forall name,
            existsb (String.eqb name) (command_names env) = true ->
            slice_is arg0 (strlen30 arg0) name = false).
  { intros name Hin. apply existsb_exists in Hin as (x & Hx & Heq).
    apply String.eqb_eq in Heq. subst x.
    rewrite List.Forall_forall in Hnames. specialize (Hnames name Hx).
    unfold slice_is. rewrite Hn, Nat2Z.id, firstn_all.
    now apply bool_decide_eq_false. }
  unfold meta_dispatch.
  destruct (Z.eqb_spec nArg 0); [contradiction|].
  change (nth 0 (arg0 :: rest) []) with arg0.
  destruct env as [cic timer omit wt].
  cbn [HAS_TIMER SQLITE_OMIT_LOAD_EXTENSION SQLITE_ENABLE_WHERETRACE] in *.
  destruct timer, omit, wt; cbn [negb andb];
    repeat match goal with
           | |- context [slice_is arg0 (strlen30 arg0) ?name] =>
               rewrite (Hs name) by reflexivity
           end;
    cbn [orb]; rewrite ?andb_false_r; reflexivity.
Qed.

Lemma unknown_command_rejected_witness :
  meta_dispatch
    {| CaseInsensitiveComparison := fun _ _ => 1; HAS_TIMER := true;
       SQLITE_OMIT_LOAD_EXTENSION := false;
       SQLITE_ENABLE_WHERETRACE := false |}
    [s2b "mod"; s2b "csv"] 2 main_init
    {| bail_on_error := 0; enableTimer := 0; mainPrompt := [];
       continuePrompt := [] |}
  = MetaReturn 1 main_init
      {| bail_on_error := 0; enableTimer := 0; mainPrompt := [];
         continuePrompt := [] |}
      (unknown_command (s2b "mod")).
Proof.
  apply unknown_command_rejected; [discriminate|reflexivity|cbn; lia|].
  apply List.Forall_forall. intros name Hin Heq.
  cbn in Hin.
  repeat (destruct Hin as [<-|Hin]; [discriminate Heq|]).
  exact Hin.
Defined.

(* ================================================================== *)
(** ** Session input assembler: the result and the pending statement *)

Section ProcessInputEvents.
Context {W : Type} (env : shell_env W).
Variables in_file stdin_is_interactive : bool.

End ProcessInputEvents.


Lemma cstr_length_le (z : bytes) : (length (cstr z) <= length z)%nat.
Proof.
  induction z as [|c z IH]; cbn; [lia|].
  destruct (c =? 0); cbn; lia.
Qed.

Lemma skip_spaces_char0 (z : bytes) :
  char0 (skip_spaces z) <> 0 -> char0 z <> 0.
Proof.
  destruct z as [|c z]; cbn; [easy|].
  destruct (IsSpace c) eqn:Hc; [|easy].
  intros _. now apply IsSpace_nonzero.
Qed.

Lemma strlen30_pos (z : bytes) :
  char0 z <> 0 -> Z.of_nat (length z) < 1073741824 ->
  0 < strlen30 z /\ char0 (cstr z) <> 0.
Proof.
  intros Hc Hlen. pose proof (cstr_length_le z) as Hle.
  rewrite strlen30_small by lia.
  rewrite char0_cstr. split; [|exact Hc].
  destruct z as [|c z]; [easy|]. cbn in Hc |- *.
  destruct (Z.eqb_spec c 0); [contradiction|]. cbn. lia.
Qed.

Section ProcessInputPending.
Context {W : Type} (env : shell_env W).
Variables in_file stdin_is_interactive : bool.

(** One line keeps [statement_pending]; after [Buffered] a statement
    is held, and while one is held the line is added to it. *)
Lemma process_line_pending (l : input_line) (s s' : pi_state W)
    (go_on : bool) (a : line_action) :
  process_line env in_file stdin_is_interactive l s = (go_on, s', a) ->
  Z.of_nat (length (il_text l)) < 1073741824 ->
  statement_pending s ->
  statement_pending s'
  /\ (a = Buffered -> zSql s' <> None)
  /\ (zSql s <> None -> appended a).
Proof.
  intros Hl Hlen [Hn Hz]. unfold process_line in Hl.
  destruct (il_interrupt l && in_file).
  { inversion Hl; subst. split; [split; assumption|].
    split; [discriminate|]. intros _. split; [discriminate|].
    intros rc; discriminate. }
  cbn [zSql nSql errCnt lineno startline world stderr] in Hl.
  destruct (zSql s) as [z|] eqn:Hs.
  - destruct (Hz z eq_refl) as [Hpos Hc].
    destruct (Z.eqb_spec (char0 z) 0); [contradiction|].
    destruct (Z.eqb_spec (nSql s) 0); [lia|].
    rewrite andb_false_l, andb_false_r in Hl.
    cbn [andb negb] in Hl.
    destruct (il_malloc_ok l); cbn [negb] in Hl.
    2:{ inversion Hl; subst. unfold statement_pending, appended; cbn.
        repeat split; try easy. }
    set (zLine := if _is_command_terminator _ && _ then _ else _) in Hl.
    set (buf := take _ z ++ _) in Hl.
    assert (Hbuf : char0 buf <> 0).
    { subst buf. destruct z as [|c z]; [easy|].
      destruct (Z.to_nat (nSql s)) eqn:E; [lia|]. exact Hc. }
    assert (Hlen' : 0 < nSql s + 1 + strlen30 zLine).
    { unfold strlen30.
      pose proof (Z.land_nonneg 1073741823 (Z.of_nat (length (cstr zLine)))).
      lia. }
    destruct (_ && env_complete env buf).
    { destruct (env_exec env buf (world s)) as [[rc zErr] w].
      inversion Hl; subst. unfold statement_pending, appended; cbn.
      repeat split; try easy. }
    destruct (_all_whitespace buf).
    { inversion Hl; subst. unfold statement_pending, appended; cbn.
      repeat split; try easy. }
    inversion Hl; subst. unfold statement_pending, appended; cbn.
    repeat split; try easy; try lia.
    match goal with H : Some _ = Some _ |- _ => injection H as <- end.
    exact Hbuf.
  - rewrite andb_true_l in Hl.
    destruct (_all_whitespace (il_text l)).
    { inversion Hl; subst. unfold statement_pending; cbn.
      repeat split; try easy. }
    destruct (_ && (nSql s =? 0)).
    { destruct (env_meta env (il_text l) (world s)) as [rc w].
      destruct (rc =? 2); [|destruct (negb (rc =? 0))];
        inversion Hl; subst; unfold statement_pending; cbn;
        repeat split; try easy. }
    set (zLine := if _is_command_terminator _ && _ then _ else _) in Hl.
    assert (HzLine : Z.of_nat (length zLine) < 1073741824).
    { subst zLine. destruct (_is_command_terminator _ && _); [cbn; lia|exact Hlen]. }
    destruct (Z.eqb_spec (char0 (skip_spaces zLine)) 0) as [|Hc];
      cbn [negb andb] in Hl.
    { inversion Hl; subst. unfold statement_pending; cbn.
      repeat split; try easy. }
    destruct (il_malloc_ok l); cbn [negb] in Hl.
    2:{ inversion Hl; subst. unfold statement_pending; cbn.
        repeat split; try easy. }
    apply skip_spaces_char0 in Hc.
    destruct (strlen30_pos zLine Hc HzLine) as [Hpos Hc'].
    rewrite drop_0 in Hl || idtac.
    destruct (_ && env_complete env (cstr zLine)).
    { destruct (env_exec env (cstr zLine) (world s)) as [[rc zErr] w].
      inversion Hl; subst. unfold statement_pending; cbn.
      repeat split; try easy. }
    destruct (_all_whitespace (cstr zLine)).
    { inversion Hl; subst. unfold statement_pending; cbn.
      repeat split; try easy. }
    inversion Hl; subst. unfold statement_pending; cbn.
    repeat split; try easy; try lia.
    match goal with H : Some _ = Some _ |- _ => injection H as <- end.
    exact Hc'.
Qed.

Lemma process_loop_pending (lines : list input_line) :
  forall (s : pi_state W) (trace : list line_event),
    Forall (fun l => Z.of_nat (length (il_text l)) < 1073741824) lines ->
    statement_pending s ->
    exists evs,
      snd (process_loop env in_file stdin_is_interactive lines s trace)
        = trace ++ evs
      /\ (zSql s <> None ->
          forall e, evs !! 0%nat = Some e -> appended (le_action e))
      /\ (forall (i : nat) e1 e2,
            evs !! i = Some e1 -> evs !! S i = Some e2 ->
            le_action e1 = Buffered -> appended (le_action e2)).
Proof.
  induction lines as [|l lines IH]; intros s trace Hlines Hs;
    cbn [process_loop].
  - exists []. destruct (loop_test _ _ _ _); cbn; rewrite app_nil_r;
      repeat split; easy.
  - destruct (loop_test _ _ _ _).
    2:{ exists []. cbn; rewrite app_nil_r; repeat split; easy. }
    destruct (process_line env in_file stdin_is_interactive l s)
      as [[go_on s'] a] eqn:Hl.
    inversion Hlines as [|? ? Hlen Hrest]; subst.
    destruct (process_line_pending l s s' go_on a Hl Hlen Hs)
      as (Hs' & Hbuf & Happ).
    set (ev := {| le_action := a; le_errCnt := errCnt s';
                  le_bail := env_bail env (world s') |}).
    destruct go_on.
    + destruct (IH s' (trace ++ [ev]) Hrest Hs') as (evs & Htr & Hhd & Hadj).
      exists (ev :: evs). split; [now rewrite Htr, <- app_assoc|]. split.
      * intros Hz e He. injection He as <-. now apply Happ.
      * intros [|i] e1 e2 H1 H2 Hb.
        -- injection H1 as <-. apply Hhd; [now apply Hbuf|exact H2].
        -- now apply (Hadj i e1 e2).
    + exists [ev]. split; [reflexivity|]. split.
      * intros Hz e He. injection He as <-. now apply Happ.
      * intros [|i] e1 e2 H1 H2 Hb; discriminate H2.
Qed.
End ProcessInputPending.

(** X18.  While a statement is unfinished, [process_input] adds every
    line to it: the line read after a line that was buffered is never
    skipped as white space and never run as a meta-command, also when
    it is blank or starts with a dot (lines shorter than 2^30 bytes). *)
Theorem pending_statement_takes_every_line {W : Type} (env : shell_env W)
    (in_file stdin_is_interactive : bool) (lines : list input_line) (w : W)
    (i : nat) (e1 e2 : line_event) :
  Forall (fun l => Z.of_nat (length (il_text l)) < 1073741824) lines ->
  snd (process_input env in_file stdin_is_interactive lines w) !! i
    = Some e1 ->
  snd (process_input env in_file stdin_is_interactive lines w) !! S i
    = Some e2 ->
  le_action e1 = Buffered ->
  le_action e2 <> Skipped /\ forall rc, le_action e2 <> MetaCommand rc.
Proof.
  intros Hlines. unfold process_input.
  set (s0 := {| zSql := None; nSql := 0; errCnt := 0; lineno := 0;
                startline := 0; world := w; stderr := [] |}).
  assert (Hs0 : statement_pending s0) by (split; [cbn; lia|easy]).
  destruct (process_loop_pending env in_file stdin_is_interactive lines s0 []
              Hlines Hs0) as (evs & Htr & _ & Hadj).
  destruct (process_loop env in_file stdin_is_interactive lines s0 [])
    as [s trace]. cbn [fst snd] in *. subst trace. cbn [app].
  intros H1 H2 Hb. exact (Hadj i e1 e2 H1 H2 Hb).
Qed.

Lemma pending_statement_takes_every_line_witness :
  le_action
    {| le_action := Buffered; le_errCnt := 0; le_bail := false |}
  <> Skipped
  /\ forall rc,
       le_action {| le_action := Buffered; le_errCnt := 0; le_bail := false |}
       <> MetaCommand rc.
Proof.
  apply (pending_statement_takes_every_line toy_env false false
           [ {| il_text := s2b "select 1"; il_interrupt := false;
                il_malloc_ok := true |};
             {| il_text := s2b ".exit"; il_interrupt := false;
                il_malloc_ok := true |};
             {| il_text := s2b ""; il_interrupt := false;
                il_malloc_ok := true |} ] false 0%nat
           {| le_action := Buffered; le_errCnt := 0; le_bail := false |}).
  - repeat constructor.
  - reflexivity.
  - reflexivity.
  - reflexivity.
Defined.

(* ------------------------------------------------------------------ *)
(** *** The lines of one statement *)

Lemma join_lines_snoc (ts : list bytes) (t : bytes) :
  ts <> [] -> join_lines (ts ++ [t]) = join_lines ts ++ [10] ++ t.
Proof.
  induction ts as [|a ts IH]; [easy|]. intros _.
  destruct ts as [|b ts]; [reflexivity|].
  change (join_lines ((a :: b :: ts) ++ [t]))
    with (a ++ [10] ++ join_lines ((b :: ts) ++ [t])).
  rewrite IH by easy.
  change (join_lines (a :: b :: ts)) with (a ++ [10] ++ join_lines (b :: ts)).
  now rewrite <- !app_assoc.
Qed.

Lemma join_lines_nonzero (ts : list bytes) :
  Forall (Forall (fun c => c <> 0)) ts ->
  Forall (fun c => c <> 0) (join_lines ts).
Proof.
  induction 1 as [|a ts Ha _ IH]; [constructor|].
  destruct ts as [|b ts]; [exact Ha|].
  change (join_lines (a :: b :: ts)) with (a ++ [10] ++ join_lines (b :: ts)).
  apply Forall_app. split; [exact Ha|]. apply Forall_app. split; [|exact IH].
  repeat constructor. lia.
Qed.

Lemma all_whitespace_spaces (z : bytes) :
  char0 (skip_spaces z) = 0 -> _all_whitespace z = true.
Proof.
  induction z as [|c z IH]; [reflexivity|]. cbn [skip_spaces].
  destruct (IsSpace c) eqn:Hc.
  - intros H. cbn [_all_whitespace]. rewrite Hc.
    destruct (Z.eqb_spec c 0); [reflexivity|]. now apply IH.
  - cbn. intros ->. reflexivity.
Qed.

Lemma contains_semicolon_in (t : bytes) :
  In 59 t -> _contains_semicolon t (Z.of_nat (length t)) = true.
Proof.
  intros Hin. unfold _contains_semicolon. rewrite Nat2Z.id, firstn_all.
  apply existsb_exists. exists 59. split; [exact Hin|reflexivity].
Qed.

Lemma contains_semicolon_not_in (t : bytes) (N : Z) :
  ~ In 59 t -> _contains_semicolon t N = false.
Proof.
  intros Hin. unfold _contains_semicolon.
  destruct (existsb _ _) eqn:E; [|reflexivity].
  apply existsb_exists in E as (c & Hc & Heq). apply Z.eqb_eq in Heq.
  subst c. exfalso. apply Hin.
  rewrite <- (take_drop (Z.to_nat N) t). apply in_or_app. now left.
Qed.

Section ProcessInputStatement.
Context {W : Type} (env : shell_env W).
Variables in_file stdin_is_interactive : bool.

(** One line of a statement: it is run when it brings a semicolon and
    the engine finds the buffer complete, and it is kept otherwise. *)
Lemma process_line_statement (s : pi_state W) (t : bytes) :
  Forall (fun c => c <> 0) t ->
  _is_command_terminator t = false ->
  Forall (fun c => c <> 0) (buffer_with (zSql s) t) ->
  Z.of_nat (length (buffer_with (zSql s) t)) < 1073741824 ->
  match zSql s with
  | None => char0 t <> 46 /\ _all_whitespace t = false /\ nSql s = 0
  | Some acc => char0 acc <> 0 /\ nSql s = Z.of_nat (length acc)
  end ->
  let buf := buffer_with (zSql s) t in
  let start := match zSql s with
               | None => lineno s + 1
               | Some _ => startline s
               end in
  process_line env in_file stdin_is_interactive (read_line t) s
  = if _contains_semicolon t (Z.of_nat (length t)) && env_complete env buf
    then
      let r := env_exec env buf (world s) in
      let failed :=
        negb (fst (fst r) =? 0) || bool_decide (snd (fst r) <> None) in
      let msg := match snd (fst r) with
                 | Some m => m
                 | None => env_errmsg env (snd r)
                 end in
      (true,
       {| zSql := None; nSql := 0;
          errCnt := if failed then errCnt s + 1 else errCnt s;
          lineno := lineno s + 1; startline := start; world := snd r;
          stderr := if failed
                    then stderr s
                         ++ error_prefix in_file stdin_is_interactive start
                         ++ s2b " " ++ cstr msg ++ [10]
                    else stderr s |},
       Executed failed)
    else if _all_whitespace buf then
      (true,
       {| zSql := None; nSql := 0; errCnt := errCnt s;
          lineno := lineno s + 1; startline := start; world := world s;
          stderr := stderr s |},
       Discarded)
    else
      (true,
       {| zSql := Some buf; nSql := Z.of_nat (length buf); errCnt := errCnt s;
          lineno := lineno s + 1; startline := start; world := world s;
          stderr := stderr s |},
       Buffered).
Proof.
  intros Ht Hterm Hbuf Hlen Hs buf start.
  unfold process_line.
  cbn [read_line il_text il_interrupt il_malloc_ok andb negb
       zSql nSql errCnt lineno startline world stderr].
  rewrite Hterm. cbn [andb]. rewrite andb_false_r.
  assert (Hlt : Z.of_nat (length (cstr t)) < 1073741824).
  { rewrite (cstr_nonzero t Ht). subst buf. clear -Hlen.
    destruct (zSql s); cbn [buffer_with] in Hlen;
      rewrite ?length_app in Hlen; lia. }
  rewrite (strlen30_small t Hlt), (cstr_nonzero t Ht).
  subst buf start. destruct (zSql s) as [acc|] eqn:Hz;
    cbn [buffer_with] in *.
  - destruct Hs as [Hacc Hn]. rewrite Hn, Nat2Z.id, firstn_all.
    destruct (Z.eqb_spec (char0 acc) 0); [contradiction|].
    cbn [andb].
    destruct (Z.eqb_spec (Z.of_nat (length acc)) 0) as [E|_].
    { destruct acc; [contradiction|discriminate E]. }
    rewrite andb_false_r.
    rewrite drop_app_length.
    replace (_contains_semicolon ([10] ++ t)
               (Z.of_nat (length acc) + 1 + Z.of_nat (length t)
                - Z.of_nat (length acc)))
      with (_contains_semicolon t (Z.of_nat (length t))).
    2:{ unfold _contains_semicolon.
        replace (Z.to_nat (Z.of_nat (length acc) + 1 + Z.of_nat (length t)
                           - Z.of_nat (length acc)))
          with (S (length t)) by lia.
        rewrite Nat2Z.id. cbn [app firstn take existsb]. reflexivity. }
    replace (Z.of_nat (length (acc ++ [10] ++ t)))
      with (Z.of_nat (length acc) + 1 + Z.of_nat (length t))
      by (rewrite !length_app; cbn [length]; lia).
    destruct (_ && env_complete env _); [|reflexivity].
    destruct (env_exec env _ (world s)) as [[rc zErr] w]. reflexivity.
  - destruct Hs as (Hdot & Hws & Hn). rewrite Hws, Hn. cbn [andb].
    destruct (Z.eqb_spec (char0 t) 46); [contradiction|]. cbn [andb].
    destruct (Z.eqb_spec (char0 (skip_spaces t)) 0) as [E|_].
    { apply all_whitespace_spaces in E. congruence. }
    cbn [negb andb]. change (Z.to_nat 0) with 0%nat.
    rewrite Z.sub_0_r, drop_0.
    destruct (_ && env_complete env _); [|now rewrite Hws].
    destruct (env_exec env _ (world s)) as [[rc zErr] w]. reflexivity.
Qed.

Lemma join_lines_app_length (a b : list bytes) :
  (length (join_lines a) <= length (join_lines (a ++ b)))%nat.
Proof.
  induction a as [|x a IH]; [cbn; lia|].
  destruct a as [|y a].
  - destruct b as [|y b]; [cbn; lia|].
    change (join_lines ([x] ++ y :: b)) with (x ++ [10] ++ join_lines (y :: b)).
    rewrite length_app. cbn [join_lines]. lia.
  - change (join_lines ((x :: y :: a) ++ b))
      with (x ++ [10] ++ join_lines ((y :: a) ++ b)).
    change (join_lines (x :: y :: a)) with (x ++ [10] ++ join_lines (y :: a)).
    rewrite !length_app. lia.
Qed.

(** The lines of one statement, the lines [done] being held already. *)
Lemma process_loop_statement (last : bytes) (pre : list bytes) :
  forall (done : list bytes) (s : pi_state W) (trace : list line_event),
    let texts := done ++ pre ++ [last] in
    let stmt := join_lines texts in
    Forall (Forall (fun c => c <> 0)) texts ->
    Z.of_nat (length stmt) < 1073741824 ->
    Forall (fun t => _is_command_terminator t = false) (pre ++ [last]) ->
    (forall i, (length done <= i < length texts)%nat ->
               _all_whitespace (join_lines (take (S i) texts)) = false) ->
    Forall (fun t => ~ In 59 t) pre ->
    In 59 last ->
    env_complete env stmt = true ->
    errCnt s = 0 ->
    nSql s = Z.of_nat (length (join_lines done)) ->
    match done with
    | [] => zSql s = None /\ char0 (hd [] (pre ++ [last])) <> 46
    | _ => zSql s = Some (join_lines done) /\ char0 (join_lines done) <> 0
    end ->
    let start := match done with
                 | [] => lineno s + 1
                 | _ => startline s
                 end in
    let r := env_exec env stmt (world s) in
    let failed :=
      negb (fst (fst r) =? 0) || bool_decide (snd (fst r) <> None) in
    let msg := match snd (fst r) with
               | Some m => m
               | None => env_errmsg env (snd r)
               end in
    exists s' evs,
      process_loop env in_file stdin_is_interactive
        (map read_line (pre ++ [last])) s trace = (s', trace ++ evs)
      /\ map le_action evs
         = replicate (length pre) Buffered ++ [Executed failed]
      /\ zSql s' = None
      /\ errCnt s' = (if failed then 1 else 0)
      /\ world s' = snd r
      /\ stderr s'
         = stderr s
           ++ (if failed
               then error_prefix in_file stdin_is_interactive start
                    ++ s2b " " ++ cstr msg ++ [10]
               else []).
Proof.
  induction pre as [|t pre IH];
    intros done s trace texts stmt Hnz Hlen Hterm Hws Hsemi Hlast Hcomplete
      Herr Hn Hstate start r failed msg.
  - (* the last line *)
    cbn [app map process_loop].
    unfold loop_test at 1. rewrite Herr. cbn [Z.eqb orb].
    assert (Hbuf : buffer_with (zSql s) last = stmt).
    { subst stmt texts. cbn [app]. destruct done as [|d done].
      - destruct Hstate as [-> _]. reflexivity.
      - destruct Hstate as [-> _]. cbn [buffer_with].
        now rewrite join_lines_snoc. }
    assert (Hlast_nz : Forall (fun c => c <> 0) last).
    { subst texts. apply Forall_app in Hnz as [_ Hnz].
      now inversion Hnz. }
    rewrite process_line_statement; rewrite ?Hbuf.
    + rewrite (contains_semicolon_in last Hlast), Hcomplete. cbn [andb].
      cbv zeta. fold r. fold failed. fold msg.
      eexists _, [_]. split; [now destruct (loop_test _ _ _ _)|]. cbn [map le_action replicate length app zSql errCnt world stderr].
      rewrite Herr.
      repeat split.
      destruct failed; [|now rewrite app_nil_r].
      subst start. destruct done; destruct Hstate as [-> _]; reflexivity.
    + exact Hlast_nz.
    + now inversion Hterm.
    + now apply join_lines_nonzero.
    + exact Hlen.
    + destruct done as [|d done].
      * destruct Hstate as [-> Hdot]. repeat split; [exact Hdot| |exact Hn].
        specialize (Hws 0%nat). cbn in Hws. apply Hws. lia.
      * destruct Hstate as [-> Hc]. split; [exact Hc|exact Hn].
  - (* a line before the last *)
    cbn [app map process_loop].
    unfold loop_test. rewrite Herr. cbn [Z.eqb orb].
    assert (Htexts : texts = (done ++ [t]) ++ pre ++ [last]).
    { subst texts. now rewrite <- app_assoc. }
    assert (Hbuf : buffer_with (zSql s) t = join_lines (done ++ [t])).
    { destruct done as [|d done].
      - destruct Hstate as [-> _]. reflexivity.
      - destruct Hstate as [-> _]. cbn [buffer_with].
        now rewrite join_lines_snoc. }
    assert (Hnz' : Forall (Forall (fun c => c <> 0)) (done ++ [t])).
    { rewrite Htexts in Hnz. now apply Forall_app in Hnz as [Hnz _]. }
    assert (Ht : Forall (fun c => c <> 0) t).
    { apply Forall_app in Hnz' as [_ Hnz']. now inversion Hnz'. }
    assert (Hws' : _all_whitespace (join_lines (done ++ [t])) = false).
    { specialize (Hws (length done)). rewrite Htexts in Hws.
      replace (S (length done)) with (length (done ++ [t])) in Hws
        by (rewrite length_app; cbn; lia).
      rewrite take_app_length in Hws. apply Hws.
      rewrite !length_app. cbn. lia. }
    assert (Hlen' : Z.of_nat (length (join_lines (done ++ [t])))
                    < 1073741824).
    { pose proof (join_lines_app_length (done ++ [t]) (pre ++ [last])) as H.
      rewrite <- Htexts in H. fold stmt in H. lia. }
    rewrite process_line_statement; rewrite ?Hbuf.
    + inversion Hsemi as [|? ? Hno Hsemi']; subst.
      rewrite (contains_semicolon_not_in t _ Hno). cbn [andb].
      rewrite Hws'.
      set (s1 := {| zSql := Some (join_lines (done ++ [t])) |}).
      set (ev := {| le_action := Buffered |}).
      destruct (IH (done ++ [t]) s1 (trace ++ [ev]))
        as (s' & evs & Hrun & Hacts & Hz & He & Hw & Hstderr).
      * now rewrite <- Htexts.
      * rewrite <- Htexts. exact Hlen.
      * now inversion Hterm.
      * rewrite <- Htexts. intros i Hi. apply Hws.
        rewrite length_app in Hi. cbn in Hi. lia.
      * exact Hsemi'.
      * exact Hlast.
      * rewrite <- Htexts. exact Hcomplete.
      * exact Herr.
      * reflexivity.
      * assert (Hne : join_lines (done ++ [t]) <> []).
        { intros E. rewrite E in Hws'. discriminate. }
        destruct (done ++ [t]) as [|d0 done0] eqn:Ed.
        { now destruct done. }
        split; [reflexivity|].
        pose proof (join_lines_nonzero _ Hnz') as Hj.
        destruct (join_lines (d0 :: done0)) as [|c z]; [contradiction|].
        now inversion Hj.
      * rewrite <- Htexts in Hacts, He, Hw, Hstderr.
        cbn [world stderr lineno startline s1] in Hacts, He, Hw, Hstderr.
        exists s', (ev :: evs). rewrite Hrun, <- app_assoc.
        split; [reflexivity|]. cbn [map length replicate app].
        rewrite Hacts. split; [reflexivity|].
        split; [exact Hz|]. split; [exact He|]. split; [exact Hw|].
        rewrite Hstderr. f_equal.
        replace (match done ++ [t] with
                 | [] => lineno s + 1 + 1
                 | _ => match zSql s with
                        | Some _ => startline s
                        | None => lineno s + 1
                        end
                 end)
          with start; [reflexivity|].
        subst start.
        destruct done as [|d done]; cbn [app];
          destruct Hstate as [-> _]; reflexivity.
    + exact Ht.
    + now inversion Hterm.
    + now apply join_lines_nonzero.
    + exact Hlen'.
    + destruct done as [|d done].
      * destruct Hstate as [-> Hdot]. repeat split; [exact Hdot| |exact Hn].
        exact Hws'.
      * destruct Hstate as [-> Hc]. split; [exact Hc|exact Hn].
Qed.
End ProcessInputStatement.

(** X19.  A statement spread over several lines reaches the engine once
    and as one text, its lines joined by newlines: when no line before
    the last holds a semicolon, the last one does, the engine finds the
    whole complete, the first line does not start with a dot, no line
    is a command terminator and no prefix is white space and comments
    only, [process_input] buffers every line but the last, calls
    [shell_exec] on the joined text, and returns 1 with the message on
    the error stream when that call failed, 0 with nothing otherwise. *)
Theorem statement_lines_joined {W : Type} (env : shell_env W)
    (in_file stdin_is_interactive : bool) (pre : list bytes) (last : bytes)
    (w : W) :
  let texts := pre ++ [last] in
  let stmt := join_lines texts in
  let r := env_exec env stmt w in
  let failed :=
    negb (fst (fst r) =? 0) || bool_decide (snd (fst r) <> None) in
  let msg := match snd (fst r) with
             | Some m => m
             | None => env_errmsg env (snd r)
             end in
  Forall (Forall (fun c => c <> 0)) texts ->
  Z.of_nat (length stmt) < 1073741824 ->
  char0 (hd [] texts) <> 46 ->
  Forall (fun t => _is_command_terminator t = false) texts ->
  (forall i, (i < length texts)%nat ->
             _all_whitespace (join_lines (take (S i) texts)) = false) ->
  Forall (fun t => ~ In 59 t) pre ->
  In 59 last ->
  env_complete env stmt = true ->
  exists trace,
    process_input env in_file stdin_is_interactive (map read_line texts) w
    = (if failed then 1 else 0, snd r,
       if failed
       then error_prefix in_file stdin_is_interactive 1 ++ s2b " "
            ++ cstr msg ++ [10]
       else [],
       trace)
    /\ map le_action trace
       = replicate (length pre) Buffered ++ [Executed failed].
Proof.
  intros texts stmt r failed msg Hnz Hlen Hdot Hterm Hws Hsemi Hlast Hcomplete.
  set (s0 := {| zSql := None; nSql := 0; errCnt := 0; lineno := 0;
                startline := 0; world := w; stderr := [] |}).
  destruct (process_loop_statement env in_file stdin_is_interactive last pre
              [] s0 [])
    as (s' & evs & Hrun & Hacts & Hz & He & Hw & Hstderr);
    try assumption; try reflexivity.
  - intros i Hi. apply Hws. unfold texts. cbn [app] in Hi. lia.
  - split; [reflexivity|exact Hdot].
  - exists evs. split; [|exact Hacts].
    unfold process_input. fold s0. unfold texts at 1. rewrite Hrun.
    cbn [app]. rewrite Hz, He, Hw, Hstderr. cbn [app stderr world s0 lineno].
    fold texts stmt r failed msg. now destruct failed.
Qed.

Lemma statement_lines_joined_witness :
  exists trace,
    process_input toy_env true false
      (map read_line [s2b "select 1,"; s2b ".2"; s2b ""; s2b "from t;"]) false
    = (0, false, [], trace)
    /\ map le_action trace = [Buffered; Buffered; Buffered; Executed false].
Proof.
  apply (statement_lines_joined toy_env true false
           [s2b "select 1,"; s2b ".2"; s2b ""] (s2b "from t;") false).
  - repeat constructor; discriminate.
  - vm_compute. reflexivity.
  - discriminate.
  - repeat constructor.
  - intros [|[|[|[|i]]]] _; reflexivity.
  - repeat constructor; cbn; intuition discriminate.
  - cbn. intuition.
  - reflexivity.
Defined.

(* ================================================================== *)
(** ** The display of [.tables] *)

Lemma tables_maxlen_bound (azResult : list bytes) (n : nat) :
  let w := for_loop n
             (fun i w => let len := strlen30 (nth i azResult []) in
                         if w <? len then len else w) 0 in
  0 <= w /\ forall i, (i < n)%nat -> strlen30 (nth i azResult []) <= w.
Proof.
  induction n as [|n [IH0 IH]]; cbn zeta.
  - split; [cbn; lia|intros; lia].
  - rewrite for_loop_S.
    set (w := for_loop n _ 0) in *. cbn zeta.
    destruct (Z.ltb_spec w (strlen30 (nth n azResult []))); split; try lia.
    + intros i Hi. destruct (Nat.eq_dec i n) as [->|]; [lia|].
      specialize (IH i). lia.
    + intros i Hi. destruct (Nat.eq_dec i n) as [->|]; [lia|].
      specialize (IH i). lia.
Qed.

Lemma tables_nPrintCol_spec (maxlen : Z) :
  0 <= maxlen ->
  let c := tables_nPrintCol maxlen in
  1 <= c /\ (c * (maxlen + 2) <= 80 \/ (c = 1 /\ 78 < maxlen)).
Proof.
  intros Hm. unfold tables_nPrintCol. cbn zeta.
  rewrite Z.quot_div_nonneg by lia.
  pose proof (Z.mul_div_le 80 (maxlen + 2) ltac:(lia)) as Hle.
  destruct (Z.ltb_spec (80 / (maxlen + 2)) 1) as [Hlt|Hge].
  - split; [lia|]. right. split; [reflexivity|].
    destruct (Z.le_gt_cases maxlen 78) as [H78|]; [|lia].
    assert (1 <= 80 / (maxlen + 2)); [|lia].
    apply Z.div_le_lower_bound; lia.
  - split; [lia|]. left. lia.
Qed.

Lemma tables_nPrintRow_spec (nRow c : Z) :
  1 <= nRow -> 1 <= c ->
  let r := tables_nPrintRow nRow c in
  1 <= r <= nRow /\ nRow <= r * c.
Proof.
  intros Hn Hc. unfold tables_nPrintRow. cbn zeta.
  rewrite Z.quot_div_nonneg by lia.
  pose proof (Z.div_mod (nRow + c - 1) c ltac:(lia)) as Hdm.
  pose proof (Z.mod_pos_bound (nRow + c - 1) c ltac:(lia)) as Hmod.
  set (r := (nRow + c - 1) / c) in *. nia.
Qed.

Lemma tables_line_lookup (nRow nPrintRow : Z) (fuel : nat) :
  forall (j : Z) (k : nat),
    0 < nPrintRow -> nRow - j <= Z.of_nat fuel ->
    tables_line fuel nRow nPrintRow j !! k
    = if j + Z.of_nat k * nPrintRow <? nRow
      then Some (j + Z.of_nat k * nPrintRow) else None.
Proof.
  induction fuel as [|fuel IH]; intros j k HR Hfuel; cbn [tables_line].
  - destruct (Z.ltb_spec (j + Z.of_nat k * nPrintRow) nRow); [nia|].
    reflexivity.
  - destruct (Z.ltb_spec j nRow) as [Hj|Hj].
    + destruct k as [|k].
      * cbn. rewrite Z.add_0_r.
        destruct (Z.ltb_spec j nRow); [reflexivity|lia].
      * cbn [lookup list_lookup]. rewrite IH by lia.
        replace (j + nPrintRow + Z.of_nat k * nPrintRow)
          with (j + Z.of_nat (S k) * nPrintRow) by lia.
        reflexivity.
    + destruct (Z.ltb_spec (j + Z.of_nat k * nPrintRow) nRow); [nia|].
      reflexivity.
Qed.

Lemma tables_grid_lookup (nRow nPrintRow : Z) (i k : nat) :
  0 < nPrintRow ->
  (tables_grid nRow nPrintRow !! i) ≫= (fun line => line !! k)
  = if (Z.of_nat i <? nPrintRow)
       && (Z.of_nat i + Z.of_nat k * nPrintRow <? nRow)
    then Some (Z.of_nat i + Z.of_nat k * nPrintRow) else None.
Proof.
  intros HR. unfold tables_grid. rewrite list_lookup_fmap.
  destruct (Z.ltb_spec (Z.of_nat i) nPrintRow) as [Hi|Hi].
  - rewrite lookup_seq_lt by lia. cbn [fmap option_fmap option_map mbind option_bind].
    rewrite tables_line_lookup by lia. reflexivity.
  - rewrite lookup_seq_ge by lia. reflexivity.
Qed.

Lemma tables_line_length (nRow nPrintRow c : Z) (fuel : nat) (j : Z) :
  0 < nPrintRow -> 0 <= j -> nRow - j <= Z.of_nat fuel ->
  0 <= c -> nRow <= nPrintRow * c ->
  Z.of_nat (length (tables_line fuel nRow nPrintRow j)) <= c.
Proof.
  intros HR Hj Hfuel Hc0 Hc.
  destruct (Z.le_gt_cases
              (Z.of_nat (length (tables_line fuel nRow nPrintRow j))) c)
    as [|Hgt]; [assumption|exfalso].
  assert (Hk : (Z.to_nat c < length (tables_line fuel nRow nPrintRow j))%nat)
    by lia.
  apply lookup_lt_is_Some in Hk as [x Hx].
  rewrite tables_line_lookup in Hx by lia.
  destruct (Z.ltb_spec (j + Z.of_nat (Z.to_nat c) * nPrintRow) nRow) as [H|];
    [|discriminate].
  nia.
Qed.

Section TablesCells.
Variables (azResult : list bytes) (maxlen nRow nPrintRow : Z).
Hypothesis Hnames :
  forall j, 0 <= j < nRow ->
            Z.of_nat (length (cstr (nth (Z.to_nat j) azResult []))) <= maxlen.
Hypothesis HR : 0 < nPrintRow.

Lemma tables_cell_length (j : Z) :
  0 <= j < nRow ->
  Z.of_nat (length (tables_cell azResult maxlen nPrintRow j))
  = (if j <? nPrintRow then 0 else 2) + maxlen.
Proof.
  intros Hj. unfold tables_cell, fmt_pad_right.
  rewrite !length_app, length_replicate.
  specialize (Hnames j Hj).
  destruct (j <? nPrintRow); cbn [length s2b]; lia.
Qed.

Lemma tables_rest_length (fuel : nat) :
  forall j, nPrintRow <= j ->
    Z.of_nat (length (concat (map (tables_cell azResult maxlen nPrintRow)
                                (tables_line fuel nRow nPrintRow j))))
    = Z.of_nat (length (tables_line fuel nRow nPrintRow j)) * (maxlen + 2).
Proof.
  induction fuel as [|fuel IH]; intros j Hj; cbn [tables_line].
  - reflexivity.
  - destruct (Z.ltb_spec j nRow) as [Hlt|]; [|reflexivity].
    cbn [map concat length]. rewrite length_app, Nat2Z.inj_add.
    rewrite IH by lia. rewrite tables_cell_length by lia.
    destruct (Z.ltb_spec j nPrintRow); lia.
Qed.

Lemma tables_first_length (fuel : nat) (j : Z) :
  0 <= j < nPrintRow -> j < nRow -> (0 < fuel)%nat ->
  let line := tables_line fuel nRow nPrintRow j in
  1 <= Z.of_nat (length line)
  /\ Z.of_nat (length (concat (map (tables_cell azResult maxlen nPrintRow)
                                 line)))
     = Z.of_nat (length line) * (maxlen + 2) - 2.
Proof.
  intros Hj Hlt Hfuel. destruct fuel as [|fuel]; [lia|].
  cbn [tables_line]. destruct (Z.ltb_spec j nRow); [|lia].
  cbn [map concat length]. split; [lia|].
  rewrite length_app, Nat2Z.inj_add.
  rewrite tables_rest_length by lia. rewrite tables_cell_length by lia.
  destruct (Z.ltb_spec j nPrintRow); lia.
Qed.
End TablesCells.

(** X20.  [.tables] writes the names down the columns: the name at
    place [j] of the sorted result stands in line [j mod nPrintRow] as
    the entry number [j / nPrintRow], and nowhere else, so every name is
    written exactly once.  A line holds between one and [nPrintCol]
    names, each padded to the longest name's length with two spaces
    between two names; it is never longer than 78 bytes, or than the
    longest name when that is longer (names shorter than 2^30 bytes). *)
Theorem tables_layout (azResult : list bytes) :
  let nRow := Z.of_nat (length azResult) in
  let maxlen := tables_maxlen nRow azResult in
  let nPrintCol := tables_nPrintCol maxlen in
  let nPrintRow := tables_nPrintRow nRow nPrintCol in
  Forall (fun z => Z.of_nat (length (cstr z)) < 1073741824) azResult ->
  (forall (i k : nat) (j : Z),
     (tables_grid nRow nPrintRow !! i) ≫= (fun line => line !! k) = Some j
     <-> 0 <= j < nRow
         /\ Z.of_nat i = j mod nPrintRow /\ Z.of_nat k = j / nPrintRow)
  /\ Forall (fun line =>
               let text :=
                 concat (map (tables_cell azResult maxlen nPrintRow) line) in
               1 <= Z.of_nat (length line) <= nPrintCol
               /\ Z.of_nat (length text)
                  = Z.of_nat (length line) * (maxlen + 2) - 2
               /\ Z.of_nat (length text) <= Z.max 78 maxlen)
            (tables_grid nRow nPrintRow).
Proof.
  intros nRow maxlen nPrintCol nPrintRow Hshort.
  destruct (tables_maxlen_bound azResult (Z.to_nat nRow)) as [Hm0 Hmax].
  fold (tables_maxlen nRow azResult) in Hm0, Hmax. fold maxlen in Hm0, Hmax.
  destruct (tables_nPrintCol_spec maxlen Hm0) as [Hc1 Hc80].
  fold nPrintCol in Hc1, Hc80.
  destruct (Z.eq_dec nRow 0) as [H0|Hpos].
  { assert (HR0 : nPrintRow = 0).
    { unfold nPrintRow, tables_nPrintRow. rewrite H0.
      rewrite Z.quot_div_nonneg by lia. apply Z.div_small. lia. }
    rewrite HR0. unfold tables_grid. cbn [Z.to_nat seq map]. split.
    - intros i k j. destruct i; cbn; (split; [discriminate|lia]).
    - constructor. }
  assert (Hn1 : 1 <= nRow) by lia.
  destruct (tables_nPrintRow_spec nRow nPrintCol Hn1 Hc1) as [HR HRC].
  fold nPrintRow in HR, HRC.
  assert (Hnames : forall j, 0 <= j < nRow ->
            Z.of_nat (length (cstr (nth (Z.to_nat j) azResult []))) <= maxlen).
  { intros j Hj. specialize (Hmax (Z.to_nat j) ltac:(lia)).
    rewrite strlen30_small in Hmax; [exact Hmax|].
    rewrite List.Forall_forall in Hshort. apply Hshort.
    apply nth_In. lia. }
  split.
  - intros i k j. rewrite tables_grid_lookup by lia.
    destruct (Z.ltb_spec (Z.of_nat i) nPrintRow) as [Hi|Hi]; cbn [andb].
    + destruct (Z.ltb_spec (Z.of_nat i + Z.of_nat k * nPrintRow) nRow)
        as [Hlt|Hge].
      * split.
        -- intros [= <-]. split; [nia|]. split.
           ++ apply Z.mod_unique_pos with (q := Z.of_nat k); lia.
           ++ apply Z.div_unique_pos with (r := Z.of_nat i); lia.
        -- intros (Hj & Hmod & Hdiv). f_equal.
           rewrite Hmod, Hdiv.
           pose proof (Z.div_mod j nPrintRow ltac:(lia)). lia.
      * split; [discriminate|]. intros (Hj & Hmod & Hdiv). exfalso.
        rewrite Hmod, Hdiv in Hge.
        pose proof (Z.div_mod j nPrintRow ltac:(lia)). lia.
    + split; [discriminate|]. intros (Hj & Hmod & _). exfalso.
      pose proof (Z.mod_pos_bound j nPrintRow ltac:(lia)). lia.
  - unfold tables_grid. apply Forall_fmap, List.Forall_forall.
    intros i Hi. apply in_seq in Hi. cbn zeta. cbn [compose].
    unfold compose.
    pose proof (tables_first_length azResult maxlen nRow nPrintRow Hnames
                  ltac:(lia) (Z.to_nat nRow) (Z.of_nat i)
                  ltac:(lia) ltac:(lia) ltac:(lia)) as [Hlen1 Htext].
    pose proof (tables_line_length nRow nPrintRow nPrintCol (Z.to_nat nRow)
                  (Z.of_nat i) ltac:(lia) ltac:(lia) ltac:(lia) ltac:(lia)
                  ltac:(lia)) as Hlen2.
    set (line := tables_line (Z.to_nat nRow) nRow nPrintRow (Z.of_nat i)) in *.
    split; [lia|]. split; [exact Htext|].
    rewrite Htext. destruct Hc80 as [H80|[H1 H78]]; nia.
Qed.

Lemma tables_layout_witness :
  tables_display 5 [s2b "alpha"; s2b "b"; s2b "gamma_table_with_a_long_name";
                    s2b "delta"; s2b "e"]
  = s2b "alpha                         delta                       "
    ++ [10]
    ++ s2b "b                             e                           "
    ++ [10]
    ++ s2b "gamma_table_with_a_long_name" ++ [10]
  /\ Forall (fun line => (1 <= Z.of_nat (length line) <= 2)) 
       (tables_grid 5 3).
Proof.
  split; [vm_compute; reflexivity|].
  pose proof (tables_layout [s2b "alpha"; s2b "b";
                             s2b "gamma_table_with_a_long_name";
                             s2b "delta"; s2b "e"]) as H.
  cbv zeta in H. destruct H as [_ H].
  - repeat constructor.
  - eapply Forall_impl; [exact H|]. intros line (Hl & _). exact Hl.
Defined.

(* ================================================================== *)
(** ** CSV: a record written and read back *)

Lemma output_csv_term_shape (p : callback_data) (v : bytes) (s : Z) :
  cstr (separator p) = [s] ->
  Forall (fun c => 0 < c < 256) v ->
  csv_term s v (output_csv_term p (Some v)).
Proof.
  intros Hsep Hv. unfold output_csv_term, csv_term.
  assert (Hnz : cstr v = v).
  { apply cstr_nonzero. eapply Forall_impl; [exact Hv|]. cbn. lia. }
  rewrite csv_scan_spec, Hnz.
  destruct (existsb (csv_trigger (separator p) v) v) eqn:E.
  { left. reflexivity. }
  destruct v as [|c v']; [left; reflexivity|].
  destruct (Z.eqb_spec (0 + Z.of_nat (length (c :: v'))) 0) as [H0|_];
    [cbn in H0; lia|].
  right. split; [reflexivity|]. split; [discriminate|].
  apply List.Forall_forall. intros x Hx.
  assert (Ht : csv_trigger (separator p) (c :: v') x = false).
  { destruct (csv_trigger (separator p) (c :: v') x) eqn:Ex; [|reflexivity].
    assert (existsb (csv_trigger (separator p) (c :: v')) (c :: v') = true)
      by (apply existsb_exists; eauto).
    congruence. }
  rewrite List.Forall_forall in Hv. specialize (Hv x Hx).
  rewrite (csv_trigger_single _ _ s) in Ht by (assumption || lia).
  apply orb_false_elim in Ht as [Hm Hs]. split; [exact Hm|lia].
Qed.

Lemma nth_middle_app (pre post : bytes) (c : Z) :
  nth (length pre) (pre ++ c :: post) 0 = c.
Proof. apply nth_middle. Qed.

Section SplitRecord.
Variables (sep : bytes) (s : Z) (nCol : Z).
Hypothesis Hsep : cstr sep = [s].

Lemma sep_char0 : char0 sep = s /\ s <> 0.
Proof.
  destruct sep as [|c r]; [discriminate Hsep|]. cbn in Hsep |- *.
  destruct (Z.eqb_spec c 0); [discriminate|]. now injection Hsep as ->.
Qed.

(** The scan over bytes that do not split. *)
Lemma split_loop_segment (t : bytes) :
  forall (fuel : nat) (pre post : bytes) (i : Z) (b : bool)
         (azCol : list nat) (nl : Z),
    no_split s b t ->
    split_loop (length t + fuel) sep 1 nCol (pre ++ t ++ post) (length pre) i
      b azCol nl
    = split_loop fuel sep 1 nCol (pre ++ t ++ post)
        (length pre + length t) i (quote_after b t) azCol
        (nl + count_newlines t).
Proof.
  destruct sep_char0 as [Hc0 Hs0].
  induction t as [|c t IH]; intros fuel pre post i b azCol nl Hns.
  - cbn [length app quote_after count_newlines plus].
    now rewrite Nat.add_0_r, Z.add_0_r.
  - cbn [no_split] in Hns. destruct Hns as (Hc & Hq & Hns).
    cbn [length plus split_loop].
    cbn [app]. rewrite nth_middle_app.
    destruct (Z.eqb_spec c 0); [contradiction|].
    set (b' := if c =? 34 then negb b else b) in *.
    assert (Htest : negb b' && (c =? char0 sep)
                    && strncmp_eq (drop (length pre) (pre ++ c :: t ++ post))
                         sep 1 = false).
    { destruct Hq as [->|Hne]; [reflexivity|].
      rewrite Hc0. destruct (Z.eqb_spec c s); [contradiction|].
      now rewrite andb_false_r. }
    rewrite Htest.
    specialize (IH fuel (pre ++ [c]) post i b' azCol
                  (if c =? 10 then nl + 1 else nl) Hns).
    rewrite <- !app_assoc in IH. cbn [app] in IH.
    rewrite length_app in IH. cbn [length] in IH.
    rewrite IH. cbn [quote_after count_newlines]. fold b'.
    f_equal; [lia|]. destruct (c =? 10); lia.
Qed.

(** The scan at a separator outside quotes. *)
Lemma split_loop_separator (fuel : nat) (pre post : bytes) (i : Z)
    (azCol : list nat) (nl : Z) :
  s <> 34 -> i + 1 < nCol ->
  split_loop (S fuel) sep 1 nCol (pre ++ s :: post) (length pre) i false
    azCol nl
  = split_loop fuel sep 1 nCol (pre ++ 0 :: post) (length pre + 1) (i + 1)
      false (<[Z.to_nat (i + 1) := (length pre + 1)%nat]> azCol)
      (nl + (if s =? 10 then 1 else 0)).
Proof.
  destruct sep_char0 as [Hc0 Hs0]. intros Hq Hi.
  cbn [split_loop]. rewrite nth_middle_app.
  destruct (Z.eqb_spec s 0); [contradiction|].
  destruct (Z.eqb_spec s 34); [contradiction|].
  rewrite Hc0, Z.eqb_refl. cbn [negb andb].
  assert (Hcmp : strncmp_eq (drop (length pre) (pre ++ s :: post)) sep 1
                 = true).
  { unfold strncmp_eq. rewrite drop_app_length, Hsep. cbn [cstr].
    destruct (Z.eqb_spec s 0); [contradiction|]. now apply bool_decide_eq_true. }
  rewrite Hcmp.
  destruct (Z.ltb_spec (i + 1) nCol); [|lia].
  replace (<[length pre := 0]> (pre ++ s :: post)) with (pre ++ 0 :: post).
  2:{ rewrite insert_app_r_alt by lia. now rewrite Nat.sub_diag. }
  replace (length pre + 1 - 1 + 1)%nat with (length pre + 1)%nat by lia.
  f_equal. destruct (s =? 10); lia.
Qed.
End SplitRecord.

Lemma no_split_app (s : Z) (a c : bytes) :
  forall b, no_split s b a -> no_split s (quote_after b a) c ->
            no_split s b (a ++ c).
Proof.
  induction a as [|x a IH]; intros b Ha Hc; [exact Hc|].
  cbn [no_split app quote_after] in *. destruct Ha as (Hx & Hq & Ha).
  split; [exact Hx|]. split; [exact Hq|]. now apply IH.
Qed.

Lemma quote_after_app (a c : bytes) :
  forall b, quote_after b (a ++ c) = quote_after (quote_after b a) c.
Proof.
  induction a as [|x a IH]; intros b; [reflexivity|].
  cbn [app quote_after]. apply IH.
Qed.

Lemma quoted_body_no_split (s : Z) (v : bytes) :
  s <> 34 -> Forall (fun c => c <> 0) v ->
  no_split s true (csv_quoted_body v)
  /\ quote_after true (csv_quoted_body v) = true.
Proof.
  intros Hs. induction 1 as [|c v Hc _ [IH1 IH2]]; [split; constructor|].
  cbn [csv_quoted_body]. destruct (Z.eqb_spec c 0); [contradiction|].
  destruct (Z.eqb_spec c 34) as [->|Hq].
  - cbn [no_split quote_after]. change (34 =? 34) with true. cbn [negb].
    repeat split; try lia; auto.
  - cbn [no_split quote_after].
    destruct (Z.eqb_spec c 34); [contradiction|].
    repeat split; auto.
Qed.

Lemma csv_term_no_split (s s' : Z) (v t : bytes) :
  s' <> 34 -> s' = s \/ csv_marked s' = true ->
  Forall (fun c => c <> 0) v -> csv_term s v t ->
  no_split s' false t /\ quote_after false t = false.
Proof.
  intros Hs Hs' Hv [->|(-> & _ & Hplain)].
  - destruct (quoted_body_no_split s' v Hs Hv) as [H1 H2].
    change (34 :: csv_quoted_body v ++ [34])
      with ([34] ++ csv_quoted_body v ++ [34]).
    split.
    + apply no_split_app; [cbn; repeat split; auto; lia|].
      change (quote_after false [34]) with true.
      apply no_split_app; [exact H1|]. rewrite H2. cbn.
      repeat split; auto; lia.
    + rewrite !quote_after_app. cbn [quote_after]. change (34 =? 34) with true.
      cbn [negb]. now rewrite H2.
  - clear -Hv Hplain Hs'. induction v as [|c v IH]; [split; constructor|].
    inversion Hv; subst. inversion Hplain as [|? ? [Hm Hns] Hrest]; subst.
    cbn [no_split quote_after].
    destruct (Z.eqb_spec c 34) as [->|_]; [discriminate Hm|].
    destruct (IH H2 Hrest) as [IH1 IH2]. repeat split; auto.
    right. intros ->. destruct Hs' as [->|Hs']; [contradiction|congruence].
Qed.

Section SplitRecordTerms.
Variables (sep : bytes) (s : Z) (nCol : Z).
Hypothesis Hsep : cstr sep = [s].
Hypothesis Hs34 : s <> 34.

Lemma split_loop_record (ts : list bytes) :
  forall (fuel : nat) (pre : bytes) (i : Z) (azCol : list nat) (nl : Z),
    ts <> [] ->
    Forall (fun t => no_split s false t /\ quote_after false t = false) ts ->
    0 <= i -> i + Z.of_nat (length ts) = nCol ->
    (Z.to_nat nCol < length azCol)%nat ->
    let r := split_loop (length (join_sep s ts) + S fuel) sep 1 nCol
               (pre ++ join_sep s ts ++ [0]) (length pre) i false azCol nl in
    sp_i r = nCol - 1
    /\ sp_mem r = pre ++ cut_record ts
    /\ length (sp_azCol r) = length azCol
    /\ (forall m, (m <= Z.to_nat i)%nat ->
                  nth m (sp_azCol r) 0%nat = nth m azCol 0%nat)
    /\ (forall j, (0 < j < length ts)%nat ->
                  nth (Z.to_nat i + j) (sp_azCol r) 0%nat
                  = (length pre + length (cut_record (take j ts)))%nat).
Proof.
  induction ts as [|t ts IH]; intros fuel pre i azCol nl Hne Hts Hi Hn Haz;
    [contradiction|].
  inversion Hts as [|? ? [Hns Hqa] Hts']; subst.
  destruct ts as [|t2 ts].
  - (* the last term *)
    cbn [join_sep]. cbv zeta.
    rewrite (split_loop_segment sep s (i + Z.of_nat (length [t])) Hsep t
               (S fuel) pre [0] i false azCol nl Hns).
    cbn [split_loop]. rewrite app_assoc.
    replace (length pre + length t)%nat with (length (pre ++ t))
      by (rewrite length_app; lia).
    rewrite nth_middle_app. change (0 =? 0) with true.
    cbn [sp_i sp_mem sp_azCol length]. unfold cut_record. cbn [map concat].
    rewrite app_nil_r, <- app_assoc.
    repeat split; lia.
  - (* a term and a separator *)
    remember (t2 :: ts) as ts' eqn:Ets.
    assert (Hjoin : join_sep s (t :: ts') = t ++ s :: join_sep s ts')
      by (subst ts'; reflexivity).
    assert (Hlen' : (1 <= length ts')%nat) by (subst ts'; cbn; lia).
    rewrite Hjoin. cbv zeta.
    replace (length (t ++ s :: join_sep s ts') + S fuel)%nat
      with (length t + S (length (join_sep s ts') + S fuel))%nat
      by (rewrite length_app; cbn [length]; lia).
    rewrite <- app_assoc.
    rewrite (split_loop_segment sep s (i + Z.of_nat (length (t :: ts'))) Hsep t
               _ pre _ i false azCol nl Hns).
    rewrite Hqa.
    replace (length pre + length t)%nat with (length (pre ++ t))
      by (rewrite length_app; lia).
    rewrite (app_assoc pre t). cbn [app].
    rewrite (split_loop_separator sep s _ Hsep) by (cbn [length] in *; lia).
    replace (length (pre ++ t) + 1)%nat with (length (pre ++ t ++ [0]))
      by (rewrite !length_app; cbn [length]; lia).
    replace ((pre ++ t) ++ 0 :: join_sep s ts' ++ [0])
      with ((pre ++ t ++ [0]) ++ join_sep s ts' ++ [0])
      by (now rewrite <- !app_assoc).
    set (azCol' := <[Z.to_nat (i + 1) := length (pre ++ t ++ [0])]> azCol).
    assert (Hne' : ts' <> []) by (subst ts'; discriminate).
    destruct (IH fuel (pre ++ t ++ [0]) (i + 1) azCol'
                (nl + count_newlines t + (if s =? 10 then 1 else 0))
                Hne' Hts' ltac:(lia)
                ltac:(cbn [length]; lia)
                ltac:(subst azCol'; rewrite length_insert; exact Haz))
      as (Ri & Rmem & Rlen & Rframe & Roff).
    replace (i + 1 + Z.of_nat (length ts')) with
      (i + Z.of_nat (length (t :: ts'))) in * by (cbn [length]; lia).
    split; [exact Ri|]. split.
    { rewrite Rmem. unfold cut_record. cbn [map concat].
      now rewrite <- !app_assoc. }
    split; [rewrite Rlen; subst azCol'; apply length_insert|]. split.
    + intros m Hm. rewrite Rframe by lia. subst azCol'.
      rewrite !nth_lookup.
      rewrite list_lookup_insert_ne by lia. reflexivity.
    + intros j Hj. destruct (Nat.eq_dec j 1%nat) as [->|Hj1].
      * replace (Z.to_nat i + 1)%nat with (Z.to_nat (i + 1)) by lia.
        rewrite Rframe by lia. subst azCol'.
        rewrite nth_lookup, list_lookup_insert_eq by (cbn [length] in *; lia).
        cbn [take]. rewrite take_0. unfold cut_record. cbn [map concat default].
        rewrite app_nil_r, !length_app. reflexivity.
      * specialize (Roff (j - 1)%nat ltac:(cbn [length] in Hj; lia)).
        replace (Z.to_nat (i + 1) + (j - 1))%nat with (Z.to_nat i + j)%nat
          in Roff by lia.
        rewrite Roff. destruct j as [|j]; [lia|].
        cbn [take]. replace (S j - 1)%nat with j by lia.
        unfold cut_record. cbn [map concat].
        rewrite !length_app. cbn [length]. lia.
Qed.
End SplitRecordTerms.

Ltac list_assoc :=
  rewrite <- ?app_assoc; cbn [app]; rewrite <- ?app_assoc; cbn [app];
  reflexivity.

Lemma insert_middle_app (pre post : bytes) (c d : Z) :
  <[length pre := d]> (pre ++ c :: post) = pre ++ d :: post.
Proof. rewrite insert_app_r_alt by lia. now rewrite Nat.sub_diag. Qed.

(** The loop that removes the quotes, from inside a quoted term: [W]
    is written, [G] is the gap between what is written and what is
    read next. *)
Lemma dequote_loop_body (v : bytes) :
  forall (fuel : nat) (pre W G post : bytes),
    G <> [] -> Forall (fun c => c <> 0) v -> (length v < fuel)%nat ->
    exists G',
      dequote_loop fuel
        (pre ++ W ++ G ++ csv_quoted_body v ++ 34 :: 0 :: post)
        (length pre) (length W + length G) (length W)
      = pre ++ (W ++ v) ++ 0 :: G' ++ post
      /\ (length v + length G'
          = length G + length (csv_quoted_body v) + 1)%nat.
Proof.
  induction v as [|c v IH]; intros fuel pre W G post HG Hv Hfuel;
    (destruct fuel as [|fuel]; [cbn in Hfuel; lia|]);
    (destruct G as [|g G0]; [contradiction|]).
  - cbn [csv_quoted_body app dequote_loop].
    replace (pre ++ W ++ g :: G0 ++ 34 :: 0 :: post)
      with ((pre ++ W ++ g :: G0) ++ 34 :: 0 :: post)
      by list_assoc.
    replace (length pre + (length W + length (g :: G0)))%nat
      with (length (pre ++ W ++ g :: G0))
      by (rewrite !length_app; reflexivity).
    rewrite nth_middle_app. change (34 =? 0) with false.
    change (34 =? 34) with true. cbv iota.
    replace ((pre ++ W ++ g :: G0) ++ 34 :: 0 :: post)
      with ((pre ++ W ++ g :: G0 ++ [34]) ++ 0 :: post)
      by list_assoc.
    replace (length pre + S (length W + length (g :: G0)))%nat
      with (length (pre ++ W ++ g :: G0 ++ [34])).
    2:{ rewrite !length_app. cbn [length]. rewrite length_app. cbn [length].
        lia. }
    rewrite nth_middle_app. change (0 =? 0) with true. cbv iota.
    exists (G0 ++ [34; 0]). split.
    + replace ((pre ++ W ++ g :: G0 ++ [34]) ++ 0 :: post)
        with ((pre ++ W) ++ g :: G0 ++ 34 :: 0 :: post)
        by list_assoc.
      replace (length pre + length W)%nat with (length (pre ++ W))
        by (now rewrite length_app).
      rewrite insert_middle_app, app_nil_r. list_assoc.
    + rewrite length_app. cbn [length]. lia.
  - inversion Hv as [|? ? Hc Hv']; subst.
    cbn [csv_quoted_body]. destruct (Z.eqb_spec c 0); [contradiction|].
    destruct (Z.eqb_spec c 34) as [->|Hq].
    + (* a doubled quote *)
      cbn [dequote_loop].
      replace (pre ++ W ++ (g :: G0) ++ (34 :: 34 :: csv_quoted_body v)
               ++ 34 :: 0 :: post)
        with ((pre ++ W ++ g :: G0) ++ 34 :: 34 :: csv_quoted_body v
              ++ 34 :: 0 :: post)
        by list_assoc.
      replace (length pre + (length W + length (g :: G0)))%nat
        with (length (pre ++ W ++ g :: G0))
        by (rewrite !length_app; reflexivity).
      rewrite nth_middle_app. change (34 =? 0) with false.
      change (34 =? 34) with true. cbv iota.
      replace ((pre ++ W ++ g :: G0) ++ 34 :: 34 :: csv_quoted_body v
               ++ 34 :: 0 :: post)
        with ((pre ++ W ++ g :: G0 ++ [34]) ++ 34 :: csv_quoted_body v
              ++ 34 :: 0 :: post)
        by list_assoc.
      replace (length pre + S (length W + length (g :: G0)))%nat
        with (length (pre ++ W ++ g :: G0 ++ [34])).
      2:{ rewrite !length_app. cbn [length]. rewrite length_app.
          cbn [length]. lia. }
      rewrite nth_middle_app. change (34 =? 0) with false. cbv iota.
      replace ((pre ++ W ++ g :: G0 ++ [34]) ++ 34 :: csv_quoted_body v
               ++ 34 :: 0 :: post)
        with ((pre ++ W) ++ g :: G0 ++ [34; 34] ++ csv_quoted_body v
              ++ 34 :: 0 :: post)
        by list_assoc.
      replace (length pre + length W)%nat with (length (pre ++ W))
        by (now rewrite length_app).
      rewrite insert_middle_app.
      destruct (IH fuel pre (W ++ [34]) (G0 ++ [34; 34]) post)
        as (G' & Hrun & Hlen); [now destruct G0|exact Hv'|cbn in Hfuel; lia|].
      exists G'. split.
      * replace ((pre ++ W) ++ 34 :: G0 ++ [34; 34] ++ csv_quoted_body v
                 ++ 34 :: 0 :: post)
          with (pre ++ (W ++ [34]) ++ (G0 ++ [34; 34]) ++ csv_quoted_body v
                ++ 34 :: 0 :: post)
          by list_assoc.
        replace (S (S (length W + length (g :: G0))))
          with (length (W ++ [34%Z]) + length (G0 ++ [34%Z; 34%Z]))%nat
          by (rewrite !length_app; cbn [length]; lia).
        replace (S (length W)) with (length (W ++ [34]))
          by (rewrite !length_app; cbn [length]; lia).
        rewrite Hrun. list_assoc.
      * rewrite length_app in Hlen. cbn [length] in Hlen |- *. lia.
    + (* any other byte *)
      cbn [dequote_loop].
      replace (pre ++ W ++ (g :: G0) ++ (c :: csv_quoted_body v)
               ++ 34 :: 0 :: post)
        with ((pre ++ W ++ g :: G0) ++ c :: csv_quoted_body v
              ++ 34 :: 0 :: post)
        by list_assoc.
      replace (length pre + (length W + length (g :: G0)))%nat
        with (length (pre ++ W ++ g :: G0))
        by (rewrite !length_app; reflexivity).
      rewrite nth_middle_app.
      destruct (Z.eqb_spec c 0); [contradiction|].
      destruct (Z.eqb_spec c 34); [contradiction|].
      replace ((pre ++ W ++ g :: G0) ++ c :: csv_quoted_body v
               ++ 34 :: 0 :: post)
        with ((pre ++ W) ++ g :: G0 ++ [c] ++ csv_quoted_body v
              ++ 34 :: 0 :: post)
        by list_assoc.
      replace (length pre + length W)%nat with (length (pre ++ W))
        by (now rewrite length_app).
      rewrite insert_middle_app.
      destruct (IH fuel pre (W ++ [c]) (G0 ++ [c]) post)
        as (G' & Hrun & Hlen); [now destruct G0|exact Hv'|cbn in Hfuel; lia|].
      exists G'. split.
      * replace ((pre ++ W) ++ c :: G0 ++ [c] ++ csv_quoted_body v
                 ++ 34 :: 0 :: post)
          with (pre ++ (W ++ [c]) ++ (G0 ++ [c]) ++ csv_quoted_body v
                ++ 34 :: 0 :: post)
          by list_assoc.
        replace (S (length W + length (g :: G0)))
          with (length (W ++ [c]) + length (G0 ++ [c]))%nat
          by (rewrite !length_app; cbn [length]; lia).
        replace (S (length W)) with (length (W ++ [c]))
          by (rewrite !length_app; cbn [length]; lia).
        rewrite Hrun. list_assoc.
      * rewrite length_app in Hlen. cbn [length] in Hlen |- *. lia.
Qed.

Lemma csv_quoted_body_length (v : bytes) :
  Forall (fun c => c <> 0) v ->
  (length v <= length (csv_quoted_body v))%nat.
Proof.
  induction 1 as [|c v Hc _ IH]; [cbn; lia|].
  cbn [csv_quoted_body]. destruct (Z.eqb_spec c 0); [contradiction|].
  destruct (c =? 34); cbn [length]; lia.
Qed.

(** One column of the loop that binds: the term at [z] gives back its
    value, and the bytes after its terminator are not touched. *)
Lemma bind_column_term (s : Z) (v t G rest : bytes) :
  csv_term s v t -> Forall (fun c => c <> 0) v ->
  let mem := G ++ t ++ 0 :: rest in
  let z := length G in
  let mem' := if nth z mem 0 =? 34
              then dequote_loop (length mem) mem z 1 0 else mem in
  exists G',
    mem' = G' ++ rest
    /\ length G' = (length G + length t + 1)%nat
    /\ cstr (drop z mem') = v.
Proof.
  intros [->|(-> & Hne & Hplain)] Hv; cbv zeta.
  - cbn [app]. rewrite nth_middle_app. change (34 =? 34) with true. cbv iota.
    pose proof (csv_quoted_body_length v Hv) as Hq.
    replace (G ++ 34 :: (csv_quoted_body v ++ [34]) ++ 0 :: rest)
      with (G ++ 34 :: csv_quoted_body v ++ 34 :: 0 :: rest) by list_assoc.
    destruct (dequote_loop_body v
                (length (G ++ 34 :: csv_quoted_body v ++ 34 :: 0 :: rest))
                G [] [34] rest) as (G' & Hrun & Hlen);
      [discriminate|exact Hv| |].
    { rewrite !length_app. cbn [length]. rewrite !length_app. cbn [length].
      lia. }
    cbn [app length plus] in Hrun.
    replace (length G + 0)%nat with (length G) in Hrun by lia.
    rewrite Hrun. exists (G ++ v ++ 0 :: G'). split; [list_assoc|]. split.
    + rewrite !length_app. cbn [length]. rewrite length_app. cbn [length] in *.
      lia.
    + rewrite drop_app_length. rewrite cstr_terminated.
      now apply cstr_nonzero.
  - destruct v as [|c v]; [contradiction|].
    inversion Hplain as [|? ? [Hc _] _]; subst.
    cbn [app]. rewrite nth_middle_app.
    destruct (Z.eqb_spec c 34) as [->|_]; [discriminate Hc|].
    exists (G ++ (c :: v) ++ [0]). split; [list_assoc|]. split.
    + rewrite !length_app. cbn [length]. lia.
    + change (G ++ c :: v ++ 0 :: rest) with (G ++ (c :: v) ++ 0 :: rest).
      rewrite drop_app_length, cstr_terminated. now apply cstr_nonzero.
Qed.

Lemma cut_record_snoc (ts : list bytes) (t : bytes) :
  cut_record (ts ++ [t]) = cut_record ts ++ t ++ [0].
Proof.
  unfold cut_record. rewrite map_app, concat_app. cbn. now rewrite app_nil_r.
Qed.

(** The loop over the columns on a line that was cut at its
    separators. *)
Lemma bind_columns_record (s : Z) (vs ts : list bytes) (azCol : list nat) :
  Forall2 (csv_term s) vs ts ->
  Forall (Forall (fun c => c <> 0)) vs ->
  (forall j, (j < length ts)%nat ->
             nth j azCol 0%nat = length (cut_record (take j ts))) ->
  bind_columns (Z.of_nat (length ts)) azCol (cut_record ts) = vs.
Proof.
  intros Hterms Hvs Hoff. unfold bind_columns. rewrite Nat2Z.id.
  set (body := fun (i : nat) '(mem, vals) => _).
  assert (Hlen : length vs = length ts) by (eapply Forall2_length; eauto).
  assert (Hinv : forall n, (n <= length ts)%nat ->
            exists G,
              for_loop n body (cut_record ts, []) 
              = (G ++ cut_record (drop n ts), take n vs)
              /\ length G = length (cut_record (take n ts))).
  { induction n as [|n IH]; intros Hn.
    - exists []. split; reflexivity.
    - destruct (IH ltac:(lia)) as (G & Hrun & HG).
      rewrite for_loop_S, Hrun.
      destruct (lookup_lt_is_Some_2 ts n ltac:(lia)) as [t Ht].
      destruct (lookup_lt_is_Some_2 vs n ltac:(lia)) as [v Hv].
      assert (Hterm : csv_term s v t).
      { eapply Forall2_lookup_lr; eauto. }
      assert (Hvnz : Forall (fun c => c <> 0) v).
      { eapply Forall_lookup_1; eauto. }
      rewrite (drop_S _ _ _ Ht).
      unfold cut_record at 1. cbn [map concat]. fold (cut_record (drop (S n) ts)).
      rewrite <- app_assoc. cbn [app].
      subst body. cbv beta iota zeta.
      rewrite (Hoff n ltac:(lia)), <- HG.
      destruct (bind_column_term s v t G (cut_record (drop (S n) ts))
                  Hterm Hvnz) as (G' & Hmem & HG' & Hval).
      cbv zeta in Hmem, Hval. rewrite Hmem in Hval |- *. rewrite Hval.
      exists G'. split.
      + f_equal. now rewrite (take_S_r _ _ _ Hv).
      + rewrite (take_S_r _ _ _ Ht), cut_record_snoc, !length_app.
        cbn [length]. lia. }
  destruct (Hinv (length ts) ltac:(lia)) as (G & Hrun & _).
  rewrite Hrun. cbn [snd]. rewrite <- Hlen. apply firstn_all.
Qed.

Lemma output_csv_emit (p : callback_data) (z : option bytes) (bSep : bool) :
  output_csv p z bSep
  = emit p (output_csv_term p z ++ if bSep then cstr (separator p) else []).
Proof.
  unfold output_csv. destruct bSep.
  - rewrite emit_emit. reflexivity.
  - rewrite app_nil_r. reflexivity.
Qed.

Lemma join_sep_seq (s : Z) (ts : list bytes) :
  concat (map (fun i => nth i ts []
                        ++ (if Z.of_nat i <? Z.of_nat (length ts) - 1
                            then [s] else []))
            (seq 0 (length ts)))
  = join_sep s ts.
Proof.
  induction ts as [|t ts IH]; [reflexivity|].
  cbn [length seq map concat nth].
  rewrite <- seq_shift, map_map.
  rewrite (map_ext _ (fun i => nth i ts []
                               ++ (if Z.of_nat i <? Z.of_nat (length ts) - 1
                                   then [s] else []))).
  2:{ intros i. cbn [nth]. f_equal.
      destruct (Z.ltb_spec (Z.of_nat (S i)) (Z.of_nat (S (length ts)) - 1)),
               (Z.ltb_spec (Z.of_nat i) (Z.of_nat (length ts) - 1));
        (reflexivity || lia). }
  rewrite IH. destruct ts as [|t2 ts].
  - destruct (Z.ltb_spec (Z.of_nat 0) (Z.of_nat (S (length (@nil bytes))) - 1));
      [cbn [length] in *; lia|].
    cbn [join_sep]. now rewrite !app_nil_r.
  - destruct (Z.ltb_spec (Z.of_nat 0) (Z.of_nat (S (length (t2 :: ts))) - 1));
      [|cbn [length] in *; lia].
    rewrite <- app_assoc. reflexivity.
Qed.

Lemma csv_record_join (p : callback_data) (vs : list bytes) (s : Z) :
  cstr (separator p) = [s] ->
  csv_record p vs
  = join_sep s (map (fun v => output_csv_term p (Some v)) vs).
Proof.
  intros Hsep. induction vs as [|v vs IH]; [reflexivity|].
  destruct vs as [|v2 vs]; [reflexivity|].
  change (csv_record p (v :: v2 :: vs))
    with (output_csv_term p (Some v) ++ cstr (separator p)
          ++ csv_record p (v2 :: vs)).
  rewrite IH, Hsep. reflexivity.
Qed.

Lemma csv_record_written (p : callback_data) (vs : list bytes)
    (azCol : list bytes) (s : Z) :
  cstr (separator p) = [s] ->
  showHeader p = 0 ->
  f_text (out (shell_callback_csv p (Z.of_nat (length vs))
                 (Some (map Some vs)) azCol))
  = f_text (out p) ++ csv_record p vs ++ [10].
Proof.
  intros Hsep Hh. unfold shell_callback_csv. rewrite Nat2Z.id.
  change (showHeader (set_cnt p (cnt p + 1))) with (showHeader p).
  rewrite Hh. change (0 =? 0) with true. cbn [negb]. rewrite andb_false_r.
  set (q := set_cnt p (cnt p + 1)).
  rewrite (for_loop_ext _ _
             (fun i q => emit q
                ((fun q i =>
                    output_csv_term q (default None (map Some vs !! i))
                    ++ (if Z.of_nat i <? Z.of_nat (length vs) - 1
                        then cstr (separator q) else [])) q i)))
    by (intros; apply output_csv_emit).
  rewrite for_loop_emit by reflexivity.
  rewrite emit_emit. cbn [emit set_out out fputs f_text].
  change (f_text (out q)) with (f_text (out p)). f_equal.
  rewrite (csv_record_join p vs s Hsep).
  rewrite <- join_sep_seq, length_map.
  f_equal. f_equal. apply map_ext_in. intros i Hi. apply in_seq in Hi.
  change (separator q) with (separator p). rewrite Hsep. f_equal.
  rewrite list_lookup_fmap.
  destruct (lookup_lt_is_Some_2 vs i ltac:(lia)) as [v Hv].
  rewrite Hv. cbn [fmap option_fmap option_map default].
  rewrite nth_lookup, list_lookup_fmap, Hv. reflexivity.
Qed.

(** X21.  What case [MODE_Csv] of the row callback writes for a row,
    [.import] reads back: with a separator of one byte that is not the
    double quote, the scan of [.import] finds as many fields in the
    written record as the row has values, and the loop that removes the
    quotes binds exactly the values of the row, whatever bytes they
    hold (separators, quotes, newlines), the empty value included. *)
Theorem csv_round_trip (p : callback_data) (vs : list bytes)
    (azCol : list bytes) (s : Z) :
  cstr (separator p) = [s] -> s <> 34 ->
  showHeader p = 0 ->
  vs <> [] ->
  Forall (Forall (fun c => 0 < c < 256)) vs ->
  let nCol := Z.of_nat (length vs) in
  let zLine := csv_record p vs in
  let sp := split_line (separator p) nCol zLine in
  f_text (out (shell_callback_csv p nCol (Some (map Some vs)) azCol))
    = f_text (out p) ++ zLine ++ [10]
  /\ sp_i sp + 1 = nCol
  /\ bind_columns nCol (sp_azCol sp) (sp_mem sp) = vs.
Proof.
  intros Hsep Hs34 Hh Hne Hvs nCol zLine sp.
  split; [now apply (csv_record_written p vs azCol s)|].
  set (ts := map (fun v => output_csv_term p (Some v)) vs).
  assert (Hnz : Forall (Forall (fun c => c <> 0)) vs).
  { eapply Forall_impl; [exact Hvs|]. intros v Hv.
    eapply Forall_impl; [exact Hv|]. cbn. lia. }
  assert (Hterms : Forall2 (csv_term s) vs ts).
  { subst ts. apply Forall2_fmap_r, Forall_Forall2_diag.
    eapply Forall_impl; [exact Hvs|]. intros v Hv.
    now apply output_csv_term_shape. }
  assert (Hlen : length ts = length vs) by (subst ts; apply length_map).
  assert (Hsplit : Forall (fun t => no_split s false t
                                    /\ quote_after false t = false) ts).
  { clear -Hterms Hnz Hs34.
    induction Hterms as [|v t vs' ts' Hterm _ IH]; [constructor|].
    inversion Hnz; subst. constructor; [|now apply IH].
    apply (csv_term_no_split s s v t); auto. }
  assert (Hnsep : Z.to_nat (strlen30 (separator p)) = 1%nat).
  { unfold strlen30. now rewrite Hsep. }
  subst sp. unfold split_line. rewrite Hnsep.
  subst zLine. rewrite (csv_record_join p vs s Hsep). fold ts.
  replace (S (length (join_sep s ts ++ [0])))
    with (length (join_sep s ts) + S 1)%nat
    by (rewrite length_app; cbn [length]; lia).
  assert (Hne' : ts <> []) by (destruct vs; [contradiction|discriminate]).
  destruct (split_loop_record (separator p) s nCol Hsep Hs34 ts 1%nat [] 0
              (replicate (Z.to_nat (nCol + 1)) 0%nat) 0 Hne' Hsplit
              ltac:(lia) ltac:(subst nCol; lia)
              ltac:(rewrite length_replicate; lia))
    as (Ri & Rmem & _ & Rframe & Roff).
  cbn [app length] in Ri, Rmem, Rframe, Roff |- *.
  set (r := split_loop _ _ _ _ _ _ _ _ _ _) in *.
  split; [rewrite Ri; lia|].
  rewrite Rmem. subst nCol. rewrite <- Hlen.
  apply (bind_columns_record s); [exact Hterms|exact Hnz|].
  intros j Hj. destruct j as [|j].
  - rewrite (Rframe 0%nat) by lia.
    rewrite nth_lookup, lookup_replicate_2 by lia. reflexivity.
  - apply (Roff (S j)). lia.
Qed.

Lemma csv_round_trip_witness :
  let vs := [s2b "plain"; s2b "new" ++ [10] ++ s2b "line"; [];
             s2b "say " ++ [34] ++ s2b "hi" ++ [34] ++ s2b ", twice"] in
  let sp := split_line (s2b ",") 4 (csv_record csv_session vs) in
  f_text (out (shell_callback_csv csv_session 4 (Some (map Some vs)) []))
    = f_text (out csv_session) ++ csv_record csv_session vs ++ [10]
  /\ sp_i sp + 1 = 4
  /\ bind_columns 4 (sp_azCol sp) (sp_mem sp) = vs.
Proof.
  apply (csv_round_trip csv_session
           [s2b "plain"; s2b "new" ++ [10] ++ s2b "line"; [];
            s2b "say " ++ [34] ++ s2b "hi" ++ [34] ++ s2b ", twice"]
           [] 44).
  - reflexivity.
  - discriminate.
  - reflexivity.
  - discriminate.
  - repeat constructor.
Defined.

Lemma join_sep_no_split (s s' : Z) (ts : list bytes) :
  s <> 0 -> s <> 34 -> s <> s' ->
  Forall (fun t => no_split s' false t /\ quote_after false t = false) ts ->
  no_split s' false (join_sep s ts)
  /\ quote_after false (join_sep s ts) = false.
Proof.
  intros H0 H34 Hs'. induction 1 as [|t ts [Ht Hq] _ [IH1 IH2]];
    [split; constructor|].
  destruct ts as [|t2 ts]; [now split|].
  change (join_sep s (t :: t2 :: ts))
    with (t ++ [s] ++ join_sep s (t2 :: ts)).
  split.
  - apply no_split_app; [exact Ht|]. rewrite Hq.
    apply no_split_app.
    + cbn [no_split]. destruct (Z.eqb_spec s 34); [contradiction|].
      repeat split; auto.
    + cbn [quote_after]. destruct (Z.eqb_spec s 34); [contradiction|].
      exact IH1.
  - rewrite !quote_after_app, Hq. cbn [quote_after].
    destruct (Z.eqb_spec s 34); [contradiction|]. exact IH2.
Qed.

Lemma no_split_nonzero (s : Z) (t : bytes) :
  forall b, no_split s b t -> Forall (fun c => c <> 0) t.
Proof.
  induction t as [|c t IH]; intros b H; [constructor|].
  cbn [no_split] in H. destruct H as (Hc & _ & H).
  constructor; [exact Hc|]. eapply IH, H.
Qed.

Lemma first_line_no_split (t : bytes) :
  forall (b : bool) (r : bytes),
    no_split 10 b t ->
    first_line true b (t ++ r)
    = match first_line true (quote_after b t) r with
      | Some (l, r') => Some (t ++ l, r')
      | None => None
      end.
Proof.
  induction t as [|c t IH]; intros b r H; cbn [app quote_after].
  - destruct (first_line true b r) as [[l r']|]; reflexivity.
  - cbn [no_split] in H. destruct H as (_ & Hq & H).
    cbn [first_line]. set (b' := if c =? 34 then negb b else b) in *.
    assert (Hend : (c =? 10) && (negb b' || negb true) = false).
    { destruct Hq as [->|Hc]; [now rewrite andb_false_r|].
      destruct (Z.eqb_spec c 10); [contradiction|reflexivity]. }
    rewrite Hend, (IH b' r H).
    destruct (first_line true (quote_after b' t) r) as [[l r']|]; reflexivity.
Qed.

Lemma csv_term_last (s : Z) (v t : bytes) :
  csv_term s v t -> t <> [] /\ List.last t 0 <> 13.
Proof.
  intros [->|(-> & Hne & Hplain)].
  - split; [discriminate|].
    change (34 :: csv_quoted_body v ++ [34])
      with ((34 :: csv_quoted_body v) ++ [34]).
    rewrite last_last. discriminate.
  - split; [exact Hne|].
    destruct v as [|c v _] using rev_ind; [contradiction|].
    rewrite last_last. apply Forall_app in Hplain as [_ Hc].
    inversion Hc as [|? ? [Hm _] _]; subst. intros ->. discriminate Hm.
Qed.

Lemma join_sep_last (s : Z) (ts : list bytes) :
  ts <> [] ->
  Forall (fun t => t <> [] /\ List.last t 0 <> 13) ts ->
  join_sep s ts <> [] /\ List.last (join_sep s ts) 0 <> 13.
Proof.
  intros Hne H. induction H as [|t ts [Ht Hl] _ IH]; [contradiction|].
  destruct ts as [|t2 ts]; [now split|].
  destruct (IH ltac:(discriminate)) as [IH1 IH2].
  change (join_sep s (t :: t2 :: ts))
    with (t ++ s :: join_sep s (t2 :: ts)).
  split; [now destruct t|].
  destruct (join_sep s (t2 :: ts)) as [|c J _] using rev_ind;
    [contradiction|].
  change (t ++ s :: J ++ [c]) with (t ++ (s :: J) ++ [c]).
  rewrite app_assoc, last_last. now rewrite last_last in IH2.
Qed.

(** X22.  A record written in CSV mode is one line for the reader of
    [.import]: with a separator of one byte that is neither the double
    quote nor the newline, [local_getline] with [csvFlag] returns the
    whole record, the newlines inside its values included, and leaves
    what follows the record's newline unread. *)
Theorem csv_record_read_back (p : callback_data) (vs : list bytes)
    (s : Z) (rest : bytes) :
  cstr (separator p) = [s] -> s <> 34 -> s <> 10 ->
  vs <> [] ->
  Forall (Forall (fun c => 0 < c < 256)) vs ->
  Forall (fun c => c <> 0) rest ->
  snd (local_getline None (csv_record p vs ++ [10] ++ rest) true
         (fun _ => true))
  = (Some (csv_record p vs), rest).
Proof.
  intros Hsep Hs34 Hs10 Hne Hvs Hrest.
  set (ts := map (fun v => output_csv_term p (Some v)) vs).
  assert (Hs0 : s <> 0).
  { destruct (separator p) as [|c r]; [discriminate|]. cbn in Hsep.
    destruct (Z.eqb_spec c 0); [discriminate|]. now injection Hsep as ->. }
  assert (Hterms : Forall2 (csv_term s) vs ts).
  { subst ts. apply Forall2_fmap_r, Forall_Forall2_diag.
    eapply Forall_impl; [exact Hvs|]. intros v Hv.
    now apply output_csv_term_shape. }
  assert (Hsplit : Forall (fun t => no_split 10 false t
                                    /\ quote_after false t = false) ts
                   /\ Forall (fun t => t <> [] /\ List.last t 0 <> 13) ts).
  { clear -Hterms Hvs. induction Hterms as [|v t vs' ts' Hterm _ IH];
      [split; constructor|].
    inversion Hvs as [|? ? Hv Hvs']; subst. destruct (IH Hvs') as [IH1 IH2].
    split; (constructor; [|assumption]).
    - apply (csv_term_no_split s 10 v t);
        [discriminate|now right| |exact Hterm].
      eapply Forall_impl; [exact Hv|]. cbn. lia.
    - now apply (csv_term_last s v t). }
  destruct Hsplit as [Hsplit Hlast].
  assert (Hne' : ts <> []) by (destruct vs; [contradiction|discriminate]).
  rewrite (csv_record_join p vs s Hsep). fold ts.
  destruct (join_sep_no_split s 10 ts Hs0 Hs34 Hs10 Hsplit) as [Hns Hq].
  destruct (join_sep_last s ts Hne' Hlast) as [Hrec Hcr].
  unfold local_getline. cbn [negb snd].
  rewrite local_getline_loop_spec; [|lia|cbn; lia|].
  - rewrite (first_line_no_split _ false _ Hns), Hq.
    change (first_line true false ([10] ++ rest)) with (Some (@nil Z, rest)).
    cbv iota. rewrite app_nil_r.
    unfold strip_cr. cbn [app].
    destruct (Z.eqb_spec (List.last (join_sep s ts) 0) 13);
      [contradiction|]. now rewrite andb_false_r.
  - apply Forall_app. split; [eapply no_split_nonzero; eauto|].
    constructor; [discriminate|exact Hrest].
Qed.

Lemma csv_record_read_back_witness :
  snd (local_getline None
         (csv_record csv_session [s2b "a"; s2b "two" ++ [10] ++ s2b "lines"]
          ++ [10] ++ s2b "next,record" ++ [10])
         true (fun _ => true))
  = (Some (s2b "a," ++ [34] ++ s2b "two" ++ [10] ++ s2b "lines" ++ [34]),
     s2b "next,record" ++ [10]).
Proof.
  apply (csv_record_read_back csv_session
           [s2b "a"; s2b "two" ++ [10] ++ s2b "lines"] 44
           (s2b "next,record" ++ [10])).
  - reflexivity.
  - discriminate.
  - discriminate.
  - discriminate.
  - repeat constructor.
  - repeat constructor; discriminate.
Defined.

(* ================================================================== *)
(** ** [.restore] *)

Lemma restore_steps_prefix (pre : list Z) :
  forall (tail : list Z) (nTimeout : Z) (sleeps : nat),
    Forall (fun rc => rc = SQLITE_OK \/ rc = SQLITE_BUSY) pre ->
    nTimeout + Z.of_nat (count_busy pre) <= 3 ->
    restore_steps (pre ++ tail) nTimeout sleeps
    = restore_steps tail (nTimeout + Z.of_nat (count_busy pre))
        (sleeps + count_busy pre).
Proof.
  induction pre as [|rc pre IH]; intros tail n sl Hpre Hn.
  - cbn. now rewrite Z.add_0_r, Nat.add_0_r.
  - inversion Hpre as [|? ? Hrc Hpre']; subst. cbn [app restore_steps].
    unfold count_busy in *. cbn [List.filter] in *.
    destruct Hrc as [->| ->].
    + change (SQLITE_OK =? SQLITE_BUSY) with false in *.
      change (SQLITE_OK =? SQLITE_OK) with true. cbn [orb].
      now apply IH.
    + change (SQLITE_BUSY =? SQLITE_BUSY) with true in *.
      rewrite orb_true_r. cbn [length] in *.
      destruct (Z.leb_spec 3 n); [lia|].
      rewrite IH by (assumption || lia). f_equal; lia.
Qed.

(** X23.  [.restore] asks the engine for steps until an answer is
    neither [SQLITE_OK] nor [SQLITE_BUSY], or until the fourth
    [SQLITE_BUSY] in all: answers [SQLITE_OK] in between do not reset
    the count.  It sleeps once for each busy answer but the fourth, so
    at most three times.  The command returns 0 when the last answer is
    [SQLITE_DONE]; otherwise it returns 1 and reports a busy source for
    [SQLITE_BUSY] and [SQLITE_LOCKED], the engine's message for any
    other answer. *)
Theorem restore_gives_up_at_fourth_busy (e : restore_engine)
    (azArg : list bytes) (nArg : Z) (pre : list Z) (rc : Z) (rest : list Z) :
  re_open e (if nArg =? 2 then nth 1 azArg [] else nth 2 azArg [])
  = SQLITE_OK ->
  re_backup_init e = true ->
  re_steps e = pre ++ rc :: rest ->
  Forall (fun a => a = SQLITE_OK \/ a = SQLITE_BUSY) pre ->
  (count_busy pre <= 3)%nat ->
  rc <> SQLITE_OK ->
  (rc = SQLITE_BUSY -> count_busy pre = 3%nat) ->
  restore_command e azArg nArg
  = Some (if rc =? SQLITE_DONE then (0, [])
          else if (rc =? SQLITE_BUSY) || (rc =? SQLITE_LOCKED)
               then (1, s2b "Error: source database is busy" ++ [10])
               else (1, s2b "Error: " ++ cstr (re_errmsg e) ++ [10]),
          count_busy pre).
Proof.
  intros Hopen Hinit Hsteps Hpre Hcount Hrc Hbusy. unfold restore_command.
  rewrite Hopen, Hinit, Hsteps. change (SQLITE_OK =? SQLITE_OK) with true.
  cbn [negb].
  rewrite restore_steps_prefix by (assumption || lia).
  cbn [restore_steps Z.add Nat.add].
  destruct (Z.eqb_spec rc SQLITE_OK); [contradiction|]. cbn [orb].
  destruct (Z.eqb_spec rc SQLITE_BUSY) as [->|Hnb].
  - rewrite (Hbusy eq_refl). reflexivity.
  - apply Z.eqb_neq in Hnb.
    destruct (rc =? SQLITE_DONE); [reflexivity|]. rewrite Hnb.
    destruct (rc =? SQLITE_LOCKED); reflexivity.
Qed.

Lemma restore_gives_up_at_fourth_busy_witness :
  restore_command
    {| re_open := fun _ => SQLITE_OK; re_backup_init := true;
       re_steps := [SQLITE_BUSY; SQLITE_OK; SQLITE_BUSY; SQLITE_OK;
                    SQLITE_OK; SQLITE_BUSY; SQLITE_OK; SQLITE_BUSY;
                    SQLITE_DONE];
       re_errmsg := [] |}
    [s2b "restore"; s2b "saved.db"] 2
  = Some (1, s2b "Error: source database is busy" ++ [10], 3%nat).
Proof.
  apply (restore_gives_up_at_fourth_busy
           {| re_open := fun _ => SQLITE_OK; re_backup_init := true;
              re_steps := [SQLITE_BUSY; SQLITE_OK; SQLITE_BUSY; SQLITE_OK;
                           SQLITE_OK; SQLITE_BUSY; SQLITE_OK; SQLITE_BUSY;
                           SQLITE_DONE];
              re_errmsg := [] |}
           [s2b "restore"; s2b "saved.db"] 2
           [SQLITE_BUSY; SQLITE_OK; SQLITE_BUSY; SQLITE_OK;
            SQLITE_OK; SQLITE_BUSY; SQLITE_OK]
           SQLITE_BUSY [SQLITE_DONE]).
  - reflexivity.
  - reflexivity.
  - reflexivity.
  - repeat constructor; (now left) || (now right).
  - vm_compute. lia.
  - discriminate.
  - reflexivity.
Defined.

(* ================================================================== *)
(** ** Text scanners: white space and comments *)

Lemma all_whitespace_spaces_app (ws z : bytes) :
  Forall (fun x => IsSpace x = true) ws ->
  _all_whitespace (ws ++ z) = _all_whitespace z.
Proof.
  induction 1 as [|x ws Hx _ IH]; [reflexivity|].
  cbn [app _all_whitespace]. rewrite Hx.
  destruct (Z.eqb_spec x 0) as [->|_]; [discriminate Hx|]. exact IH.
Qed.

Lemma in_line_comment_app (c z : bytes) :
  Forall (fun x => x <> 0 /\ x <> 10) c ->
  in_line_comment (c ++ 10 :: z) = _all_whitespace z.
Proof.
  induction 1 as [|x c [H0 H10] _ IH]; [reflexivity|].
  cbn [app in_line_comment].
  destruct (Z.eqb_spec x 0); [contradiction|].
  destruct (Z.eqb_spec x 10); [contradiction|]. exact IH.
Qed.

Lemma in_line_comment_open (c : bytes) :
  Forall (fun x => x <> 10) c -> in_line_comment c = true.
Proof.
  induction 1 as [|x c H10 _ IH]; [reflexivity|].
  cbn [in_line_comment]. destruct (x =? 0); [reflexivity|].
  destruct (Z.eqb_spec x 10); [contradiction|]. exact IH.
Qed.

Lemma in_block_comment_app (c z : bytes) :
  Forall (fun x => x <> 0) c -> no_comment_end c ->
  in_block_comment (c ++ 42 :: 47 :: z) = _all_whitespace z.
Proof.
  induction 1 as [|x c H0 _ IH]; intros Hend.
  - reflexivity.
  - cbn [no_comment_end] in Hend. destruct Hend as [Hx Hend].
    cbn [app in_block_comment].
    destruct (Z.eqb_spec x 0); [contradiction|].
    assert (Htest : (x =? 42) && (char0 (c ++ 42 :: 47 :: z) =? 47) = false).
    { destruct (Z.eqb_spec x 42) as [->|]; [|reflexivity].
      destruct c as [|y c]; [reflexivity|]. cbn in Hx |- *.
      destruct (Z.eqb_spec y 47); [exfalso; now apply Hx|reflexivity]. }
    rewrite Htest. now apply IH.
Qed.

Lemma in_block_comment_open (c : bytes) :
  no_comment_end c -> in_block_comment c = false.
Proof.
  induction c as [|x c IH]; intros Hend; [reflexivity|].
  cbn [no_comment_end] in Hend. destruct Hend as [Hx Hend].
  cbn [in_block_comment]. destruct (x =? 0); [reflexivity|].
  assert (Htest : (x =? 42) && (char0 c =? 47) = false).
  { destruct (Z.eqb_spec x 42) as [->|]; [|reflexivity].
    destruct (Z.eqb_spec (char0 c) 47); [exfalso; now apply Hx|reflexivity]. }
  rewrite Htest. now apply IH.
Qed.

Lemma all_whitespace_blank (b : blank) (z : bytes) :
  blank_ok b ->
  _all_whitespace (blank_text b ++ z) = _all_whitespace z.
Proof.
  destruct b as [ws|c|c]; cbn [blank_ok blank_text].
  - apply all_whitespace_spaces_app.
  - intros Hc. rewrite <- !app_assoc.
    change (_all_whitespace (s2b "--" ++ c ++ [10] ++ z))
      with (in_line_comment (c ++ 10 :: z)).
    now apply in_line_comment_app.
  - intros [Hc Hend]. rewrite <- !app_assoc.
    change (_all_whitespace (s2b "/*" ++ c ++ s2b "*/" ++ z))
      with (in_block_comment (c ++ 42 :: 47 :: z)).
    now apply in_block_comment_app.
Qed.

(** X24.  [_all_whitespace] passes over white space, comments from two
    dashes to the end of the line and comments between slash-star and
    star-slash, in any number and order: what it answers for a text
    that starts with such pieces is what it answers for the rest.  A
    text of such pieces only is white space; so is one that ends in a
    dash comment without its newline, but one that ends in a
    slash-star comment that is not closed is not. *)
Theorem all_whitespace_passes_blanks (bs : list blank) (z c1 c2 : bytes) :
  Forall blank_ok bs ->
  Forall (fun x => x <> 10) c1 ->
  no_comment_end c2 ->
  let text := concat (map blank_text bs) in
  _all_whitespace (text ++ z) = _all_whitespace z
  /\ _all_whitespace text = true
  /\ _all_whitespace (text ++ s2b "--" ++ c1) = true
  /\ _all_whitespace (text ++ s2b "/*" ++ c2) = false.
Proof.
  intros Hbs Hc1 Hc2 text.
  assert (Hpass : forall t, _all_whitespace (text ++ t) = _all_whitespace t).
  { subst text. intros t. induction Hbs as [|b bs Hb _ IH]; [reflexivity|].
    cbn [map concat]. rewrite <- app_assoc, all_whitespace_blank by exact Hb.
    exact IH. }
  split; [apply Hpass|]. split.
  - rewrite <- (app_nil_r text). now rewrite Hpass.
  - split; rewrite Hpass.
    + change (_all_whitespace (s2b "--" ++ c1)) with (in_line_comment c1).
      now apply in_line_comment_open.
    + change (_all_whitespace (s2b "/*" ++ c2)) with (in_block_comment c2).
      now apply in_block_comment_open.
Qed.

Lemma all_whitespace_passes_blanks_witness :
  let text := s2b "  /* a * b / c **/" ++ [9] ++ s2b "-- note" ++ [10]
              ++ s2b " " in
  _all_whitespace (text ++ s2b "select 1;") = _all_whitespace (s2b "select 1;")
  /\ _all_whitespace text = true
  /\ _all_whitespace (text ++ s2b "--" ++ s2b " last line") = true
  /\ _all_whitespace (text ++ s2b "/*" ++ s2b " open") = false.
Proof.
  apply (all_whitespace_passes_blanks
           [Spaces (s2b "  "); BlockComment (s2b " a * b / c *");
            Spaces [9]; LineComment (s2b " note"); Spaces (s2b " ")]
           (s2b "select 1;") (s2b " last line") (s2b " open")).
  - repeat constructor; cbn; intuition discriminate.
  - repeat constructor; discriminate.
  - cbn. intuition discriminate.
Defined.

(* ================================================================== *)
(** ** [.dump] *)

Section DumpGrows.
Variable e : dump_engine.

Lemma dump_grows_refl st : dump_grows e st st.
Proof.
  split; [exists []; now rewrite app_nil_r|]. split; [lia|reflexivity].
Qed.

Lemma dump_grows_trans st1 st2 st3 :
  dump_grows e st1 st2 -> dump_grows e st2 st3 -> dump_grows e st1 st3.
Proof.
  intros ([t1 H1] & L1 & E1) ([t2 H2] & L2 & E2).
  split; [exists (t1 ++ t2); now rewrite H2, H1, app_assoc|].
  split; [lia|]. intros H. rewrite E2, E1 by exact H. reflexivity.
Qed.

Lemma dump_grows_emit st s : dump_grows e st (ds_emit st s).
Proof.
  split; [exists s; reflexivity|]. split; [cbn; lia|reflexivity].
Qed.

Lemma dump_grows_rows nResult rows :
  forall first st, dump_grows e st (dump_rows nResult rows first st).
Proof.
  induction rows as [|r rows IH]; intros first st; cbn [dump_rows];
    [apply dump_grows_refl|].
  eapply dump_grows_trans; [|apply IH].
  eapply dump_grows_trans; [|apply dump_grows_emit].
  destruct first; [apply dump_grows_emit|apply dump_grows_refl].
Qed.

Lemma dump_grows_call st c : dump_grows e st (ds_call st c).
Proof.
  split; [exists []; cbn; now rewrite app_nil_r|].
  split; [cbn; lia|reflexivity].
Qed.

Lemma dump_grows_table_query st zSelect first :
  dump_grows e st (snd (run_table_dump_query e st zSelect first)).
Proof.
  unfold run_table_dump_query.
  set (s := on_select e (ds_log st) zSelect).
  destruct (negb (sel_prepare_rc s =? SQLITE_OK) || negb (sel_stmt s))
    eqn:Hprep; cbn [snd].
  - split; [eexists; cbn; reflexivity|]. split; [cbn; lia|].
    intros H. destruct (H (ds_log st) zSelect) as (H1 & H2 & _).
    fold s in H1, H2. rewrite H1, H2 in Hprep. discriminate.
  - destruct (negb (sel_finalize_rc s =? SQLITE_OK)) eqn:Hfin; cbn [snd].
    + destruct (dump_grows_rows (sel_nResult s) (sel_rows s) first
                  (ds_call st (CallSelect zSelect))) as ([t Ht] & L & E).
      split; [eexists; cbn; rewrite Ht; cbn; rewrite <- app_assoc;
              reflexivity|].
      split; [cbn in *; lia|].
      intros H. destruct (H (ds_log st) zSelect) as (_ & _ & H3).
      fold s in H3. rewrite H3 in Hfin. discriminate.
    + eapply dump_grows_trans; [apply dump_grows_call|].
      apply dump_grows_rows.
Qed.

Lemma dump_grows_table_rows st zSelect zPrepStmt :
  dump_grows e st (dump_table_rows e st zSelect zPrepStmt).
Proof.
  unfold dump_table_rows.
  pose proof (dump_grows_table_query st zSelect zPrepStmt) as H1.
  destruct (run_table_dump_query e st zSelect zPrepStmt) as [rc st1].
  cbn [snd] in H1. destruct (rc =? SQLITE_CORRUPT); [|exact H1].
  eapply dump_grows_trans; [exact H1|apply dump_grows_table_query].
Qed.

Lemma dump_grows_callback_table zTable zType st zPrepStmt :
  dump_grows e st (snd (dump_callback_table e zTable zType st zPrepStmt)).
Proof.
  unfold dump_callback_table.
  destruct (strcmp_eq zType (s2b "table")); [|apply dump_grows_refl].
  destruct (negb _ || negb _); [apply dump_grows_call|].
  destruct (negb _ || _); [apply dump_grows_call|].
  cbn [snd]. eapply dump_grows_trans; [apply dump_grows_call|].
  apply dump_grows_table_rows.
Qed.

Lemma dump_grows_callback st azArg :
  dump_grows e st (snd (dump_callback e st azArg)).
Proof.
  unfold dump_callback.
  destruct (negb _); [apply dump_grows_refl|].
  destruct (strcmp_eq _ (s2b "sqlite_sequence"));
    [apply dump_grows_callback_table|].
  destruct (strcmp_eq _ (s2b "sqlite_stat1")).
  { eapply dump_grows_trans; [apply dump_grows_emit|
                              apply dump_grows_callback_table]. }
  destruct (strncmp_eq _ (s2b "sqlite_") 7); [apply dump_grows_refl|].
  destruct (strncmp_eq _ (s2b "CREATE VIRTUAL TABLE") 20).
  - cbn [snd]. eapply dump_grows_trans; [|apply dump_grows_emit].
    destruct (writableSchema (ds_p st) =? 0); [|apply dump_grows_refl].
    split; [eexists; reflexivity|]. split; [cbn; lia|reflexivity].
  - eapply dump_grows_trans; [apply dump_grows_emit|
                              apply dump_grows_callback_table].
Qed.

Lemma dump_grows_exec_rows rows final :
  forall st, dump_grows e st (snd (exec_rows e rows final st)).
Proof.
  induction rows as [|r rows IH]; intros st; cbn [exec_rows];
    [apply dump_grows_refl|].
  pose proof (dump_grows_callback st r) as H1.
  destruct (dump_callback e st r) as [stop st1]. cbn [snd] in H1.
  destruct (stop =? 0); [|exact H1].
  eapply dump_grows_trans; [exact H1|apply IH].
Qed.

Lemma dump_grows_exec st zQuery :
  dump_grows e st (snd (sqlite3_exec_dump e st zQuery)).
Proof.
  unfold sqlite3_exec_dump.
  eapply dump_grows_trans; [apply dump_grows_call|].
  apply dump_grows_exec_rows.
Qed.

Lemma dump_grows_schema_query malloc_ok st zQuery :
  dump_grows e st (snd (run_schema_dump_query e malloc_ok st zQuery)).
Proof.
  unfold run_schema_dump_query.
  pose proof (dump_grows_exec st zQuery) as H1.
  destruct (sqlite3_exec_dump e st zQuery) as [[rc zErr] st1].
  cbn [snd] in H1. destruct (rc =? SQLITE_CORRUPT); [|exact H1].
  set (st2 := match zErr with Some _ => _ | None => _ end).
  assert (H2 : dump_grows e st st2).
  { subst st2. eapply dump_grows_trans; [exact H1|].
    eapply dump_grows_trans; [apply dump_grows_emit|].
    destruct zErr; [apply dump_grows_emit|apply dump_grows_refl]. }
  destruct (negb malloc_ok); [exact H2|].
  pose proof (dump_grows_exec st2 (cstr zQuery ++ order_by_rowid_desc)) as H3.
  destruct (sqlite3_exec_dump e st2 _) as [[rc2 zErr2] st3]. cbn [snd] in H3.
  destruct (negb (rc2 =? 0)); cbn [snd].
  - eapply dump_grows_trans; [exact H2|].
    eapply dump_grows_trans; [exact H3|apply dump_grows_emit].
  - eapply dump_grows_trans; [exact H2|exact H3].
Qed.
End DumpGrows.

(** X25.  What [.dump] writes is a script in a frame: the two lines
    [PRAGMA foreign_keys=OFF;] and [BEGIN TRANSACTION;] first, and as
    its last line [COMMIT;] when the error count [nErr] is 0 at the
    end, [ROLLBACK; -- due to errors] otherwise.  Errors are counted in
    the row-dump queries only: when none of these fails the script ends
    in [COMMIT;], whatever the catalog queries answer. *)
Theorem dump_script_frame (e : dump_engine) (malloc_ok : nat -> bool)
    (p : callback_data) (azArg : list bytes) (nArg : Z) :
  let st := dump_command e malloc_ok p azArg nArg in
  (exists body,
     f_text (out (ds_p st))
     = f_text (out p)
       ++ s2b "PRAGMA foreign_keys=OFF;" ++ [10]
       ++ s2b "BEGIN TRANSACTION;" ++ [10]
       ++ body
       ++ (if nErr (ds_p st) =? 0
           then s2b "COMMIT;" ++ [10]
           else s2b "ROLLBACK; -- due to errors" ++ [10]))
  /\ 0 <= nErr (ds_p st)
  /\ (selects_ok e -> nErr (ds_p st) = 0).
Proof.
  cbv zeta. unfold dump_command.
  set (p0 := set_nErr _ 0).
  set (st0 := {| ds_p := p0; ds_log := [] |}).
  set (st1 := if nArg =? 1 then _ else _).
  assert (H1 : dump_grows e st0 st1).
  { subst st1. destruct (nArg =? 1).
    - eapply dump_grows_trans; [apply dump_grows_schema_query|].
      eapply dump_grows_trans; [apply dump_grows_schema_query|].
      apply dump_grows_table_query.
    - induction (Z.to_nat nArg - 1)%nat as [|k IH];
        [apply dump_grows_refl|].
      rewrite for_loop_S. eapply dump_grows_trans; [exact IH|].
      eapply dump_grows_trans; [apply dump_grows_schema_query|].
      apply dump_grows_table_query. }
  set (st2 := if writableSchema (ds_p st1) =? 0 then _ else _).
  assert (H2 : dump_grows e st1 st2).
  { subst st2. destruct (writableSchema (ds_p st1) =? 0);
      [apply dump_grows_refl|].
    split; [eexists; reflexivity|]. split; [cbn; lia|reflexivity]. }
  destruct (dump_grows_trans e _ _ _ H1 H2) as ([t Ht] & L & E).
  cbn [ds_emit ds_p]. 
  change (nErr (emit (ds_p st2) _)) with (nErr (ds_p st2)).
  split; [|split].
  - exists t. cbn [emit set_out out fputs f_text]. rewrite Ht.
    subst st0 p0. cbn. rewrite <- !app_assoc. reflexivity.
  - subst st0 p0. cbn in L. exact L.
  - intros H. rewrite (E H). reflexivity.
Qed.

(* ================================================================== *)
(** ** Session input assembler: command terminators *)

Section ProcessInputTerminator.
Context {W : Type} (env : shell_env W).
Variables in_file stdin_is_interactive : bool.

(** While a statement is held, a command terminator that finds it
    complete is handled as the line [;]. *)
Lemma process_line_terminator (s : pi_state W) (acc t : bytes) :
  zSql s = Some acc -> char0 acc <> 0 -> nSql s <> 0 ->
  _is_command_terminator t = true ->
  env_complete env (cstr acc ++ s2b ";") = true ->
  process_line env in_file stdin_is_interactive (read_line t) s
  = process_line env in_file stdin_is_interactive (read_line (s2b ";")) s.
Proof.
  intros Hz Hc Hn Hterm Hcomplete. unfold process_line.
  cbn [read_line il_text il_interrupt il_malloc_ok andb negb
       zSql nSql errCnt lineno startline world stderr].
  rewrite Hz, Hterm. cbn [_is_complete]. rewrite Hcomplete.
  destruct (Z.eqb_spec (char0 acc) 0); [contradiction|].
  destruct (Z.eqb_spec (nSql s) 0); [contradiction|].
  cbn [andb]. rewrite !andb_false_r.
  change (_is_command_terminator (s2b ";")) with false. cbn [andb].
  reflexivity.
Qed.

(** The lines of a statement that are held: none of them brings a
    semicolon. *)
Lemma process_loop_held (more : list input_line) (pre : list bytes) :
  forall (done : list bytes) (s : pi_state W) (trace : list line_event),
    let texts := done ++ pre in
    Forall (Forall (fun c => c <> 0)) texts ->
    Z.of_nat (length (join_lines texts)) < 1073741824 ->
    Forall (fun t => _is_command_terminator t = false) pre ->
    (forall i, (length done <= i < length texts)%nat ->
               _all_whitespace (join_lines (take (S i) texts)) = false) ->
    Forall (fun t => ~ In 59 t) pre ->
    errCnt s = 0 ->
    nSql s = Z.of_nat (length (join_lines done)) ->
    match done with
    | [] => zSql s = None /\ char0 (hd [] pre) <> 46
    | _ => zSql s = Some (join_lines done) /\ char0 (join_lines done) <> 0
    end ->
    exists s' evs,
      process_loop env in_file stdin_is_interactive
        (map read_line pre ++ more) s trace
      = process_loop env in_file stdin_is_interactive more s' (trace ++ evs)
      /\ map le_action evs = replicate (length pre) Buffered
      /\ errCnt s' = 0 /\ world s' = world s /\ stderr s' = stderr s
      /\ nSql s' = Z.of_nat (length (join_lines texts))
      /\ match texts with
         | [] => zSql s' = None
         | _ => zSql s' = Some (join_lines texts)
                /\ char0 (join_lines texts) <> 0
         end
      /\ startline s' = match done, pre with
                        | [], _ :: _ => lineno s + 1
                        | _, _ => startline s
                        end.
Proof.
  induction pre as [|t pre IH];
    intros done s trace texts Hnz Hlen Hterm Hws Hsemi Herr Hn Hstate.
  - exists s, []. subst texts. rewrite !app_nil_r in *. cbn [map app].
    repeat split; try assumption; try reflexivity.
    + destruct done; [apply Hstate|exact Hstate].
    + now destruct done.
  - cbn [app map process_loop].
    unfold loop_test at 1. rewrite Herr. cbn [Z.eqb orb].
    assert (Htexts : texts = (done ++ [t]) ++ pre).
    { subst texts. now rewrite <- app_assoc. }
    assert (Hbuf : buffer_with (zSql s) t = join_lines (done ++ [t])).
    { destruct done as [|d done].
      - destruct Hstate as [-> _]. reflexivity.
      - destruct Hstate as [-> _]. cbn [buffer_with].
        now rewrite join_lines_snoc. }
    assert (Hnz' : Forall (Forall (fun c => c <> 0)) (done ++ [t])).
    { rewrite Htexts in Hnz. now apply Forall_app in Hnz as [Hnz _]. }
    assert (Ht : Forall (fun c => c <> 0) t).
    { apply Forall_app in Hnz' as [_ Hnz']. now inversion Hnz'. }
    assert (Hws' : _all_whitespace (join_lines (done ++ [t])) = false).
    { specialize (Hws (length done)). rewrite Htexts in Hws.
      replace (S (length done)) with (length (done ++ [t])) in Hws
        by (rewrite length_app; cbn; lia).
      rewrite take_app_length in Hws. apply Hws.
      rewrite !length_app. cbn. lia. }
    assert (Hlen' : Z.of_nat (length (join_lines (done ++ [t])))
                    < 1073741824).
    { pose proof (join_lines_app_length (done ++ [t]) pre) as H.
      rewrite <- Htexts in H. lia. }
    rewrite process_line_statement; rewrite ?Hbuf.
    + inversion Hsemi as [|? ? Hno Hsemi']; subst.
      rewrite (contains_semicolon_not_in t _ Hno). cbn [andb].
      rewrite Hws'.
      set (s1 := {| zSql := Some (join_lines (done ++ [t])) |}).
      set (ev := {| le_action := Buffered |}).
      destruct (IH (done ++ [t]) s1 (trace ++ [ev]))
        as (s' & evs & Hrun & Hacts & He & Hw & Hstderr & Hn' & Hz & Hstart).
      * now rewrite <- Htexts.
      * rewrite <- Htexts. exact Hlen.
      * now inversion Hterm.
      * rewrite <- Htexts. intros i Hi. apply Hws.
        rewrite length_app in Hi. cbn in Hi. lia.
      * exact Hsemi'.
      * exact Herr.
      * reflexivity.
      * assert (Hne : join_lines (done ++ [t]) <> []).
        { intros E. rewrite E in Hws'. discriminate. }
        destruct (done ++ [t]) as [|d0 done0] eqn:Ed.
        { now destruct done. }
        split; [reflexivity|].
        pose proof (join_lines_nonzero _ Hnz') as Hj.
        destruct (join_lines (d0 :: done0)) as [|c z]; [contradiction|].
        now inversion Hj.
      * rewrite <- Htexts in Hn', Hz.
        cbn [world stderr lineno startline s1] in Hw, Hstderr, Hstart.
        exists s', (ev :: evs). rewrite Hrun, <- app_assoc.
        split; [reflexivity|]. cbn [map length replicate].
        rewrite Hacts. split; [reflexivity|].
        split; [exact He|]. split; [exact Hw|]. split; [exact Hstderr|].
        split; [exact Hn'|]. split; [exact Hz|].
        rewrite Hstart.
        destruct done as [|d done]; cbn [app];
          destruct Hstate as [-> _]; now destruct pre.
    + exact Ht.
    + now inversion Hterm.
    + now apply join_lines_nonzero.
    + exact Hlen'.
    + destruct done as [|d done].
      * destruct Hstate as [-> Hdot]. repeat split; [exact Hdot| |exact Hn].
        exact Hws'.
      * destruct Hstate as [-> Hc]. split; [exact Hc|exact Hn].
Qed.
End ProcessInputTerminator.

(** X26.  A command terminator ends a held statement like a
    semicolon: when lines without semicolon are held, the next line is
    one that [_is_command_terminator] accepts, and the engine finds the
    held text with a semicolon complete, the line is replaced by [;],
    and the statement that reaches [shell_exec], once, is the held
    lines and the line [;] joined by newlines (the engine finding that
    text complete as well). *)
Theorem terminator_line_runs_statement {W : Type} (env : shell_env W)
    (in_file stdin_is_interactive : bool) (pre : list bytes) (t : bytes)
    (w : W) :
  let stmt := join_lines pre ++ [10] ++ s2b ";" in
  let r := env_exec env stmt w in
  let failed :=
    negb (fst (fst r) =? 0) || bool_decide (snd (fst r) <> None) in
  let msg := match snd (fst r) with
             | Some m => m
             | None => env_errmsg env (snd r)
             end in
  pre <> [] ->
  Forall (Forall (fun c => c <> 0)) pre ->
  Z.of_nat (length stmt) < 1073741824 ->
  char0 (hd [] pre) <> 46 ->
  Forall (fun t => _is_command_terminator t = false) pre ->
  (forall i, (i < length pre)%nat ->
             _all_whitespace (join_lines (take (S i) pre)) = false) ->
  Forall (fun t => ~ In 59 t) pre ->
  _is_command_terminator t = true ->
  env_complete env (join_lines pre ++ s2b ";") = true ->
  env_complete env stmt = true ->
  exists trace,
    process_input env in_file stdin_is_interactive
      (map read_line (pre ++ [t])) w
    = (if failed then 1 else 0, snd r,
       if failed
       then error_prefix in_file stdin_is_interactive 1 ++ s2b " "
            ++ cstr msg ++ [10]
       else [],
       trace)
    /\ map le_action trace
       = replicate (length pre) Buffered ++ [Executed failed].
Proof.
  intros stmt r failed msg Hne Hnz Hlen Hdot Hterm Hws Hsemi Ht Hc1 Hc2.
  set (s0 := {| zSql := None; nSql := 0; errCnt := 0; lineno := 0;
                startline := 0; world := w; stderr := [] |}).
  assert (Hlen0 : Z.of_nat (length (join_lines pre)) < 1073741824).
  { subst stmt. rewrite !length_app in Hlen. lia. }
  destruct (process_loop_held env in_file stdin_is_interactive
              [read_line t] pre [] s0 [])
    as (s' & evs & Hrun & Hacts & He & Hw & Hstderr & Hn & Hz & Hstart);
    try assumption; try reflexivity.
  { intros i Hi. apply Hws. cbn [app length] in Hi. lia. }
  { split; [reflexivity|exact Hdot]. }
  cbn [app] in Hn, Hz, Hstart.
  assert (Hz' : zSql s' = Some (join_lines pre)
                /\ char0 (join_lines pre) <> 0).
  { destruct pre; [contradiction|exact Hz]. }
  destruct Hz' as [Hzs Hc0].
  assert (Hstart' : startline s' = 1).
  { rewrite Hstart. destruct pre; [contradiction|reflexivity]. }
  assert (Hjnz : Forall (fun c => c <> 0) (join_lines pre))
    by now apply join_lines_nonzero.
  assert (Hnpos : nSql s' <> 0).
  { rewrite Hn. destruct (join_lines pre); [contradiction|cbn; lia]. }
  unfold process_input. fold s0. rewrite map_app. cbn [map].
  rewrite Hrun. cbn [app process_loop].
  unfold loop_test at 1. rewrite He. cbn [Z.eqb orb].
  rewrite (process_line_terminator env in_file stdin_is_interactive s'
             (join_lines pre) t Hzs Hc0 Hnpos Ht)
    by (rewrite (cstr_nonzero _ Hjnz); exact Hc1).
  rewrite process_line_statement; rewrite ?Hzs; cbn [buffer_with].
  - fold stmt. rewrite Hc2.
    change (_contains_semicolon (s2b ";") (Z.of_nat (length (s2b ";"))))
      with true. cbn [andb]. cbv zeta.
    rewrite Hw. cbn [world s0]. fold r. fold failed. fold msg.
    exists (evs ++ [{| le_action := Executed failed;
                      le_errCnt := if failed then errCnt s' + 1 else errCnt s';
                      le_bail := env_bail env (snd r) |}]).
    split.
    + destruct (loop_test _ _ _ _); cbn [zSql errCnt world stderr];
        rewrite He, Hstderr, Hstart'; cbn [stderr s0 app];
        now destruct failed.
    + rewrite map_app, Hacts. reflexivity.
  - repeat constructor. discriminate.
  - reflexivity.
  - fold stmt. subst stmt. apply Forall_app. split; [exact Hjnz|].
    repeat constructor; discriminate.
  - exact Hlen.
  - split; [exact Hc0|exact Hn].
Qed.

Lemma terminator_line_runs_statement_witness :
  exists trace,
    process_input
      {| env_bail := fun w => w;
         env_meta := fun _ w => (1, w);
         env_exec := fun z w =>
           if strcmp_eq z (s2b "select 1" ++ [10] ++ s2b ";")
           then ((SQLITE_OK, None), w)
           else ((SQLITE_ERROR, Some (s2b "other text")), w);
         env_errmsg := fun _ => [];
         env_complete := fun z => bool_decide (last (cstr z) = Some 59) |}
      true false
      (map read_line [s2b "select 1"; s2b " GO -- run it"]) false
    = (0, false, [], trace)
    /\ map le_action trace = [Buffered; Executed false].
Proof.
  apply (terminator_line_runs_statement
           {| env_bail := fun w => w;
              env_meta := fun _ w => (1, w);
              env_exec := fun z w =>
                if strcmp_eq z (s2b "select 1" ++ [10] ++ s2b ";")
                then ((SQLITE_OK, None), w)
                else ((SQLITE_ERROR, Some (s2b "other text")), w);
              env_errmsg := fun _ => [];
              env_complete := fun z => bool_decide (last (cstr z) = Some 59) |}
           true false [s2b "select 1"] (s2b " GO -- run it") false).
  - discriminate.
  - repeat constructor; discriminate.
  - vm_compute. reflexivity.
  - discriminate.
  - repeat constructor.
  - intros [|i] _; reflexivity.
  - repeat constructor; cbn; intuition discriminate.
  - reflexivity.
  - reflexivity.
  - reflexivity.
Defined.

(* ================================================================== *)
(** ** Text scanners: command terminators *)

Lemma all_whitespace_blanks (bs : list blank) (z : bytes) :
  Forall blank_ok bs ->
  _all_whitespace (concat (map blank_text bs) ++ z) = _all_whitespace z.
Proof.
  induction 1 as [|b bs Hb _ IH]; [reflexivity|].
  cbn [map concat]. rewrite <- app_assoc, all_whitespace_blank by exact Hb.
  exact IH.
Qed.

Lemma skip_spaces_app (ws z : bytes) :
  Forall (fun x => IsSpace x = true) ws ->
  IsSpace (char0 z) = false ->
  skip_spaces (ws ++ z) = z.
Proof.
  intros Hws Hz. induction Hws as [|x ws Hx _ IH]; cbn [app skip_spaces].
  - destruct z as [|c z]; [reflexivity|]. cbn in Hz. cbn [skip_spaces].
    now rewrite Hz.
  - now rewrite Hx.
Qed.

(** X27.  [_is_command_terminator] accepts a line that is, after any
    white space, a slash or the letters g and o in either case,
    followed by nothing but white space and comments; the same line
    with one more byte that starts neither white space nor a comment
    is not a terminator. *)
Theorem command_terminator_lines (ws : bytes) (bs : list blank)
    (g o c : Z) :
  Forall (fun x => IsSpace x = true) ws ->
  Forall blank_ok bs ->
  g = 103 \/ g = 71 ->
  o = 111 \/ o = 79 ->
  c <> 0 -> IsSpace c = false -> c <> 47 -> c <> 45 ->
  let rest := concat (map blank_text bs) in
  _is_command_terminator (ws ++ s2b "/" ++ rest) = true
  /\ _is_command_terminator (ws ++ [g; o] ++ rest) = true
  /\ _is_command_terminator (ws ++ [g; o] ++ rest ++ [c]) = false
  /\ _is_command_terminator (ws ++ s2b "/" ++ rest ++ [c]) = false.
Proof.
  intros Hws Hbs Hg Ho Hc0 Hcs Hc47 Hc45 rest.
  assert (Hc : _all_whitespace [c] = false).
  { cbn [_all_whitespace]. destruct (Z.eqb_spec c 0); [contradiction|].
    rewrite Hcs. destruct (Z.eqb_spec c 47); [contradiction|].
    destruct (Z.eqb_spec c 45); [contradiction|]. reflexivity. }
  assert (Hrest : _all_whitespace rest = true).
  { subst rest. rewrite <- (app_nil_r (concat _)).
    now rewrite all_whitespace_blanks. }
  assert (Hrestc : _all_whitespace (rest ++ [c]) = false).
  { subst rest. now rewrite all_whitespace_blanks. }
  unfold _is_command_terminator.
  rewrite !skip_spaces_app by (try assumption; destruct Hg as [-> | ->];
                               reflexivity).
  cbn [app s2b]. change (byte_of_ascii "/") with 47.
  change (47 =? 47) with true. cbn [andb orb].
  rewrite Hrest, Hrestc. cbn [orb].
  assert (Hgo : (ToLower g =? 103) && (ToLower (char0 (o :: rest)) =? 111)
                = true).
  { destruct Hg as [-> | ->], Ho as [-> | ->]; reflexivity. }
  assert (Hgo' : (ToLower g =? 103)
                 && (ToLower (char0 (o :: rest ++ [c])) =? 111) = true).
  { destruct Hg as [-> | ->], Ho as [-> | ->]; reflexivity. }
  rewrite Hgo, Hgo'. cbn [drop andb]. rewrite !drop_0 || idtac.
  rewrite Hrest, Hrestc.
  assert (Hg47 : (g =? 47) = false) by (destruct Hg as [-> | ->]; reflexivity).
  rewrite Hg47. repeat split; reflexivity.
Qed.

Lemma command_terminator_lines_witness :
  let rest := s2b " /* end */ " in
  _is_command_terminator (s2b "  " ++ s2b "/" ++ rest) = true
  /\ _is_command_terminator (s2b "  " ++ s2b "Go" ++ rest) = true
  /\ _is_command_terminator (s2b "  " ++ s2b "Go" ++ rest ++ s2b "x") = false
  /\ _is_command_terminator (s2b "  " ++ s2b "/" ++ rest ++ s2b "x") = false.
Proof.
  apply (command_terminator_lines (s2b "  ")
           [Spaces (s2b " "); BlockComment (s2b " end "); Spaces (s2b " ")]
           71 111 120).
  - repeat constructor.
  - repeat constructor; cbn; intuition discriminate.
  - now right.
  - now left.
  - discriminate.
  - reflexivity.
  - discriminate.
  - discriminate.
Defined.

(* ================================================================== *)
(** ** Output renderer: list mode *)

Lemma join_with_seq (sep last : bytes) (f : nat -> bytes) (n : nat) :
  (0 < n)%nat ->
  concat (map (fun i => f i ++ (if (i <? n - 1)%nat then sep else last))
            (seq 0 n))
  = join_with sep (map f (seq 0 n)) ++ last.
Proof.
  intros Hn. destruct n as [|n]; [lia|]. clear Hn.
  replace (S n - 1)%nat with n by lia.
  assert (H : forall k m,
            concat (map (fun i => f i ++ (if (i <? k + m)%nat then sep else last))
                      (seq k (S m)))
            = join_with sep (map f (seq k (S m))) ++ last).
  { intros k m. revert k. induction m as [|m IH]; intros k.
    - cbn [seq map concat join_with]. rewrite Nat.add_0_r, Nat.ltb_irrefl.
      now rewrite app_nil_r.
    - remember (S m) as m' eqn:Em. cbn [seq map concat].
      destruct (Nat.ltb_spec k (k + m')); [|lia].
      replace (k + m')%nat with (S k + m)%nat by lia.
      rewrite IH. subst m'. cbn [seq map join_with].
      now rewrite <- !app_assoc. }
  apply (H 0%nat n).
Qed.

(** X28.  In the modes list and semi a row of at least one column is
    written as its values with the separator between them, a NULL
    value as the text [nullvalue], and then a newline (in mode semi a
    semicolon and a newline); nothing is quoted or escaped.  Before the
    first row, when headers are on, the column names are written in
    the same way, ended by a newline. *)
Theorem list_mode_row (p : callback_data) (a : row) (azCol : list bytes) :
  let n := length a in
  let sep := cstr (separator p) in
  let names := map (fun i => cstr (nth i azCol [])) (seq 0 n) in
  let values := map (fun i => cstr (value_or_null p a i)) (seq 0 n) in
  (0 < n)%nat ->
  f_text (out (shell_callback_list p (Z.of_nat n) (Some a) azCol))
  = f_text (out p)
    ++ (if (cnt p =? 0) && negb (showHeader p =? 0)
        then join_with sep names ++ [10] else [])
    ++ join_with sep values
    ++ (if mode p =? MODE_Semi then s2b ";" ++ [10] else [10]).
Proof.
  intros n sep names values Hn. unfold shell_callback_list.
  rewrite Nat2Z.id. fold n.
  change (showHeader (set_cnt p (cnt p + 1))) with (showHeader p).
  set (q := set_cnt p (cnt p + 1)).
  set (last := if mode p =? MODE_Semi then s2b ";" ++ [10] else [10]).
  assert (Hrow : forall q0,
            separator q0 = separator p -> mode q0 = mode p ->
            nullvalue q0 = nullvalue p ->
            for_loop n
              (fun i p0 =>
                 let p1 := emit p0 (cstr (value_or_null p0 a i)) in
                 if Z.of_nat i <? Z.of_nat n - 1
                 then emit p1 (cstr (separator p1))
                 else if mode p1 =? MODE_Semi then emit p1 (s2b ";" ++ [10])
                      else emit p1 [10]) q0
            = emit q0 (join_with sep values ++ last)).
  { intros q0 Hs Hm Hnull.
    rewrite (for_loop_ext _ _
               (fun i p0 => emit p0
                  ((fun p0 i =>
                      cstr (value_or_null p0 a i)
                      ++ (if (i <? n - 1)%nat then cstr (separator p0)
                          else if mode p0 =? MODE_Semi
                               then s2b ";" ++ [10] else [10])) p0 i))).
    2:{ intros i x Hi. cbv zeta.
        destruct (Z.ltb_spec (Z.of_nat i) (Z.of_nat n - 1)),
                 (Nat.ltb_spec i (n - 1)); try lia.
        - now rewrite emit_emit.
        - change (mode (emit x (cstr (value_or_null x a i)))) with (mode x).
          destruct (mode x =? MODE_Semi); now rewrite emit_emit. }
    rewrite for_loop_emit by reflexivity. f_equal.
    rewrite Hs, Hm. fold sep. fold last.
    rewrite (map_ext _ (fun i => (fun i => cstr (value_or_null p a i)) i
                                 ++ (if (i <? n - 1)%nat then sep else last))).
    2:{ intros i. unfold value_or_null. now rewrite Hnull. }
    now apply join_with_seq. }
  assert (Hhead :
            for_loop n
              (fun i p0 =>
                 emit p0 (cstr (nth i azCol [])
                          ++ (if Z.of_nat i =? Z.of_nat n - 1 then [10]
                              else cstr (separator p0)))) q
            = emit q (join_with sep names ++ [10])).
  { rewrite (for_loop_ext _ _
               (fun i p0 => emit p0
                  ((fun p0 i =>
                      cstr (nth i azCol [])
                      ++ (if (i <? n - 1)%nat then cstr (separator p0)
                          else [10])) p0 i))).
    2:{ intros i x Hi. cbv beta.
        destruct (Z.eqb_spec (Z.of_nat i) (Z.of_nat n - 1)),
                 (Nat.ltb_spec i (n - 1)); try lia; reflexivity. }
    rewrite for_loop_emit by reflexivity.
    change (separator q) with (separator p). fold sep.
    now rewrite (join_with_seq sep [10] (fun i => cstr (nth i azCol [])) n Hn). }
  destruct ((cnt p =? 0) && negb (showHeader p =? 0)).
  - rewrite Hhead, Hrow by reflexivity. rewrite emit_emit.
    cbn [emit set_out out fputs f_text]. subst q. cbn [set_cnt out].
    now rewrite <- !app_assoc.
  - rewrite Hrow by reflexivity. cbn [emit set_out out fputs f_text app].
    reflexivity.
Qed.

Lemma list_mode_row_witness :
  f_text (out (shell_callback_list (set_showHeader main_init 1) 3
                 (Some [Some (s2b "1"); None; Some (s2b "a|b")])
                 [s2b "id"; s2b "n"; s2b "t"]))
  = s2b "id|n|t" ++ [10] ++ s2b "1||a|b" ++ [10].
Proof.
  apply (list_mode_row (set_showHeader main_init 1)
           [Some (s2b "1"); None; Some (s2b "a|b")]
           [s2b "id"; s2b "n"; s2b "t"]).
  cbn. lia.
Defined.
